(** * eppy.hvacbuilder: loop synthesis, chaining and node renaming

    A shallow embedding of [eppy/hvacbuilder.py].  The IDF document is a
    mutable store of [EpBunch] objects; Python code that mutates it is
    written in a state-and-exception monad whose state survives a raised
    exception, as the Python heap does. *)

From Stdlib Require Import String Ascii List Bool Arith Lia ZArith.
From Stdlib Require Import DecimalString DecimalNat.
Import ListNotations.
Local Open Scope string_scope.
Local Open Scope list_scope.
Local Open Scope nat_scope.

Infix "+++" := String.append (right associativity, at level 60).

(* ===================================================================== *)
(** ** Python strings *)
(* ===================================================================== *)

(** Text is modelled as ASCII; [str.upper], [str.strip] and friends act on
    that range. *)
Module PyStr.

Definition startswith (s pre : string) : bool := String.prefix pre s.

Fixpoint rev (s : string) : string :=
  match s with
  | EmptyString => EmptyString
  | String c s' => rev s' +++ String c EmptyString
  end.

(** [s.endswith(suf)] *)
Definition endswith (s suf : string) : bool := String.prefix (rev suf) (rev s).

(** [s.find(sub)]: index of the first occurrence, [-1] when there is none *)
Definition find (s sub : string) : Z :=
  match String.index 0 sub s with
  | Some i => Z.of_nat i
  | None => (-1)%Z
  end.

(** [s.find(sub) != -1] *)
Definition contains (s sub : string) : bool := negb (find s sub =? -1)%Z.

Definition upper_char (c : ascii) : ascii :=
  let n := nat_of_ascii c in
  if (97 <=? n) && (n <=? 122) then ascii_of_nat (n - 32) else c.

Fixpoint upper (s : string) : string :=
  match s with
  | EmptyString => EmptyString
  | String c s' => String (upper_char c) (upper s')
  end.

Definition is_space (c : ascii) : bool :=
  let n := nat_of_ascii c in
  ((9 <=? n) && (n <=? 13)) || ((28 <=? n) && (n <=? 32)).

Fixpoint all_space (s : string) : bool :=
  match s with
  | EmptyString => true
  | String c s' => is_space c && all_space s'
  end.

(** [s.strip() == ''] *)
Definition blank (s : string) : bool := all_space s.

Fixpoint drop (n : nat) (s : string) : string :=
  match n, s with
  | O, _ => s
  | S k, EmptyString => EmptyString
  | S k, String _ s' => drop k s'
  end.

Fixpoint take (n : nat) (s : string) : string :=
  match n, s with
  | O, _ => EmptyString
  | S k, EmptyString => EmptyString
  | S k, String c s' => String c (take k s')
  end.

(** [s[:i]] with Python's treatment of a negative bound *)
Definition slice_to (s : string) (i : Z) : string :=
  if (i <? 0)%Z then take (Z.to_nat (Z.of_nat (String.length s) + i)) s
  else take (Z.to_nat i) s.

(** [s.replace(old, new)] for a non-empty [old]: occurrences are replaced
    from the left and do not overlap.  [skip] counts the characters of an
    occurrence that has just been replaced. *)
Fixpoint replace_from (old new s : string) (skip : nat) : string :=
  match s with
  | EmptyString => EmptyString
  | String c s' =>
      match skip with
      | S k => replace_from old new s' k
      | O =>
          if String.prefix old s
          then new +++ replace_from old new s' (String.length old - 1)
          else String c (replace_from old new s' 0)
      end
  end.

Definition replace (s old new : string) : string := replace_from old new s 0.

(** ["%s" % (n, )] for a non-negative integer *)
Definition of_nat (n : nat) : string := NilEmpty.string_of_uint (Nat.to_uint n).

End PyStr.

(* ===================================================================== *)
(** ** Field values, objects and the document *)
(* ===================================================================== *)

(** A field holds a plain string or, while a rename is staged, the Python
    list [[old, new]].  Every list this module stores has two elements.
    Numeric field values are written as their decimal text. *)
Inductive value : Type :=
  | VStr (s : string)
  | VPair (old new : value).

Fixpoint value_eqb (a b : value) : bool :=
  match a, b with
  | VStr s, VStr t => String.eqb s t
  | VPair a1 a2, VPair b1 b2 => value_eqb a1 b1 && value_eqb a2 b2
  | _, _ => false
  end.

Definition is_list (v : value) : bool :=
  match v with VPair _ _ => true | VStr _ => false end.

(** The part of a field's IDD entry that this module reads:
    [itsidd['type'][0]] when the key ['type'] is present, and whether the
    entry carries [begin-extensible]. *)
Record fieldidd : Type := mkFieldIdd {
  ftype : option string;
  begin_extensible : bool
}.

(** [EpBunch]: the raw value list [obj] (position 0 is the object's key),
    the attribute names [objls] and the IDD entries [objidd]. *)
Record EpBunch : Type := mkEpBunch {
  obj : list value;
  objls : list string;
  objidd : list fieldidd
}.

(** Python exceptions raised on the paths modelled here.  [InvalidRef] has
    no Python counterpart: it marks a dangling object reference, which
    Python cannot produce. *)
Inductive exn : Type :=
  | WhichLoopError | BadEPFieldError | IndexError | KeyError | NameError
  | TypeError | AttributeError | InvalidRef.

Inductive result (A : Type) : Type :=
  | Ok (a : A)
  | Raise (e : exn).
Arguments Ok {A} a.
Arguments Raise {A} e.

(** What [print] was given. *)
Inductive printed : Type :=
  | PText (s : string)
  | PIdent (key name : value)        (* "%s - %s" % (key, name) *)
  | PNames (l : list string).        (* a list of strings *)

(** The document: [idfobjects] lists, in the order of [idf.model.dtls], each
    key with its objects; [idd_info] gives for each key of the schema the
    object a fresh instance starts from; [stdout] is what has been printed. *)
Record IDF : Type := mkIDF {
  idfobjects : list (string * list EpBunch);
  idd_info : list (string * EpBunch);
  stdout : list printed
}.

(** An object is referred to by its key and its position among the objects
    of that key; objects are never removed, so a reference stays valid. *)
Definition ref : Type := (string * nat)%type.

Definition ref_eqb (a b : ref) : bool :=
  String.eqb (fst a) (fst b) && Nat.eqb (snd a) (snd b).

Fixpoint assoc {A : Type} (k : string) (l : list (string * A)) : option A :=
  match l with
  | [] => None
  | (k', a) :: l' => if String.eqb k k' then Some a else assoc k l'
  end.

Fixpoint assoc_set {A : Type} (k : string) (a : A) (l : list (string * A))
  : list (string * A) :=
  match l with
  | [] => []
  | (k', a') :: l' =>
      if String.eqb k k' then (k', a) :: l' else (k', a') :: assoc_set k a l'
  end.

Fixpoint list_set {A : Type} (i : nat) (a : A) (l : list A) : list A :=
  match l, i with
  | [], _ => []
  | _ :: l', O => a :: l'
  | x :: l', S j => x :: list_set j a l'
  end.

Definition lookup (r : ref) (d : IDF) : option EpBunch :=
  match assoc (fst r) (idfobjects d) with
  | Some os => nth_error os (snd r)
  | None => None
  end.

Definition store (r : ref) (o : EpBunch) (d : IDF) : IDF :=
  match assoc (fst r) (idfobjects d) with
  | Some os =>
      mkIDF (assoc_set (fst r) (list_set (snd r) o os) (idfobjects d))
            (idd_info d) (stdout d)
  | None => d
  end.

(* ===================================================================== *)
(** ** Field access on one object *)
(* ===================================================================== *)

(** [list.index(x)] *)
Fixpoint index_of (x : string) (l : list string) : option nat :=
  match l with
  | [] => None
  | y :: l' =>
      if String.eqb x y then Some 0
      else match index_of x l' with Some i => Some (S i) | None => None end
  end.

(** Modelled from the spec: the record store's [getField] is not under
    src/.  A name absent from the schema raises [BadEPFieldError] (the
    spec's FieldNotFoundError); a declared field beyond the stored values
    reads as the blank string. *)
Definition getitem (o : EpBunch) (name : string) : result value :=
  match index_of name (objls o) with
  | Some i => Ok (nth i (obj o) (VStr ""))
  | None => Raise BadEPFieldError
  end.

(** Pads [l] with blanks up to length [n]. *)
Definition pad (l : list value) (n : nat) : list value :=
  l ++ repeat (VStr "") (n - length l).

(** Modelled from the spec: the record store's [setField] is not under
    src/.  Writing a declared field beyond the stored values first grows
    the value list with blanks. *)
Definition setitem (o : EpBunch) (name : string) (v : value) : result EpBunch :=
  match index_of name (objls o) with
  | Some i => Ok (mkEpBunch (list_set i v (pad (obj o) (S i))) (objls o) (objidd o))
  | None => Raise BadEPFieldError
  end.

(** [idfobject.key] *)
Definition key_of (o : EpBunch) : value := nth 0 (obj o) (VStr "").

(** ["%s" % v]: a plain string is itself; a staged pair prints as a Python
    list (quoting simplified). *)
Fixpoint pystr (v : value) : string :=
  match v with
  | VStr s => s
  | VPair a b => "['" +++ pystr a +++ "', '" +++ pystr b +++ "']"
  end.

(* ===================================================================== *)
(** ** Node resolver *)
(* ===================================================================== *)

(** [getfieldnamesendswith(idfobject, endswith)] *)
Definition getfieldnamesendswith (o : EpBunch) (endswith : string) : list string :=
  filter (fun name => PyStr.endswith name endswith) (objls o).

Definition default_str (x : option string) : string :=
  match x with Some s => s | None => "" end.

(** [getnodefieldname(idfobject, endswith, fluid=None, startswith=None)] *)
Definition getnodefieldname (o : EpBunch) (endswith : string)
    (fluid startswith : option string) : result string :=
  let startswith := default_str startswith in
  let fluid := default_str fluid in
  let nodenames := getfieldnamesendswith o endswith in
  let nodenames := filter (fun name => PyStr.startswith name startswith) nodenames in
  let fnodenames := filter (fun nd => PyStr.contains nd fluid) nodenames in
  let fnodenames := filter (fun name => PyStr.startswith name startswith) fnodenames in
  match fnodenames with
  | [] => match nodenames with
          | [] => Raise IndexError
          | nodename :: _ => Ok nodename
          end
  | nodename :: _ => Ok nodename
  end.

(* ===================================================================== *)
(** ** The state-and-exception monad *)
(* ===================================================================== *)

(** A computation maps the document to its outcome and the document as the
    computation left it; a raised exception does not undo what was written. *)
Definition M (A : Type) : Type := IDF -> result A * IDF.

Definition ret {A : Type} (a : A) : M A := fun d => (Ok a, d).
Definition raise {A : Type} (e : exn) : M A := fun d => (Raise e, d).
Definition lift {A : Type} (r : result A) : M A := fun d => (r, d).

Definition bind {A B : Type} (m : M A) (f : A -> M B) : M B :=
  fun d =>
    match m d with
    | (Ok a, d') => f a d'
    | (Raise e, d') => (Raise e, d')
    end.

Declare Scope monad_scope.
Delimit Scope monad_scope with monad.
Notation "x <- m ;; k" := (bind m (fun x => k))
  (at level 61, m at next level, right associativity) : monad_scope.
Notation "m ;; k" := (bind m (fun _ => k))
  (at level 61, right associativity) : monad_scope.
Local Open Scope monad_scope.

(** [for x in l: body] *)
Fixpoint for_each {A : Type} (l : list A) (body : A -> M unit) : M unit :=
  match l with
  | [] => ret tt
  | x :: l' => body x ;; for_each l' body
  end.

Definition deref (r : ref) : M EpBunch :=
  fun d => match lookup r d with
           | Some o => (Ok o, d)
           | None => (Raise InvalidRef, d)
           end.

(** [idfobject[name]] and [idfobject.name] *)
Definition getattr (r : ref) (name : string) : M value :=
  o <- deref r ;; lift (getitem o name).

(** [idfobject[name] = v] *)
Definition setattr (r : ref) (name : string) (v : value) : M unit :=
  o <- deref r ;;
  o' <- lift (setitem o name v) ;;
  fun d => (Ok tt, store r o' d).

(** [idfobject.obj.append(v)] *)
Definition obj_append (r : ref) (v : value) : M unit :=
  o <- deref r ;;
  fun d => (Ok tt, store r (mkEpBunch (obj o ++ [v]) (objls o) (objidd o)) d).

Definition print (p : printed) : M unit :=
  fun d => (Ok tt, mkIDF (idfobjects d) (idd_info d) (stdout d ++ [p])).

(** A component of a chain: the object and the optional port hint. *)
Definition component : Type := (ref * option string)%type.

Definition resolve (r : ref) (endswith : string) (fluid startswith : option string)
  : M string :=
  o <- deref r ;; lift (getnodefieldname o endswith fluid startswith).

(* ===================================================================== *)
(** ** Component chainer *)
(* ===================================================================== *)

(** [blankfield(fieldvalue)]: a list has no [strip], the [AttributeError]
    is caught and the answer is [False]. *)
Definition blankfield (v : value) : bool :=
  match v with
  | VStr s => PyStr.blank s
  | VPair _ _ => false
  end.

(** [field.split(sep)[0]] *)
Definition split_head (field sep : string) : string :=
  match String.index 0 sep field with
  | Some i => PyStr.take i field
  | None => field
  end.

(** [trimfields(fields, thisnode)], a closure of [initinletoutlet]: it reads
    the enclosing [idfobject] and the enclosing variable [inletfields] as
    bound when it is called. *)
Definition trimfields (idfobject : ref) (inletfields : list string)
    (fields : list string) (thisnode : option string) : M (list string) :=
  if 1 <? length fields then
    match thisnode with
    | Some thisnode =>
        ret (filter (fun field => PyStr.startswith field thisnode) fields)
    | None =>
        print (PText "Where should this loop connect ?") ;;
        k <- getattr idfobject "key" ;;
        n <- getattr idfobject "Name" ;;
        print (PIdent k n) ;;
        print (PNames (map (fun field => split_head field "Inlet_Node_Name")
                           inletfields)) ;;
        raise WhichLoopError
    end
  else ret fields.

Definition init_fields (idfobject : ref) (fields : list string) (force : bool)
  : M unit :=
  for_each fields (fun field =>
    v <- getattr idfobject field ;;
    if blankfield v || force then
      n <- getattr idfobject "Name" ;;
      setattr idfobject field (VStr (pystr n +++ "_" +++ field))
    else ret tt).

(** [initinletoutlet(idf, idfobject, thisnode, force=False)] *)
Definition initinletoutlet (idfobject : ref) (thisnode : option string)
    (force : bool) : M ref :=
  o <- deref idfobject ;;
  let inletfields := getfieldnamesendswith o "Inlet_Node_Name" in
  inletfields <- trimfields idfobject inletfields inletfields thisnode ;;
  init_fields idfobject inletfields force ;;
  o <- deref idfobject ;;
  let outletfields := getfieldnamesendswith o "Outlet_Node_Name" in
  outletfields <- trimfields idfobject inletfields outletfields thisnode ;;
  init_fields idfobject outletfields force ;;
  ret idfobject.

(** [comp[field] = [comp[field], new]] *)
Definition stage (comp : ref) (field : string) (new : value) : M unit :=
  old <- getattr comp field ;;
  setattr comp field (VPair old new).

(** One turn of the loop of [connectcomponents]. *)
Definition connect_pair (fluid : option string) (this next : component) : M unit :=
  let '(thiscomp, thiscompnode) := this in
  let '(nextcomp, nextcompnode) := next in
  initinletoutlet thiscomp thiscompnode false ;;
  initinletoutlet nextcomp nextcompnode false ;;
  thisname <- getattr thiscomp "Name" ;;
  nextname <- getattr nextcomp "Name" ;;
  let betweennodename := pystr thisname +++ "_" +++ pystr nextname +++ "_node" in
  outletnodename <- resolve thiscomp "Outlet_Node_Name" fluid thiscompnode ;;
  stage thiscomp outletnodename (VStr betweennodename) ;;
  inletnodename <- resolve nextcomp "Inlet_Node_Name" fluid None ;;
  stage nextcomp inletnodename (VStr betweennodename).

(** [for i in range(len(components) - 1)] over [components[i]] and
    [components[i + 1]] *)
Fixpoint connect_loop (fluid : option string) (components : list component)
  : M unit :=
  match components with
  | this :: ((next :: _) as rest) =>
      connect_pair fluid this next ;; connect_loop fluid rest
  | _ => ret tt
  end.

(** [connectcomponents(idf, components, fluid=None)] *)
Definition connectcomponents (components : list component)
    (fluid : option string) : M (list component) :=
  let fluid := Some (default_str fluid) in
  match components with
  | [(thiscomp, thiscompnode)] =>
      initinletoutlet thiscomp thiscompnode false ;;
      outletnodename <- resolve thiscomp "Outlet_Node_Name" fluid thiscompnode ;;
      v <- getattr thiscomp outletnodename ;;
      w <- getattr thiscomp outletnodename ;;
      setattr thiscomp outletnodename (VPair v w) ;;
      ret components
  | _ =>
      connect_loop fluid components ;;
      ret components
  end.

(* ===================================================================== *)
(** ** Record store operations used by the branch writer *)
(* ===================================================================== *)

Fixpoint find_index {A : Type} (p : A -> bool) (l : list A) : option nat :=
  match l with
  | [] => None
  | x :: l' =>
      if p x then Some 0
      else match find_index p l' with Some i => Some (S i) | None => None end
  end.

Definition has_name (name : value) (o : EpBunch) : bool :=
  match getitem o "Name" with
  | Ok n => value_eqb n name
  | Raise _ => false
  end.

(** Modelled from the spec: [idf.getobject(key, name)] is not under src/.
    It is the lookup by type and name: the first object of the type whose
    [Name] is [name], or [None]; a key the schema does not have is a
    [KeyError]. *)
Definition getobject (key : string) (name : value) : M (option ref) :=
  fun d =>
    match assoc key (idfobjects d) with
    | None => (Raise KeyError, d)
    | Some os =>
        (Ok (option_map (fun i => (key, i)) (find_index (has_name name) os)), d)
    end.

Definition first_extensible (idds : list fieldidd) : option nat :=
  find_index begin_extensible idds.

(** Modelled from the spec: [idf.removeextensibles(key, name)] is not under
    src/.  It clears the extensible entries of the named object: the value
    list is cut at the first extensible position.  The object is returned,
    [None] when there is none of that name. *)
Definition removeextensibles (key : string) (objname : value) : M (option ref) :=
  theobject <- getobject key objname ;;
  match theobject with
  | None => ret None
  | Some r =>
      o <- deref r ;;
      match first_extensible (objidd o) with
      | None => ret (Some r)
      | Some e =>
          fun d => (Ok (Some r),
                    store r (mkEpBunch (firstn e (obj o)) (objls o) (objidd o)) d)
      end
  end.

(** Modelled from the spec: [idf.getextensibleindex(key, name)] is not under
    src/.  It is the position of the first extensible field of the named
    object, [None] when there is no such object or no such field. *)
Definition getextensibleindex (key : string) (objname : value) : M (option nat) :=
  theobject <- getobject key objname ;;
  match theobject with
  | None => ret None
  | Some r => o <- deref r ;; ret (first_extensible (objidd o))
  end.

(** Modelled from the spec: [modeleditor.extendlist(theobj, e_index)] is not
    under src/.  It grows the value list with blanks so that the extensible
    block starts at [e_index]. *)
Definition extendlist (r : ref) (e_index : nat) : M unit :=
  o <- deref r ;;
  fun d => (Ok tt, store r (mkEpBunch (pad (obj o) e_index) (objls o) (objidd o)) d).

(* ===================================================================== *)
(** ** Branch writer *)
(* ===================================================================== *)

(** The body of the loop of [componentsintobranch]. *)
Definition append_component (thebranch : ref) (fluid : option string)
    (c : component) : M unit :=
  let '(comp, compnode) := c in
  k <- getattr comp "key" ;;
  obj_append thebranch k ;;
  n <- getattr comp "Name" ;;
  obj_append thebranch n ;;
  inletnodename <- resolve comp "Inlet_Node_Name" fluid compnode ;;
  vin <- getattr comp inletnodename ;;
  obj_append thebranch vin ;;
  outletnodename <- resolve comp "Outlet_Node_Name" fluid compnode ;;
  vout <- getattr comp outletnodename ;;
  obj_append thebranch vout ;;
  obj_append thebranch (VStr "").

(** [componentsintobranch(idf, branch, listofcomponents, fluid=None)] *)
Definition componentsintobranch (branch : ref) (listofcomponents : list component)
    (fluid : option string) : M ref :=
  let fluid := Some (default_str fluid) in
  thebranchname <- getattr branch "Name" ;;
  thebranch <- removeextensibles "BRANCH" thebranchname ;;
  e_index <- getextensibleindex "BRANCH" thebranchname ;;
  match thebranch with
  | None => raise AttributeError
  | Some thebranch =>
      match e_index with
      | None => raise TypeError
      | Some e_index =>
          extendlist thebranch e_index ;;
          for_each listofcomponents (append_component thebranch fluid) ;;
          ret thebranch
      end
  end.

(* ===================================================================== *)
(** ** Node identity propagator *)
(* ===================================================================== *)

(** First pass of [renamenodes]: every list value of the document, in scan
    order, kept once. *)
Definition gather (renameds : list value) (fieldvalue : value) : list value :=
  if is_list fieldvalue then
    if existsb (value_eqb fieldvalue) renameds then renameds
    else renameds ++ [fieldvalue]
  else renameds.

Definition all_values (d : IDF) : list value :=
  flat_map (fun entry => flat_map obj (snd entry)) (idfobjects d).

Definition collect_renameds (d : IDF) : list value :=
  fold_left gather (all_values d) [].

(** [dict(renameds)]: a later pair overrides an earlier one with the same
    key; a key that is a list is unhashable. *)
Fixpoint dict (renameds : list value) (acc : list (string * value))
  : result (list (string * value)) :=
  match renameds with
  | [] => Ok acc
  | VPair (VStr k) v :: rest => dict rest ((k, v) :: acc)
  | _ :: _ => Raise TypeError
  end.

(** [tempdct[k]], with [None] for [k not in tempdct].  The dictionary is
    kept with its latest entry first. *)
Definition dict_get (k : string) (tempdct : list (string * value)) : option value :=
  assoc k tempdct.

Definition has_type (fieldtype : string) (itsidd : fieldidd) : bool :=
  match ftype itsidd with
  | Some t => String.eqb t fieldtype
  | None => false
  end.

(** Second pass over the fields of one object: the values, with [objidd]
    walked alongside ([objidd[i]] is an [IndexError] when it is too short).
    The result is the values as the loop left them and the exception that
    stopped it, if any. *)
Fixpoint rename_fields (fieldtype : string) (renameds : list value)
    (vals : list value) (idds : list fieldidd) : list value * option exn :=
  match vals with
  | [] => ([], None)
  | fieldvalue :: vals' =>
      match idds with
      | [] => (vals, Some IndexError)
      | itsidd :: idds' =>
          if has_type fieldtype itsidd then
            match dict renameds [] with
            | Raise e => (vals, Some e)
            | Ok tempdct =>
                let fieldvalue' :=
                  match fieldvalue with
                  | VPair _ new => new
                  | VStr s =>
                      match dict_get s tempdct with
                      | Some new => new
                      | None => fieldvalue
                      end
                  end in
                let '(rest, e) := rename_fields fieldtype renameds vals' idds' in
                (fieldvalue' :: rest, e)
            end
          else
            let '(rest, e) := rename_fields fieldtype renameds vals' idds' in
            (fieldvalue :: rest, e)
      end
  end.

Definition rename_object (fieldtype : string) (renameds : list value)
    (o : EpBunch) : EpBunch * option exn :=
  let '(vals, e) := rename_fields fieldtype renameds (obj o) (objidd o) in
  (mkEpBunch vals (objls o) (objidd o), e).

Fixpoint rename_objects (fieldtype : string) (renameds : list value)
    (os : list EpBunch) : list EpBunch * option exn :=
  match os with
  | [] => ([], None)
  | o :: os' =>
      match rename_object fieldtype renameds o with
      | (o', Some e) => (o' :: os', Some e)
      | (o', None) =>
          let '(rest, e) := rename_objects fieldtype renameds os' in
          (o' :: rest, e)
      end
  end.

Fixpoint rename_keys (fieldtype : string) (renameds : list value)
    (entries : list (string * list EpBunch))
  : list (string * list EpBunch) * option exn :=
  match entries with
  | [] => ([], None)
  | (key, os) :: entries' =>
      match rename_objects fieldtype renameds os with
      | (os', Some e) => ((key, os') :: entries', Some e)
      | (os', None) =>
          let '(rest, e) := rename_keys fieldtype renameds entries' in
          ((key, os') :: rest, e)
      end
  end.

(** [renamenodes(idf, fieldtype)] *)
Definition renamenodes (fieldtype : string) : M unit :=
  fun d =>
    let renameds := collect_renameds d in
    let '(entries, e) := rename_keys fieldtype renameds (idfobjects d) in
    (match e with None => Ok tt | Some e => Raise e end,
     mkIDF entries (idd_info d) (stdout d)).

(* ===================================================================== *)
(** ** Loops and their field tables *)
(* ===================================================================== *)

Inductive looptype : Type := AIRLOOPHVAC | PLANTLOOP | CONDENSERLOOP.

(** [type(self).__name__.upper()] *)
Definition looptype_key (t : looptype) : string :=
  match t with
  | AIRLOOPHVAC => "AIRLOOPHVAC"
  | PLANTLOOP => "PLANTLOOP"
  | CONDENSERLOOP => "CONDENSERLOOP"
  end.

(** The class attribute [loopfields] of each loop class. *)
Definition loopfields (t : looptype) : list string :=
  match t with
  | AIRLOOPHVAC =>
      ["Branch List Name";
       "Connector List Name";
       "Supply Side Inlet Node Name";
       "Demand Side Outlet Node Name";
       "Demand Side Inlet Node Names";
       "Supply Side Outlet Node Names"]
  | PLANTLOOP =>
      ["Plant Side Inlet Node Name";
       "Plant Side Outlet Node Name";
       "Plant Side Branch List Name";
       "Plant Side Connector List Name";
       "Demand Side Inlet Node Name";
       "Demand Side Outlet Node Name";
       "Demand Side Branch List Name";
       "Demand Side Connector List Name"]
  | CONDENSERLOOP =>
      ["Condenser Side Inlet Node Name";
       "Condenser Side Outlet Node Name";
       "Condenser Side Branch List Name";
       "Condenser Side Connector List Name";
       "Demand Side Inlet Node Name";
       "Demand Side Outlet Node Name";
       "Condenser Demand Side Branch List Name";
       "Condenser Demand Side Connector List Name"]
  end.

(** A side of a loop as the builders take it: [[inlet, [names...], outlet]]. *)
Record topology : Type := mkTopology {
  t_inlet : string;
  t_parallel : list string;
  t_outlet : string
}.

(** An instance of a [Loop] class after [__init__]; [newloop] is both
    [self.newloop] and [self.loop]. *)
Record Loop : Type := mkLoop {
  kind : looptype;
  sloop : topology;
  dloop : topology;
  newloop : ref;
  supply_branchlist : ref;
  demand_branchlist : option ref;
  s_branches : list ref;
  d_branches : list string;
  s_connlist : ref;
  d_connlist : option ref
}.

(* ===================================================================== *)
(** ** Branch replacer *)
(* ===================================================================== *)

Definition exn_eqb (a b : exn) : bool :=
  match a, b with
  | WhichLoopError, WhichLoopError | BadEPFieldError, BadEPFieldError
  | IndexError, IndexError | KeyError, KeyError | NameError, NameError
  | TypeError, TypeError | AttributeError, AttributeError
  | InvalidRef, InvalidRef => true
  | _, _ => false
  end.

(** [try: m  except e: h] *)
Definition try_except {A : Type} (m : M A) (e : exn) (h : M A) : M A :=
  fun d =>
    match m d with
    | (Raise e', d') => if exn_eqb e e' then h d' else (Raise e', d')
    | r => r
    end.

Inductive flow (S : Type) : Type :=
  | Next (s : S)       (* go on with the next turn *)
  | Break (s : S).     (* [break] *)
Arguments Next {S} s.
Arguments Break {S} s.

(** [for i in range(lo, lo + n)] with the local variables the body assigns
    carried in [s]. *)
Fixpoint for_range {S : Type} (n lo : nat) (body : nat -> S -> M (flow S)) (s : S)
  : M S :=
  match n with
  | O => ret s
  | Datatypes.S n' =>
      r <- body lo s ;;
      match r with
      | Break s' => ret s'
      | Next s' => for_range n' (Datatypes.S lo) body s'
      end
  end.

(** The number of turns of [range(1, 100000)]. *)
Definition large_range : nat := N.to_nat 99999%N.

Definition strip_blank (v : value) : M bool :=
  match v with
  | VStr s => ret (PyStr.blank s)
  | VPair _ _ => raise AttributeError
  end.

Definition getobject_v (key name : value) : M (option ref) :=
  match key with
  | VStr k => getobject k name
  | VPair _ _ => raise TypeError
  end.

(** [getbranchcomponents(idf, branch)] with [utest=False] *)
Definition getbranchcomponents (branch : ref) : M (list (option ref)) :=
  complist <-
    for_range large_range 1 (fun i complist =>
      try_except
        (objtype <- getattr branch ("Component_" +++ PyStr.of_nat i +++ "_Object_Type") ;;
         b <- strip_blank objtype ;;
         if b then ret (Break complist)
         else
           objname <- getattr branch ("Component_" +++ PyStr.of_nat i +++ "_Name") ;;
           ret (Next (complist ++ [(objtype, objname)])))
        BadEPFieldError
        (ret (Break complist)))
      [] ;;
  (fix getall (l : list (value * value)) : M (list (option ref)) :=
     match l with
     | [] => ret []
     | (ot, on) :: l' =>
         o <- getobject_v ot on ;;
         rest <- getall l' ;;
         ret (o :: rest)
     end) complist.

(** The local variables [cbranchname] and [isfirst] of [replacebranch];
    [None] while they are unbound. *)
Definition scan_vars : Type := option (value * bool).

Definition nth_or_raise {A : Type} (l : list A) (i : nat) : M A :=
  match nth_error l i with
  | Some a => ret a
  | None => raise IndexError
  end.

Definition deref_opt (r : option ref) (e : exn) : M ref :=
  match r with
  | Some r => ret r
  | None => raise e
  end.

Definition upper_v (v : value) : M value :=
  match v with
  | VStr s => ret (VStr (PyStr.upper s))
  | VPair _ _ => raise AttributeError
  end.

(** [comp[fieldname] = [comp[fieldname], loop.loop[flnames[k]]]] for the
    component [comp] of the branch. *)
Definition rebind (comp : option ref) (suffix fluid : string) (theloop : ref)
    (flnames : list string) (k : nat) : M unit :=
  comp <- deref_opt comp AttributeError ;;
  nodename <- resolve comp suffix (Some fluid) None ;;
  old <- getattr comp nodename ;;
  flname <- nth_or_raise flnames k ;;
  new <- getattr theloop flname ;;
  setattr comp nodename (VPair old new).

(** The first statements of a turn of a connector scan of [replacebranch]:
    the connector that slot [i] of the connector list names, [None] when the
    loop is left with [break]. *)
Definition connector_of_turn (conlist : option ref) (i : nat) : M (option ref) :=
  conlist <- deref_opt conlist TypeError ;;
  r <- try_except
         (ctype <- getattr conlist ("Connector_" +++ PyStr.of_nat i +++ "_Object_Type") ;;
          ret (Some ctype))
         BadEPFieldError (ret None) ;;
  match r with
  | None => ret None
  | Some ctype =>
      b <- strip_blank ctype ;;
      if b then ret None
      else
        cname <- getattr conlist ("Connector_" +++ PyStr.of_nat i +++ "_Name") ;;
        ckey <- upper_v ctype ;;
        connector <- getobject_v ckey cname ;;
        connector <- deref_opt connector AttributeError ;;
        ret (Some connector)
  end.

(** The two [if connector.key == ...] statements of a turn: they assign
    [cbranchname] and [isfirst]. *)
Definition note_connector (connector : ref) (vars : scan_vars) : M scan_vars :=
  k <- getattr connector "key" ;;
  vars <- (if value_eqb k (VStr "CONNECTOR:SPLITTER") then
             firstbranchname <- getattr connector "Inlet_Branch_Name" ;;
             ret (Some (firstbranchname, true))
           else ret vars) ;;
  k <- getattr connector "key" ;;
  (if value_eqb k (VStr "CONNECTOR:MIXER") then
     lastbranchname <- getattr connector "Outlet_Branch_Name" ;;
     ret (Some (lastbranchname, false))
   else ret vars).

(** The [if cbranchname == thebranch.Name] statement of a turn; [kin] and
    [kout] are the positions in [flnames] of the side's inlet and outlet
    node fields. *)
Definition rebind_end (theloop thebranch : ref) (fluid : string)
    (flnames : list string) (kin kout : nat) (vars : scan_vars) : M unit :=
  match vars with
  | None => raise NameError
  | Some (cbranchname, isfirst) =>
      name <- getattr thebranch "Name" ;;
      if value_eqb cbranchname name then
        comps <- getbranchcomponents thebranch ;;
        if isfirst then
          comp <- nth_or_raise comps 0 ;;
          rebind comp "Inlet_Node_Name" fluid theloop flnames kin
        else
          comp <- nth_or_raise comps (length comps - 1) ;;
          rebind comp "Outlet_Node_Name" fluid theloop flnames kout
      else ret tt
  end.

(** One turn of a connector scan of [replacebranch]. *)
Definition scan_turn (conlist : option ref) (theloop thebranch : ref)
    (fluid : string) (flnames : list string) (kin kout : nat)
    (i : nat) (vars : scan_vars) : M (flow scan_vars) :=
  connector <- connector_of_turn conlist i ;;
  match connector with
  | None => ret (Break vars)
  | Some connector =>
      vars <- note_connector connector vars ;;
      rebind_end theloop thebranch fluid flnames kin kout vars ;;
      ret (Next vars)
  end.

Definition scan_connectors (conlist : option ref) (theloop thebranch : ref)
    (fluid : string) (flnames : list string) (kin kout : nat) (vars : scan_vars)
  : M scan_vars :=
  for_range large_range 1
    (scan_turn conlist theloop thebranch fluid flnames kin kout) vars.

(** The first steps of [replacebranch]: chain and write, then propagate. *)
Definition chain_write (branch : ref) (listofcomponents : list component)
    (fluid : string) : M unit :=
  connectcomponents listofcomponents (Some fluid) ;;
  componentsintobranch branch listofcomponents (Some fluid) ;;
  ret tt.

Definition chain_write_rename (branch : ref) (listofcomponents : list component)
    (fluid : string) : M unit :=
  chain_write branch listofcomponents fluid ;;
  renamenodes "node".

(** The supply connector list of [replacebranch]: [supplyconlistname] is
    bound under [fluid.upper() == 'WATER'] and under [fluid.upper() == 'AIR']
    only, and reading it unbound is a [NameError]. *)
Definition supplyconlist_of (theloop : ref) (fluid : string) (flnames : list string)
  : M (option ref) :=
  supplyconlistname <-
    (if String.eqb (PyStr.upper fluid) "WATER" then
       f <- nth_or_raise flnames 3 ;; getattr theloop f
     else if String.eqb (PyStr.upper fluid) "AIR" then
       f <- nth_or_raise flnames 1 ;; getattr theloop f
     else raise NameError) ;;
  getobject "CONNECTORLIST" supplyconlistname.

(** [flnames = [field.replace(' ', '_') for field in fields]] *)
Definition flnames_of (fields : list string) : list string :=
  map (fun field => PyStr.replace field " " "_") fields.

(** [replacebranch(idf, loop, branch, listofcomponents, fluid=None)].  A
    bare object in [listofcomponents] is given as the pair of it and [None],
    which is what [_clean_listofcomponents] makes of it. *)
Definition replacebranch (loop : Loop) (branch : ref)
    (listofcomponents : list component) (fluid : option string) : M ref :=
  let fluid := default_str fluid in
  chain_write_rename branch listofcomponents fluid ;;
  let thebranch := branch in
  let fields := loopfields (kind loop) in
  let flnames := flnames_of fields in
  supplyconlist <- supplyconlist_of (newloop loop) fluid flnames ;;
  vars <- scan_connectors supplyconlist (newloop loop) thebranch fluid flnames 0 1 None ;;
  (if String.eqb (PyStr.upper fluid) "WATER" then
     f <- nth_or_raise flnames 7 ;;
     demandconlistname <- getattr (newloop loop) f ;;
     demandconlist <- getobject "CONNECTORLIST" demandconlistname ;;
     scan_connectors demandconlist (newloop loop) thebranch fluid flnames 4 5 vars ;;
     ret tt
   else ret tt) ;;
  renamenodes "node" ;;
  ret thebranch.

(* ===================================================================== *)
(** ** Loop builder *)
(* ===================================================================== *)

(** Modelled from the spec: [idf.newidfobject(key, aname)] is not under
    src/.  It creates an object of the type from the schema's entry, names
    it when a name is given, and appends it to the objects of the type; a
    type the schema does not have is an error. *)
Definition newidfobject (key : string) (aname : value) : M ref :=
  fun d =>
    match assoc key (idd_info d), assoc key (idfobjects d) with
    | Some fresh, Some os =>
        let named :=
          match aname with
          | VStr "" => Ok fresh
          | _ => setitem fresh "Name" aname
          end in
        match named with
        | Ok o =>
            (Ok (key, length os),
             mkIDF (assoc_set key (os ++ [o]) (idfobjects d)) (idd_info d) (stdout d))
        | Raise e => (Raise e, d)
        end
    | _, _ => (Raise KeyError, d)
    end.

(** Modelled from the spec: [eppy.bunchhelpers.sanitizefieldname] is not
    under src/.  On the loop field tables, which hold letters and single
    blanks, it gives the attribute spelling that [replacebranch] derives
    with [field.replace(' ', '_')]. *)
Definition sanitizefieldname (field : string) : string :=
  PyStr.replace field " " "_".

(** [simplify_names(fields)] *)
Definition simplify_names (fields : list string) : list string :=
  let fields := map (fun f => PyStr.replace f "Condenser Side" "Cond_Supply") fields in
  let fields := map (fun f => PyStr.replace f "Plant Side" "Supply") fields in
  let fields := map (fun f => PyStr.replace f "Demand Side" "Demand") fields in
  let fields := map (fun f => PyStr.slice_to f (PyStr.find f "Name" - 1)) fields in
  let fields := map (fun f => PyStr.replace f " Node" "") fields in
  let fields := map (fun f => PyStr.replace f " List" "s") fields in
  fields.

(** [initialise_loop(newloop, fields)] *)
Definition initialise_loop (newloop : ref) (fields : list string) : M unit :=
  let flnames := map sanitizefieldname fields in
  let fields := simplify_names fields in
  name <- getattr newloop "Name" ;;
  let fieldnames := map (fun field => pystr name +++ " " +++ field) fields in
  for_each (combine fieldnames flnames) (fun '(fieldname, thefield) =>
    setattr newloop thefield (VStr fieldname)).

(** [pipecomponent(idf, pname)] *)
Definition pipecomponent (pname : string) : M ref :=
  pipe <- newidfobject (PyStr.upper "Pipe:Adiabatic") (VStr pname) ;;
  setattr pipe "Inlet_Node_Name" (VStr (pname +++ "_inlet")) ;;
  setattr pipe "Outlet_Node_Name" (VStr (pname +++ "_outlet")) ;;
  ret pipe.

(** [pipebranch(idf, branchname)] *)
Definition pipebranch (branchname : string) : M ref :=
  let pname := branchname +++ "_pipe" in
  pipe <- pipecomponent pname ;;
  branch <- newidfobject "BRANCH" (VStr branchname) ;;
  setattr branch "Component_1_Object_Type" (VStr "Pipe:Adiabatic") ;;
  setattr branch "Component_1_Name" (VStr pname) ;;
  vin <- getattr pipe "Inlet_Node_Name" ;;
  setattr branch "Component_1_Inlet_Node_Name" vin ;;
  vout <- getattr pipe "Outlet_Node_Name" ;;
  setattr branch "Component_1_Outlet_Node_Name" vout ;;
  setattr branch "Component_1_Branch_Control_Type" (VStr "Bypass") ;;
  ret branch.

(** [[f(x) for x in l]] for an [f] that acts on the document *)
Fixpoint map_each {A B : Type} (f : A -> M B) (l : list A) : M (list B) :=
  match l with
  | [] => ret []
  | x :: l' => y <- f x ;; ys <- map_each f l' ;; ret (y :: ys)
  end.

(** [flattencopy(lst)] on the three-part shape of a side. *)
Definition flattencopy (lst : topology) : list string :=
  t_inlet lst :: t_parallel lst ++ [t_outlet lst].

(** [Loop.make_supply_branches] *)
Definition make_supply_branches (supply_branchlist : ref) (sloop : topology)
  : M (list ref) :=
  let supply_branchnames := flattencopy sloop in
  for_each supply_branchnames (fun branchname =>
    obj_append supply_branchlist (VStr branchname)) ;;
  map_each pipebranch supply_branchnames.

(** [Loop.make_demand_branches] *)
Definition make_demand_branches (demand_branchlist : ref) (dloop : topology)
  : M (list string) :=
  let demand_branchnames := flattencopy dloop in
  for_each demand_branchnames (fun branchname =>
    obj_append demand_branchlist (VStr branchname)) ;;
  ret demand_branchnames.

(** [x[0]] and [x[-1]] of a list of references *)
Definition first_of {A : Type} (l : list A) : M A := nth_or_raise l 0.
Definition last_of {A : Type} (l : list A) : M A := nth_or_raise l (length l - 1).

(** [rename_endpoints(idf, newloop, demand_branchnames, supply_branches)] *)
Definition rename_endpoints (newloop : ref) (demand_branchnames : list string)
    (supply_branches : list ref) : M unit :=
  k <- getattr newloop "key" ;;
  names <- (if value_eqb k (VStr "CONDENSERLOOP") then
              ret ("Condenser_Side_Inlet_Node_Name", "Condenser_Side_Outlet_Node_Name")
            else if value_eqb k (VStr "PLANTLOOP") then
              ret ("Plant_Side_Inlet_Node_Name", "Plant_Side_Outlet_Node_Name")
            else raise NameError) ;;
  let '(sameinnode, sameoutnode) := names in
  v <- getattr newloop sameinnode ;;
  b <- first_of supply_branches ;;
  setattr b "Component_1_Inlet_Node_Name" v ;;
  v <- getattr newloop sameoutnode ;;
  b <- last_of supply_branches ;;
  setattr b "Component_1_Outlet_Node_Name" v ;;
  b <- first_of supply_branches ;;
  pipe_name <- getattr b "Component_1_Name" ;;
  apipe <- getobject (PyStr.upper "Pipe:Adiabatic") pipe_name ;;
  apipe <- deref_opt apipe AttributeError ;;
  v <- getattr newloop sameinnode ;;
  setattr apipe "Inlet_Node_Name" v ;;
  b <- last_of supply_branches ;;
  pipe_name <- getattr b "Component_1_Name" ;;
  apipe <- getobject (PyStr.upper "Pipe:Adiabatic") pipe_name ;;
  apipe <- deref_opt apipe AttributeError ;;
  v <- getattr newloop sameoutnode ;;
  setattr apipe "Outlet_Node_Name" v ;;
  demand_branches <- map_each pipebranch demand_branchnames ;;
  let sameinnode := "Demand_Side_Inlet_Node_Name" in
  v <- getattr newloop sameinnode ;;
  b <- first_of demand_branches ;;
  setattr b "Component_1_Inlet_Node_Name" v ;;
  let sameoutnode := "Demand_Side_Outlet_Node_Name" in
  v <- getattr newloop sameoutnode ;;
  b <- last_of demand_branches ;;
  setattr b "Component_1_Outlet_Node_Name" v ;;
  b <- first_of demand_branches ;;
  pipe_name <- getattr b "Component_1_Name" ;;
  apipe <- getobject (PyStr.upper "Pipe:Adiabatic") pipe_name ;;
  apipe <- deref_opt apipe AttributeError ;;
  v <- getattr newloop sameinnode ;;
  setattr apipe "Inlet_Node_Name" v ;;
  b <- last_of demand_branches ;;
  pipe_name <- getattr b "Component_1_Name" ;;
  apipe <- getobject (PyStr.upper "Pipe:Adiabatic") pipe_name ;;
  apipe <- deref_opt apipe AttributeError ;;
  v <- getattr newloop sameoutnode ;;
  setattr apipe "Outlet_Node_Name" v.

(** The body shared by the [make_supply_connectorlists] and
    [make_demand_connectorlists] methods: a CONNECTORLIST named by the loop
    field [listfield], holding a splitter and a mixer of the given side. *)
Definition make_connectorlist (newloop : ref) (listfield side : string) : M ref :=
  listname <- getattr newloop listfield ;;
  connlist <- newidfobject "CONNECTORLIST" listname ;;
  setattr connlist "Connector_1_Object_Type" (VStr "Connector:Splitter") ;;
  name <- getattr newloop "Name" ;;
  setattr connlist "Connector_1_Name" (VStr (pystr name +++ "_" +++ side +++ "_splitter")) ;;
  setattr connlist "Connector_2_Object_Type" (VStr "Connector:Mixer") ;;
  name <- getattr newloop "Name" ;;
  setattr connlist "Connector_2_Name" (VStr (pystr name +++ "_" +++ side +++ "_mixer")) ;;
  ret connlist.

(** [x.obj.extend(l)] *)
Definition obj_extend (r : ref) (l : list value) : M unit :=
  o <- deref r ;;
  fun d => (Ok tt, store r (mkEpBunch (obj o ++ l) (objls o) (objidd o)) d).

(** A splitter or mixer of [Loop.make_splitters_and_mixers]. *)
Definition make_connector (key : string) (connlist : ref) (namefield : string)
    (main : string) (peers : list string) : M ref :=
  name <- getattr connlist namefield ;;
  c <- newidfobject key name ;;
  obj_extend c (map VStr (main :: peers)) ;;
  ret c.

(** [Loop.make_splitters_and_mixers] *)
Definition make_splitters_and_mixers (s_connlist d_connlist : ref)
    (sloop dloop : topology) : M unit :=
  make_connector "CONNECTOR:SPLITTER" s_connlist "Connector_1_Name"
    (t_inlet sloop) (t_parallel sloop) ;;
  make_connector "CONNECTOR:MIXER" s_connlist "Connector_2_Name"
    (t_outlet sloop) (t_parallel sloop) ;;
  make_connector "CONNECTOR:SPLITTER" d_connlist "Connector_1_Name"
    (t_inlet dloop) (t_parallel dloop) ;;
  make_connector "CONNECTOR:MIXER" d_connlist "Connector_2_Name"
    (t_outlet dloop) (t_parallel dloop) ;;
  ret tt.

Definition has_field (field : string) (v : value) (o : EpBunch) : bool :=
  match getitem o field with
  | Ok w => value_eqb w v
  | Raise _ => false
  end.

(** Modelled from the spec: [modeleditor.getobjects(..., key, **fields)[0]]
    is not under src/.  It is the first object of the type whose named
    field has the given value; [[0]] of an empty answer is an [IndexError]. *)
Definition first_object_with (key field : string) (v : value) : M ref :=
  fun d =>
    match assoc key (idfobjects d) with
    | None => (Raise KeyError, d)
    | Some os =>
        match find_index (has_field field v) os with
        | Some i => (Ok (key, i), d)
        | None => (Raise IndexError, d)
        end
    end.

(** [make_air_demand_loop(idf, dloop)] *)
Definition make_air_demand_loop (dloop : topology) : M unit :=
  let zones := t_parallel dloop in
  for_each zones (fun zone =>
    equipconn <- newidfobject (PyStr.upper "ZoneHVAC:EquipmentConnections") (VStr "") ;;
    setattr equipconn "Zone_Name" (VStr zone) ;;
    setattr equipconn "Zone_Conditioning_Equipment_List_Name"
      (VStr (zone +++ " equip list")) ;;
    setattr equipconn "Zone_Air_Inlet_Node_or_NodeList_Name"
      (VStr (zone +++ " Inlet Node")) ;;
    setattr equipconn "Zone_Air_Node_Name" (VStr (zone +++ " Node")) ;;
    setattr equipconn "Zone_Return_Air_Node_Name" (VStr (zone +++ " Outlet Node"))) ;;
  for_each zones (fun zone =>
    z_equiplst <- newidfobject (PyStr.upper "ZoneHVAC:EquipmentList") (VStr "") ;;
    z_equipconn <- first_object_with (PyStr.upper "ZoneHVAC:EquipmentConnections")
                     "Zone_Name" (VStr zone) ;;
    v <- getattr z_equipconn "Zone_Conditioning_Equipment_List_Name" ;;
    setattr z_equiplst "Name" v ;;
    setattr z_equiplst "Zone_Equipment_1_Object_Type"
      (VStr "AirTerminal:SingleDuct:Uncontrolled") ;;
    setattr z_equiplst "Zone_Equipment_1_Name" (VStr (zone +++ "DirectAir")) ;;
    setattr z_equiplst "Zone_Equipment_1_Cooling_Sequence" (VStr "1") ;;
    setattr z_equiplst "Zone_Equipment_1_Heating_or_NoLoad_Sequence" (VStr "1")) ;;
  for_each zones (fun zone =>
    z_equipconn <- first_object_with (PyStr.upper "ZoneHVAC:EquipmentConnections")
                     "Zone_Name" (VStr zone) ;;
    z_airterm <- newidfobject (PyStr.upper "AirTerminal:SingleDuct:Uncontrolled")
                   (VStr "") ;;
    setattr z_airterm "Name" (VStr (zone +++ "DirectAir")) ;;
    v <- getattr z_equipconn "Zone_Air_Inlet_Node_or_NodeList_Name" ;;
    setattr z_airterm "Zone_Supply_Air_Node_Name" v ;;
    setattr z_airterm "Maximum_Air_Flow_Rate" (VStr "autosize")).

(** [for i, zone in enumerate(zones)] of
    [make_air_splitters_mixers_and_paths]: the field
    [prefix ++ str(i + 1) ++ "_Node_Name"] of [target] takes the zone's
    [source] field. *)
Fixpoint zone_entries (target : ref) (prefix source : string) (i : nat)
    (zones : list string) : M unit :=
  match zones with
  | [] => ret tt
  | zone :: zones' =>
      z_equipconn <- first_object_with (PyStr.upper "ZoneHVAC:EquipmentConnections")
                       "Zone_Name" (VStr zone) ;;
      let fld := prefix +++ PyStr.of_nat (i + 1) +++ "_Node_Name" in
      v <- getattr z_equipconn source ;;
      setattr target fld v ;;
      zone_entries target prefix source (S i) zones'
  end.

(** [make_air_splitters_mixers_and_paths(idf, loopname, dloop, newloop)].
    The zone splitter and the zone mixer are returned for reference. *)
Definition make_air_splitters_mixers_and_paths (loopname : value)
    (dloop : topology) (newloop : ref) : M (ref * ref) :=
  let zones := t_parallel dloop in
  z_splitter <- newidfobject "AIRLOOPHVAC:ZONESPLITTER" (VStr "") ;;
  setattr z_splitter "Name" (VStr (pystr loopname +++ " Demand Side Splitter")) ;;
  v <- getattr newloop "Demand_Side_Inlet_Node_Names" ;;
  setattr z_splitter "Inlet_Node_Name" v ;;
  zone_entries z_splitter "Outlet_" "Zone_Air_Inlet_Node_or_NodeList_Name" 0 zones ;;
  z_mixer <- newidfobject "AIRLOOPHVAC:ZONEMIXER" (VStr "") ;;
  setattr z_mixer "Name" (VStr (pystr loopname +++ " Demand Side Mixer")) ;;
  v <- getattr newloop "Demand_Side_Outlet_Node_Name" ;;
  setattr z_mixer "Outlet_Node_Name" v ;;
  zone_entries z_mixer "Inlet_" "Zone_Return_Air_Node_Name" 0 zones ;;
  z_supplypth <- newidfobject "AIRLOOPHVAC:SUPPLYPATH" (VStr "") ;;
  setattr z_supplypth "Name" (VStr (pystr loopname +++ "SupplyPath")) ;;
  v <- getattr newloop "Demand_Side_Inlet_Node_Names" ;;
  setattr z_supplypth "Supply_Air_Path_Inlet_Node_Name" v ;;
  setattr z_supplypth "Component_1_Object_Type" (VStr "AirLoopHVAC:ZoneSplitter") ;;
  v <- getattr z_splitter "Name" ;;
  setattr z_supplypth "Component_1_Name" v ;;
  z_returnpth <- newidfobject "AIRLOOPHVAC:RETURNPATH" (VStr "") ;;
  setattr z_returnpth "Name" (VStr (pystr loopname +++ "ReturnPath")) ;;
  v <- getattr newloop "Demand_Side_Outlet_Node_Name" ;;
  setattr z_returnpth "Return_Air_Path_Outlet_Node_Name" v ;;
  setattr z_returnpth "Component_1_Object_Type" (VStr "AirLoopHVAC:ZoneMixer") ;;
  v <- getattr z_mixer "Name" ;;
  setattr z_returnpth "Component_1_Name" v ;;
  ret (z_splitter, z_mixer).

(** The loop fields that name the branch lists and the connector lists of a
    plant or condenser loop, as its [set_branchlists] and
    [make_*_connectorlists] methods spell them. *)
Definition supply_branchlist_field (t : looptype) : string :=
  match t with
  | CONDENSERLOOP => "Condenser_Side_Branch_List_Name"
  | PLANTLOOP => "Plant_Side_Branch_List_Name"
  | AIRLOOPHVAC => "Branch_List_Name"
  end.

Definition demand_branchlist_field (t : looptype) : string :=
  match t with
  | CONDENSERLOOP => "Condenser_Demand_Side_Branch_List_Name"
  | _ => "Demand_Side_Branch_List_Name"
  end.

Definition supply_connlist_field (t : looptype) : string :=
  match t with
  | CONDENSERLOOP => "Condenser_Side_Connector_List_Name"
  | PLANTLOOP => "Plant_Side_Connector_List_Name"
  | AIRLOOPHVAC => "Connector_List_Name"
  end.

Definition demand_connlist_field (t : looptype) : string :=
  match t with
  | CONDENSERLOOP => "Condenser_Demand_Side_Connector_List_Name"
  | _ => "Demand_Side_Connector_List_Name"
  end.

(** [Loop.__init__] and [makeloop] of [PlantLoop] and [CondenserLoop]. *)
Definition make_liquid_loop (t : looptype) (loopname : string)
    (sloop dloop : topology) : M Loop :=
  newloop <- newidfobject (looptype_key t) (VStr loopname) ;;
  initialise_loop newloop (loopfields t) ;;
  n <- getattr newloop (supply_branchlist_field t) ;;
  supply_branchlist <- newidfobject "BRANCHLIST" n ;;
  n <- getattr newloop (demand_branchlist_field t) ;;
  demand_branchlist <- newidfobject "BRANCHLIST" n ;;
  s_branches <- make_supply_branches supply_branchlist sloop ;;
  d_branches <- make_demand_branches demand_branchlist dloop ;;
  rename_endpoints newloop d_branches s_branches ;;
  s_connlist <- make_connectorlist newloop (supply_connlist_field t) "supply" ;;
  d_connlist <- make_connectorlist newloop (demand_connlist_field t) "demand" ;;
  make_splitters_and_mixers s_connlist d_connlist sloop dloop ;;
  ret (mkLoop t sloop dloop newloop supply_branchlist (Some demand_branchlist)
              s_branches d_branches s_connlist (Some d_connlist)).

(** [Loop.__init__] and [makeloop] of [AirLoopHVAC].  The zone splitter and
    the zone mixer it creates are returned with the loop. *)
Definition make_air_loop (loopname : string) (sloop dloop : topology)
  : M (Loop * (ref * ref)) :=
  let t := AIRLOOPHVAC in
  newloop <- newidfobject (looptype_key t) (VStr loopname) ;;
  initialise_loop newloop (loopfields t) ;;
  n <- getattr newloop "Branch_List_Name" ;;
  supply_branchlist <- newidfobject "BRANCHLIST" n ;;
  s_branches <- make_supply_branches supply_branchlist sloop ;;
  make_air_demand_loop dloop ;;
  let d_branches := [] in
  s_connlist <- make_connectorlist newloop "Connector_List_Name" "supply" ;;
  name <- getattr newloop "Name" ;;
  zsm <- make_air_splitters_mixers_and_paths name dloop newloop ;;
  ret (mkLoop t sloop dloop newloop supply_branchlist None
              s_branches d_branches s_connlist None, zsm).

(** [makeplantloop], [makecondenserloop] and [makeairloop] *)
Definition makeplantloop (loopname : string) (sloop dloop : topology) : M Loop :=
  make_liquid_loop PLANTLOOP loopname sloop dloop.

Definition makecondenserloop (loopname : string) (sloop dloop : topology) : M Loop :=
  make_liquid_loop CONDENSERLOOP loopname sloop dloop.

Definition makeairloop (loopname : string) (sloop dloop : topology) : M Loop :=
  r <- make_air_loop loopname sloop dloop ;; ret (fst r).

(** [getmakeidfobject(idf, key, name)] *)
Definition getmakeidfobject (key : string) (name : string) : M ref :=
  idfobject <- getobject key (VStr name) ;;
  match idfobject with
  | None => newidfobject key (VStr name)
  | Some r => ret r
  end.

(** [replacebranch1(idf, loop, branchname, listofcomponents_tuples,
    fluid=None)]; a tuple shorter than three is given padded with [None],
    as [_clean_listofcomponents_tuples] pads it. *)
Definition replacebranch1 (loop : Loop) (branchname : string)
    (listofcomponents_tuples : list (string * string * option string))
    (fluid : option string) : M ref :=
  let fluid := default_str fluid in
  branch <- getobject "BRANCH" (VStr branchname) ;;
  listofcomponents <-
    map_each (fun '(comp_type, comp_name, compnode) =>
                comp <- getmakeidfobject (PyStr.upper comp_type) comp_name ;;
                ret (comp, compnode))
             listofcomponents_tuples ;;
  match branch with
  | Some branch => replacebranch loop branch listofcomponents (Some fluid)
  | None =>
      (* [branch] is [None]: the chainer runs, then [branch.Name] fails *)
      connectcomponents listofcomponents (Some fluid) ;;
      raise AttributeError
  end.

(* ===================================================================== *)
(** ** A small schema and documents on it *)
(* ===================================================================== *)

(** An excerpt of the EnergyPlus schema with the object types the builders
    create, used to run the functions on concrete documents. *)
Module Sample.

Definition plain : fieldidd := mkFieldIdd None false.
Definition alpha : fieldidd := mkFieldIdd (Some "alpha") false.
Definition node : fieldidd := mkFieldIdd (Some "node") false.
Definition olist : fieldidd := mkFieldIdd (Some "object-list") false.
Definition first_ext : fieldidd := mkFieldIdd (Some "alpha") true.

(** The object a fresh instance of [key] starts from: the key alone, as
    trailing blanks are not stored. *)
Definition schema (key : string) (fields : list (string * fieldidd)) : string * EpBunch :=
  (key, mkEpBunch [VStr key] ("key" :: map fst fields) (plain :: map snd fields)).

Definition branch_component (i : string) (first : bool) : list (string * fieldidd) :=
  [("Component_" +++ i +++ "_Object_Type", if first then first_ext else alpha);
   ("Component_" +++ i +++ "_Name", olist);
   ("Component_" +++ i +++ "_Inlet_Node_Name", node);
   ("Component_" +++ i +++ "_Outlet_Node_Name", node);
   ("Component_" +++ i +++ "_Branch_Control_Type", alpha)].

Definition idd : list (string * EpBunch) :=
  [ schema "PLANTLOOP"
      [("Name", alpha);
       ("Plant_Side_Inlet_Node_Name", node);
       ("Plant_Side_Outlet_Node_Name", node);
       ("Plant_Side_Branch_List_Name", olist);
       ("Plant_Side_Connector_List_Name", olist);
       ("Demand_Side_Inlet_Node_Name", node);
       ("Demand_Side_Outlet_Node_Name", node);
       ("Demand_Side_Branch_List_Name", olist);
       ("Demand_Side_Connector_List_Name", olist)];
    schema "CONDENSERLOOP"
      [("Name", alpha);
       ("Condenser_Side_Inlet_Node_Name", node);
       ("Condenser_Side_Outlet_Node_Name", node);
       ("Condenser_Side_Branch_List_Name", olist);
       ("Condenser_Side_Connector_List_Name", olist);
       ("Demand_Side_Inlet_Node_Name", node);
       ("Demand_Side_Outlet_Node_Name", node);
       ("Condenser_Demand_Side_Branch_List_Name", olist);
       ("Condenser_Demand_Side_Connector_List_Name", olist)];
    schema "AIRLOOPHVAC"
      [("Name", alpha);
       ("Branch_List_Name", olist);
       ("Connector_List_Name", olist);
       ("Supply_Side_Inlet_Node_Name", node);
       ("Demand_Side_Outlet_Node_Name", node);
       ("Demand_Side_Inlet_Node_Names", node);
       ("Supply_Side_Outlet_Node_Names", node)];
    schema "BRANCHLIST"
      [("Name", alpha); ("Branch_1_Name", olist); ("Branch_2_Name", olist);
       ("Branch_3_Name", olist); ("Branch_4_Name", olist)];
    schema "BRANCH"
      ([("Name", alpha); ("Maximum_Flow_Rate", plain);
        ("Pressure_Drop_Curve_Name", olist)]
       ++ branch_component "1" true ++ branch_component "2" false
       ++ branch_component "3" false);
    schema "CONNECTORLIST"
      [("Name", alpha);
       ("Connector_1_Object_Type", alpha); ("Connector_1_Name", olist);
       ("Connector_2_Object_Type", alpha); ("Connector_2_Name", olist)];
    schema "CONNECTOR:SPLITTER"
      [("Name", alpha); ("Inlet_Branch_Name", olist);
       ("Outlet_Branch_1_Name", olist); ("Outlet_Branch_2_Name", olist)];
    schema "CONNECTOR:MIXER"
      [("Name", alpha); ("Outlet_Branch_Name", olist);
       ("Inlet_Branch_1_Name", olist); ("Inlet_Branch_2_Name", olist)];
    schema "PIPE:ADIABATIC"
      [("Name", alpha); ("Inlet_Node_Name", node); ("Outlet_Node_Name", node)];
    schema "CHILLER:ELECTRIC"
      [("Name", alpha);
       ("Chilled_Water_Inlet_Node_Name", node);
       ("Chilled_Water_Outlet_Node_Name", node);
       ("Condenser_Inlet_Node_Name", node);
       ("Condenser_Outlet_Node_Name", node)];
    schema "ZONEHVAC:EQUIPMENTCONNECTIONS"
      [("Zone_Name", olist);
       ("Zone_Conditioning_Equipment_List_Name", olist);
       ("Zone_Air_Inlet_Node_or_NodeList_Name", node);
       ("Zone_Air_Exhaust_Node_or_NodeList_Name", node);
       ("Zone_Air_Node_Name", node);
       ("Zone_Return_Air_Node_Name", node)];
    schema "ZONEHVAC:EQUIPMENTLIST"
      [("Name", alpha);
       ("Zone_Equipment_1_Object_Type", alpha);
       ("Zone_Equipment_1_Name", olist);
       ("Zone_Equipment_1_Cooling_Sequence", plain);
       ("Zone_Equipment_1_Heating_or_NoLoad_Sequence", plain)];
    schema "AIRTERMINAL:SINGLEDUCT:UNCONTROLLED"
      [("Name", alpha); ("Availability_Schedule_Name", olist);
       ("Zone_Supply_Air_Node_Name", node); ("Maximum_Air_Flow_Rate", plain)];
    schema "AIRLOOPHVAC:ZONESPLITTER"
      [("Name", alpha); ("Inlet_Node_Name", node);
       ("Outlet_1_Node_Name", node); ("Outlet_2_Node_Name", node);
       ("Outlet_3_Node_Name", node)];
    schema "AIRLOOPHVAC:ZONEMIXER"
      [("Name", alpha); ("Outlet_Node_Name", node);
       ("Inlet_1_Node_Name", node); ("Inlet_2_Node_Name", node);
       ("Inlet_3_Node_Name", node)];
    schema "AIRLOOPHVAC:SUPPLYPATH"
      [("Name", alpha); ("Supply_Air_Path_Inlet_Node_Name", node);
       ("Component_1_Object_Type", alpha); ("Component_1_Name", olist)];
    schema "AIRLOOPHVAC:RETURNPATH"
      [("Name", alpha); ("Return_Air_Path_Outlet_Node_Name", node);
       ("Component_1_Object_Type", alpha); ("Component_1_Name", olist)] ].

(** The document with no objects. *)
Definition empty : IDF :=
  mkIDF (map (fun entry => (fst entry, [])) idd) idd [].

(** Runs [m] on [d] and gives the document it leaves. *)
Definition after {A : Type} (m : M A) (d : IDF) : IDF := snd (m d).

Definition supply : topology := mkTopology "sb0" ["sb1"; "sb2"] "sb4".
Definition demand : topology := mkTopology "db0" ["db1"; "db2"] "db4".

(** A plant loop [p_loop] built on the empty document. *)
Definition plant_run : result Loop * IDF := makeplantloop "p_loop" supply demand empty.
Definition plant_doc : IDF := snd plant_run.

End Sample.

(* ===================================================================== *)
(** ** The node resolver as the specification words it *)
(* ===================================================================== *)

(** The specification's fluid hint handling: "Steam" is treated as "Water". *)
Definition steam_as_water (hint : string) : string :=
  if String.eqb hint "Steam" then "Water" else hint.

(** A candidate ends with the role suffix and starts with the port hint. *)
Definition is_candidate (roleSuffix : string) (portHint : option string)
    (name : string) : bool :=
  PyStr.endswith name roleSuffix && PyStr.startswith name (default_str portHint).

(** [resolvePort] in the specification's words: the first candidate, in
    the declared field order, that contains the fluid hint as [treat]
    reads it; the first candidate when none does or no hint is given. *)
Definition resolvePort (treat : string -> string) (o : EpBunch)
    (roleSuffix : string) (fluidHint portHint : option string) : option string :=
  let candidate := is_candidate roleSuffix portHint in
  let matching :=
    match fluidHint with
    | Some hint =>
        find (fun name => candidate name && PyStr.contains name (treat hint)) (objls o)
    | None => None
    end in
  match matching with
  | Some name => Some name
  | None => find candidate (objls o)
  end.

(* ===================================================================== *)
(** ** Notions used in the statements *)
(* ===================================================================== *)

(** What [idfobject[name]] reads in document [d]. *)
Definition read (d : IDF) (r : ref) (name : string) : result value :=
  match lookup r d with
  | Some o => getitem o name
  | None => Raise InvalidRef
  end.

(** Whether the schema gives field [i] of [o] the type [fieldtype]. *)
Definition field_has_type (fieldtype : string) (o : EpBunch) (i : nat) : bool :=
  match nth_error (objidd o) i with
  | Some itsidd => has_type fieldtype itsidd
  | None => false
  end.

(** A value as the data model has it: a plain string, or a staged pair of
    plain strings. *)
Definition flat (v : value) : bool :=
  match v with
  | VStr _ => true
  | VPair (VStr _) (VStr _) => true
  | _ => false
  end.

(** A document whose values are all [flat] and whose objects have an IDD
    entry for each stored value. *)
Definition wf_object (o : EpBunch) : bool :=
  forallb flat (obj o) && (length (obj o) <=? length (objidd o)).

Definition wf_doc (d : IDF) : bool :=
  forallb (fun entry => forallb wf_object (snd entry)) (idfobjects d).

(** [s] is the old identifier of a staged rename to [new] in [d]. *)
Definition staged (d : IDF) (s : string) (new : value) : Prop :=
  In (VPair (VStr s) new) (all_values d).

(** An object with an air and a water inlet, air declared first. *)
Definition two_fluid_coil : EpBunch :=
  mkEpBunch [VStr "COIL"; VStr "c1"]
            ["key"; "Name"; "Air_Inlet_Node_Name"; "Water_Inlet_Node_Name"]
            [Sample.plain; Sample.alpha; Sample.node; Sample.node].

(** A document holding one electric chiller of the sample schema, which has
    two inlet and two outlet node fields. *)
Definition chiller_doc : IDF :=
  Sample.after (newidfobject "CHILLER:ELECTRIC" (VStr "ch1")) Sample.empty.

(** What the second pass makes of the value of a field of the given type. *)
Definition renamed (tempdct : list (string * value)) (v : value) : value :=
  match v with
  | VPair _ new => new
  | VStr s => match dict_get s tempdct with Some new => new | None => v end
  end.

(** A document with renames staged in it: a pipe named [n1] whose inlet is
    staged from [n1] to [n2] and whose outlet is [n1]; a branch list whose
    name, not a node field, holds a pair staged from [n1] to [n3]. *)
Definition staged_pipe : EpBunch :=
  mkEpBunch [VStr "PIPE:ADIABATIC"; VStr "n1"; VPair (VStr "n1") (VStr "n2"); VStr "n1"]
            ["key"; "Name"; "Inlet_Node_Name"; "Outlet_Node_Name"]
            [Sample.plain; Sample.alpha; Sample.node; Sample.node].

Definition staged_branchlist : EpBunch :=
  mkEpBunch [VStr "BRANCHLIST"; VPair (VStr "n1") (VStr "n3")]
            ["key"; "Name"; "Branch_1_Name"]
            [Sample.plain; Sample.alpha; Sample.olist].

Definition staged_doc : IDF :=
  mkIDF [("PIPE:ADIABATIC", [staged_pipe]); ("BRANCHLIST", [staged_branchlist])] [] [].

(** [idf.idfobjects[key]] *)
Definition objects_of (key : string) (d : IDF) : list EpBunch :=
  match assoc key (idfobjects d) with
  | Some os => os
  | None => []
  end.

(** The schema of [o] declares [Name] before its extensible block. *)
Definition name_before_extensible (o : EpBunch) : bool :=
  match index_of "Name" (objls o), first_extensible (objidd o) with
  | Some j, Some e => j <? e
  | _, _ => true
  end.

(** The five values a component contributes to a branch, read in [d]: its
    key, its name, the values of its resolved inlet and outlet fields, and
    a blank. *)
Definition component_entry (d : IDF) (fluid : option string) (c : component)
  : option (list value) :=
  match lookup (fst c) d with
  | None => None
  | Some o =>
      match getitem o "key", getitem o "Name",
            getnodefieldname o "Inlet_Node_Name" fluid (snd c),
            getnodefieldname o "Outlet_Node_Name" fluid (snd c) with
      | Ok k, Ok n, Ok fi, Ok fo =>
          match getitem o fi, getitem o fo with
          | Ok vi, Ok vo => Some [k; n; vi; vo; VStr ""]
          | _, _ => None
          end
      | _, _, _, _ => None
      end
  end.

(** The plant loop of the sample with two fresh pipes [np1] and [np2] next
    to it, and the same after the pipes have been chained. *)
Definition np1 : ref := ("PIPE:ADIABATIC", 8).
Definition np2 : ref := ("PIPE:ADIABATIC", 9).

Definition pipes_doc : IDF :=
  Sample.after (newidfobject "PIPE:ADIABATIC" (VStr "np1") ;;
                newidfobject "PIPE:ADIABATIC" (VStr "np2")) Sample.plant_doc.

Definition chained_doc : IDF :=
  Sample.after (connectcomponents [(np1, None); (np2, None)] None) pipes_doc.

(** The references of a list are pairwise distinct. *)
Fixpoint distinct (l : list ref) : bool :=
  match l with
  | [] => true
  | r :: l' => negb (existsb (ref_eqb r) l') && distinct l'
  end.

Definition same_field (a b : result string) : bool :=
  match a, b with
  | Ok x, Ok y => String.eqb x y
  | Raise _, Raise _ => true
  | _, _ => false
  end.

(** The inlet field of the component [c] resolves to the same field with
    its port hint as with the fluid hint alone. *)
Definition inlet_hint_neutral (d : IDF) (fluid : option string) (c : component) : bool :=
  match lookup (fst c) d with
  | Some o =>
      same_field (getnodefieldname o "Inlet_Node_Name" fluid (snd c))
                 (getnodefieldname o "Inlet_Node_Name" fluid None)
  | None => true
  end.

(** The [Loop] instance that [makeplantloop] returned for the sample. *)
Definition plant_loop : Loop :=
  mkLoop PLANTLOOP Sample.supply Sample.demand ("PLANTLOOP", 0)
         ("BRANCHLIST", 0) (Some ("BRANCHLIST", 1))
         [("BRANCH", 0); ("BRANCH", 1); ("BRANCH", 2); ("BRANCH", 3)]
         ["db0"; "db1"; "db2"; "db4"]
         ("CONNECTORLIST", 0) (Some ("CONNECTORLIST", 1)).

(** A computation that does not write the document. *)
Definition readonly {A : Type} (m : M A) : Prop := forall d, snd (m d) = d.

Definition result_is (r : result value) (v : value) : bool :=
  match r with
  | Ok w => value_eqb w v
  | Raise _ => false
  end.

(** [o] is a splitter whose inlet branch is [name], or a mixer whose outlet
    branch is [name]. *)
Definition names_branch (name : value) (o : EpBunch) : bool :=
  (result_is (getitem o "key") (VStr "CONNECTOR:SPLITTER")
   && result_is (getitem o "Inlet_Branch_Name") name)
  || (result_is (getitem o "key") (VStr "CONNECTOR:MIXER")
      && result_is (getitem o "Outlet_Branch_Name") name).

(** No splitter of [d] has the branch as its inlet branch and no mixer has
    it as its outlet branch. *)
Definition non_boundary (d : IDF) (branch : ref) : bool :=
  match read d branch "Name" with
  | Ok name =>
      forallb (fun entry => forallb (fun o => negb (names_branch name o)) (snd entry))
              (idfobjects d)
  | Raise _ => true
  end.

(** No rename staged in [d] takes the identifier [v] to another one. *)
Definition unrenamed (v : string) (d : IDF) : bool :=
  forallb (fun w => match w with
                    | VPair (VStr s) new => negb (String.eqb s v) || value_eqb new (VStr v)
                    | _ => true
                    end)
          (all_values d).

(** [m] takes every document to one related to it by [R], whatever its
    outcome. *)
Definition keeps {A : Type} (R : IDF -> IDF -> Prop) (m : M A) : Prop :=
  forall d, R d (snd (m d)).

Definition preorder (R : IDF -> IDF -> Prop) : Prop :=
  (forall d, R d d) /\ (forall a b c, R a b -> R b c -> R a c).

(** The object at [r] is the same in both documents. *)
Definition same_at (r : ref) (d d' : IDF) : Prop := lookup r d' = lookup r d.

(** [cbranchname], when bound, is not the name of the branch. *)
Definition off_branch (d : IDF) (branch : ref) (vars : scan_vars) : Prop :=
  forall cb isfirst, vars = Some (cb, isfirst) -> read d branch "Name" <> Ok cb.

(** A list element that [dict] accepts: a pair with a plain key. *)
Definition keyed (v : value) : Prop := exists s n, v = VPair (VStr s) n.

(** One object's pass when it completes. *)
Definition renamed_object (ft : string) (tempdct : list (string * value))
    (o : EpBunch) : EpBunch :=
  mkEpBunch
    (map (fun p => if has_type ft (snd p) then renamed tempdct (fst p) else fst p)
         (combine (obj o) (objidd o)))
    (objls o) (objidd o).

(** What a block of five appended values is for its component. *)
Definition block_of (d : IDF) (fluid : option string) (b : ref)
    (c : component) (blk : list value) : Prop :=
  length blk = 5
  /\ nth_error blk 4 = Some (VStr "")
  /\ (fst c <> b -> component_entry d fluid c = Some blk).

(** A field name that is neither an inlet nor an outlet node field. *)
Definition node_port (g : string) : bool :=
  PyStr.endswith g "Inlet_Node_Name" || PyStr.endswith g "Outlet_Node_Name".

(** The document [d] with the value [v] in field [i] of the object at [r],
    which was [o]. *)
Definition write_cell (d : IDF) (r : ref) (o : EpBunch) (i : nat) (v : value) : IDF :=
  store r (mkEpBunch (list_set i v (pad (obj o) (S i))) (objls o) (objidd o)) d.

(** [m] writes nothing and has the same outcome whatever field [i] of the
    object at [r] holds. *)
Definition stable {X : Type} (d : IDF) (r : ref) (o : EpBunch) (i : nat) (m : M X)
  : Prop :=
  snd (m d) = d
  /\ forall v, m (write_cell d r o i v) = (fst (m d), write_cell d r o i v).

(** A staged pair whose old half is a staged pair itself. *)
Definition nested (v : value) : Prop := exists a b c, v = VPair (VPair a b) c.

(** [isfirst] is [True] whenever [cbranchname] is the name of the branch. *)
Definition mixer_safe (d : IDF) (branch : ref) (vars : scan_vars) : Prop :=
  forall cb, vars = Some (cb, false) -> read d branch "Name" <> Ok cb.

(** [flnames[0]] of a loop: for a plant or condenser loop, the field of the
    supply side inlet node. *)
Definition loop_inlet_field (loop : Loop) : string :=
  nth 0 (flnames_of (loopfields (kind loop))) "".

(** [o] is a mixer whose outlet branch is [name]. *)
Definition mixer_of (name : value) (o : EpBunch) : bool :=
  result_is (getitem o "key") (VStr "CONNECTOR:MIXER")
  && result_is (getitem o "Outlet_Branch_Name") name.

(** No mixer of [d] has the branch as its outlet branch. *)
Definition no_mixer_outlet (d : IDF) (branch : ref) : bool :=
  match read d branch "Name" with
  | Ok name =>
      forallb (fun entry => forallb (fun o => negb (mixer_of name o)) (snd entry))
              (idfobjects d)
  | Raise _ => true
  end.

(** The first connector of the loop's supply connector list is a splitter
    whose inlet branch is [branch]. *)
Definition first_of_supply (loop : Loop) (fluid : string) (branch : ref) (d : IDF)
  : bool :=
  match fst (supplyconlist_of (newloop loop) fluid
               (flnames_of (loopfields (kind loop))) d) with
  | Ok scl =>
      match fst (connector_of_turn scl 1 d) with
      | Ok (Some c) =>
          result_is (read d c "key") (VStr "CONNECTOR:SPLITTER")
          && match read d c "Inlet_Branch_Name", read d branch "Name" with
             | Ok a, Ok b => value_eqb a b
             | _, _ => false
             end
      | _ => false
      end
  | Raise _ => false
  end.

(** [A] is the first component the branch lists, and [fin], a field of
    schema type node, is its inlet node field for the fluid. *)
Definition first_inlet (branch A : ref) (fluid fin : string) (d : IDF) : bool :=
  match fst (getbranchcomponents branch d) with
  | Ok (Some a :: _) => ref_eqb a A
  | _ => false
  end
  && match fst (resolve A "Inlet_Node_Name" (Some fluid) None d) with
     | Ok f => String.eqb f fin
     | Raise _ => false
     end
  && match lookup A d with
     | Some o =>
         match index_of fin (objls o) with
         | Some i => field_has_type "node" o i
         | None => false
         end
     | None => false
     end.

(** The component [A] is not the loop object, not the branch and not a
    connector list. *)
Definition apart (A theloop branch : ref) : bool :=
  negb (ref_eqb A theloop) && negb (ref_eqb A branch)
  && negb (String.eqb (fst A) "CONNECTORLIST").

(** What the boundary rebinding of [replacebranch] starts from, in the
    document as chaining, writing and rename propagation left it: the branch
    is the inlet branch of the first connector of the supply side, a
    splitter, and the outlet branch of no mixer; its first component is [A]
    with inlet node field [fin]; the loop's [flnames[0]] holds the plain
    identifier [l], which no staged rename takes to another one. *)
Definition first_branch_ready (loop : Loop) (branch A : ref) (fluid fin l : string)
    (d : IDF) : bool :=
  first_of_supply loop fluid branch d
  && no_mixer_outlet d branch
  && first_inlet branch A fluid fin d
  && apart A (newloop loop) branch
  && result_is (read d (newloop loop) (loop_inlet_field loop)) (VStr l)
  && unrenamed l d.

(** Both documents have as many objects of type [key]. *)
Definition same_count (key : string) (d d' : IDF) : Prop :=
  length (objects_of key d') = length (objects_of key d).

(** A run of [m] that returns has created [n] objects of type [key]. *)
Definition creates {A : Type} (key : string) (n : nat) (m : M A) : Prop :=
  forall d a d', m d = (Ok a, d') ->
    length (objects_of key d') = length (objects_of key d) + n.

(** The field of a zone splitter or mixer for the zone at position [k] of
    the zone list: ["Outlet_%s_Node_Name" % (k + 1, )] and the like. *)
Definition entry_field (prefix : string) (k : nat) : string :=
  prefix +++ PyStr.of_nat (k + 1) +++ "_Node_Name".

(** Both documents have the same objects of type [key]. *)
Definition same_key (key : string) (d d' : IDF) : Prop :=
  assoc key (idfobjects d') = assoc key (idfobjects d).

(** The zone entries that [target], a zone splitter or a zone mixer, carries
    in [d]: for each zone of the list, in order, its entry field holds what
    the [source] field of the zone's equipment connections holds; and every
    other field, apart from [Name] and the [fixed] node field, holds what a
    fresh instance of the type holds. *)
Definition carries_zone_entries (d : IDF) (target : ref) (prefix source fixed : string)
    (zones : list string) : Prop :=
  (forall k zone, nth_error zones k = Some zone ->
     exists e v,
       first_object_with (PyStr.upper "ZoneHVAC:EquipmentConnections")
         "Zone_Name" (VStr zone) d = (Ok e, d)
       /\ read d e source = Ok v
       /\ read d target (entry_field prefix k) = Ok v)
  /\ (forall f fresh,
        assoc (fst target) (idd_info d) = Some fresh ->
        f <> "Name" -> f <> fixed ->
        (forall k, k < length zones -> f <> entry_field prefix k) ->
        read d target f = getitem fresh f).

(** The objects of the types [keys] and the schema are the same in both
    documents. *)
Definition untouched (keys : list string) (d d' : IDF) : Prop :=
  (forall key, In key keys -> same_key key d d') /\ idd_info d' = idd_info d.

(** A run of [m] that returns gives [a]. *)
Definition returns {A : Type} (a : A) (m : M A) : Prop :=
  forall d x d', m d = (Ok x, d') -> x = a.

(** The loop that [make_air_loop] builds on the empty document from the
    sample topologies. *)
Definition sample_air_loop : Loop :=
  mkLoop AIRLOOPHVAC Sample.supply Sample.demand ("AIRLOOPHVAC", 0)
         ("BRANCHLIST", 0) None
         [("BRANCH", 0); ("BRANCH", 1); ("BRANCH", 2); ("BRANCH", 3)]
         [] ("CONNECTORLIST", 0) None.

(* ===================================================================== *)
(** ** Flattening a nested list *)
(* ===================================================================== *)

Module Flatten.

(** A Python list element: a string, or a list. *)
#[warnings="-register-all"]
Inductive item : Type :=
  | Atom (s : string)
  | Nest (l : list item).

(** One round of the outer loop of [flattencopy]: [atemp] and
    [keepchecking] after the inner loop. *)
Fixpoint pass (thelist : list item) : list item * bool :=
  match thelist with
  | [] => ([], false)
  | Atom s :: rest => let '(atemp, keepchecking) := pass rest in
                      (Atom s :: atemp, keepchecking)
  | Nest l :: rest => let '(atemp, _) := pass rest in (l ++ atemp, true)
  end.

(** [while list_is_nested], run for at most [fuel] rounds. *)
Fixpoint loop (fuel : nat) (thelist : list item) : option (list item) :=
  match fuel with
  | O => None
  | S fuel' =>
      let '(atemp, keepchecking) := pass thelist in
      if keepchecking then loop fuel' atemp else Some atemp
  end.

(** [flattencopy(lst)], given the number of rounds it may take. *)
Definition flattencopy (fuel : nat) (lst : list item) : option (list item) :=
  loop fuel lst.

(** The strings of an element, from left to right. *)
Fixpoint leaves (x : item) : list string :=
  match x with
  | Atom s => [s]
  | Nest l => flat_map leaves l
  end.

(** How deeply lists are nested in an element: 0 for a string. *)
Fixpoint depth (x : item) : nat :=
  match x with
  | Atom _ => 0
  | Nest l => S (list_max (map depth l))
  end.

(** The side of a loop, [[inlet, [names...], outlet]], as a Python list. *)
Definition of_topology (t : topology) : list item :=
  [Atom (t_inlet t); Nest (map Atom (t_parallel t)); Atom (t_outlet t)].

End Flatten.

(* ===================================================================== *)
(** ** The branch replacer as a method of the loop *)
(* ===================================================================== *)

(** [Loop.replacebranch(self, branch, listofcomponents, fluid=None)]: the
    connector lists are the attributes [self.s_connlist] and
    [self.d_connlist]; reading [self.d_connlist] of a loop that has none is
    an [AttributeError]. *)
Definition Loop_replacebranch (self : Loop) (branch : ref)
    (listofcomponents : list component) (fluid : option string) : M ref :=
  let fluid := default_str fluid in
  connectcomponents listofcomponents (Some fluid) ;;
  let thebranch := branch in
  componentsintobranch thebranch listofcomponents (Some fluid) ;;
  renamenodes "node" ;;
  let flnames := flnames_of (loopfields (kind self)) in
  vars <- scan_connectors (Some (s_connlist self)) (newloop self) thebranch fluid
            flnames 0 1 None ;;
  (if String.eqb (PyStr.upper fluid) "WATER" then
     d_connlist <- deref_opt (d_connlist self) AttributeError ;;
     scan_connectors (Some d_connlist) (newloop self) thebranch fluid flnames 4 5 vars ;;
     ret tt
   else ret tt) ;;
  renamenodes "node" ;;
  ret thebranch.

(** The demand connector list that the module-level [replacebranch] looks
    up: [idf.getobject('CONNECTORLIST', loop.loop[flnames[7]])]. *)
Definition demandconlist_of (theloop : ref) (flnames : list string) : M (option ref) :=
  f <- nth_or_raise flnames 7 ;;
  demandconlistname <- getattr theloop f ;;
  getobject "CONNECTORLIST" demandconlistname.

(* ===================================================================== *)
(** ** Connector lists, module level *)
(* ===================================================================== *)

(** An [if newloop.key == 'CONDENSERLOOP': ... elif ... 'PLANTLOOP': ...
    elif ... 'AIRLOOPHVAC': ...] chain that binds a local variable; with no
    branch taken the variable stays unbound, and the statement that reads
    it next raises [UnboundLocalError], a [NameError]. *)
Definition by_loop_key {A : Type} (newloop : ref) (condenser plant air : M A) : M A :=
  k <- getattr newloop "key" ;;
  if value_eqb k (VStr "CONDENSERLOOP") then condenser
  else
    k <- getattr newloop "key" ;;
    if value_eqb k (VStr "PLANTLOOP") then plant
    else
      k <- getattr newloop "key" ;;
      if value_eqb k (VStr "AIRLOOPHVAC") then air
      else raise NameError.

(** [make_connectorlists(idf, loopname, newloop)]; the demand connector
    list is [None] for the empty list an air loop gets. *)
Definition make_connectorlists (loopname : string) (newloop : ref)
  : M (ref * option ref) :=
  s_connlist <-
    by_loop_key newloop
      (n <- getattr newloop "Condenser_Side_Connector_List_Name" ;;
       newidfobject "CONNECTORLIST" n)
      (n <- getattr newloop "Plant_Side_Connector_List_Name" ;;
       newidfobject "CONNECTORLIST" n)
      (n <- getattr newloop "Connector_List_Name" ;;
       newidfobject "CONNECTORLIST" n) ;;
  setattr s_connlist "Connector_1_Object_Type" (VStr "Connector:Splitter") ;;
  setattr s_connlist "Connector_1_Name" (VStr (loopname +++ "_supply_splitter")) ;;
  setattr s_connlist "Connector_2_Object_Type" (VStr "Connector:Mixer") ;;
  setattr s_connlist "Connector_2_Name" (VStr (loopname +++ "_supply_mixer")) ;;
  d_connlist <-
    by_loop_key newloop
      (n <- getattr newloop "Condenser_Demand_Side_Connector_List_Name" ;;
       c <- newidfobject "CONNECTORLIST" n ;; ret (Some c))
      (n <- getattr newloop "Demand_Side_Connector_List_Name" ;;
       c <- newidfobject "CONNECTORLIST" n ;; ret (Some c))
      (ret None) ;;
  match d_connlist with
  | Some c =>
      setattr c "Connector_1_Object_Type" (VStr "Connector:Splitter") ;;
      setattr c "Connector_1_Name" (VStr (loopname +++ "_demand_splitter")) ;;
      setattr c "Connector_2_Object_Type" (VStr "Connector:Mixer") ;;
      setattr c "Connector_2_Name" (VStr (loopname +++ "_demand_mixer")) ;;
      ret (s_connlist, d_connlist)
  | None => ret (s_connlist, d_connlist)
  end.

(** A staged pair whose old half is itself a list: what staging a field
    twice leaves when no propagation comes in between. *)
Definition twice_staged (v : value) : bool :=
  match v with
  | VPair (VPair _ _) _ => true
  | _ => false
  end.

(** [o] has an IDD entry for each of its values. *)
Definition covered (o : EpBunch) : bool := length (obj o) <=? length (objidd o).

(** One of the values of [o] sits in a field of type [fieldtype]. *)
Definition has_typed_field (fieldtype : string) (o : EpBunch) : bool :=
  existsb (has_type fieldtype) (firstn (length (obj o)) (objidd o)).

(** What [simplify_names] makes of one field name. *)
Definition simplify_name (f : string) : string :=
  let f := PyStr.replace f "Condenser Side" "Cond_Supply" in
  let f := PyStr.replace f "Plant Side" "Supply" in
  let f := PyStr.replace f "Demand Side" "Demand" in
  let f := PyStr.slice_to f (PyStr.find f "Name" - 1) in
  let f := PyStr.replace f " Node" "" in
  PyStr.replace f " List" "s".

(** No name occurs twice in [l]. *)
Fixpoint distinct_names (l : list string) : bool :=
  match l with
  | [] => true
  | x :: l' => negb (existsb (String.eqb x) l') && distinct_names l'
  end.

(** The object at [r] declares every field of [names]. *)
Definition declares (d : IDF) (r : ref) (names : list string) : bool :=
  match lookup r d with
  | Some o => forallb (fun f => existsb (String.eqb f) (objls o)) names
  | None => false
  end.

(** What a port field holds once [initinletoutlet] without [force] has
    passed over it: its value, or the default name [Name_field] when the
    value was blank. *)
Definition settled (name : value) (field : string) (v : value) : value :=
  if blankfield v then VStr (pystr name +++ "_" +++ field) else v.

(** The schema gives the field [f] of [o] the type [fieldtype]. *)
Definition field_of_type (fieldtype : string) (o : EpBunch) (f : string) : bool :=
  match index_of f (objls o) with
  | Some i => field_has_type fieldtype o i
  | None => false
  end.

(* ===================================================================== *)
(** * Properties *)
(* ===================================================================== *)

(** ** Lists and values *)

Lemma filter_filter {A : Type} (p q : A -> bool) (l : list A) :
  filter q (filter p l) = filter (fun x => p x && q x) l.
Proof.
  induction l as [|x l IH]; simpl; [reflexivity|].
  destruct (p x); simpl; [destruct (q x)|]; rewrite IH; reflexivity.
Qed.

Lemma head_filter_find {A : Type} (p : A -> bool) (l : list A) :
  match filter p l with [] => None | x :: _ => Some x end = find p l.
Proof.
  induction l as [|x l IH]; simpl; [reflexivity|].
  destruct (p x); [reflexivity | exact IH].
Qed.

Lemma filter_empty_find {A : Type} (p : A -> bool) (l : list A) :
  filter p l = [] <-> find p l = None.
Proof.
  rewrite <- head_filter_find. destruct (filter p l); split; congruence.
Qed.

Lemma find_ext {A : Type} (p q : A -> bool) (l : list A) :
  (forall x, p x = q x) -> find p l = find q l.
Proof.
  intros H. induction l as [|x l IH]; simpl; [reflexivity|].
  rewrite H, IH. reflexivity.
Qed.

Lemma value_eqb_refl (v : value) : value_eqb v v = true.
Proof.
  induction v as [s|a IHa b IHb]; simpl.
  - apply String.eqb_refl.
  - rewrite IHa, IHb. reflexivity.
Qed.

Lemma value_eqb_eq (a b : value) : value_eqb a b = true <-> a = b.
Proof.
  split; [|intros ->; apply value_eqb_refl].
  revert b. induction a as [s|a1 IH1 a2 IH2]; intros [t|b1 b2]; simpl; try discriminate.
  - intros H. apply String.eqb_eq in H. congruence.
  - intros H. apply andb_true_iff in H. destruct H as [H1 H2].
    f_equal; auto.
Qed.

Lemma value_eqb_neq (a b : value) : value_eqb a b = false <-> a <> b.
Proof.
  rewrite <- value_eqb_eq. destruct (value_eqb a b); split; congruence.
Qed.

(** ** Node resolver *)

Lemma contains_empty (s : string) : PyStr.contains s "" = true.
Proof.
  unfold PyStr.contains, PyStr.find.
  destruct s; reflexivity.
Qed.

Lemma match_filter_find {A B : Type} (p : A -> bool) (l : list A) (k : B) (f : A -> B) :
  match filter p l with [] => k | x :: _ => f x end
  = match find p l with Some x => f x | None => k end.
Proof.
  induction l as [|x l IH]; simpl; [reflexivity|].
  destruct (p x); [reflexivity | exact IH].
Qed.

Lemma getnodefieldname_find (o : EpBunch) (endswith : string)
    (fluid startswith : option string) :
  getnodefieldname o endswith fluid startswith =
  let cand := is_candidate endswith startswith in
  match find (fun name => cand name && PyStr.contains name (default_str fluid)) (objls o) with
  | Some name => Ok name
  | None => match find cand (objls o) with
            | Some name => Ok name
            | None => Raise IndexError
            end
  end.
Proof.
  unfold getnodefieldname, getfieldnamesendswith.
  rewrite !filter_filter. cbv zeta.
  rewrite (match_filter_find _ (objls o) _ (fun nodename => Ok nodename)).
  rewrite (match_filter_find _ (objls o) (Raise IndexError) (fun nodename => Ok nodename)).
  rewrite (find_ext _
    (fun name => is_candidate endswith startswith name
                 && PyStr.contains name (default_str fluid)) (objls o)).
  - reflexivity.
  - intros x. unfold is_candidate.
    destruct (PyStr.endswith x endswith), (PyStr.startswith x (default_str startswith)),
      (PyStr.contains x (default_str fluid)); reflexivity.
Qed.

(** C7, as amended.  [getnodefieldname] returns the first candidate, in the
    declared field order, that contains the fluid hint taken literally, and
    the first candidate when none contains it; it raises [IndexError] when
    there is no candidate at all.  "Steam" is not read as "Water". *)
Theorem getnodefieldname_first_match (o : EpBunch) (endswith : string)
    (fluid startswith : option string) :
  getnodefieldname o endswith fluid startswith =
  match resolvePort (fun hint => hint) o endswith fluid startswith with
  | Some name => Ok name
  | None => Raise IndexError
  end.
Proof.
  rewrite getnodefieldname_find. unfold resolvePort. cbv zeta.
  destruct fluid as [hint|]; simpl default_str.
  - destruct (find _ (objls o)); [reflexivity|].
    destruct (find _ (objls o)); reflexivity.
  - rewrite (find_ext _ (is_candidate endswith startswith)).
    + destruct (find _ (objls o)); reflexivity.
    + intros x. rewrite contains_empty. apply andb_true_r.
Qed.

(** C7, counterexample.  With the fluid "Steam" the specification's
    resolver picks the water inlet; [getnodefieldname] finds no field
    containing "Steam" and returns the first candidate, the air inlet. *)
Lemma getnodefieldname_steam_is_literal :
  resolvePort steam_as_water two_fluid_coil "Inlet_Node_Name" (Some "Steam") None
    = Some "Water_Inlet_Node_Name"
  /\ getnodefieldname two_fluid_coil "Inlet_Node_Name" (Some "Steam") None
    = Ok "Air_Inlet_Node_Name".
Proof. split; reflexivity. Qed.

(** ** The object store *)

Lemma nth_error_list_set_eq {A : Type} (i : nat) (a : A) (l : list A) :
  i < length l -> nth_error (list_set i a l) i = Some a.
Proof.
  revert i. induction l as [|x l IH]; intros [|i] H; simpl in *; try lia.
  - reflexivity.
  - apply IH. lia.
Qed.

Lemma nth_error_list_set_neq {A : Type} (i j : nat) (a : A) (l : list A) :
  i <> j -> nth_error (list_set i a l) j = nth_error l j.
Proof.
  revert i j. induction l as [|x l IH]; intros [|i] [|j] H; simpl; try reflexivity.
  - congruence.
  - apply IH. congruence.
Qed.

Lemma length_list_set {A : Type} (i : nat) (a : A) (l : list A) :
  length (list_set i a l) = length l.
Proof.
  revert i. induction l as [|x l IH]; intros [|i]; simpl; auto.
Qed.

Lemma list_set_same {A : Type} (i : nat) (a : A) (l : list A) :
  nth_error l i = Some a -> list_set i a l = l.
Proof.
  revert i. induction l as [|x l IH]; intros [|i] H; simpl in *; try congruence.
  f_equal. auto.
Qed.

Lemma nth_list_set_eq {A : Type} (i : nat) (a dflt : A) (l : list A) :
  i < length l -> nth i (list_set i a l) dflt = a.
Proof.
  intros H. apply nth_error_nth. apply nth_error_list_set_eq. exact H.
Qed.

Lemma nth_list_set_neq {A : Type} (i j : nat) (a dflt : A) (l : list A) :
  i <> j -> nth j (list_set i a l) dflt = nth j l dflt.
Proof.
  revert i j. induction l as [|x l IH]; intros [|i] [|j] H; simpl; try reflexivity.
  - congruence.
  - apply IH. congruence.
Qed.

Lemma assoc_set_eq {A : Type} (k : string) (a : A) (l : list (string * A)) :
  assoc k l <> None -> assoc k (assoc_set k a l) = Some a.
Proof.
  induction l as [|[k' a'] l IH]; simpl; [congruence|].
  destruct (String.eqb k k') eqn:E; simpl; rewrite E; auto.
Qed.

Lemma assoc_set_neq {A : Type} (k k' : string) (a : A) (l : list (string * A)) :
  k <> k' -> assoc k' (assoc_set k a l) = assoc k' l.
Proof.
  intros H. induction l as [|[k0 a0] l IH]; simpl; [reflexivity|].
  destruct (String.eqb k k0) eqn:E; simpl.
  - apply String.eqb_eq in E. subst k0.
    destruct (String.eqb k' k) eqn:E'; [|reflexivity].
    apply String.eqb_eq in E'. congruence.
  - rewrite IH. reflexivity.
Qed.

Lemma assoc_set_same {A : Type} (k : string) (a : A) (l : list (string * A)) :
  assoc k l = Some a -> assoc_set k a l = l.
Proof.
  induction l as [|[k' a'] l IH]; simpl; [reflexivity|].
  destruct (String.eqb k k') eqn:E; intros H.
  - congruence.
  - f_equal. auto.
Qed.

Lemma map_fst_assoc_set {A : Type} (k : string) (a : A) (l : list (string * A)) :
  map fst (assoc_set k a l) = map fst l.
Proof.
  induction l as [|[k' a'] l IH]; simpl; [reflexivity|].
  destruct (String.eqb k k'); simpl; congruence.
Qed.

Lemma lookup_store_eq (r : ref) (o o0 : EpBunch) (d : IDF) :
  lookup r d = Some o0 -> lookup r (store r o d) = Some o.
Proof.
  unfold lookup, store. destruct (assoc (fst r) (idfobjects d)) as [os|] eqn:E; [|discriminate].
  intros H. simpl. rewrite assoc_set_eq by congruence.
  apply nth_error_list_set_eq. apply nth_error_Some. congruence.
Qed.

Lemma lookup_store_neq (r r' : ref) (o : EpBunch) (d : IDF) :
  r <> r' -> lookup r' (store r o d) = lookup r' d.
Proof.
  unfold lookup, store. intros H.
  destruct (assoc (fst r) (idfobjects d)) as [os|] eqn:E; [|reflexivity].
  simpl. destruct (String.eqb (fst r) (fst r')) eqn:Ek.
  - apply String.eqb_eq in Ek. rewrite <- Ek, E.
    rewrite assoc_set_eq by congruence.
    apply nth_error_list_set_neq. intros Hs. apply H.
    destruct r, r'; simpl in *; congruence.
  - apply String.eqb_neq in Ek. rewrite assoc_set_neq by exact Ek. reflexivity.
Qed.

Lemma store_same (r : ref) (o : EpBunch) (d : IDF) :
  lookup r d = Some o -> store r o d = d.
Proof.
  unfold lookup, store. destruct (assoc (fst r) (idfobjects d)) as [os|] eqn:E; [|reflexivity].
  intros H. rewrite (list_set_same _ _ _ H), (assoc_set_same _ _ _ E).
  destruct d; reflexivity.
Qed.

Lemma stdout_store (r : ref) (o : EpBunch) (d : IDF) : stdout (store r o d) = stdout d.
Proof. unfold store. destruct (assoc _ _); reflexivity. Qed.

Lemma idd_info_store (r : ref) (o : EpBunch) (d : IDF) : idd_info (store r o d) = idd_info d.
Proof. unfold store. destruct (assoc _ _); reflexivity. Qed.

Lemma ref_eq_dec (a b : ref) : {a = b} + {a <> b}.
Proof.
  destruct a as [k i], b as [k' j].
  destruct (string_dec k k'); [|right; congruence].
  destruct (Nat.eq_dec i j); [left|right]; congruence.
Qed.

(** ** Fields of one object *)

Lemma index_of_Some (x : string) (l : list string) (i : nat) :
  index_of x l = Some i -> nth_error l i = Some x.
Proof.
  revert i. induction l as [|y l IH]; simpl; [discriminate|].
  destruct (String.eqb x y) eqn:E; intros i H.
  - apply String.eqb_eq in E. inversion H. subst. reflexivity.
  - destruct (index_of x l); [|discriminate]. inversion H. subst. simpl. auto.
Qed.

Lemma index_of_In (x : string) (l : list string) :
  In x l -> exists i, index_of x l = Some i.
Proof.
  induction l as [|y l IH]; simpl; [tauto|].
  intros H. destruct (String.eqb x y) eqn:E; [eauto|].
  destruct H as [H|H]; [subst; rewrite String.eqb_refl in E; discriminate|].
  destruct (IH H) as [i Hi]. rewrite Hi. eauto.
Qed.

Lemma index_of_inj (x y : string) (l : list string) (i : nat) :
  index_of x l = Some i -> index_of y l = Some i -> x = y.
Proof.
  intros Hx Hy. apply index_of_Some in Hx. apply index_of_Some in Hy. congruence.
Qed.

Lemma length_pad (l : list value) (n : nat) : length (pad l n) = Nat.max (length l) n.
Proof. unfold pad. rewrite length_app, repeat_length. lia. Qed.

Lemma nth_pad (l : list value) (n j : nat) : nth j (pad l n) (VStr "") = nth j l (VStr "").
Proof.
  unfold pad. destruct (Nat.lt_ge_cases j (length l)) as [H|H].
  - apply app_nth1. exact H.
  - rewrite app_nth2 by exact H. rewrite (nth_overflow l) by exact H.
    destruct (Nat.lt_ge_cases (j - length l) (n - length l)) as [H1|H1].
    + apply nth_repeat_lt. exact H1.
    + apply nth_overflow. rewrite repeat_length. exact H1.
Qed.

Lemma getitem_setitem_eq (o o' : EpBunch) (f : string) (v : value) :
  setitem o f v = Ok o' -> getitem o' f = Ok v.
Proof.
  unfold setitem, getitem. destruct (index_of f (objls o)) as [i|] eqn:E; [|discriminate].
  intros H. inversion H. subst o'. simpl. rewrite E. f_equal.
  apply nth_list_set_eq. rewrite length_pad. lia.
Qed.

Lemma getitem_setitem_neq (o o' : EpBunch) (f g : string) (v : value) :
  setitem o f v = Ok o' -> f <> g -> getitem o' g = getitem o g.
Proof.
  unfold setitem, getitem. destruct (index_of f (objls o)) as [i|] eqn:E; [|discriminate].
  intros H Hfg. inversion H. subst o'. simpl.
  destruct (index_of g (objls o)) as [j|] eqn:Eg; [|reflexivity].
  f_equal. rewrite nth_list_set_neq.
  - apply nth_pad.
  - intros ->. apply Hfg. eapply index_of_inj; eauto.
Qed.

Lemma setitem_schema (o o' : EpBunch) (f : string) (v : value) :
  setitem o f v = Ok o' -> objls o' = objls o /\ objidd o' = objidd o.
Proof.
  unfold setitem. destruct (index_of f (objls o)); [|discriminate].
  intros H. inversion H. auto.
Qed.

Lemma setitem_In (o : EpBunch) (f : string) (v : value) :
  In f (objls o) -> exists o', setitem o f v = Ok o'.
Proof.
  intros H. unfold setitem. destruct (index_of_In _ _ H) as [i ->]. eauto.
Qed.

Lemma getitem_In (o : EpBunch) (f : string) :
  In f (objls o) -> exists v, getitem o f = Ok v.
Proof.
  intros H. unfold getitem. destruct (index_of_In _ _ H) as [i ->]. eauto.
Qed.

Lemma getitem_Ok_In (o : EpBunch) (f : string) (v : value) :
  getitem o f = Ok v -> In f (objls o).
Proof.
  unfold getitem. destruct (index_of f (objls o)) as [i|] eqn:E; [|discriminate].
  intros _. apply index_of_Some in E. eapply nth_error_In; eauto.
Qed.

Lemma getattr_run (r : ref) (name : string) (d : IDF) :
  getattr r name d = (read d r name, d).
Proof.
  unfold getattr, read, bind, deref, lift. destruct (lookup r d); reflexivity.
Qed.

Lemma setattr_run (r : ref) (name : string) (v : value) (d : IDF) (o o' : EpBunch) :
  lookup r d = Some o -> setitem o name v = Ok o' ->
  setattr r name v d = (Ok tt, store r o' d).
Proof.
  intros H1 H2. unfold setattr, bind, deref, lift. rewrite H1, H2. reflexivity.
Qed.

Lemma resolve_run (r : ref) (suffix : string) (fluid hint : option string) (d : IDF) :
  resolve r suffix fluid hint d =
  (match lookup r d with
   | Some o => getnodefieldname o suffix fluid hint
   | None => Raise InvalidRef
   end, d).
Proof.
  unfold resolve, bind, deref, lift. destruct (lookup r d); reflexivity.
Qed.

Lemma list_set_twice {A : Type} (i : nat) (a b : A) (l : list A) :
  list_set i a (list_set i b l) = list_set i a l.
Proof.
  revert i. induction l as [|x l IH]; intros [|i]; simpl; try reflexivity.
  rewrite IH. reflexivity.
Qed.

Lemma assoc_set_twice {A : Type} (k : string) (a b : A) (l : list (string * A)) :
  assoc_set k a (assoc_set k b l) = assoc_set k a l.
Proof.
  induction l as [|[k' a'] l IH]; simpl; [reflexivity|].
  destruct (String.eqb k k') eqn:E; simpl; rewrite E; [reflexivity|].
  rewrite IH. reflexivity.
Qed.

Lemma store_store (r : ref) (o o' : EpBunch) (d : IDF) :
  store r o' (store r o d) = store r o' d.
Proof.
  unfold store. destruct (assoc (fst r) (idfobjects d)) as [os|] eqn:E.
  - simpl. rewrite assoc_set_eq by congruence.
    rewrite list_set_twice, assoc_set_twice. reflexivity.
  - rewrite E. reflexivity.
Qed.

(** ** Running monadic code *)

Lemma bind_run {A B : Type} (m : M A) (k : A -> M B) (d d' : IDF) (a : A) :
  m d = (Ok a, d') -> bind m k d = k a d'.
Proof. intros H. unfold bind. rewrite H. reflexivity. Qed.

Lemma bind_raise {A B : Type} (m : M A) (k : A -> M B) (d d' : IDF) (e : exn) :
  m d = (Raise e, d') -> bind m k d = (Raise e, d').
Proof. intros H. unfold bind. rewrite H. reflexivity. Qed.

Lemma bind_Ok_inv {A B : Type} (m : M A) (k : A -> M B) (d d' : IDF) (b : B) :
  bind m k d = (Ok b, d') ->
  exists a d1, m d = (Ok a, d1) /\ k a d1 = (Ok b, d').
Proof.
  unfold bind. destruct (m d) as [[a|e] d1]; [eauto|discriminate].
Qed.

Lemma bind_assoc {A B C : Type} (m : M A) (f : A -> M B) (g : B -> M C) (d : IDF) :
  bind (bind m f) g d = bind m (fun a => bind (f a) g) d.
Proof. unfold bind. destruct (m d) as [[a|e] d1]; reflexivity. Qed.

Lemma bind_getattr {B : Type} (r : ref) (f : string) (k : value -> M B) (d : IDF) :
  bind (getattr r f) k d =
  match read d r f with Ok v => k v d | Raise e => (Raise e, d) end.
Proof. unfold bind. rewrite getattr_run. reflexivity. Qed.

Lemma bind_ret {A B : Type} (a : A) (k : A -> M B) (d : IDF) :
  bind (ret a) k d = k a d.
Proof. reflexivity. Qed.

Lemma bind_deref {B : Type} (r : ref) (k : EpBunch -> M B) (d : IDF) :
  bind (deref r) k d =
  match lookup r d with Some o => k o d | None => (Raise InvalidRef, d) end.
Proof. unfold bind, deref. destruct (lookup r d); reflexivity. Qed.

Lemma bind_resolve {B : Type} (r : ref) (suffix : string) (fluid hint : option string)
    (k : string -> M B) (d : IDF) :
  bind (resolve r suffix fluid hint) k d =
  match lookup r d with
  | Some o => match getnodefieldname o suffix fluid hint with
              | Ok f => k f d
              | Raise e => (Raise e, d)
              end
  | None => (Raise InvalidRef, d)
  end.
Proof.
  unfold bind. rewrite resolve_run.
  destruct (lookup r d) as [o|]; [|reflexivity].
  destruct (getnodefieldname o suffix fluid hint); reflexivity.
Qed.

Lemma read_lookup (d : IDF) (r : ref) (o : EpBunch) (f : string) :
  lookup r d = Some o -> read d r f = getitem o f.
Proof. intros H. unfold read. rewrite H. reflexivity. Qed.

(** ** Initialising the ports of a component *)

Lemma endswith_not_Name (f suffix : string) :
  PyStr.endswith "Name" suffix = false -> PyStr.endswith f suffix = true -> f <> "Name".
Proof. intros H1 H2 ->. congruence. Qed.

Lemma In_getfieldnamesendswith (o : EpBunch) (suffix f : string) :
  In f (getfieldnamesendswith o suffix) <->
  In f (objls o) /\ PyStr.endswith f suffix = true.
Proof.
  unfold getfieldnamesendswith.
  exact (filter_In (fun name => PyStr.endswith name suffix) f (objls o)).
Qed.

(** [init_fields] writes the object once for all: only fields of the list
    change, and with [force=False] only those that held a blank. *)
Lemma init_fields_spec (r : ref) (force : bool) (fields : list string) :
  forall (d : IDF) (o : EpBunch) (n : value),
    lookup r d = Some o ->
    getitem o "Name" = Ok n ->
    (forall f, In f fields -> In f (objls o) /\ f <> "Name") ->
    exists o',
      init_fields r fields force d = (Ok tt, store r o' d)
      /\ objls o' = objls o /\ objidd o' = objidd o
      /\ (forall g, ~ In g fields -> getitem o' g = getitem o g)
      /\ (force = false -> forall g v, getitem o g = Ok v -> blankfield v = false ->
          getitem o' g = Ok v)
      /\ (forall g, In g fields -> exists v, getitem o' g = Ok v /\
            (blankfield v = false \/ v = VStr (pystr n +++ "_" +++ g))).
Proof.
  induction fields as [|f fields IH]; intros d o n Hl Hn Hf.
  - exists o. simpl. unfold ret. rewrite (store_same _ _ _ Hl).
    repeat split; auto. intros g [].
  - destruct (Hf f (or_introl eq_refl)) as [Hin Hne].
    destruct (getitem_In _ _ Hin) as [v Hv].
    change (init_fields r (f :: fields) force)
      with (bind ((fun field =>
                     bind (getattr r field) (fun v =>
                       if blankfield v || force then
                         bind (getattr r "Name") (fun n =>
                           setattr r field (VStr (pystr n +++ "_" +++ field)))
                       else ret tt)) f)
                 (fun _ => init_fields r fields force)).
    cbv beta.
    destruct (blankfield v || force) eqn:Eb.
    + destruct (setitem_In o f (VStr (pystr n +++ "_" +++ f)) Hin) as [o1 Ho1].
      rewrite (@bind_run _ _ _ _ d (store r o1 d) tt).
      2:{ rewrite bind_getattr, (read_lookup _ _ _ _ Hl), Hv, Eb.
          rewrite bind_getattr, (read_lookup _ _ _ _ Hl), Hn.
          apply (setattr_run _ _ _ _ _ _ Hl Ho1). }
      destruct (setitem_schema _ _ _ _ Ho1) as [Hls Hidd].
      assert (Hl1 : lookup r (store r o1 d) = Some o1) by (eapply lookup_store_eq; eauto).
      assert (Hn1 : getitem o1 "Name" = Ok n)
        by (rewrite (getitem_setitem_neq _ _ _ _ _ Ho1 Hne); exact Hn).
      destruct (IH (store r o1 d) o1 n Hl1 Hn1) as (o' & Hrun & Hls' & Hidd' & Hout & Hkeep & Hset).
      { intros g Hg. rewrite Hls. apply Hf. right. exact Hg. }
      exists o'. rewrite Hrun, store_store.
      split; [reflexivity|]. split; [congruence|]. split; [congruence|]. split; [|split].
      * intros g Hg. rewrite Hout by (intros Hc; apply Hg; right; exact Hc).
        apply (getitem_setitem_neq _ _ _ _ _ Ho1). intros ->. apply Hg. left. reflexivity.
      * intros -> g w Hw Hb.
        rewrite orb_false_r in Eb.
        assert (f <> g) by (intros ->; congruence).
        apply (Hkeep eq_refl); [|exact Hb].
        rewrite (getitem_setitem_neq _ _ _ _ _ Ho1 H). exact Hw.
      * intros g [->|Hg]; [|apply Hset; exact Hg].
        destruct (in_dec string_dec g fields) as [Hi|Hi]; [apply Hset; exact Hi|].
        rewrite (Hout _ Hi), (getitem_setitem_eq _ _ _ _ Ho1). eauto.
    + rewrite (@bind_run _ _ _ _ d d tt).
      2:{ rewrite bind_getattr, (read_lookup _ _ _ _ Hl), Hv, Eb. reflexivity. }
      destruct (IH d o n Hl Hn) as (o' & Hrun & Hls' & Hidd' & Hout & Hkeep & Hset).
      { intros g Hg. apply Hf. right. exact Hg. }
      apply orb_false_iff in Eb. destruct Eb as [Eb ->].
      exists o'. split; [exact Hrun|]. split; [exact Hls'|]. split; [exact Hidd'|].
      split; [|split].
      * intros g Hg. apply Hout. intros Hc. apply Hg. right. exact Hc.
      * exact Hkeep.
      * intros g [->|Hg]; [|apply Hset; exact Hg].
        exists v. split; [|left; exact Eb]. apply (Hkeep eq_refl); assumption.
Qed.

Lemma bind_print {B : Type} (p : printed) (k : unit -> M B) (d : IDF) :
  bind (print p) k d = k tt (mkIDF (idfobjects d) (idd_info d) (stdout d ++ [p])).
Proof. reflexivity. Qed.

Lemma read_print (d : IDF) (i : list (string * EpBunch)) (s : list printed)
    (r : ref) (f : string) :
  read (mkIDF (idfobjects d) i s) r f = read d r f.
Proof. reflexivity. Qed.

Lemma stdout_print_chain (d : IDF) (r : ref) (o : EpBunch) (k n : value)
    (inletfields : list string) :
  lookup r d = Some o -> getitem o "key" = Ok k -> getitem o "Name" = Ok n ->
  forall fields, 1 < length fields ->
  trimfields r inletfields fields None d =
  (Raise WhichLoopError,
   mkIDF (idfobjects d) (idd_info d)
         (stdout d ++ [PText "Where should this loop connect ?"; PIdent k n;
                       PNames (map (fun field => split_head field "Inlet_Node_Name")
                                   inletfields)])).
Proof.
  intros Hl Hk Hn fields Hlen. unfold trimfields.
  apply Nat.ltb_lt in Hlen. rewrite Hlen.
  rewrite bind_print, bind_getattr, read_print, (read_lookup _ _ _ _ Hl), Hk.
  rewrite bind_getattr, read_print, (read_lookup _ _ _ _ Hl), Hn.
  rewrite !bind_print. unfold raise. simpl.
  rewrite <- !app_assoc. reflexivity.
Qed.

(** C6, as amended.  When an object has more than one field ending with
    [Inlet_Node_Name], or more than one ending with [Outlet_Node_Name], and
    no port hint is given, initialising its ports for the chainer fails
    with [WhichLoopError], after the object's key and name have been
    printed; with more than one inlet field nothing is written to the
    document and the inlet fields' prefixes are printed as well. *)
Theorem initinletoutlet_ambiguous (r : ref) (force : bool) (d : IDF) (o : EpBunch)
    (k n : value) :
  lookup r d = Some o ->
  getitem o "key" = Ok k ->
  getitem o "Name" = Ok n ->
  1 < length (getfieldnamesendswith o "Inlet_Node_Name")
  \/ 1 < length (getfieldnamesendswith o "Outlet_Node_Name") ->
  exists d' l,
    initinletoutlet r None force d = (Raise WhichLoopError, d')
    /\ stdout d' = stdout d ++ [PText "Where should this loop connect ?";
                                PIdent k n; PNames l]
    /\ (1 < length (getfieldnamesendswith o "Inlet_Node_Name") ->
        idfobjects d' = idfobjects d
        /\ l = map (fun field => split_head field "Inlet_Node_Name")
                   (getfieldnamesendswith o "Inlet_Node_Name")).
Proof.
  intros Hl Hk Hn Hamb.
  set (ins := getfieldnamesendswith o "Inlet_Node_Name") in *.
  destruct (Nat.lt_ge_cases 1 (length ins)) as [Hin|Hin].
  - (* ambiguous inlets: the first [trimfields] raises *)
    eexists. eexists. split; [|split].
    + unfold initinletoutlet. unfold bind at 1. unfold deref at 1. rewrite Hl.
      unfold bind at 1. fold ins.
      rewrite (stdout_print_chain _ _ _ _ _ ins Hl Hk Hn ins Hin). reflexivity.
    + reflexivity.
    + intros _. split; reflexivity.
  - (* a single inlet at most: the outlets are ambiguous *)
    destruct Hamb as [Hamb|Hamb]; [lia|].
    assert (Htrim : trimfields r ins ins None d = (Ok ins, d)).
    { unfold trimfields. destruct (1 <? length ins) eqn:E; [|reflexivity].
      apply Nat.ltb_lt in E. lia. }
    destruct (init_fields_spec r force ins d o n Hl Hn) as (o' & Hrun & Hls & Hidd & Hout & _ & _).
    { intros f Hf. apply In_getfieldnamesendswith in Hf. destruct Hf as [Hf He].
      split; [exact Hf|]. eapply endswith_not_Name; [|exact He]. reflexivity. }
    assert (Hl' : lookup r (store r o' d) = Some o') by (eapply lookup_store_eq; eauto).
    assert (Hk' : getitem o' "key" = Ok k).
    { rewrite Hout; [exact Hk|]. intros Hc. apply In_getfieldnamesendswith in Hc.
      destruct Hc as [_ Hc]. discriminate. }
    assert (Hn' : getitem o' "Name" = Ok n).
    { rewrite Hout; [exact Hn|]. intros Hc. apply In_getfieldnamesendswith in Hc.
      destruct Hc as [_ Hc]. discriminate. }
    assert (Houts : getfieldnamesendswith o' "Outlet_Node_Name"
                    = getfieldnamesendswith o "Outlet_Node_Name")
      by (unfold getfieldnamesendswith; rewrite Hls; reflexivity).
    eexists. exists (map (fun field => split_head field "Inlet_Node_Name") ins).
    split; [|split].
    + unfold initinletoutlet. unfold bind at 1. unfold deref at 1. rewrite Hl.
      unfold bind at 1. fold ins. rewrite Htrim.
      unfold bind at 1. rewrite Hrun.
      unfold bind at 1. unfold deref at 1. rewrite Hl'.
      unfold bind at 1. rewrite Houts.
      rewrite (stdout_print_chain _ _ _ _ _ ins Hl' Hk' Hn' _ Hamb). reflexivity.
    + simpl. rewrite stdout_store. reflexivity.
    + intros Hc. lia.
Qed.

Lemma initinletoutlet_ambiguous_witness :
  exists d' l,
    initinletoutlet ("CHILLER:ELECTRIC", 0) None false chiller_doc
      = (Raise WhichLoopError, d')
    /\ stdout d' = stdout chiller_doc
                   ++ [PText "Where should this loop connect ?";
                       PIdent (VStr "CHILLER:ELECTRIC") (VStr "ch1"); PNames l]
    /\ (1 < length (getfieldnamesendswith
                      (mkEpBunch [VStr "CHILLER:ELECTRIC"; VStr "ch1"]
                         ["key"; "Name"; "Chilled_Water_Inlet_Node_Name";
                          "Chilled_Water_Outlet_Node_Name"; "Condenser_Inlet_Node_Name";
                          "Condenser_Outlet_Node_Name"]
                         [Sample.plain; Sample.alpha; Sample.node; Sample.node;
                          Sample.node; Sample.node]) "Inlet_Node_Name") ->
        idfobjects d' = idfobjects chiller_doc
        /\ l = ["Chilled_Water_"; "Condenser_"]).
Proof.
  apply (initinletoutlet_ambiguous ("CHILLER:ELECTRIC", 0) false chiller_doc
           (mkEpBunch [VStr "CHILLER:ELECTRIC"; VStr "ch1"]
              ["key"; "Name"; "Chilled_Water_Inlet_Node_Name";
               "Chilled_Water_Outlet_Node_Name"; "Condenser_Inlet_Node_Name";
               "Condenser_Outlet_Node_Name"]
              [Sample.plain; Sample.alpha; Sample.node; Sample.node;
               Sample.node; Sample.node])
           (VStr "CHILLER:ELECTRIC") (VStr "ch1")).
  - reflexivity.
  - reflexivity.
  - reflexivity.
  - left. vm_compute. lia.
Defined.

(** C6, counterexample.  Port resolution itself does not fail on an
    ambiguous component: without a port hint [getnodefieldname] returns the
    first of the chiller's two inlet fields, and the branch writer, which
    resolves ports with it, completes normally. *)
Lemma getnodefieldname_selects_silently :
  1 < length (getfieldnamesendswith two_fluid_coil "Inlet_Node_Name")
  /\ getnodefieldname two_fluid_coil "Inlet_Node_Name" None None
     = Ok "Air_Inlet_Node_Name"
  /\ getnodefieldname two_fluid_coil "Inlet_Node_Name" None None
     <> Raise WhichLoopError.
Proof.
  split; [vm_compute; lia|]. split; [reflexivity|discriminate].
Qed.

(** ** Rename propagation *)

Lemma rename_fields_length (ft : string) (rs vals : list value) :
  forall idds, length (fst (rename_fields ft rs vals idds)) = length vals.
Proof.
  induction vals as [|v vals IH]; intros idds; simpl; [reflexivity|].
  destruct idds as [|idd idds]; [reflexivity|].
  destruct (has_type ft idd).
  - destruct (dict rs []); [|reflexivity].
    specialize (IH idds). destruct (rename_fields ft rs vals idds). simpl in *. congruence.
  - specialize (IH idds). destruct (rename_fields ft rs vals idds). simpl in *. congruence.
Qed.

(** A field whose IDD entry is missing or of another type keeps its value,
    whatever the outcome. *)
Lemma rename_fields_frame (ft : string) (rs vals : list value) :
  forall idds i,
    match nth_error idds i with Some idd => has_type ft idd | None => false end = false ->
    nth_error (fst (rename_fields ft rs vals idds)) i = nth_error vals i.
Proof.
  induction vals as [|v vals IH]; intros idds i H; simpl; [reflexivity|].
  destruct idds as [|idd idds]; [reflexivity|].
  destruct i as [|i]; simpl in H.
  - rewrite H. destruct (rename_fields ft rs vals idds). reflexivity.
  - specialize (IH idds i H).
    destruct (has_type ft idd).
    + destruct (dict rs []); [|reflexivity].
      destruct (rename_fields ft rs vals idds). simpl in *. exact IH.
    + destruct (rename_fields ft rs vals idds). simpl in *. exact IH.
Qed.

(** With a dictionary and an IDD entry for every value the pass completes
    and rewrites exactly the fields of the type. *)
Lemma rename_fields_done (ft : string) (rs vals : list value)
    (tempdct : list (string * value)) :
  dict rs [] = Ok tempdct ->
  forall idds, length vals <= length idds ->
    rename_fields ft rs vals idds =
    (map (fun p => if has_type ft (snd p) then renamed tempdct (fst p) else fst p)
         (combine vals idds), None).
Proof.
  intros Hd. induction vals as [|v vals IH]; intros idds Hlen; simpl; [reflexivity|].
  destruct idds as [|idd idds]; simpl in Hlen; [lia|].
  rewrite Hd. rewrite (IH idds) by lia. simpl.
  destruct (has_type ft idd); [|reflexivity].
  destruct v; reflexivity.
Qed.

Section RenameRelation.
Variables (ft : string) (rs : list value) (Rel : EpBunch -> EpBunch -> Prop).
Hypothesis Rel_refl : forall o, Rel o o.
Hypothesis Rel_step : forall o, Rel o (fst (rename_object ft rs o)).

Lemma Forall2_Rel_refl (os : list EpBunch) : Forall2 Rel os os.
Proof. induction os; constructor; auto. Qed.

Lemma rename_objects_rel (os : list EpBunch) :
  Forall2 Rel os (fst (rename_objects ft rs os)).
Proof.
  induction os as [|o os IH]; simpl; [constructor|].
  pose proof (Rel_step o) as Ho.
  destruct (rename_object ft rs o) as [o' [e|]]; simpl in *.
  - constructor; [exact Ho | apply Forall2_Rel_refl].
  - destruct (rename_objects ft rs os) as [rest e]. simpl in *.
    constructor; assumption.
Qed.

Lemma rename_keys_rel (entries : list (string * list EpBunch)) (k : string) :
  match assoc k entries, assoc k (fst (rename_keys ft rs entries)) with
  | Some os, Some os' => Forall2 Rel os os'
  | None, None => True
  | _, _ => False
  end.
Proof.
  induction entries as [|[key os] entries IH]; simpl; [exact I|].
  pose proof (rename_objects_rel os) as Hos.
  destruct (rename_objects ft rs os) as [os' [e|]]; simpl in *.
  - destruct (String.eqb k key); [exact Hos|].
    destruct (assoc k entries); [apply Forall2_Rel_refl|exact I].
  - destruct (rename_keys ft rs entries) as [rest e]. simpl in *.
    destruct (String.eqb k key); [exact Hos|exact IH].
Qed.

End RenameRelation.

Lemma Forall2_nth_error {A B : Type} (R : A -> B -> Prop) (l : list A) (l' : list B) :
  Forall2 R l l' ->
  forall i a, nth_error l i = Some a -> exists b, nth_error l' i = Some b /\ R a b.
Proof.
  induction 1 as [|x y l l' Hxy _ IH]; intros [|i] a H; simpl in *; try discriminate.
  - inversion H. subst. eauto.
  - eauto.
Qed.

(** Every object is still there after [renamenodes], related to what it
    was by any relation that one object's pass establishes. *)
Lemma renamenodes_lookup_rel (ft : string) (Rel : EpBunch -> EpBunch -> Prop)
    (d : IDF) (r : ref) (o : EpBunch) :
  (forall o, Rel o o) ->
  (forall o, Rel o (fst (rename_object ft (collect_renameds d) o))) ->
  lookup r d = Some o ->
  exists o', lookup r (snd (renamenodes ft d)) = Some o' /\ Rel o o'.
Proof.
  intros Hrefl Hstep Hl. unfold renamenodes.
  pose proof (rename_keys_rel ft (collect_renameds d) Rel Hrefl Hstep
                (idfobjects d) (fst r)) as H.
  destruct (rename_keys ft (collect_renameds d) (idfobjects d)) as [entries e].
  simpl in *. unfold lookup in *. simpl.
  destruct (assoc (fst r) (idfobjects d)) as [os|]; [|discriminate].
  destruct (assoc (fst r) entries) as [os'|]; [|contradiction].
  eapply Forall2_nth_error; eauto.
Qed.

(** C10.  [renamenodes(idf, fieldtype)] leaves every field whose schema type
    is not [fieldtype] as it was, be its value a staged pair or a plain
    value that equals a staged old identifier, and whether or not the call
    completes; objects keep their attribute names and IDD entries. *)
Theorem renamenodes_other_types_unchanged (fieldtype : string) (d : IDF) (r : ref)
    (o : EpBunch) (i : nat) :
  lookup r d = Some o ->
  field_has_type fieldtype o i = false ->
  exists o',
    lookup r (snd (renamenodes fieldtype d)) = Some o'
    /\ nth_error (obj o') i = nth_error (obj o) i
    /\ objls o' = objls o /\ objidd o' = objidd o.
Proof.
  intros Hl Ht.
  destruct (renamenodes_lookup_rel fieldtype
              (fun a b => objls b = objls a /\ objidd b = objidd a /\
                          forall j, field_has_type fieldtype a j = false ->
                                    nth_error (obj b) j = nth_error (obj a) j)
              d r o) as (o' & Hl' & Hls & Hidd & Hf); auto.
  - intros a. unfold rename_object.
    pose proof (rename_fields_frame fieldtype (collect_renameds d) (obj a) (objidd a)) as H.
    destruct (rename_fields fieldtype (collect_renameds d) (obj a) (objidd a)) as [vals e].
    simpl in *. auto.
  - exists o'. auto.
Qed.

Lemma existsb_value_eqb (v : value) (l : list value) :
  existsb (value_eqb v) l = true <-> In v l.
Proof.
  rewrite existsb_exists. split.
  - intros (x & Hx & He). apply value_eqb_eq in He. congruence.
  - intros H. exists v. split; [exact H | apply value_eqb_refl].
Qed.

Lemma In_fold_gather (l : list value) :
  forall acc v, In v (fold_left gather l acc) <-> In v acc \/ (In v l /\ is_list v = true).
Proof.
  induction l as [|x l IH]; intros acc v; simpl; [tauto|].
  rewrite IH. unfold gather. destruct (is_list x) eqn:Ex.
  - destruct (existsb (value_eqb x) acc) eqn:Ee.
    + apply existsb_value_eqb in Ee. split; [tauto|].
      intros [H|[[H|H] Hv]]; subst; auto.
    + rewrite in_app_iff. simpl. split.
      * intros [[H|[H|[]]]|H]; subst; auto. tauto.
      * intros [H|[[H|H] Hv]]; subst; auto.
  - split; [tauto|]. intros [H|[[H|H] Hv]]; subst; auto. congruence.
Qed.

Lemma In_collect_renameds (d : IDF) (v : value) :
  In v (collect_renameds d) <-> In v (all_values d) /\ is_list v = true.
Proof.
  unfold collect_renameds. rewrite In_fold_gather. simpl. tauto.
Qed.

Lemma dict_total (rs : list value) :
  Forall keyed rs -> forall acc, exists t, dict rs acc = Ok t.
Proof.
  induction 1 as [|v rs (s & n & ->) _ IH]; intros acc; simpl; eauto.
Qed.

Lemma dict_Ok_keyed (rs : list value) :
  forall acc t, dict rs acc = Ok t -> Forall keyed rs.
Proof.
  induction rs as [|v rs IH]; intros acc t H; [constructor|].
  simpl in H. destruct v as [s|[s|] n]; try discriminate.
  constructor; [exists s, n; reflexivity | eapply IH; eauto].
Qed.

(** An entry of the dictionary comes from a pair of the list (or from the
    entries it started with), and every key of the list is in it. *)
Lemma dict_get_In (rs : list value) :
  forall acc t s n, dict rs acc = Ok t -> dict_get s t = Some n ->
    In (VPair (VStr s) n) rs \/ dict_get s acc = Some n.
Proof.
  induction rs as [|v rs IH]; intros acc t s n H Hg; simpl in H.
  - inversion H. subst. auto.
  - destruct v as [k|[k|] w]; try discriminate.
    destruct (IH _ _ _ _ H Hg) as [Hi|Hi]; [left; right; exact Hi|].
    unfold dict_get in Hi. simpl in Hi.
    destruct (String.eqb s k) eqn:E.
    + apply String.eqb_eq in E. inversion Hi. subst. left. left. reflexivity.
    + right. exact Hi.
Qed.

Lemma dict_get_key (rs : list value) :
  forall acc t s, dict rs acc = Ok t ->
    (exists n, In (VPair (VStr s) n) rs) \/ dict_get s acc <> None ->
    dict_get s t <> None.
Proof.
  induction rs as [|v rs IH]; intros acc t s H Hs; simpl in H.
  - inversion H. subst. destruct Hs as [(n & [])|Hs]. exact Hs.
  - destruct v as [k|[k|] w]; try discriminate.
    apply (IH _ _ s H). destruct Hs as [(n & [Hn|Hn])|Hs].
    + inversion Hn. subst. right. unfold dict_get. simpl.
      rewrite String.eqb_refl. discriminate.
    + left. eauto.
    + right. unfold dict_get in *. simpl. destruct (String.eqb s k); [discriminate|exact Hs].
Qed.

Lemma rename_objects_done (ft : string) (rs : list value)
    (tempdct : list (string * value)) (os : list EpBunch) :
  dict rs [] = Ok tempdct ->
  forallb wf_object os = true ->
  rename_objects ft rs os = (map (renamed_object ft tempdct) os, None).
Proof.
  intros Hd. induction os as [|o os IH]; simpl; [reflexivity|].
  intros H. apply andb_true_iff in H. destruct H as [Ho Hos].
  unfold wf_object in Ho. apply andb_true_iff in Ho. destruct Ho as [_ Hlen].
  apply Nat.leb_le in Hlen.
  unfold rename_object. rewrite (rename_fields_done ft rs (obj o) tempdct Hd _ Hlen).
  rewrite (IH Hos). reflexivity.
Qed.

Lemma rename_keys_done (ft : string) (rs : list value)
    (tempdct : list (string * value)) (entries : list (string * list EpBunch)) :
  dict rs [] = Ok tempdct ->
  forallb (fun entry => forallb wf_object (snd entry)) entries = true ->
  rename_keys ft rs entries =
  (map (fun entry => (fst entry, map (renamed_object ft tempdct) (snd entry))) entries, None).
Proof.
  intros Hd. induction entries as [|[k os] entries IH]; simpl; [reflexivity|].
  intros H. apply andb_true_iff in H. destruct H as [Ho Hos].
  rewrite (rename_objects_done ft rs tempdct os Hd Ho), (IH Hos). reflexivity.
Qed.

Lemma assoc_map_snd {A B : Type} (f : A -> B) (k : string) (l : list (string * A)) :
  assoc k (map (fun entry => (fst entry, f (snd entry))) l) = option_map f (assoc k l).
Proof.
  induction l as [|[k' a] l IH]; simpl; [reflexivity|].
  destruct (String.eqb k k'); [reflexivity | exact IH].
Qed.

Lemma In_all_values (d : IDF) (r : ref) (o : EpBunch) (i : nat) (v : value) :
  lookup r d = Some o -> nth_error (obj o) i = Some v -> In v (all_values d).
Proof.
  unfold lookup, all_values. intros Hl Hv.
  destruct (assoc (fst r) (idfobjects d)) as [os|] eqn:E; [|discriminate].
  apply in_flat_map. exists (fst r, os). split.
  - clear Hl. induction (idfobjects d) as [|[k os'] l IH]; simpl in *; [discriminate|].
    destruct (String.eqb (fst r) k) eqn:Ek.
    + apply String.eqb_eq in Ek. inversion E. subst. left. reflexivity.
    + right. auto.
  - simpl. apply in_flat_map. exists o. split; eapply nth_error_In; eauto.
Qed.

Lemma wf_doc_flat (d : IDF) (v : value) :
  wf_doc d = true -> In v (all_values d) -> flat v = true.
Proof.
  unfold wf_doc, all_values. intros H Hv.
  apply in_flat_map in Hv. destruct Hv as (entry & He & Hv).
  apply in_flat_map in Hv. destruct Hv as (o & Ho & Hv).
  rewrite forallb_forall in H. specialize (H _ He).
  rewrite forallb_forall in H. specialize (H _ Ho).
  unfold wf_object in H. apply andb_true_iff in H. destruct H as [H _].
  rewrite forallb_forall in H. auto.
Qed.

Lemma flat_list_keyed (v : value) : flat v = true -> is_list v = true -> keyed v.
Proof.
  destruct v as [s|[s|] n]; simpl; try discriminate. intros _ _. exists s, n. reflexivity.
Qed.

(** C2, as amended.  On a document whose staged values are pairs of plain
    strings and whose objects have an IDD entry per value, one call of
    [renamenodes(idf, 'node')] completes, and afterwards every field of
    schema type 'node' holds a plain string: the new identifier of its
    pair if it held a staged pair; a new identifier staged for its value if
    its plain value was a staged old identifier; its value otherwise. *)
Theorem renamenodes_propagates (d : IDF) :
  wf_doc d = true ->
  exists d',
    renamenodes "node" d = (Ok tt, d')
    /\ forall r o i v,
         lookup r d = Some o ->
         field_has_type "node" o i = true ->
         nth_error (obj o) i = Some v ->
         exists o' s',
           lookup r d' = Some o'
           /\ nth_error (obj o') i = Some (VStr s')
           /\ match v with
              | VPair _ new => new = VStr s'
              | VStr s =>
                  ((exists new, staged d s new) -> staged d s (VStr s'))
                  /\ ((~ exists new, staged d s new) -> s' = s)
              end.
Proof.
  intros Hwf.
  assert (Hkeyed : Forall keyed (collect_renameds d)).
  { apply Forall_forall. intros v Hv. apply In_collect_renameds in Hv.
    destruct Hv as [Hv Hl]. apply flat_list_keyed; [|exact Hl].
    eapply wf_doc_flat; eauto. }
  destruct (dict_total _ Hkeyed []) as [t Ht].
  eexists. split.
  - unfold renamenodes. rewrite (rename_keys_done "node" _ t _ Ht Hwf). reflexivity.
  - intros r o i v Hl Hty Hv.
    unfold lookup in *. simpl.
    rewrite (assoc_map_snd (map (renamed_object "node" t))).
    destruct (assoc (fst r) (idfobjects d)) as [os|] eqn:E; [|discriminate].
    simpl. rewrite nth_error_map, Hl. simpl.
    unfold field_has_type in Hty.
    destruct (nth_error (objidd o) i) as [idd|] eqn:Ei; [|discriminate].
    assert (Hc : nth_error (combine (obj o) (objidd o)) i = Some (v, idd)).
    { clear - Hv Ei. revert i Hv Ei. generalize (objidd o). induction (obj o) as [|x l IH];
        intros [|y idds] [|i] Hv Ei; simpl in *; try discriminate.
      - congruence.
      - auto. }
    assert (Hin : In v (all_values d)).
    { apply (In_all_values d r o i v); [|exact Hv]. unfold lookup. rewrite E. exact Hl. }
    pose proof (wf_doc_flat d v Hwf Hin) as Hflat.
    assert (Hres : exists s', renamed t v = VStr s'
              /\ match v with
                 | VPair _ new => new = VStr s'
                 | VStr s => ((exists new, staged d s new) -> staged d s (VStr s'))
                             /\ ((~ exists new, staged d s new) -> s' = s)
                 end).
    { destruct v as [s|[a|] [b|]]; simpl in Hflat; try discriminate.
      - simpl. destruct (dict_get s t) as [n|] eqn:Eg.
        + destruct (dict_get_In _ _ _ _ _ Ht Eg) as [Hn|Hn]; [|discriminate].
          apply In_collect_renameds in Hn. destruct Hn as [Hn _].
          pose proof (wf_doc_flat d _ Hwf Hn) as Hf. simpl in Hf.
          destruct n as [s'|]; [|discriminate].
          exists s'. split; [reflexivity|]. split; [intros _; exact Hn|].
          intros Hno. exfalso. apply Hno. exists (VStr s'). exact Hn.
        + exists s. split; [reflexivity|]. split; [|reflexivity].
          intros (new & Hnew). exfalso.
          apply (dict_get_key _ _ _ s Ht); [|exact Eg].
          left. exists new. apply In_collect_renameds. split; [exact Hnew|reflexivity].
      - exists b. split; reflexivity. }
    destruct Hres as (s' & Hr & Hm).
    exists (renamed_object "node" t o), s'. split; [reflexivity|]. split; [|exact Hm].
    unfold renamed_object. simpl. rewrite nth_error_map, Hc. simpl.
    rewrite Hty, Hr. reflexivity.
Qed.

(** C2, witness: on [staged_doc] the call completes and the node fields of
    the pipe end up plain. *)
Lemma renamenodes_propagates_witness :
  wf_doc staged_doc = true
  /\ exists d',
       renamenodes "node" staged_doc = (Ok tt, d')
       /\ forall r o i v,
            lookup r staged_doc = Some o ->
            field_has_type "node" o i = true ->
            nth_error (obj o) i = Some v ->
            exists o' s',
              lookup r d' = Some o'
              /\ nth_error (obj o') i = Some (VStr s')
              /\ match v with
                 | VPair _ new => new = VStr s'
                 | VStr s =>
                     ((exists new, staged staged_doc s new) -> staged staged_doc s (VStr s'))
                     /\ ((~ exists new, staged staged_doc s new) -> s' = s)
                 end.
Proof.
  split; [reflexivity|].
  apply (renamenodes_propagates staged_doc). reflexivity.
Defined.

(** C2, counterexample.  The pipe's [Name], which is not a node field, holds
    the plain value [n1]; [n1] is a staged old identifier; after the call
    the field still holds [n1], which is not a new identifier staged for it. *)
Lemma renamenodes_skips_other_types :
  fst (renamenodes "node" staged_doc) = Ok tt
  /\ read staged_doc ("PIPE:ADIABATIC", 0) "Name" = Ok (VStr "n1")
  /\ staged staged_doc "n1" (VStr "n2")
  /\ read (snd (renamenodes "node" staged_doc)) ("PIPE:ADIABATIC", 0) "Name"
     = Ok (VStr "n1")
  /\ ~ staged staged_doc "n1" (VStr "n1").
Proof.
  repeat split; try reflexivity.
  - unfold staged. simpl. auto.
  - unfold staged. simpl. intros H.
    repeat (destruct H as [H|H]; [discriminate|]). exact H.
Qed.

(** C10, witness: the name of the branch list of [staged_doc] is not a node
    field and holds a staged pair; it is left as it is. *)
Lemma renamenodes_other_types_unchanged_witness :
  lookup ("BRANCHLIST", 0) staged_doc = Some staged_branchlist
  /\ field_has_type "node" staged_branchlist 1 = false
  /\ exists o',
       lookup ("BRANCHLIST", 0) (snd (renamenodes "node" staged_doc)) = Some o'
       /\ nth_error (obj o') 1 = nth_error (obj staged_branchlist) 1
       /\ objls o' = objls staged_branchlist /\ objidd o' = objidd staged_branchlist.
Proof.
  split; [reflexivity|]. split; [reflexivity|].
  apply (renamenodes_other_types_unchanged "node" staged_doc ("BRANCHLIST", 0)
           staged_branchlist 1); reflexivity.
Defined.

(** ** Branch writer *)

Lemma obj_append_run (r : ref) (v : value) (d : IDF) (o : EpBunch) :
  lookup r d = Some o ->
  obj_append r v d = (Ok tt, store r (mkEpBunch (obj o ++ [v]) (objls o) (objidd o)) d).
Proof. intros H. unfold obj_append. rewrite bind_deref, H. reflexivity. Qed.

Lemma obj_append_Ok (r : ref) (v : value) (d d' : IDF) :
  obj_append r v d = (Ok tt, d') ->
  exists o, lookup r d = Some o
            /\ d' = store r (mkEpBunch (obj o ++ [v]) (objls o) (objidd o)) d.
Proof.
  unfold obj_append. rewrite bind_deref. destruct (lookup r d) as [o|]; [|discriminate].
  intros H. inversion H. eauto.
Qed.

Lemma read_store_neq (d : IDF) (r r' : ref) (o : EpBunch) (f : string) :
  r <> r' -> read (store r o d) r' f = read d r' f.
Proof. intros H. unfold read. rewrite lookup_store_neq by exact H. reflexivity. Qed.

(** One component appended: five values at the end of the branch, which are
    the component's entry when the component is not the branch itself. *)
Lemma append_component_run (b : ref) (fluid : option string) (c : component)
    (d1 d2 : IDF) (ob : EpBunch) :
  lookup b d1 = Some ob ->
  append_component b fluid c d1 = (Ok tt, d2) ->
  exists k n vi vo,
    d2 = store b (mkEpBunch (obj ob ++ [k; n; vi; vo; VStr ""]) (objls ob) (objidd ob)) d1
    /\ (fst c <> b -> component_entry d1 fluid c = Some [k; n; vi; vo; VStr ""]).
Proof.
  destruct c as [comp hint]. intros Hb H. unfold append_component in H.
  rewrite bind_getattr in H. destruct (read d1 comp "key") as [k|] eqn:Ek; [|discriminate].
  rewrite (bind_run _ _ _ _ _ (obj_append_run _ _ _ _ Hb)) in H.
  set (o1 := mkEpBunch (obj ob ++ [k]) (objls ob) (objidd ob)) in *.
  assert (Hb1 : lookup b (store b o1 d1) = Some o1) by (eapply lookup_store_eq; eauto).
  rewrite bind_getattr in H.
  destruct (read (store b o1 d1) comp "Name") as [n|] eqn:En; [|discriminate].
  rewrite (bind_run _ _ _ _ _ (obj_append_run _ _ _ _ Hb1)), store_store in H.
  set (o2 := mkEpBunch (obj o1 ++ [n]) (objls o1) (objidd o1)) in *.
  assert (Hb2 : lookup b (store b o2 d1) = Some o2) by (eapply lookup_store_eq; eauto).
  rewrite bind_resolve in H.
  destruct (lookup comp (store b o2 d1)) as [oc2|] eqn:Ec2; [|discriminate].
  destruct (getnodefieldname oc2 "Inlet_Node_Name" fluid hint) as [fi|] eqn:Efi; [|discriminate].
  rewrite bind_getattr in H.
  destruct (read (store b o2 d1) comp fi) as [vi|] eqn:Evi; [|discriminate].
  rewrite (bind_run _ _ _ _ _ (obj_append_run _ _ _ _ Hb2)), store_store in H.
  set (o3 := mkEpBunch (obj o2 ++ [vi]) (objls o2) (objidd o2)) in *.
  assert (Hb3 : lookup b (store b o3 d1) = Some o3) by (eapply lookup_store_eq; eauto).
  rewrite bind_resolve in H.
  destruct (lookup comp (store b o3 d1)) as [oc3|] eqn:Ec3; [|discriminate].
  destruct (getnodefieldname oc3 "Outlet_Node_Name" fluid hint) as [fo|] eqn:Efo; [|discriminate].
  rewrite bind_getattr in H.
  destruct (read (store b o3 d1) comp fo) as [vo|] eqn:Evo; [|discriminate].
  rewrite (bind_run _ _ _ _ _ (obj_append_run _ _ _ _ Hb3)), store_store in H.
  set (o4 := mkEpBunch (obj o3 ++ [vo]) (objls o3) (objidd o3)) in *.
  assert (Hb4 : lookup b (store b o4 d1) = Some o4) by (eapply lookup_store_eq; eauto).
  rewrite (obj_append_run _ _ _ _ Hb4), store_store in H.
  exists k, n, vi, vo. split.
  - inversion H. subst o4 o3 o2 o1. simpl. rewrite <- !app_assoc. reflexivity.
  - simpl. intros Hne.
    assert (Hne' : b <> comp) by congruence.
    unfold component_entry. simpl.
    rewrite lookup_store_neq in Ec2, Ec3 by exact Hne'.
    rewrite read_store_neq in En, Evi, Evo by exact Hne'.
    rewrite Ec2 in Ec3. inversion Ec3. subst oc3.
    unfold read in Ek, En, Evi, Evo. rewrite Ec2 in *.
    rewrite Ek, En, Efi, Efo, Evi, Evo. reflexivity.
Qed.

Lemma component_entry_ext (d d0 : IDF) (fluid : option string) (c : component) :
  lookup (fst c) d = lookup (fst c) d0 ->
  component_entry d fluid c = component_entry d0 fluid c.
Proof. intros H. unfold component_entry. rewrite H. reflexivity. Qed.

Lemma append_components_run (b : ref) (fluid : option string) (d0 : IDF)
    (comps : list component) :
  forall (d1 d2 : IDF) (ob : EpBunch),
    lookup b d1 = Some ob ->
    (forall r, r <> b -> lookup r d1 = lookup r d0) ->
    for_each comps (append_component b fluid) d1 = (Ok tt, d2) ->
    exists blocks,
      lookup b d2 = Some (mkEpBunch (obj ob ++ concat blocks) (objls ob) (objidd ob))
      /\ (forall r, r <> b -> lookup r d2 = lookup r d0)
      /\ Forall2 (block_of d0 fluid b) comps blocks.
Proof.
  induction comps as [|c comps IH]; intros d1 d2 ob Hb Hframe H; simpl in H.
  - inversion H. subst d2. exists []. simpl. rewrite app_nil_r.
    split; [|split; [exact Hframe|constructor]].
    rewrite Hb. destruct ob; reflexivity.
  - apply bind_Ok_inv in H. destruct H as ([] & dm & Hc & Hrest).
    destruct (append_component_run b fluid c d1 dm ob Hb Hc) as (k & n & vi & vo & -> & Hentry).
    set (o1 := mkEpBunch (obj ob ++ [k; n; vi; vo; VStr ""]) (objls ob) (objidd ob)) in *.
    assert (Hb1 : lookup b (store b o1 d1) = Some o1) by (eapply lookup_store_eq; eauto).
    assert (Hframe1 : forall r, r <> b -> lookup r (store b o1 d1) = lookup r d0).
    { intros r Hr. rewrite lookup_store_neq by congruence. auto. }
    destruct (IH _ d2 _ Hb1 Hframe1 Hrest) as (blocks & Hb2 & Hframe2 & Hblocks).
    exists ([k; n; vi; vo; VStr ""] :: blocks). split; [|split].
    + rewrite Hb2. subst o1. simpl. rewrite <- app_assoc. reflexivity.
    + exact Hframe2.
    + constructor; [|exact Hblocks].
      split; [reflexivity|]. split; [reflexivity|].
      intros Hne. rewrite <- (Hentry Hne). symmetry. apply component_entry_ext.
      apply Hframe. exact Hne.
Qed.

Lemma find_index_Some {A : Type} (p : A -> bool) (l : list A) (i : nat) :
  find_index p l = Some i -> exists x, nth_error l i = Some x /\ p x = true.
Proof.
  revert i. induction l as [|y l IH]; simpl; [discriminate|].
  destruct (p y) eqn:E; intros i H.
  - inversion H. subst. simpl. eauto.
  - destruct (find_index p l); [|discriminate]. inversion H. subst. simpl. auto.
Qed.

Lemma find_index_list_set {A : Type} (p : A -> bool) (l : list A) (i : nat) (a : A) :
  find_index p l = Some i -> p a = true -> find_index p (list_set i a l) = Some i.
Proof.
  revert i. induction l as [|y l IH]; simpl; [discriminate|].
  destruct (p y) eqn:E; intros i H Ha.
  - inversion H. subst. simpl. rewrite Ha. reflexivity.
  - destruct (find_index p l) as [j|] eqn:Ej; [|discriminate].
    inversion H. subst. simpl. rewrite E, (IH j eq_refl Ha). reflexivity.
Qed.

Lemma nth_firstn_lt {A : Type} (j e : nat) (l : list A) (dflt : A) :
  j < e -> nth j (firstn e l) dflt = nth j l dflt.
Proof.
  revert j e. induction l as [|x l IH]; intros j e H.
  - rewrite firstn_nil. reflexivity.
  - destruct e as [|e]; [lia|]. destruct j as [|j]; simpl; [reflexivity|].
    apply IH. lia.
Qed.

Lemma length_concat_blocks {A : Type} (R : A -> list value -> Prop)
    (cs : list A) (blocks : list (list value)) :
  Forall2 R cs blocks -> (forall c blk, R c blk -> length blk = 5) ->
  length (concat blocks) = 5 * length cs.
Proof.
  intros H HR. induction H as [|c blk cs blocks Hc _ IH]; simpl; [reflexivity|].
  rewrite length_app, IH, (HR _ _ Hc). lia.
Qed.

(** C3.  When [componentsintobranch] returns, the branch of that name has
    lost its former extensible entries, its fixed fields are as they were
    (padded with blanks up to the extensible position), and its extensible
    block is exactly five values per component, in list order: the
    component's key, name, resolved inlet node, resolved outlet node, and a
    blank branch control type. *)
Theorem componentsintobranch_writes (d d' : IDF) (branch b : ref)
    (comps : list component) (fluid : option string) :
  forallb name_before_extensible (objects_of "BRANCH" d) = true ->
  componentsintobranch branch comps fluid d = (Ok b, d') ->
  exists o0 o' e blocks,
    lookup b d = Some o0
    /\ fst b = "BRANCH"
    /\ read d branch "Name" = getitem o0 "Name"
    /\ first_extensible (objidd o0) = Some e
    /\ lookup b d' = Some o'
    /\ firstn e (obj o') = pad (firstn e (obj o0)) e
    /\ skipn e (obj o') = concat blocks
    /\ length (skipn e (obj o')) = 5 * length comps
    /\ Forall2 (block_of d (Some (default_str fluid)) b) comps blocks.
Proof.
  intros Hschema H. unfold componentsintobranch in H.
  rewrite bind_getattr in H.
  destruct (read d branch "Name") as [name|] eqn:Ename; [|discriminate].
  (* removeextensibles *)
  apply bind_Ok_inv in H. destruct H as (rb & dR & Hrem & H).
  unfold removeextensibles in Hrem.
  apply bind_Ok_inv in Hrem. destruct Hrem as (ob & d1 & Hget & Hrem).
  unfold getobject in Hget.
  destruct (assoc "BRANCH" (idfobjects d)) as [os|] eqn:Eos; [|discriminate].
  inversion Hget. subst ob d1. clear Hget.
  destruct (find_index (has_name name) os) as [i|] eqn:Ei.
  2:{ simpl in Hrem. inversion Hrem. subst rb dR.
      apply bind_Ok_inv in H. destruct H as (x & d1 & _ & H). discriminate. }
  simpl in Hrem. rewrite bind_deref in Hrem.
  destruct (find_index_Some _ _ _ Ei) as (o0 & Ho0 & Hname).
  assert (Hl0 : lookup ("BRANCH", i) d = Some o0)
    by (unfold lookup; simpl; rewrite Eos; exact Ho0).
  rewrite Hl0 in Hrem.
  destruct (first_extensible (objidd o0)) as [e|] eqn:Ee.
  2:{ (* no extensible field: [getextensibleindex] has nothing to return *)
      inversion Hrem. subst rb dR.
      apply bind_Ok_inv in H. destruct H as (x & d1 & Hx & H).
      unfold getextensibleindex in Hx. apply bind_Ok_inv in Hx.
      destruct Hx as (y & d2 & Hy & Hx). unfold getobject in Hy. rewrite Eos, Ei in Hy.
      inversion Hy. subst y d2. simpl in Hx. rewrite bind_deref, Hl0, Ee in Hx.
      inversion Hx. subst x d1. discriminate. }
  inversion Hrem. subst rb dR. clear Hrem.
  set (oR := mkEpBunch (firstn e (obj o0)) (objls o0) (objidd o0)) in *.
  set (b0 := ("BRANCH", i)) in *.
  assert (HlR : lookup b0 (store b0 oR d) = Some oR) by (eapply lookup_store_eq; eauto).
  (* the name survives the cut *)
  assert (HnameR : has_name name oR = true).
  { unfold has_name, getitem in *. simpl.
    assert (Hin : In o0 (objects_of "BRANCH" d))
      by (unfold objects_of; rewrite Eos; eapply nth_error_In; eauto).
    rewrite forallb_forall in Hschema. specialize (Hschema _ Hin).
    unfold name_before_extensible in Hschema. rewrite Ee in Hschema.
    destruct (index_of "Name" (objls o0)) as [j|]; [|discriminate].
    apply Nat.ltb_lt in Hschema. rewrite nth_firstn_lt by exact Hschema. exact Hname. }
  (* getextensibleindex *)
  apply bind_Ok_inv in H. destruct H as (ei & d1 & Hgei & H).
  unfold getextensibleindex in Hgei.
  apply bind_Ok_inv in Hgei. destruct Hgei as (ob & d2 & Hget & Hgei).
  unfold getobject in Hget.
  assert (EosR : assoc "BRANCH" (idfobjects (store b0 oR d)) = Some (list_set i oR os)).
  { unfold store. simpl. rewrite Eos. simpl. apply assoc_set_eq. congruence. }
  rewrite EosR, (find_index_list_set _ _ _ _ Ei HnameR) in Hget.
  inversion Hget. subst ob d2. clear Hget. simpl in Hgei.
  fold b0 in Hgei. rewrite bind_deref, HlR in Hgei.
  inversion Hgei. subst ei d1. clear Hgei. simpl in H. rewrite Ee in H.
  (* extendlist, then the loop *)
  apply bind_Ok_inv in H. destruct H as ([] & dE & Hext & H).
  unfold extendlist in Hext. rewrite bind_deref, HlR in Hext.
  inversion Hext. subst dE. clear Hext. rewrite store_store in H.
  set (oE := mkEpBunch (pad (obj oR) e) (objls oR) (objidd oR)) in *.
  assert (HlE : lookup b0 (store b0 oE d) = Some oE) by (eapply lookup_store_eq; eauto).
  apply bind_Ok_inv in H. destruct H as ([] & dL & Hloop & H).
  inversion H. subst b d'. clear H.
  assert (HframeE : forall r, r <> b0 -> lookup r (store b0 oE d) = lookup r d).
  { intros r Hr. apply lookup_store_neq. congruence. }
  destruct (append_components_run b0 (Some (default_str fluid)) d comps _ dL _
              HlE HframeE Hloop) as (blocks & HbL & _ & Hblocks).
  assert (Hlen : length (pad (firstn e (obj o0)) e) = e).
  { rewrite length_pad, length_firstn. lia. }
  exists o0, (mkEpBunch (obj oE ++ concat blocks) (objls oE) (objidd oE)), e, blocks.
  split; [exact Hl0|]. split; [reflexivity|]. split.
  { unfold has_name in Hname. destruct (getitem o0 "Name") as [n|]; [|discriminate].
    apply value_eqb_eq in Hname. congruence. }
  split; [exact Ee|]. split; [exact HbL|]. simpl.
  split; [|split; [|split]].
  - rewrite firstn_app, Hlen, Nat.sub_diag. simpl. rewrite app_nil_r.
    rewrite <- Hlen at 1. apply firstn_all.
  - rewrite skipn_app, Hlen, Nat.sub_diag. simpl.
    rewrite <- Hlen at 1. rewrite skipn_all. reflexivity.
  - rewrite skipn_app, Hlen, Nat.sub_diag. simpl.
    rewrite <- Hlen at 1. rewrite skipn_all. simpl.
    eapply length_concat_blocks; [exact Hblocks|]. intros c blk Hb. apply Hb.
  - exact Hblocks.
Qed.

(** C3, witness: the two chained pipes written into the first supply branch
    of the sample plant loop. *)
Lemma componentsintobranch_writes_witness :
  forallb name_before_extensible (objects_of "BRANCH" chained_doc) = true
  /\ componentsintobranch ("BRANCH", 0) [(np1, None); (np2, None)] None chained_doc
     = (Ok ("BRANCH", 0),
        snd (componentsintobranch ("BRANCH", 0) [(np1, None); (np2, None)] None chained_doc))
  /\ exists o0 o' e blocks,
       lookup ("BRANCH", 0) chained_doc = Some o0
       /\ fst ("BRANCH", 0) = "BRANCH"
       /\ read chained_doc ("BRANCH", 0) "Name" = getitem o0 "Name"
       /\ first_extensible (objidd o0) = Some e
       /\ lookup ("BRANCH", 0)
            (snd (componentsintobranch ("BRANCH", 0) [(np1, None); (np2, None)] None
                    chained_doc)) = Some o'
       /\ firstn e (obj o') = pad (firstn e (obj o0)) e
       /\ skipn e (obj o') = concat blocks
       /\ length (skipn e (obj o')) = 5 * length [(np1, @None string); (np2, None)]
       /\ Forall2 (block_of chained_doc (Some (default_str None)) ("BRANCH", 0))
            [(np1, None); (np2, None)] blocks.
Proof.
  split; [vm_compute; reflexivity|]. split; [vm_compute; reflexivity|].
  apply (componentsintobranch_writes chained_doc _ ("BRANCH", 0) ("BRANCH", 0)
           [(np1, None); (np2, None)] None); vm_compute; reflexivity.
Defined.

(** ** Component chainer *)

Lemma trimfields_Ok (r : ref) (inletfields fields l : list string)
    (thisnode : option string) (d d' : IDF) :
  trimfields r inletfields fields thisnode d = (Ok l, d') ->
  d' = d /\ incl l fields.
Proof.
  unfold trimfields. destruct (1 <? length fields).
  - destruct thisnode as [hint|].
    + intros H. inversion H. split; [reflexivity|]. apply incl_filter.
    + intros H.
      apply bind_Ok_inv in H. destruct H as (? & ? & _ & H).
      apply bind_Ok_inv in H. destruct H as (? & ? & _ & H).
      apply bind_Ok_inv in H. destruct H as (? & ? & _ & H).
      apply bind_Ok_inv in H. destruct H as (? & ? & _ & H).
      apply bind_Ok_inv in H. destruct H as (? & ? & _ & H).
      discriminate.
  - intros H. inversion H. split; [reflexivity | apply incl_refl].
Qed.

Lemma setattr_Ok (r : ref) (f : string) (v : value) (d d' : IDF) :
  setattr r f v d = (Ok tt, d') ->
  exists o o', lookup r d = Some o /\ setitem o f v = Ok o' /\ d' = store r o' d.
Proof.
  unfold setattr. rewrite bind_deref. destruct (lookup r d) as [o|]; [|discriminate].
  unfold bind, lift. destruct (setitem o f v) as [o'|] eqn:Es; [|discriminate].
  intros H. inversion H. exists o, o'. auto.
Qed.

(** A completed [init_fields] with [force=False]: one write of the object,
    which leaves alone the fields outside the list and the non-blank ones. *)
Lemma init_fields_Ok (r : ref) (fields : list string) :
  forall (d d' : IDF) (o : EpBunch),
    lookup r d = Some o ->
    init_fields r fields false d = (Ok tt, d') ->
    exists o',
      d' = store r o' d
      /\ objls o' = objls o /\ objidd o' = objidd o
      /\ (forall g, ~ In g fields -> getitem o' g = getitem o g)
      /\ (forall g v, getitem o g = Ok v -> blankfield v = false -> getitem o' g = Ok v).
Proof.
  induction fields as [|f fields IH]; intros d d' o Hl H.
  - unfold init_fields in H. simpl in H. inversion H. subst d'.
    exists o. rewrite (store_same _ _ _ Hl). auto.
  - change (init_fields r (f :: fields) false)
      with (bind ((fun field =>
                     bind (getattr r field) (fun v =>
                       if blankfield v || false then
                         bind (getattr r "Name") (fun n =>
                           setattr r field (VStr (pystr n +++ "_" +++ field)))
                       else ret tt)) f)
                 (fun _ => init_fields r fields false)) in H.
    cbv beta in H. apply bind_Ok_inv in H. destruct H as ([] & d1 & Hf & Hrest).
    rewrite bind_getattr, (read_lookup _ _ _ _ Hl) in Hf.
    destruct (getitem o f) as [v|] eqn:Ev; [|discriminate].
    rewrite orb_false_r in Hf. destruct (blankfield v) eqn:Eb.
    + rewrite bind_getattr, (read_lookup _ _ _ _ Hl) in Hf.
      destruct (getitem o "Name") as [n|]; [|discriminate].
      apply setattr_Ok in Hf. destruct Hf as (o0 & o1 & Hl0 & Ho1 & ->).
      rewrite Hl in Hl0. inversion Hl0. subst o0.
      destruct (setitem_schema _ _ _ _ Ho1) as [Hls Hidd].
      assert (Hl1 : lookup r (store r o1 d) = Some o1) by (eapply lookup_store_eq; eauto).
      destruct (IH _ _ _ Hl1 Hrest) as (o' & -> & Hls' & Hidd' & Hout & Hkeep).
      exists o'. rewrite store_store. split; [reflexivity|].
      split; [congruence|]. split; [congruence|]. split.
      * intros g Hg. rewrite Hout by (intros Hc; apply Hg; right; exact Hc).
        apply (getitem_setitem_neq _ _ _ _ _ Ho1). intros ->. apply Hg. left. reflexivity.
      * intros g w Hw Hb. apply Hkeep; [|exact Hb].
        rewrite (getitem_setitem_neq _ _ _ _ _ Ho1); [exact Hw|].
        intros ->. congruence.
    + inversion Hf. subst d1.
      destruct (IH _ _ _ Hl Hrest) as (o' & -> & Hls' & Hidd' & Hout & Hkeep).
      exists o'. split; [reflexivity|]. split; [exact Hls'|]. split; [exact Hidd'|].
      split; [|exact Hkeep].
      intros g Hg. apply Hout. intros Hc. apply Hg. right. exact Hc.
Qed.

(** A completed [initinletoutlet] with [force=False]. *)
Lemma initinletoutlet_Ok (r x : ref) (thisnode : option string) (d d' : IDF) :
  initinletoutlet r thisnode false d = (Ok x, d') ->
  exists o o',
    lookup r d = Some o /\ d' = store r o' d
    /\ objls o' = objls o /\ objidd o' = objidd o
    /\ (forall g, node_port g = false -> getitem o' g = getitem o g)
    /\ (forall g v, getitem o g = Ok v -> blankfield v = false -> getitem o' g = Ok v).
Proof.
  unfold initinletoutlet. rewrite bind_deref.
  destruct (lookup r d) as [o|] eqn:Hl; [|discriminate].
  intros H. apply bind_Ok_inv in H. destruct H as (ins & d1 & Htrim & H).
  apply trimfields_Ok in Htrim. destruct Htrim as [-> Hins].
  apply bind_Ok_inv in H. destruct H as ([] & d1 & Hinit & H).
  destruct (init_fields_Ok _ _ _ _ _ Hl Hinit) as (o1 & -> & Hls1 & Hidd1 & Hout1 & Hkeep1).
  assert (Hl1 : lookup r (store r o1 d) = Some o1) by (eapply lookup_store_eq; eauto).
  rewrite bind_deref, Hl1 in H.
  apply bind_Ok_inv in H. destruct H as (outs & d2 & Htrim & H).
  apply trimfields_Ok in Htrim. destruct Htrim as [-> Houts].
  apply bind_Ok_inv in H. destruct H as ([] & d2 & Hinit2 & H).
  destruct (init_fields_Ok _ _ _ _ _ Hl1 Hinit2) as (o2 & -> & Hls2 & Hidd2 & Hout2 & Hkeep2).
  inversion H. subst. rewrite store_store.
  exists o, o2. split; [reflexivity|]. split; [reflexivity|].
  split; [congruence|]. split; [congruence|]. split.
  - intros g Hg. unfold node_port in Hg. apply orb_false_iff in Hg. destruct Hg as [Hi Ho].
    rewrite Hout2, Hout1; [reflexivity| |].
    + intros Hc. apply Hins in Hc. apply In_getfieldnamesendswith in Hc.
      destruct Hc as [_ Hc]. congruence.
    + intros Hc. apply Houts in Hc. apply In_getfieldnamesendswith in Hc.
      destruct Hc as [_ Hc]. congruence.
  - intros g v Hv Hb. apply Hkeep2; [|exact Hb]. apply Hkeep1; assumption.
Qed.

Lemma stage_Ok (r : ref) (f : string) (new : value) (d d' : IDF) :
  stage r f new d = (Ok tt, d') ->
  exists o o' old,
    lookup r d = Some o /\ getitem o f = Ok old
    /\ setitem o f (VPair old new) = Ok o' /\ d' = store r o' d.
Proof.
  unfold stage. rewrite bind_getattr. unfold read.
  destruct (lookup r d) as [o|] eqn:Hl; [|discriminate].
  destruct (getitem o f) as [old|] eqn:Ho; [|discriminate].
  intros H. apply setattr_Ok in H. destruct H as (o0 & o' & Hl0 & Hs & ->).
  rewrite Hl in Hl0. inversion Hl0. subst o0. exists o, o', old. auto.
Qed.

Lemma prefix_both (r a b : string) :
  String.prefix a r = true -> String.prefix b r = true ->
  String.length a <= String.length b -> String.prefix a b = true.
Proof.
  revert a b. induction r as [|c r IH]; intros a b Ha Hb Hlen.
  - destruct a; [destruct b; reflexivity | discriminate].
  - destruct a as [|x a]; [destruct b; reflexivity|].
    destruct b as [|y b]; [simpl in Hlen; lia|].
    simpl in *. destruct (ascii_dec x c) as [->|]; [|discriminate].
    destruct (ascii_dec y c) as [->|]; [|discriminate].
    destruct (ascii_dec c c); [|congruence]. apply IH; auto. lia.
Qed.

Lemma inlet_not_outlet (g : string) :
  PyStr.endswith g "Inlet_Node_Name" = true ->
  PyStr.endswith g "Outlet_Node_Name" = true -> False.
Proof.
  unfold PyStr.endswith. intros H1 H2.
  pose proof (prefix_both _ _ _ H1 H2) as H. simpl in H.
  assert (15 <= 16) as Hle by lia. specialize (H Hle). discriminate.
Qed.

Lemma getnodefieldname_Ok (o : EpBunch) (suffix f : string) (fluid hint : option string) :
  getnodefieldname o suffix fluid hint = Ok f ->
  In f (objls o) /\ PyStr.endswith f suffix = true.
Proof.
  rewrite getnodefieldname_find. cbv zeta.
  set (p1 := fun name => is_candidate suffix hint name
                         && PyStr.contains name (default_str fluid)).
  set (p2 := is_candidate suffix hint).
  assert (Hc : forall x, p2 x = true -> PyStr.endswith x suffix = true).
  { intros x Hx. unfold p2, is_candidate in Hx. apply andb_true_iff in Hx. tauto. }
  destruct (find p1 (objls o)) as [x|] eqn:E1.
  - intros H. inversion H. subst. apply find_some in E1. destruct E1 as [Hin Hx].
    split; [exact Hin|]. apply Hc. unfold p1 in Hx. apply andb_true_iff in Hx. tauto.
  - destruct (find p2 (objls o)) as [x|] eqn:E2; [|intros H; discriminate H].
    intros H. inversion H. subst. apply find_some in E2. destruct E2 as [Hin Hx].
    split; [exact Hin | apply Hc; exact Hx].
Qed.

Lemma getnodefieldname_objls (o o' : EpBunch) (suffix : string) (fluid hint : option string) :
  objls o' = objls o ->
  getnodefieldname o' suffix fluid hint = getnodefieldname o suffix fluid hint.
Proof.
  intros H. unfold getnodefieldname, getfieldnamesendswith. rewrite H. reflexivity.
Qed.

Lemma node_port_Name : node_port "Name" = false.
Proof. reflexivity. Qed.

(** One completed turn of the chainer's loop on two distinct objects. *)
Lemma connect_pair_Ok (fluid : option string) (A B : ref) (hA hB : option string)
    (d d' : IDF) :
  A <> B ->
  connect_pair fluid (A, hA) (B, hB) d = (Ok tt, d') ->
  exists oA oB oA' oB' nA nB fo fi oldo oldi,
    lookup A d = Some oA /\ lookup B d = Some oB
    /\ lookup A d' = Some oA' /\ lookup B d' = Some oB'
    /\ (forall r, r <> A -> r <> B -> lookup r d' = lookup r d)
    /\ objls oA' = objls oA /\ objls oB' = objls oB
    /\ getitem oA "Name" = Ok nA /\ getitem oB "Name" = Ok nB
    /\ (forall g, node_port g = false -> getitem oA' g = getitem oA g)
    /\ (forall g, node_port g = false -> getitem oB' g = getitem oB g)
    /\ getnodefieldname oA "Outlet_Node_Name" fluid hA = Ok fo
    /\ getnodefieldname oB "Inlet_Node_Name" fluid None = Ok fi
    /\ getitem oA' fo = Ok (VPair oldo (VStr (pystr nA +++ "_" +++ pystr nB +++ "_node")))
    /\ getitem oB' fi = Ok (VPair oldi (VStr (pystr nA +++ "_" +++ pystr nB +++ "_node")))
    /\ (forall g v, getitem oA g = Ok v -> blankfield v = false -> g <> fo ->
        getitem oA' g = Ok v)
    /\ (forall g v, getitem oB g = Ok v -> blankfield v = false -> g <> fi ->
        getitem oB' g = Ok v).
Proof.
  intros Hne H. unfold connect_pair in H.
  apply bind_Ok_inv in H. destruct H as (x & d1 & HiA & H).
  apply initinletoutlet_Ok in HiA.
  destruct HiA as (oA & oA1 & HlA & -> & HlsA1 & _ & HnpA1 & HkeepA1).
  apply bind_Ok_inv in H. destruct H as (y & d2 & HiB & H).
  apply initinletoutlet_Ok in HiB.
  destruct HiB as (oB & oB1 & HlB & -> & HlsB1 & _ & HnpB1 & HkeepB1).
  rewrite lookup_store_neq in HlB by exact Hne.
  set (d1 := store A oA1 d) in *. set (d2 := store B oB1 d1) in *.
  assert (HlA1 : lookup A d1 = Some oA1) by (eapply lookup_store_eq; eauto).
  assert (HlB1 : lookup B d1 = Some oB) by (unfold d1; rewrite lookup_store_neq; auto).
  assert (HlB2 : lookup B d2 = Some oB1) by (eapply lookup_store_eq; eauto).
  assert (HlA2 : lookup A d2 = Some oA1)
    by (unfold d2; rewrite lookup_store_neq by congruence; exact HlA1).
  rewrite bind_getattr, (read_lookup _ _ _ _ HlA2) in H.
  destruct (getitem oA1 "Name") as [nA|] eqn:EnA; [|discriminate].
  rewrite bind_getattr, (read_lookup _ _ _ _ HlB2) in H.
  destruct (getitem oB1 "Name") as [nB|] eqn:EnB; [|discriminate].
  rewrite bind_resolve, HlA2 in H.
  destruct (getnodefieldname oA1 "Outlet_Node_Name" fluid hA) as [fo|] eqn:Efo; [|discriminate].
  apply bind_Ok_inv in H. destruct H as ([] & d3 & HsA & H).
  apply stage_Ok in HsA. destruct HsA as (o & oA2 & oldo & Hl & Hold & Hset & ->).
  rewrite HlA2 in Hl. inversion Hl. subst o. clear Hl.
  set (d3 := store A oA2 d2) in *.
  assert (HlA3 : lookup A d3 = Some oA2) by (eapply lookup_store_eq; eauto).
  assert (HlB3 : lookup B d3 = Some oB1)
    by (unfold d3; rewrite lookup_store_neq by exact Hne; exact HlB2).
  rewrite bind_resolve, HlB3 in H.
  destruct (getnodefieldname oB1 "Inlet_Node_Name" fluid None) as [fi|] eqn:Efi; [|discriminate].
  apply stage_Ok in H. destruct H as (o & oB2 & oldi & Hl & Holdi & Hseti & ->).
  rewrite HlB3 in Hl. inversion Hl. subst o. clear Hl.
  destruct (setitem_schema _ _ _ _ Hset) as [HlsA2 _].
  destruct (setitem_schema _ _ _ _ Hseti) as [HlsB2 _].
  destruct (getnodefieldname_Ok _ _ _ _ _ Efo) as [_ Hfo].
  destruct (getnodefieldname_Ok _ _ _ _ _ Efi) as [_ Hfi].
  exists oA, oB, oA2, oB2, nA, nB, fo, fi, oldo, oldi.
  split; [exact HlA|]. split; [exact HlB|].
  split. { rewrite lookup_store_neq by congruence. exact HlA3. }
  split. { eapply lookup_store_eq; eauto. }
  split. { intros r HrA HrB. unfold d3, d2, d1. rewrite !lookup_store_neq by congruence.
           reflexivity. }
  split; [congruence|]. split; [congruence|].
  split. { rewrite <- (HnpA1 "Name" node_port_Name). exact EnA. }
  split. { rewrite <- (HnpB1 "Name" node_port_Name). exact EnB. }
  split. { intros g Hg. rewrite <- (HnpA1 g Hg). apply (getitem_setitem_neq _ _ _ _ _ Hset).
           intros ->. unfold node_port in Hg. rewrite Hfo, orb_true_r in Hg. discriminate. }
  split. { intros g Hg. rewrite <- (HnpB1 g Hg). apply (getitem_setitem_neq _ _ _ _ _ Hseti).
           intros ->. unfold node_port in Hg. rewrite Hfi in Hg. discriminate. }
  split. { rewrite <- (getnodefieldname_objls oA oA1) by exact HlsA1. exact Efo. }
  split. { rewrite <- (getnodefieldname_objls oB oB1) by exact HlsB1. exact Efi. }
  split. { apply (getitem_setitem_eq _ _ _ _ Hset). }
  split. { apply (getitem_setitem_eq _ _ _ _ Hseti). }
  split.
  - intros g v Hv Hb Hg. rewrite (getitem_setitem_neq _ _ _ _ _ Hset) by congruence.
    apply HkeepA1; assumption.
  - intros g v Hv Hb Hg. rewrite (getitem_setitem_neq _ _ _ _ _ Hseti) by congruence.
    apply HkeepB1; assumption.
Qed.

Lemma connect_loop_cons (fluid : option string) (this next : component)
    (rest : list component) :
  connect_loop fluid (this :: next :: rest)
  = bind (connect_pair fluid this next) (fun _ => connect_loop fluid (next :: rest)).
Proof. reflexivity. Qed.

(** What the rest of the chain leaves alone: objects outside it, every
    object's attribute names and fields other than node ports, and the
    non-blank inlet fields of its first component. *)
Lemma connect_loop_keeps (fluid : option string) (cs : list component) :
  forall d d',
    connect_loop fluid cs d = (Ok tt, d') ->
    NoDup (map fst cs) ->
    (forall r, ~ In r (map fst cs) -> lookup r d' = lookup r d)
    /\ (forall r o, lookup r d = Some o ->
          exists o', lookup r d' = Some o' /\ objls o' = objls o
                     /\ forall g, node_port g = false -> getitem o' g = getitem o g)
    /\ (forall H hH rest, cs = (H, hH) :: rest ->
          forall oH g v, lookup H d = Some oH -> getitem oH g = Ok v ->
            blankfield v = false -> PyStr.endswith g "Inlet_Node_Name" = true ->
            exists oH', lookup H d' = Some oH' /\ getitem oH' g = Ok v).
Proof.
  induction cs as [|[A hA] cs IH]; intros d d' H Hnd.
  - inversion H. subst. split; [|split]; eauto; try (intros ? ? ? Hc; discriminate Hc).
  - destruct cs as [|[B hB] rest].
    + inversion H. subst. split; [|split]; eauto;
        try (intros H0 hH rest0 Heq oH g v Hl Hv _ _; inversion Heq; subst; eauto).
    + rewrite connect_loop_cons in H.
      apply bind_Ok_inv in H. destruct H as ([] & d1 & Hpair & Hrest).
      simpl in Hnd. inversion Hnd as [|? ? HnA Hnd']. subst.
      assert (HAB : A <> B) by (intros ->; apply HnA; left; reflexivity).
      destruct (connect_pair_Ok _ _ _ _ _ _ _ HAB Hpair)
        as (oA & oB & oA' & oB' & nA & nB & fo & fi & oldo & oldi & HlA & HlB & HlA' & HlB'
            & Hframe & HlsA & HlsB & HnA' & HnB' & HnpA & HnpB & Hfo & Hfi & HvA & HvB
            & HkA & HkB).
      destruct (IH d1 d' Hrest Hnd') as (IH1 & IH2 & IH3).
      split; [|split].
      * intros r Hr. simpl in Hr.
        rewrite IH1 by (simpl; tauto).
        apply Hframe; intros ->; tauto.
      * intros r o Hl.
        assert (Hmid : exists o1, lookup r d1 = Some o1 /\ objls o1 = objls o
                  /\ forall g, node_port g = false -> getitem o1 g = getitem o g).
        { destruct (ref_eq_dec r A) as [->|HrA].
          - rewrite HlA in Hl. inversion Hl. subst. eauto.
          - destruct (ref_eq_dec r B) as [->|HrB].
            + rewrite HlB in Hl. inversion Hl. subst. eauto.
            + exists o. rewrite Hframe by assumption. auto. }
        destruct Hmid as (o1 & Hl1 & Hls1 & Hnp1).
        destruct (IH2 r o1 Hl1) as (o' & Hl' & Hls' & Hnp').
        exists o'. split; [exact Hl'|]. split; [congruence|].
        intros g Hg. rewrite Hnp', Hnp1 by exact Hg. reflexivity.
      * intros H0 hH rest0 Heq oH g v Hl Hv Hb Hg. inversion Heq. subst H0 hH rest0.
        rewrite HlA in Hl. inversion Hl. subst oH.
        exists oA'. split.
        -- rewrite IH1; [exact HlA'|]. exact HnA.
        -- apply HkA; [exact Hv | exact Hb|].
           intros ->. destruct (getnodefieldname_Ok _ _ _ _ _ Hfo) as [_ Ho].
           eapply inlet_not_outlet; eauto.
Qed.

Lemma connect_loop_stages (fluid : option string) (cs : list component) :
  forall d d',
    connect_loop fluid cs d = (Ok tt, d') ->
    NoDup (map fst cs) ->
    forall i A hA B hB,
      nth_error cs i = Some (A, hA) ->
      nth_error cs (S i) = Some (B, hB) ->
      exists nA nB oA' oB' fo fi oldo oldi,
        read d A "Name" = Ok nA /\ read d B "Name" = Ok nB
        /\ lookup A d' = Some oA' /\ lookup B d' = Some oB'
        /\ getnodefieldname oA' "Outlet_Node_Name" fluid hA = Ok fo
        /\ getnodefieldname oB' "Inlet_Node_Name" fluid None = Ok fi
        /\ getitem oA' fo = Ok (VPair oldo (VStr (pystr nA +++ "_" +++ pystr nB +++ "_node")))
        /\ getitem oB' fi = Ok (VPair oldi (VStr (pystr nA +++ "_" +++ pystr nB +++ "_node"))).
Proof.
  induction cs as [|[X hX] cs IH]; intros d d' H Hnd i A hA B hB Hi HSi.
  - destruct i; discriminate.
  - destruct cs as [|[Y hY] rest]; [destruct i as [|[|i]]; discriminate|].
    rewrite connect_loop_cons in H.
    apply bind_Ok_inv in H. destruct H as ([] & d1 & Hpair & Hrest).
    simpl in Hnd. inversion Hnd as [|? ? HnX Hnd']. subst.
    assert (HXY : X <> Y) by (intros ->; apply HnX; left; reflexivity).
    destruct (connect_pair_Ok _ _ _ _ _ _ _ HXY Hpair)
      as (oX & oY & oX' & oY' & nX & nY & fo & fi & oldo & oldi & HlX & HlY & HlX' & HlY'
          & Hframe & HlsX & HlsY & HnX' & HnY' & HnpX & HnpY & Hfo & Hfi & HvX & HvY
          & HkX & HkY).
    destruct (connect_loop_keeps _ _ _ _ Hrest Hnd') as (K1 & K2 & K3).
    destruct i as [|i].
    + (* the pair chained in this turn *)
      simpl in Hi, HSi. inversion Hi. inversion HSi. subst A hA B hB.
      destruct (K2 Y oY' HlY') as (oY2 & HlY2 & HlsY2 & HnpY2).
      destruct (getnodefieldname_Ok _ _ _ _ _ Hfi) as [_ Hfi'].
      destruct (K3 Y hY rest eq_refl oY' fi _ HlY' HvY eq_refl Hfi') as (oY3 & HlY3 & HvY3).
      rewrite HlY2 in HlY3. inversion HlY3. subst oY3.
      exists nX, nY, oX', oY2, fo, fi, oldo, oldi.
      split; [rewrite (read_lookup _ _ _ _ HlX); exact HnX'|].
      split; [rewrite (read_lookup _ _ _ _ HlY); exact HnY'|].
      split; [rewrite K1; [exact HlX' | exact HnX]|].
      split; [exact HlY2|].
      split; [rewrite (getnodefieldname_objls oX oX') by exact HlsX; exact Hfo|].
      split; [rewrite (getnodefieldname_objls oY oY2) by congruence; exact Hfi|].
      split; [exact HvX | exact HvY3].
    + (* a later pair: by induction, with the names as they were *)
      simpl in Hi, HSi.
      destruct (IH d1 d' Hrest Hnd' i A hA B hB Hi HSi)
        as (nA & nB & oA' & oB' & fo' & fi' & oldo' & oldi' & HrA & HrB & Hrest').
      assert (Hname : forall r, read d1 r "Name" = read d r "Name").
      { intros r. unfold read.
        destruct (ref_eq_dec r X) as [->|HrX].
        - rewrite HlX, HlX'. apply HnpX. reflexivity.
        - destruct (ref_eq_dec r Y) as [->|HrY].
          + rewrite HlY, HlY'. apply HnpY. reflexivity.
          + rewrite Hframe by assumption. reflexivity. }
      exists nA, nB, oA', oB', fo', fi', oldo', oldi'.
      rewrite <- !Hname. auto.
Qed.

Lemma ref_eqb_eq (a b : ref) : ref_eqb a b = true <-> a = b.
Proof.
  destruct a as [k i], b as [k' j]. unfold ref_eqb. simpl.
  rewrite andb_true_iff, String.eqb_eq, Nat.eqb_eq. split.
  - intros [-> ->]. reflexivity.
  - intros H. inversion H. auto.
Qed.

Lemma distinct_NoDup (l : list ref) : distinct l = true -> NoDup l.
Proof.
  induction l as [|r l IH]; simpl; [constructor|].
  intros H. apply andb_true_iff in H. destruct H as [H1 H2].
  constructor; [|auto]. intros Hin.
  apply negb_true_iff in H1.
  assert (existsb (ref_eqb r) l = true); [|congruence].
  apply existsb_exists. exists r. split; [exact Hin | apply ref_eqb_eq; reflexivity].
Qed.

Lemma same_field_eq (a b : result string) (f : string) :
  same_field a b = true -> b = Ok f -> a = Ok f.
Proof.
  destruct a, b; simpl; try discriminate.
  intros H Hb. apply String.eqb_eq in H. congruence.
Qed.

(** C1, counterexample.  After the two pipes are chained, the outlet field
    of the first and the inlet field of the second hold different values:
    each is a staged pair that keeps the field's own former value. *)
Lemma chained_fields_hold_different_values :
  connectcomponents [(np1, None); (np2, None)] None pipes_doc
    = (Ok [(np1, None); (np2, None)], chained_doc)
  /\ read chained_doc np1 "Outlet_Node_Name"
     = Ok (VPair (VStr "np1_Outlet_Node_Name") (VStr "np1_np2_node"))
  /\ read chained_doc np2 "Inlet_Node_Name"
     = Ok (VPair (VStr "np2_Inlet_Node_Name") (VStr "np1_np2_node"))
  /\ read chained_doc np1 "Outlet_Node_Name" <> read chained_doc np2 "Inlet_Node_Name".
Proof.
  split; [vm_compute; reflexivity|]. split; [vm_compute; reflexivity|].
  split; [vm_compute; reflexivity|]. vm_compute. discriminate.
Qed.

(** ** Branch replacer *)

Lemma plant_loop_built : fst Sample.plant_run = Ok plant_loop.
Proof. vm_compute. reflexivity. Qed.

(** C9.  When the fluid is omitted, empty, or anything but 'WATER' or 'AIR'
    in any letter case, [replacebranch] never returns: once the branch has
    been chained, written and the renames propagated, it raises [NameError]
    with the document as those steps left it (and when one of those steps
    raises, that exception is what the call raises).  [replacebranch1],
    which ends in this call, never returns either. *)
Theorem replacebranch_unknown_fluid_raises (loop : Loop) (branch : ref)
    (comps : list component) (fluid : option string) (d : IDF) :
  String.eqb (PyStr.upper (default_str fluid)) "WATER" = false ->
  String.eqb (PyStr.upper (default_str fluid)) "AIR" = false ->
  (forall d1, chain_write_rename branch comps (default_str fluid) d = (Ok tt, d1) ->
     replacebranch loop branch comps fluid d = (Raise NameError, d1))
  /\ (forall b d', replacebranch loop branch comps fluid d <> (Ok b, d'))
  /\ (forall branchname tuples b d',
        replacebranch1 loop branchname tuples fluid d <> (Ok b, d')).
Proof.
  intros Hw Ha.
  assert (Hrun : forall d0,
    replacebranch loop branch comps fluid d0 =
    match chain_write_rename branch comps (default_str fluid) d0 with
    | (Ok _, d1) => (Raise NameError, d1)
    | (Raise e, d1) => (Raise e, d1)
    end).
  { intros d0. unfold replacebranch. cbv zeta. unfold bind at 1.
    destruct (chain_write_rename branch comps (default_str fluid) d0) as [[[]|e] d1];
      [|reflexivity].
    unfold supplyconlist_of. rewrite Hw, Ha. reflexivity. }
  split; [|split].
  - intros d1 H. rewrite Hrun, H. reflexivity.
  - intros b d' H. rewrite Hrun in H.
    destruct (chain_write_rename branch comps (default_str fluid) d) as [[[]|e] d1];
      discriminate.
  - intros branchname tuples b d' H. unfold replacebranch1 in H. cbv zeta in H.
    apply bind_Ok_inv in H. destruct H as (ob & d1 & _ & H).
    apply bind_Ok_inv in H. destruct H as (l & d2 & _ & H).
    destruct ob as [br|].
    + clear Hrun.
      assert (Hrun2 :
        replacebranch loop br l (Some (default_str fluid)) d2 =
        match chain_write_rename br l (default_str fluid) d2 with
        | (Ok _, d3) => (Raise NameError, d3)
        | (Raise e, d3) => (Raise e, d3)
        end).
      { unfold replacebranch. cbv zeta. simpl default_str. unfold bind at 1.
        destruct (chain_write_rename br l (default_str fluid) d2) as [[[]|e] d3];
          [|reflexivity].
        unfold supplyconlist_of. rewrite Hw, Ha. reflexivity. }
      rewrite Hrun2 in H.
      destruct (chain_write_rename br l (default_str fluid) d2) as [[[]|e] d3];
        discriminate.
    + apply bind_Ok_inv in H. destruct H as (x & d3 & _ & H). discriminate.
Qed.

(** C9, witness: the fluid left out, on the sample plant loop. *)
Lemma replacebranch_unknown_fluid_raises_witness :
  String.eqb (PyStr.upper (default_str None)) "WATER" = false
  /\ String.eqb (PyStr.upper (default_str None)) "AIR" = false
  /\ (forall d1, chain_write_rename ("BRANCH", 0) [(np1, None); (np2, None)]
                   (default_str None) pipes_doc = (Ok tt, d1) ->
        replacebranch plant_loop ("BRANCH", 0) [(np1, None); (np2, None)] None pipes_doc
        = (Raise NameError, d1))
  /\ (forall b d', replacebranch plant_loop ("BRANCH", 0) [(np1, None); (np2, None)] None
                     pipes_doc <> (Ok b, d'))
  /\ (forall branchname tuples b d',
        replacebranch1 plant_loop branchname tuples None pipes_doc <> (Ok b, d')).
Proof.
  split; [reflexivity|]. split; [reflexivity|].
  apply (replacebranch_unknown_fluid_raises plant_loop ("BRANCH", 0)
           [(np1, None); (np2, None)] None pipes_doc); reflexivity.
Defined.

(** ** Computations that only read *)

Lemma readonly_ret {A : Type} (a : A) : readonly (ret a).
Proof. intros d. reflexivity. Qed.

Lemma readonly_raise {A : Type} (e : exn) : readonly (@raise A e).
Proof. intros d. reflexivity. Qed.

Lemma readonly_lift {A : Type} (r : result A) : readonly (lift r).
Proof. intros d. reflexivity. Qed.

Lemma readonly_deref (r : ref) : readonly (deref r).
Proof. intros d. unfold deref. destruct (lookup r d); reflexivity. Qed.

Lemma readonly_bind {A B : Type} (m : M A) (k : A -> M B) :
  readonly m -> (forall a, readonly (k a)) -> readonly (bind m k).
Proof.
  intros Hm Hk d. unfold bind. specialize (Hm d).
  destruct (m d) as [[a|e] d1]; simpl in *; subst; [apply Hk | reflexivity].
Qed.

Lemma readonly_getattr (r : ref) (f : string) : readonly (getattr r f).
Proof. intros d. rewrite getattr_run. reflexivity. Qed.

Lemma readonly_resolve (r : ref) (suffix : string) (fluid hint : option string) :
  readonly (resolve r suffix fluid hint).
Proof. intros d. rewrite resolve_run. reflexivity. Qed.

Lemma readonly_getobject (key : string) (name : value) : readonly (getobject key name).
Proof. intros d. unfold getobject. destruct (assoc key (idfobjects d)); reflexivity. Qed.

Lemma readonly_getobject_v (key name : value) : readonly (getobject_v key name).
Proof.
  destruct key; simpl; [apply readonly_getobject | apply readonly_raise].
Qed.

Lemma readonly_strip_blank (v : value) : readonly (strip_blank v).
Proof. destruct v; simpl; [apply readonly_ret | apply readonly_raise]. Qed.

Lemma readonly_upper_v (v : value) : readonly (upper_v v).
Proof. destruct v; simpl; [apply readonly_ret | apply readonly_raise]. Qed.

Lemma readonly_nth_or_raise {A : Type} (l : list A) (i : nat) : readonly (nth_or_raise l i).
Proof.
  unfold nth_or_raise. destruct (nth_error l i); [apply readonly_ret | apply readonly_raise].
Qed.

Lemma readonly_deref_opt (r : option ref) (e : exn) : readonly (deref_opt r e).
Proof. destruct r; simpl; [apply readonly_ret | apply readonly_raise]. Qed.

Lemma readonly_try_except {A : Type} (m : M A) (e : exn) (h : M A) :
  readonly m -> readonly h -> readonly (try_except m e h).
Proof.
  intros Hm Hh d. unfold try_except. specialize (Hm d).
  destruct (m d) as [[a|e'] d1]; simpl in *; subst; [reflexivity|].
  destruct (exn_eqb e e'); [apply Hh | reflexivity].
Qed.

Lemma readonly_for_range {S : Type} (body : nat -> S -> M (flow S)) :
  (forall i s, readonly (body i s)) ->
  forall n lo s, readonly (for_range n lo body s).
Proof.
  intros Hb. induction n as [|n IH]; intros lo s; simpl; [apply readonly_ret|].
  apply readonly_bind; [apply Hb|]. intros [s'|s']; [apply IH | apply readonly_ret].
Qed.

Create HintDb readonly.
#[local] Hint Resolve readonly_ret readonly_raise readonly_lift readonly_deref
  readonly_getattr readonly_resolve readonly_getobject readonly_getobject_v
  readonly_strip_blank readonly_upper_v readonly_nth_or_raise readonly_deref_opt
  : readonly.

(** The scans run [large_range] turns; proofs go by the turn and never by
    unfolding that number. *)
#[local] Opaque large_range.

Ltac readonly_tac :=
  repeat match goal with
    | |- readonly (for_range _ _ _ _) => apply readonly_for_range; intros ? ?
    | |- readonly (try_except _ _ _) => apply readonly_try_except
    | |- readonly (bind _ _) => apply readonly_bind; [|intros ?]
    | |- readonly (if ?b then _ else _) => destruct b
    | |- readonly (match ?x with _ => _ end) => destruct x
    | |- readonly _ => solve [auto with readonly]
    end.

Lemma readonly_getbranchcomponents (branch : ref) : readonly (getbranchcomponents branch).
Proof.
  unfold getbranchcomponents. apply readonly_bind.
  - readonly_tac.
  - intros complist. induction complist as [|[ot on] l IH]; readonly_tac.
Qed.

Lemma readonly_connector_of_turn (conlist : option ref) (i : nat) :
  readonly (connector_of_turn conlist i).
Proof. unfold connector_of_turn. readonly_tac. Qed.

Lemma readonly_note_connector (connector : ref) (vars : scan_vars) :
  readonly (note_connector connector vars).
Proof. unfold note_connector. readonly_tac. Qed.

Lemma readonly_supplyconlist_of (theloop : ref) (fluid : string) (flnames : list string) :
  readonly (supplyconlist_of theloop fluid flnames).
Proof. unfold supplyconlist_of. readonly_tac. Qed.

#[local] Hint Resolve readonly_getbranchcomponents readonly_connector_of_turn
  readonly_note_connector readonly_supplyconlist_of : readonly.

Lemma readonly_run {A : Type} (m : M A) (d : IDF) :
  readonly m -> m d = (fst (m d), d).
Proof. intros H. rewrite <- (H d) at 3. apply surjective_pairing. Qed.

Lemma bind_readonly {A B : Type} (m : M A) (k : A -> M B) (d : IDF) :
  readonly m ->
  bind m k d = match fst (m d) with Ok a => k a d | Raise e => (Raise e, d) end.
Proof.
  intros H. unfold bind. rewrite (readonly_run m d H). simpl.
  destruct (fst (m d)); reflexivity.
Qed.

(** ** Scanning the connectors of a branch that is no boundary *)

Lemma lookup_In_idfobjects (d : IDF) (r : ref) (o : EpBunch) :
  lookup r d = Some o ->
  exists entry, In entry (idfobjects d) /\ In o (snd entry).
Proof.
  unfold lookup. destruct (assoc (fst r) (idfobjects d)) as [os|] eqn:E; [|discriminate].
  intros H. exists (fst r, os). split; [|eapply nth_error_In; eauto].
  clear H. induction (idfobjects d) as [|[k os'] l IH]; simpl in *; [discriminate|].
  destruct (String.eqb (fst r) k) eqn:Ek.
  - apply String.eqb_eq in Ek. inversion E. subst. left. reflexivity.
  - right. auto.
Qed.

Lemma non_boundary_lookup (d : IDF) (branch r : ref) (name : value) (o : EpBunch) :
  non_boundary d branch = true ->
  read d branch "Name" = Ok name ->
  lookup r d = Some o ->
  names_branch name o = false.
Proof.
  unfold non_boundary. intros H Hn Hl. rewrite Hn in H.
  destruct (lookup_In_idfobjects _ _ _ Hl) as (entry & He & Ho).
  rewrite forallb_forall in H. specialize (H _ He).
  rewrite forallb_forall in H. specialize (H _ Ho).
  apply negb_true_iff in H. exact H.
Qed.

(** The variables after the two [if connector.key == ...] statements:
    as they were, or set from a splitter or from a mixer. *)
Lemma note_connector_Ok (c : ref) (vars vars' : scan_vars) (d d' : IDF) :
  note_connector c vars d = (Ok vars', d') ->
  d' = d
  /\ (vars' = vars
      \/ exists o b isfirst,
           lookup c d = Some o /\ vars' = Some (b, isfirst)
           /\ ((isfirst = true
                /\ getitem o "key" = Ok (VStr "CONNECTOR:SPLITTER")
                /\ getitem o "Inlet_Branch_Name" = Ok b)
               \/ (isfirst = false
                   /\ getitem o "key" = Ok (VStr "CONNECTOR:MIXER")
                   /\ getitem o "Outlet_Branch_Name" = Ok b))).
Proof.
  intros H.
  pose proof (readonly_note_connector c vars d) as Hro. rewrite H in Hro.
  simpl in Hro. subst d'. split; [reflexivity|].
  apply (f_equal fst) in H. simpl in H. revert H.
  unfold note_connector. rewrite bind_getattr. unfold read.
  destruct (lookup c d) as [o|] eqn:Hl; [|discriminate].
  destruct (getitem o "key") as [k|] eqn:Ek; [|discriminate].
  destruct (value_eqb k (VStr "CONNECTOR:SPLITTER")) eqn:Es.
  - apply value_eqb_eq in Es. subst k.
    rewrite bind_assoc, bind_getattr, (read_lookup _ _ _ _ Hl).
    destruct (getitem o "Inlet_Branch_Name") as [b|] eqn:Eb; [|discriminate].
    rewrite bind_ret, bind_getattr, (read_lookup _ _ _ _ Hl), Ek. simpl.
    intros H. inversion H. right. exists o, b, true.
    split; [reflexivity|]. split; [reflexivity|]. left. auto.
  - rewrite bind_ret, bind_getattr, (read_lookup _ _ _ _ Hl), Ek.
    destruct (value_eqb k (VStr "CONNECTOR:MIXER")) eqn:Em.
    + apply value_eqb_eq in Em. subst k.
      rewrite bind_getattr, (read_lookup _ _ _ _ Hl).
      destruct (getitem o "Outlet_Branch_Name") as [b|] eqn:Eb; [|discriminate].
      simpl. intros H. inversion H. right. exists o, b, false.
      split; [reflexivity|]. split; [reflexivity|]. right. auto.
    + simpl. intros H. inversion H. left. reflexivity.
Qed.

Lemma rebind_end_off_branch (theloop branch : ref) (fluid : string)
    (flnames : list string) (kin kout : nat) (vars : scan_vars) (d : IDF) :
  off_branch d branch vars ->
  snd (rebind_end theloop branch fluid flnames kin kout vars d) = d.
Proof.
  intros Hoff. unfold rebind_end. destruct vars as [[cb isfirst]|]; [|reflexivity].
  rewrite bind_getattr. destruct (read d branch "Name") as [name|] eqn:En; [|reflexivity].
  destruct (value_eqb cb name) eqn:E; [|reflexivity].
  apply value_eqb_eq in E. subst. exfalso. eapply Hoff; eauto.
Qed.

Lemma scan_turn_off_branch (conlist : option ref) (theloop branch : ref)
    (fluid : string) (flnames : list string) (kin kout i : nat)
    (vars : scan_vars) (d : IDF) :
  non_boundary d branch = true ->
  off_branch d branch vars ->
  snd (scan_turn conlist theloop branch fluid flnames kin kout i vars d) = d
  /\ forall vars',
       (fst (scan_turn conlist theloop branch fluid flnames kin kout i vars d) = Ok (Next vars')
        \/ fst (scan_turn conlist theloop branch fluid flnames kin kout i vars d)
           = Ok (Break vars')) ->
       off_branch d branch vars'.
Proof.
  intros Hnb Hoff. unfold scan_turn.
  rewrite (bind_readonly _ _ d (readonly_connector_of_turn conlist i)).
  destruct (fst (connector_of_turn conlist i d)) as [[c|]|e].
  - rewrite (bind_readonly _ _ d (readonly_note_connector c vars)).
    destruct (fst (note_connector c vars d)) as [vars1|e] eqn:En.
    + assert (Hrun : note_connector c vars d = (Ok vars1, d))
        by (rewrite (readonly_run _ d (readonly_note_connector c vars)), En; reflexivity).
      apply note_connector_Ok in Hrun. destruct Hrun as [_ Hv].
      assert (Hoff1 : off_branch d branch vars1).
      { destruct Hv as [->|(o & b & isf & Hl & -> & Hcase)]; [exact Hoff|].
        intros cb isfirst Heq Hname. inversion Heq. subst cb isfirst.
        pose proof (non_boundary_lookup _ _ _ _ _ Hnb Hname Hl) as Hno.
        unfold names_branch in Hno. apply orb_false_iff in Hno. destruct Hno as [H1 H2].
        destruct Hcase as [(_ & Hk & Hb)|(_ & Hk & Hb)]; rewrite Hk, Hb in *; simpl in *;
          rewrite value_eqb_refl in *; discriminate. }
      pose proof (rebind_end_off_branch theloop branch fluid flnames kin kout vars1 d Hoff1)
        as Hre.
      unfold bind.
      destruct (rebind_end theloop branch fluid flnames kin kout vars1 d) as [[[]|e] d1];
        simpl in *; subst d1.
      * split; [reflexivity|]. intros vars' [H|H]; inversion H; subst; exact Hoff1.
      * split; [reflexivity|]. intros vars' [H|H]; discriminate.
    + split; [reflexivity|]. intros vars' [H|H]; discriminate.
  - split; [reflexivity|]. simpl. intros vars' [H|H]; inversion H; subst; exact Hoff.
  - split; [reflexivity|]. intros vars' [H|H]; discriminate.
Qed.

Lemma scan_off_branch (conlist : option ref) (theloop branch : ref)
    (fluid : string) (flnames : list string) (kin kout : nat) (d : IDF) :
  non_boundary d branch = true ->
  forall n lo vars,
    off_branch d branch vars ->
    snd (for_range n lo (scan_turn conlist theloop branch fluid flnames kin kout) vars d) = d
    /\ forall vars',
         fst (for_range n lo (scan_turn conlist theloop branch fluid flnames kin kout) vars d)
         = Ok vars' -> off_branch d branch vars'.
Proof.
  intros Hnb. induction n as [|n IH]; intros lo vars Hoff; simpl.
  - split; [reflexivity|]. intros vars' H. inversion H. subst. exact Hoff.
  - destruct (scan_turn_off_branch conlist theloop branch fluid flnames kin kout lo vars d
                Hnb Hoff) as [Hs Hv].
    unfold bind.
    destruct (scan_turn conlist theloop branch fluid flnames kin kout lo vars d)
      as [[[vars1|vars1]|e] d1]; simpl in *; subst d1.
    + apply IH. apply Hv. left. reflexivity.
    + split; [reflexivity|]. intros vars' H. inversion H. subst. apply Hv. right. reflexivity.
    + split; [reflexivity|]. intros vars' H. discriminate.
Qed.

(** ** Frames *)

Section Keeps.
Variable R : IDF -> IDF -> Prop.
Hypothesis HR : preorder R.

Lemma keeps_readonly {A : Type} (m : M A) : readonly m -> keeps R m.
Proof. intros H d. rewrite H. apply HR. Qed.

Lemma keeps_bind_post {A B : Type} (P : A -> Prop) (m : M A) (k : A -> M B) :
  (forall d a d', m d = (Ok a, d') -> P a) ->
  keeps R m -> (forall a, P a -> keeps R (k a)) -> keeps R (bind m k).
Proof.
  intros HP Hm Hk d. unfold bind. specialize (Hm d). specialize (HP d).
  destruct (m d) as [[a|e] d1]; simpl in *; [|exact Hm].
  destruct HR as [_ Htrans]. eapply Htrans; [exact Hm|].
  apply Hk. eapply HP. reflexivity.
Qed.

Lemma keeps_bind {A B : Type} (m : M A) (k : A -> M B) :
  keeps R m -> (forall a, keeps R (k a)) -> keeps R (bind m k).
Proof.
  intros Hm Hk. apply (keeps_bind_post (fun _ => True)); auto.
Qed.

Lemma keeps_for_each {A : Type} (l : list A) (body : A -> M unit) :
  (forall x, In x l -> keeps R (body x)) -> keeps R (for_each l body).
Proof.
  induction l as [|x l IH]; intros H; simpl.
  - apply keeps_readonly, readonly_ret.
  - apply keeps_bind; [apply H; left; reflexivity|].
    intros _. apply IH. intros y Hy. apply H. right. exact Hy.
Qed.

Lemma keeps_map_each {A B : Type} (f : A -> M B) (l : list A) :
  (forall x, In x l -> keeps R (f x)) -> keeps R (map_each f l).
Proof.
  induction l as [|x l IH]; intros H; simpl.
  - apply keeps_readonly, readonly_ret.
  - apply keeps_bind; [apply H; left; reflexivity|]. intros y.
    apply keeps_bind; [apply IH; intros z Hz; apply H; right; exact Hz|].
    intros ys. apply keeps_readonly, readonly_ret.
Qed.

Lemma keeps_try_except {A : Type} (m : M A) (e : exn) (h : M A) :
  keeps R m -> keeps R h -> keeps R (try_except m e h).
Proof.
  intros Hm Hh d. unfold try_except. specialize (Hm d).
  destruct (m d) as [[a|e'] d1]; simpl in *; [exact Hm|].
  destruct (exn_eqb e e'); [|exact Hm].
  destruct HR as [_ Htrans]. eapply Htrans; [exact Hm | apply Hh].
Qed.

Lemma keeps_for_range {S : Type} (body : nat -> S -> M (flow S)) :
  (forall i s, keeps R (body i s)) ->
  forall n lo s, keeps R (for_range n lo body s).
Proof.
  intros Hb. induction n as [|n IH]; intros lo s; simpl.
  - apply keeps_readonly, readonly_ret.
  - apply keeps_bind; [apply Hb|].
    intros [s'|s']; [apply IH | apply keeps_readonly, readonly_ret].
Qed.

End Keeps.

Lemma preorder_same_at (r : ref) : preorder (same_at r).
Proof.
  split; [reflexivity|]. unfold same_at. intros a b c H1 H2. congruence.
Qed.

Lemma same_at_store (r r' : ref) (o : EpBunch) (d : IDF) :
  r' <> r -> same_at r d (store r' o d).
Proof. intros H. unfold same_at. apply lookup_store_neq. exact H. Qed.

Lemma same_at_setattr (r r' : ref) (f : string) (v : value) :
  r' <> r -> keeps (same_at r) (setattr r' f v).
Proof.
  intros H d. unfold setattr, bind, deref, lift.
  destruct (lookup r' d) as [o|]; [|reflexivity].
  destruct (setitem o f v); simpl; [apply same_at_store; exact H | reflexivity].
Qed.

Lemma same_at_obj_append (r r' : ref) (v : value) :
  r' <> r -> keeps (same_at r) (obj_append r' v).
Proof.
  intros H d. unfold obj_append, bind, deref.
  destruct (lookup r' d) as [o|]; simpl; [apply same_at_store; exact H | reflexivity].
Qed.

Lemma same_at_print (r : ref) (p : printed) : keeps (same_at r) (print p).
Proof. intros d. reflexivity. Qed.

(** Solves [keeps (same_at r) m] for code built from reads and from writes
    to references known to differ from [r]. *)
Ltac same_at_tac r :=
  repeat match goal with
    | |- keeps _ (for_range _ _ _ _) =>
        apply (keeps_for_range _ (preorder_same_at r)); intros ? ?
    | |- keeps _ (for_each _ _) =>
        apply (keeps_for_each _ (preorder_same_at r)); intros ? ?
    | |- keeps _ (try_except _ _ _) => apply (keeps_try_except _ (preorder_same_at r))
    | |- keeps _ (setattr _ _ _) => apply same_at_setattr; congruence
    | |- keeps _ (obj_append _ _) => apply same_at_obj_append; congruence
    | |- keeps _ (print _) => apply same_at_print
    | |- keeps _ (bind _ _) => apply (keeps_bind _ (preorder_same_at r)); [|intros ?]
    | |- keeps _ (if ?b then _ else _) => destruct b
    | |- keeps _ (match ?x with _ => _ end) => destruct x
    | |- keeps _ _ =>
        solve [apply (keeps_readonly _ (preorder_same_at r)); readonly_tac]
    end.

Lemma same_at_initinletoutlet (r r' : ref) (thisnode : option string) (force : bool) :
  r' <> r -> keeps (same_at r) (initinletoutlet r' thisnode force).
Proof.
  intros H. unfold initinletoutlet, trimfields, init_fields. same_at_tac r.
Qed.

Lemma same_at_stage (r r' : ref) (f : string) (new : value) :
  r' <> r -> keeps (same_at r) (stage r' f new).
Proof. intros H. unfold stage. same_at_tac r. Qed.

Lemma same_at_connect_pair (r : ref) (fluid : option string) (this next : component) :
  fst this <> r -> fst next <> r -> keeps (same_at r) (connect_pair fluid this next).
Proof.
  destruct this as [A hA], next as [B hB]. simpl. intros HA HB. unfold connect_pair.
  repeat first
    [ apply same_at_initinletoutlet; assumption
    | apply same_at_stage; assumption
    | apply (keeps_bind _ (preorder_same_at r)); [|intros ?]
    | solve [apply (keeps_readonly _ (preorder_same_at r)); readonly_tac] ].
Qed.

Lemma same_at_connect_loop (r : ref) (fluid : option string) (cs : list component) :
  ~ In r (map fst cs) -> keeps (same_at r) (connect_loop fluid cs).
Proof.
  induction cs as [|this cs IH]; intros H.
  - apply (keeps_readonly _ (preorder_same_at r)), readonly_ret.
  - destruct cs as [|next rest].
    + apply (keeps_readonly _ (preorder_same_at r)), readonly_ret.
    + rewrite connect_loop_cons.
      apply (keeps_bind _ (preorder_same_at r)).
      * apply same_at_connect_pair; intros Hc; apply H; simpl; auto.
      * intros _. apply IH. intros Hc. apply H. right. exact Hc.
Qed.

Lemma same_at_connectcomponents (r : ref) (cs : list component) (fluid : option string) :
  ~ In r (map fst cs) -> keeps (same_at r) (connectcomponents cs fluid).
Proof.
  intros H. unfold connectcomponents.
  assert (Hloop : keeps (same_at r)
            (bind (connect_loop (Some (default_str fluid)) cs) (fun _ => ret cs))).
  { apply (keeps_bind _ (preorder_same_at r)); [apply same_at_connect_loop; exact H|].
    intros _. apply (keeps_readonly _ (preorder_same_at r)), readonly_ret. }
  destruct cs as [|[A hA] [|next rest]]; try exact Hloop.
  assert (HA : A <> r) by (intros Hc; apply H; left; exact Hc).
  repeat first
    [ apply same_at_initinletoutlet; assumption
    | apply same_at_setattr; assumption
    | apply (keeps_bind _ (preorder_same_at r)); [|intros ?]
    | solve [apply (keeps_readonly _ (preorder_same_at r)); readonly_tac] ].
Qed.

Lemma getobject_fst (key : string) (name : value) (d d' : IDF) (r : ref) :
  getobject key name d = (Ok (Some r), d') -> fst r = key.
Proof.
  unfold getobject. destruct (assoc key (idfobjects d)); [|discriminate].
  destruct (find_index (has_name name) l); simpl; intros H; inversion H. reflexivity.
Qed.

Lemma removeextensibles_fst (key : string) (name : value) (d d' : IDF) (r : option ref) :
  removeextensibles key name d = (Ok r, d') ->
  match r with Some r => fst r = key | None => True end.
Proof.
  unfold removeextensibles. intros H.
  apply bind_Ok_inv in H. destruct H as ([r0|] & d1 & Hget & H).
  - apply getobject_fst in Hget.
    rewrite bind_deref in H. destruct (lookup r0 d1); [|discriminate].
    destruct (first_extensible (objidd e)); inversion H; exact Hget.
  - inversion H. exact I.
Qed.

Lemma same_at_removeextensibles (r : ref) (key : string) (name : value) :
  fst r <> key -> keeps (same_at r) (removeextensibles key name).
Proof.
  intros H. unfold removeextensibles.
  apply (keeps_bind_post _ (preorder_same_at r)
           (fun x => match x with Some r' => fst r' = key | None => True end)).
  - intros d [r'|] d' Hg; [eapply getobject_fst; eauto | exact I].
  - apply (keeps_readonly _ (preorder_same_at r)), readonly_getobject.
  - intros [r'|] Hr'; [|apply (keeps_readonly _ (preorder_same_at r)), readonly_ret].
    intros d. rewrite bind_deref. destruct (lookup r' d) as [o|]; [|reflexivity].
    destruct (first_extensible (objidd o)); [|reflexivity].
    simpl. apply same_at_store. congruence.
Qed.

Lemma same_at_componentsintobranch (r branch : ref) (cs : list component)
    (fluid : option string) :
  fst r <> "BRANCH" -> keeps (same_at r) (componentsintobranch branch cs fluid).
Proof.
  intros H. unfold componentsintobranch.
  apply (keeps_bind _ (preorder_same_at r));
    [apply (keeps_readonly _ (preorder_same_at r)), readonly_getattr|].
  intros name.
  apply (keeps_bind_post _ (preorder_same_at r)
           (fun x => match x with Some r' => fst r' = "BRANCH" | None => True end)).
  - intros d x d' Hx. eapply removeextensibles_fst; eauto.
  - apply same_at_removeextensibles. exact H.
  - intros [b|] Hb.
    2:{ apply (keeps_bind _ (preorder_same_at r)).
        - apply (keeps_readonly _ (preorder_same_at r)). unfold getextensibleindex.
          readonly_tac.
        - intros ?. apply (keeps_readonly _ (preorder_same_at r)), readonly_raise. }
    assert (Hbr : b <> r) by congruence.
    apply (keeps_bind _ (preorder_same_at r)).
    { apply (keeps_readonly _ (preorder_same_at r)). unfold getextensibleindex.
      readonly_tac. }
    intros [e|]; [|apply (keeps_readonly _ (preorder_same_at r)), readonly_raise].
    apply (keeps_bind _ (preorder_same_at r)).
    { intros d. unfold extendlist. rewrite bind_deref.
      destruct (lookup b d); simpl; [apply same_at_store; exact Hbr | reflexivity]. }
    intros _. apply (keeps_bind _ (preorder_same_at r)).
    + apply (keeps_for_each _ (preorder_same_at r)). intros [comp hint] _.
      unfold append_component. same_at_tac r.
    + intros _. apply (keeps_readonly _ (preorder_same_at r)), readonly_ret.
Qed.

(** Chaining and writing touch the chained components and the branch only. *)
Lemma same_at_chain_write (r branch : ref) (cs : list component) (fluid : string) :
  ~ In r (map fst cs) -> fst r <> "BRANCH" ->
  keeps (same_at r) (chain_write branch cs fluid).
Proof.
  intros H1 H2. unfold chain_write.
  apply (keeps_bind _ (preorder_same_at r)); [apply same_at_connectcomponents; exact H1|].
  intros _. apply (keeps_bind _ (preorder_same_at r));
    [apply same_at_componentsintobranch; exact H2|].
  intros _. apply (keeps_readonly _ (preorder_same_at r)), readonly_ret.
Qed.

(** ** A completed rename propagation, field by field *)

Lemma rename_fields_Ok (ft : string) (rs vals : list value) :
  forall idds vals',
    rename_fields ft rs vals idds = (vals', None) ->
    forall i v, nth_error vals i = Some v ->
      exists idd, nth_error idds i = Some idd
        /\ ((has_type ft idd = false /\ nth_error vals' i = Some v)
            \/ (has_type ft idd = true
                /\ exists t, dict rs [] = Ok t /\ nth_error vals' i = Some (renamed t v))).
Proof.
  induction vals as [|x vals IH]; intros idds vals' H i v Hv; [destruct i; discriminate|].
  simpl in H. destruct idds as [|idd idds]; [discriminate|].
  destruct (has_type ft idd) eqn:Et.
  - destruct (dict rs []) as [t|] eqn:Ed; [|discriminate].
    destruct (rename_fields ft rs vals idds) as [rest e] eqn:Er.
    inversion H. subst vals' e. destruct i as [|i]; simpl in *.
    + inversion Hv. subst x. exists idd. split; [reflexivity|]. right.
      split; [exact Et|]. exists t. split; [reflexivity|]. destruct v; reflexivity.
    + apply (IH idds rest Er i v Hv).
  - destruct (rename_fields ft rs vals idds) as [rest e] eqn:Er.
    inversion H. subst vals' e. destruct i as [|i]; simpl in *.
    + inversion Hv. subst x. exists idd. split; [reflexivity|]. left. auto.
    + apply (IH idds rest Er i v Hv).
Qed.

Lemma rename_objects_Ok (ft : string) (rs : list value) (os : list EpBunch) :
  forall os', rename_objects ft rs os = (os', None) ->
    Forall2 (fun o o' => rename_object ft rs o = (o', None)) os os'.
Proof.
  induction os as [|o os IH]; intros os' H; simpl in H.
  - inversion H. constructor.
  - destruct (rename_object ft rs o) as [o1 [e|]] eqn:Eo; [discriminate|].
    destruct (rename_objects ft rs os) as [rest e] eqn:Er.
    inversion H. subst. constructor; [exact Eo | apply IH; reflexivity].
Qed.

Lemma rename_keys_Ok (ft : string) (rs : list value)
    (entries : list (string * list EpBunch)) :
  forall entries', rename_keys ft rs entries = (entries', None) ->
    forall k os, assoc k entries = Some os ->
      exists os', assoc k entries' = Some os'
                  /\ Forall2 (fun o o' => rename_object ft rs o = (o', None)) os os'.
Proof.
  induction entries as [|[key os0] entries IH]; intros entries' H k os Hk; [discriminate|].
  simpl in H.
  destruct (rename_objects ft rs os0) as [os1 [e|]] eqn:Eo; [discriminate|].
  destruct (rename_keys ft rs entries) as [rest e] eqn:Er.
  inversion H. subst. simpl in *.
  destruct (String.eqb k key).
  - inversion Hk. subst. exists os1. split; [reflexivity|].
    apply rename_objects_Ok. exact Eo.
  - apply (IH rest eq_refl k os Hk).
Qed.

(** After a completed [renamenodes] each object is what its own pass made
    of it. *)
Lemma renamenodes_Ok_lookup (ft : string) (d d' : IDF) (r : ref) (o : EpBunch) :
  renamenodes ft d = (Ok tt, d') ->
  lookup r d = Some o ->
  exists o', lookup r d' = Some o'
             /\ rename_object ft (collect_renameds d) o = (o', None).
Proof.
  unfold renamenodes. intros H Hl.
  destruct (rename_keys ft (collect_renameds d) (idfobjects d)) as [entries [e|]] eqn:Ek;
    [discriminate|].
  inversion H. subst d'. clear H. unfold lookup in *. simpl.
  destruct (assoc (fst r) (idfobjects d)) as [os|] eqn:Eos; [|discriminate].
  destruct (rename_keys_Ok _ _ _ _ Ek _ _ Eos) as (os' & Hos' & Hall).
  rewrite Hos'. eapply Forall2_nth_error in Hall; eauto.
Qed.

Lemma dict_get_unrenamed (d : IDF) (v : string) (t : list (string * value)) (n : value) :
  unrenamed v d = true ->
  dict (collect_renameds d) [] = Ok t ->
  dict_get v t = Some n -> n = VStr v.
Proof.
  intros Hu Ht Hg.
  destruct (dict_get_In _ _ _ _ _ Ht Hg) as [Hin|Hin]; [|discriminate].
  apply In_collect_renameds in Hin. destruct Hin as [Hin _].
  unfold unrenamed in Hu. rewrite forallb_forall in Hu. specialize (Hu _ Hin).
  simpl in Hu. rewrite String.eqb_refl in Hu. simpl in Hu.
  apply value_eqb_eq in Hu. exact Hu.
Qed.

(** A plain field value that no staged rename takes elsewhere is the same
    after a completed [renamenodes]. *)
Lemma renamenodes_Ok_unrenamed (ft : string) (d d' : IDF) (r : ref) (f v : string) :
  renamenodes ft d = (Ok tt, d') ->
  unrenamed v d = true ->
  read d r f = Ok (VStr v) ->
  read d' r f = Ok (VStr v).
Proof.
  intros H Hu Hr. unfold read in *.
  destruct (lookup r d) as [o|] eqn:Hl; [|discriminate].
  destruct (renamenodes_Ok_lookup _ _ _ _ _ H Hl) as (o' & Hl' & Ho').
  rewrite Hl'. unfold rename_object in Ho'.
  destruct (rename_fields ft (collect_renameds d) (obj o) (objidd o)) as [vals e] eqn:Ef.
  inversion Ho'. subst o' e. clear Ho'.
  unfold getitem in *. simpl.
  destruct (index_of f (objls o)) as [i|]; [|discriminate].
  inversion Hr as [Hv]. rewrite Hv. f_equal.
  destruct (nth_error (obj o) i) as [x|] eqn:Ex.
  - assert (x = VStr v) by (rewrite <- Hv; symmetry; apply nth_error_nth; exact Ex).
    subst x.
    destruct (rename_fields_Ok _ _ _ _ _ Ef i _ Ex) as (idd & _ & [[_ Hn]|(_ & t & Ht & Hn)]).
    + apply nth_error_nth. exact Hn.
    + rewrite (nth_error_nth _ _ _ Hn). simpl.
      destruct (dict_get v t) as [n|] eqn:Eg; [|reflexivity].
      eapply dict_get_unrenamed; eauto.
  - (* a declared field beyond the stored values reads as blank *)
    apply nth_error_None in Ex.
    pose proof (rename_fields_length ft (collect_renameds d) (obj o) (objidd o)) as Hlen.
    rewrite Ef in Hlen. simpl in Hlen.
    rewrite nth_overflow by lia. rewrite nth_overflow in Hv by lia. exact Hv.
Qed.

Lemma readonly_Ok_state {A : Type} (m : M A) (d d' : IDF) (r : result A) :
  readonly m -> m d = (r, d') -> d' = d.
Proof. intros H Hm. specialize (H d). rewrite Hm in H. exact H. Qed.

Lemma chain_write_rename_run (branch : ref) (comps : list component) (fluid : string)
    (d d0 d1 : IDF) :
  chain_write branch comps fluid d = (Ok tt, d0) ->
  renamenodes "node" d0 = (Ok tt, d1) ->
  chain_write_rename branch comps fluid d = (Ok tt, d1).
Proof.
  intros H0 H1. unfold chain_write_rename. rewrite (bind_run _ _ _ _ _ H0). exact H1.
Qed.

Lemma scan_connectors_off_branch (conlist : option ref) (theloop branch : ref)
    (fluid : string) (flnames : list string) (kin kout : nat) (vars : scan_vars)
    (d d' : IDF) (r : result scan_vars) :
  non_boundary d branch = true ->
  off_branch d branch vars ->
  scan_connectors conlist theloop branch fluid flnames kin kout vars d = (r, d') ->
  d' = d /\ forall vars', r = Ok vars' -> off_branch d branch vars'.
Proof.
  intros Hnb Hoff H. unfold scan_connectors in H.
  destruct (scan_off_branch conlist theloop branch fluid flnames kin kout d Hnb
              large_range 1 vars Hoff) as [Hs Hv].
  rewrite H in Hs, Hv. simpl in *. split; [exact Hs | exact Hv].
Qed.

(** C5, as amended.  When, once the branch has been chained, written and
    the renames propagated, no splitter has it as inlet branch and no mixer
    as outlet branch, a [replacebranch] that returns has done nothing
    beyond chaining, writing and rename propagation: it returns the branch
    and leaves the document that a second [renamenodes] makes of that
    state.  A field of the loop object that held a plain identifier keeps
    it, provided the loop object is neither a chained component nor a
    BRANCH and no rename staged by the chaining takes that identifier to
    another one. *)
Theorem replacebranch_non_boundary (loop : Loop) (branch b : ref)
    (comps : list component) (fluid : string) (d d0 d1 d' : IDF) :
  chain_write branch comps fluid d = (Ok tt, d0) ->
  renamenodes "node" d0 = (Ok tt, d1) ->
  non_boundary d1 branch = true ->
  replacebranch loop branch comps (Some fluid) d = (Ok b, d') ->
  b = branch
  /\ renamenodes "node" d1 = (Ok tt, d')
  /\ (forall f v,
        ~ In (newloop loop) (map fst comps) ->
        fst (newloop loop) <> "BRANCH" ->
        read d (newloop loop) f = Ok (VStr v) ->
        unrenamed v d0 = true ->
        unrenamed v d1 = true ->
        read d' (newloop loop) f = Ok (VStr v)).
Proof.
  intros H0 H1 Hnb H.
  assert (Hmain : b = branch /\ renamenodes "node" d1 = (Ok tt, d')).
  { unfold replacebranch in H. cbv zeta in H. simpl default_str in H.
    rewrite (bind_run _ _ _ _ _ (chain_write_rename_run _ _ _ _ _ _ H0 H1)) in H.
    apply bind_Ok_inv in H. destruct H as (scl & dx & Hs & H).
    apply (readonly_Ok_state _ _ _ _ (readonly_supplyconlist_of _ _ _)) in Hs. subst dx.
    apply bind_Ok_inv in H. destruct H as (vars & dx & Hscan & H).
    destruct (scan_connectors_off_branch _ _ _ _ _ _ _ _ _ _ _ Hnb
                (fun cb isf (Hc : None = Some (cb, isf)) =>
                   False_ind _ (eq_ind None (fun x => match x with None => True
                                                         | Some _ => False end) I _ Hc))
                Hscan) as [-> Hoff].
    specialize (Hoff vars eq_refl).
    apply bind_Ok_inv in H. destruct H as ([] & dx & Hdem & H).
    assert (dx = d1).
    { destruct (String.eqb (PyStr.upper fluid) "WATER").
      - apply bind_Ok_inv in Hdem. destruct Hdem as (f & dy & Hf & Hdem).
        apply (readonly_Ok_state _ _ _ _ (readonly_nth_or_raise _ _)) in Hf. subst dy.
        apply bind_Ok_inv in Hdem. destruct Hdem as (dname & dy & Hf & Hdem).
        apply (readonly_Ok_state _ _ _ _ (readonly_getattr _ _)) in Hf. subst dy.
        apply bind_Ok_inv in Hdem. destruct Hdem as (dcl & dy & Hf & Hdem).
        apply (readonly_Ok_state _ _ _ _ (readonly_getobject _ _)) in Hf. subst dy.
        apply bind_Ok_inv in Hdem. destruct Hdem as (vars2 & dy & Hscan2 & Hdem).
        destruct (scan_connectors_off_branch _ _ _ _ _ _ _ _ _ _ _ Hnb Hoff Hscan2)
          as [-> _].
        inversion Hdem. reflexivity.
      - inversion Hdem. reflexivity. }
    subst dx.
    apply bind_Ok_inv in H. destruct H as ([] & dx & Hren & H).
    inversion H. subst. auto. }
  destruct Hmain as [Hb Hren]. split; [exact Hb|]. split; [exact Hren|].
  intros f v Hnotin Hkey Hr Hu0 Hu1.
  assert (Hr0 : read d0 (newloop loop) f = Ok (VStr v)).
  { pose proof (same_at_chain_write (newloop loop) branch comps fluid Hnotin Hkey d) as Hs.
    rewrite H0 in Hs. unfold same_at in Hs. simpl in Hs.
    unfold read in *. rewrite Hs. exact Hr. }
  eapply renamenodes_Ok_unrenamed; [exact Hren | exact Hu1|].
  eapply renamenodes_Ok_unrenamed; [exact H1 | exact Hu0 | exact Hr0].
Qed.

(** C5, witness: the middle supply branch sb1 of the sample plant loop,
    replaced by one new pipe. *)
Lemma replacebranch_non_boundary_witness :
  let d := pipes_doc in
  let d0 := snd (chain_write ("BRANCH", 1) [(np1, None)] "Water" d) in
  let d1 := snd (renamenodes "node" d0) in
  let d' := snd (replacebranch plant_loop ("BRANCH", 1) [(np1, None)] (Some "Water") d) in
  non_boundary d1 ("BRANCH", 1) = true
  /\ ("BRANCH", 1) = ("BRANCH", 1)
  /\ renamenodes "node" d1 = (Ok tt, d')
  /\ (forall f v,
        ~ In (newloop plant_loop) (map fst [(np1, @None string)]) ->
        fst (newloop plant_loop) <> "BRANCH" ->
        read d (newloop plant_loop) f = Ok (VStr v) ->
        unrenamed v d0 = true ->
        unrenamed v d1 = true ->
        read d' (newloop plant_loop) f = Ok (VStr v)).
Proof.
  intros d d0 d1 d'. split; [vm_compute; reflexivity|].
  apply (replacebranch_non_boundary plant_loop ("BRANCH", 1) ("BRANCH", 1)
           [(np1, None)] "Water" d d0 d1 d'); vm_compute; reflexivity.
Defined.

(** C5, counterexample.  The middle supply branch sb1 is neither the
    splitter's inlet branch nor the mixer's outlet branch.  Replacing its
    content by a new pipe followed by the pipe of the supply inlet branch
    returns the branch, and the loop object's supply inlet node field no
    longer holds its former identifier: chaining staged a rename of that
    identifier, and rename propagation rewrote the loop object's field. *)
Lemma replacebranch_renames_loop_inlet :
  let comps := [(np1, @None string); (("PIPE:ADIABATIC", 0), None)] in
  let d' := snd (replacebranch plant_loop ("BRANCH", 1) comps (Some "Water") pipes_doc) in
  read pipes_doc ("BRANCH", 1) "Name" = Ok (VStr "sb1")
  /\ read pipes_doc ("CONNECTOR:SPLITTER", 0) "Inlet_Branch_Name" = Ok (VStr "sb0")
  /\ read pipes_doc ("CONNECTOR:MIXER", 0) "Outlet_Branch_Name" = Ok (VStr "sb4")
  /\ non_boundary pipes_doc ("BRANCH", 1) = true
  /\ non_boundary d' ("BRANCH", 1) = true
  /\ fst (replacebranch plant_loop ("BRANCH", 1) comps (Some "Water") pipes_doc)
     = Ok ("BRANCH", 1)
  /\ read pipes_doc (newloop plant_loop) "Plant_Side_Inlet_Node_Name"
     = Ok (VStr "p_loop Supply Inlet")
  /\ read d' (newloop plant_loop) "Plant_Side_Inlet_Node_Name"
     = Ok (VStr "np1_sb0_pipe_node").
Proof.
  cbv zeta. repeat split; vm_compute; reflexivity.
Qed.

(** ** Reads that do not see a rebound port *)

Lemma pad_id (l : list value) (n : nat) : n <= length l -> pad l n = l.
Proof.
  intros H. unfold pad. replace (n - length l) with 0 by lia. apply app_nil_r.
Qed.

Lemma find_index_list_set_ext {A : Type} (p : A -> bool) (l : list A) (j : nat) (x a : A) :
  nth_error l j = Some x -> p a = p x ->
  find_index p (list_set j a l) = find_index p l.
Proof.
  revert j. induction l as [|y l IH]; intros [|j] Hx Ha; simpl in *; try discriminate.
  - inversion Hx. subst. rewrite Ha. reflexivity.
  - rewrite (IH j Hx Ha). reflexivity.
Qed.

Section Stable.

Variables (d1 : IDF) (A : ref) (oA : EpBunch) (fin : string) (i : nat).
Hypothesis HoA : lookup A d1 = Some oA.
Hypothesis Hi : index_of fin (objls oA) = Some i.
Hypothesis Hfin : PyStr.endswith fin "Inlet_Node_Name" = true.

Lemma fin_neq (f : string) : PyStr.endswith f "Inlet_Node_Name" = false -> f <> fin.
Proof using Hfin. intros H ->. congruence. Qed.

Lemma lookup_write_cell (v : value) :
  lookup A (write_cell d1 A oA i v)
  = Some (mkEpBunch (list_set i v (pad (obj oA) (S i))) (objls oA) (objidd oA)).
Proof using HoA. apply (lookup_store_eq _ _ _ _ HoA). Qed.

Lemma lookup_write_cell_other (r : ref) (v : value) :
  r <> A -> lookup r (write_cell d1 A oA i v) = lookup r d1.
Proof. intros H. apply lookup_store_neq. congruence. Qed.

Lemma setitem_cell (v : value) :
  setitem oA fin v
  = Ok (mkEpBunch (list_set i v (pad (obj oA) (S i))) (objls oA) (objidd oA)).
Proof using Hi. unfold setitem. rewrite Hi. reflexivity. Qed.

Lemma read_write_cell (v : value) : read (write_cell d1 A oA i v) A fin = Ok v.
Proof using HoA Hi.
  unfold read. rewrite lookup_write_cell. unfold getitem. simpl. rewrite Hi.
  f_equal. apply nth_list_set_eq. rewrite length_pad. lia.
Qed.

Lemma read_write_cell_other (r : ref) (f : string) (v : value) :
  r <> A \/ f <> fin -> read (write_cell d1 A oA i v) r f = read d1 r f.
Proof using HoA Hi.
  destruct (ref_eq_dec r A) as [->|Hn].
  - intros [H|H]; [congruence|]. unfold read. rewrite lookup_write_cell, HoA.
    apply (getitem_setitem_neq oA _ fin f v (setitem_cell v)). congruence.
  - intros _. unfold read. rewrite lookup_write_cell_other by exact Hn. reflexivity.
Qed.

Lemma setattr_cell (v : value) :
  setattr A fin v d1 = (Ok tt, write_cell d1 A oA i v).
Proof using HoA Hi. apply (setattr_run _ _ _ _ _ _ HoA (setitem_cell v)). Qed.

Lemma setattr_write_cell (v v' : value) :
  setattr A fin v' (write_cell d1 A oA i v) = (Ok tt, write_cell d1 A oA i v').
Proof using HoA Hi.
  unfold setattr, bind, deref, lift. rewrite lookup_write_cell.
  unfold setitem. simpl. rewrite Hi. unfold write_cell. rewrite store_store. simpl.
  rewrite pad_id by (rewrite length_list_set, length_pad; lia).
  rewrite list_set_twice. reflexivity.
Qed.

Lemma stable_ret {X : Type} (x : X) : stable d1 A oA i (ret x).
Proof. split; reflexivity. Qed.

Lemma stable_raise {X : Type} (e : exn) : stable d1 A oA i (@raise X e).
Proof. split; reflexivity. Qed.

Lemma stable_bind {X Y : Type} (m : M X) (k : X -> M Y) :
  stable d1 A oA i m -> (forall x, stable d1 A oA i (k x)) -> stable d1 A oA i (bind m k).
Proof.
  intros [Hm1 Hm2] Hk. split.
  - unfold bind. destruct (m d1) as [[a|e] dx] eqn:E; simpl in Hm1; subst dx;
      [apply (Hk a) | reflexivity].
  - intros v. unfold bind. rewrite Hm2.
    destruct (m d1) as [[a|e] dx] eqn:E; simpl in *; subst dx;
      [apply (Hk a) | reflexivity].
Qed.

Lemma stable_try_except {X : Type} (m : M X) (e : exn) (h : M X) :
  stable d1 A oA i m -> stable d1 A oA i h -> stable d1 A oA i (try_except m e h).
Proof.
  intros [Hm1 Hm2] Hh. split.
  - unfold try_except. destruct (m d1) as [[a|e'] dx] eqn:E; simpl in Hm1; subst dx;
      [reflexivity|]. destruct (exn_eqb e e'); [apply Hh | reflexivity].
  - intros v. unfold try_except. rewrite Hm2.
    destruct (m d1) as [[a|e'] dx] eqn:E; simpl in *; subst dx; [reflexivity|].
    destruct (exn_eqb e e'); [apply Hh | reflexivity].
Qed.

Lemma stable_for_range {S : Type} (body : nat -> S -> M (flow S)) :
  (forall j s, stable d1 A oA i (body j s)) ->
  forall n lo s, stable d1 A oA i (for_range n lo body s).
Proof.
  intros Hb. induction n as [|n IH]; intros lo s; simpl; [apply stable_ret|].
  apply stable_bind; [apply Hb|]. intros [s'|s']; [apply IH | apply stable_ret].
Qed.

Lemma stable_getattr (r : ref) (f : string) :
  r <> A \/ f <> fin -> stable d1 A oA i (getattr r f).
Proof using HoA Hi.
  intros H. split; [rewrite getattr_run; reflexivity|].
  intros v. rewrite !getattr_run. simpl. rewrite (read_write_cell_other _ _ _ H).
  reflexivity.
Qed.

Lemma stable_resolve (r : ref) (suffix : string) (fluid hint : option string) :
  stable d1 A oA i (resolve r suffix fluid hint).
Proof using HoA.
  split; [rewrite resolve_run; reflexivity|].
  intros v. rewrite !resolve_run. simpl. f_equal.
  destruct (ref_eq_dec r A) as [->|Hn].
  - rewrite lookup_write_cell, HoA. apply getnodefieldname_objls. reflexivity.
  - rewrite lookup_write_cell_other by exact Hn. reflexivity.
Qed.

Lemma stable_getobject (key : string) (name : value) :
  stable d1 A oA i (getobject key name).
Proof using HoA Hi Hfin.
  split; [apply readonly_getobject|].
  intros v. unfold getobject, write_cell, store.
  pose proof HoA as Hl. unfold lookup in Hl.
  destruct (assoc (fst A) (idfobjects d1)) as [os|] eqn:E; [|discriminate].
  simpl. destruct (String.eqb (fst A) key) eqn:Ek.
  - apply String.eqb_eq in Ek. subst key. rewrite E.
    rewrite assoc_set_eq by congruence. simpl.
    rewrite (find_index_list_set_ext _ _ _ oA _ Hl); [reflexivity|].
    unfold has_name.
    rewrite (getitem_setitem_neq oA _ fin "Name" v (setitem_cell v));
      [reflexivity|]. intros Hc. symmetry in Hc. revert Hc. apply fin_neq. reflexivity.
  - apply String.eqb_neq in Ek. rewrite assoc_set_neq by congruence.
    destruct (assoc key (idfobjects d1)); reflexivity.
Qed.

Lemma stable_bind_ret {X Y : Type} (x : X) (k : X -> M Y) :
  stable d1 A oA i (k x) -> stable d1 A oA i (bind (ret x) k).
Proof. intros H. exact H. Qed.

Lemma stable_getobject_v (key name : value) : stable d1 A oA i (getobject_v key name).
Proof using HoA Hi Hfin. destruct key; [apply stable_getobject | apply stable_raise]. Qed.

Lemma stable_strip_blank (v : value) : stable d1 A oA i (strip_blank v).
Proof. destruct v; [apply stable_ret | apply stable_raise]. Qed.

Lemma stable_upper_v (v : value) : stable d1 A oA i (upper_v v).
Proof. destruct v; [apply stable_ret | apply stable_raise]. Qed.

Lemma stable_nth_or_raise {X : Type} (l : list X) (j : nat) :
  stable d1 A oA i (nth_or_raise l j).
Proof.
  unfold nth_or_raise. destruct (nth_error l j); [apply stable_ret | apply stable_raise].
Qed.

Lemma stable_deref_opt (r : option ref) (e : exn) : stable d1 A oA i (deref_opt r e).
Proof. destruct r; [apply stable_ret | apply stable_raise]. Qed.

Ltac stable_tac :=
  repeat match goal with
    | |- stable _ _ _ _ (for_range _ _ _ _) => apply stable_for_range; intros ? ?
    | |- stable _ _ _ _ (try_except _ _ _) => apply stable_try_except
    | |- stable _ _ _ _ (bind _ _) => apply stable_bind; [|intros ?]
    | |- stable _ _ _ _ (getattr _ _) =>
        apply stable_getattr;
        first [left; assumption | right; apply fin_neq; reflexivity]
    | |- stable _ _ _ _ (ret _) => apply stable_ret
    | |- stable _ _ _ _ (raise _) => apply stable_raise
    | |- stable _ _ _ _ (getobject_v _ _) => apply stable_getobject_v
    | |- stable _ _ _ _ (getobject _ _) => apply stable_getobject
    | |- stable _ _ _ _ (strip_blank _) => apply stable_strip_blank
    | |- stable _ _ _ _ (upper_v _) => apply stable_upper_v
    | |- stable _ _ _ _ (nth_or_raise _ _) => apply stable_nth_or_raise
    | |- stable _ _ _ _ (deref_opt _ _) => apply stable_deref_opt
    | |- stable _ _ _ _ (if ?b then _ else _) => destruct b
    | |- stable _ _ _ _ (match ?x with _ => _ end) => destruct x
    end.

Lemma stable_getbranchcomponents (branch : ref) :
  branch <> A -> stable d1 A oA i (getbranchcomponents branch).
Proof using HoA Hi Hfin.
  intros Hb. unfold getbranchcomponents. apply stable_bind.
  - stable_tac.
  - intros complist. induction complist as [|[ot on] l IH]; stable_tac. exact IH.
Qed.

Lemma stable_connector_of_turn (conlist : option ref) (j : nat) :
  (forall c, conlist = Some c -> c <> A) ->
  stable d1 A oA i (connector_of_turn conlist j).
Proof using HoA Hi Hfin.
  intros Hc. unfold connector_of_turn. destruct conlist as [c|].
  - specialize (Hc c eq_refl). apply stable_bind_ret. stable_tac.
  - split; reflexivity.
Qed.

Lemma stable_note_connector (c : ref) (vars : scan_vars) :
  stable d1 A oA i (note_connector c vars).
Proof using HoA Hi Hfin. unfold note_connector. stable_tac. Qed.

Lemma stable_supplyconlist_of (theloop : ref) (fluid : string) (flnames : list string) :
  theloop <> A -> stable d1 A oA i (supplyconlist_of theloop fluid flnames).
Proof using HoA Hi Hfin. intros HL. unfold supplyconlist_of. stable_tac. Qed.

Lemma stable_run {X : Type} (m : M X) (v : value) :
  stable d1 A oA i m -> m (write_cell d1 A oA i v) = (fst (m d1), write_cell d1 A oA i v).
Proof. intros [_ H]. apply H. Qed.

(** *** The connector scans once the inlet of the first component is rebound *)

Variables (L branch : ref) (fluid : string) (flnames : list string)
          (rest : list (option ref)).
Hypothesis HL : L <> A.
Hypothesis Hb : branch <> A.
Hypothesis Hcomps : fst (getbranchcomponents branch d1) = Ok (Some A :: rest).
Hypothesis Hres : fst (resolve A "Inlet_Node_Name" (Some fluid) None d1) = Ok fin.
Hypothesis Hmix : no_mixer_outlet d1 branch = true.

(** A rebinding in a document where the port holds [v] leaves the document
    as it is or stages a pair whose old half is [v]. *)
Lemma rebind_end_write_cell (kin kout : nat) (vars : scan_vars) (v : value)
    (r : result unit) (dx : IDF) :
  mixer_safe d1 branch vars ->
  rebind_end L branch fluid flnames kin kout vars (write_cell d1 A oA i v) = (r, dx) ->
  dx = write_cell d1 A oA i v
  \/ exists new, dx = write_cell d1 A oA i (VPair v new).
Proof using HoA Hi Hfin HL Hb Hcomps Hres.
  intros Hs H. unfold rebind_end in H. destruct vars as [[cb isf]|];
    [|inversion H; left; reflexivity].
  rewrite bind_getattr in H.
  rewrite (read_write_cell_other _ _ _ (or_introl Hb)) in H.
  destruct (read d1 branch "Name") as [name|e] eqn:En; [|inversion H; left; reflexivity].
  destruct (value_eqb cb name) eqn:Ev; [|inversion H; left; reflexivity].
  apply value_eqb_eq in Ev. subst name.
  destruct isf; [|exfalso; exact (Hs cb eq_refl En)].
  pose proof (stable_run _ v (stable_getbranchcomponents _ Hb)) as Hg.
  rewrite Hcomps in Hg. rewrite (bind_run _ _ _ _ _ Hg) in H. clear Hg.
  change (nth_or_raise (Some A :: rest) 0) with (ret (Some A)) in H.
  rewrite bind_ret in H.
  unfold rebind in H. change (deref_opt (Some A) AttributeError) with (ret A) in H.
  rewrite bind_ret in H.
  pose proof (stable_run _ v (stable_resolve A "Inlet_Node_Name" (Some fluid) None)) as Hr.
  rewrite Hres in Hr. rewrite (bind_run _ _ _ _ _ Hr) in H. clear Hr.
  rewrite bind_getattr, read_write_cell in H.
  unfold nth_or_raise in H. destruct (nth_error flnames kin) as [flname|];
    [|inversion H; left; reflexivity].
  rewrite bind_ret, bind_getattr in H.
  rewrite (read_write_cell_other _ _ _ (or_introl HL)) in H.
  destruct (read d1 L flname) as [new|e]; [|inversion H; left; reflexivity].
  rewrite setattr_write_cell in H. inversion H. right. exists new. reflexivity.
Qed.

Lemma note_connector_mixer_safe (c : ref) (vars vars' : scan_vars) (dx : IDF) :
  mixer_safe d1 branch vars ->
  note_connector c vars d1 = (Ok vars', dx) ->
  mixer_safe d1 branch vars'.
Proof using Hmix.
  intros Hs H. apply note_connector_Ok in H.
  destruct H as [_ [->|(o & b & isf & Hl & -> & Hcase)]]; [exact Hs|].
  intros cb Hcb Hn. inversion Hcb. subst b isf.
  destruct Hcase as [(Hc & _)|(_ & Hk & Ho)]; [discriminate|].
  unfold no_mixer_outlet in Hmix. rewrite Hn in Hmix.
  destruct (lookup_In_idfobjects _ _ _ Hl) as (entry & He & Hin).
  rewrite forallb_forall in Hmix. specialize (Hmix _ He).
  rewrite forallb_forall in Hmix. specialize (Hmix _ Hin).
  unfold mixer_of in Hmix. rewrite Hk, Ho in Hmix. simpl in Hmix.
  rewrite value_eqb_refl in Hmix. discriminate.
Qed.

Lemma scan_turn_write_cell (conlist : option ref) (kin kout j : nat) (vars : scan_vars)
    (v : value) (r : result (flow scan_vars)) (dx : IDF) :
  (forall c, conlist = Some c -> c <> A) ->
  mixer_safe d1 branch vars ->
  scan_turn conlist L branch fluid flnames kin kout j vars (write_cell d1 A oA i v)
    = (r, dx) ->
  (dx = write_cell d1 A oA i v
   \/ exists new, dx = write_cell d1 A oA i (VPair v new))
  /\ forall vars', r = Ok (Next vars') \/ r = Ok (Break vars') ->
       mixer_safe d1 branch vars'.
Proof using HoA Hi Hfin HL Hb Hcomps Hres Hmix.
  intros Hc Hs H. unfold scan_turn in H.
  pose proof (stable_run _ v (stable_connector_of_turn conlist j Hc)) as Hk.
  destruct (fst (connector_of_turn conlist j d1)) as [[c|]|e] eqn:E.
  - rewrite (bind_run _ _ _ _ _ Hk) in H.
    pose proof (stable_run _ v (stable_note_connector c vars)) as Hn.
    destruct (fst (note_connector c vars d1)) as [vars1|e] eqn:En.
    + rewrite (bind_run _ _ _ _ _ Hn) in H.
      assert (Hs1 : mixer_safe d1 branch vars1).
      { apply (note_connector_mixer_safe c vars vars1 d1 Hs).
        rewrite (readonly_run _ d1 (readonly_note_connector c vars)), En. reflexivity. }
      destruct (rebind_end L branch fluid flnames kin kout vars1 (write_cell d1 A oA i v))
        as [r2 dx2] eqn:Er.
      pose proof (rebind_end_write_cell _ _ _ _ _ _ Hs1 Er) as Hcase.
      unfold bind in H. rewrite Er in H.
      destruct r2 as [[]|e]; inversion H; subst; (split; [exact Hcase|]).
      * intros vars' [Hx|Hx]; inversion Hx; subst; exact Hs1.
      * intros vars' [Hx|Hx]; discriminate.
    + rewrite (bind_raise _ _ _ _ _ Hn) in H. inversion H.
      split; [left; reflexivity|]. intros vars' [Hx|Hx]; discriminate.
  - rewrite (bind_run _ _ _ _ _ Hk) in H. inversion H.
    split; [left; reflexivity|]. intros vars' [Hx|Hx]; inversion Hx; subst; exact Hs.
  - rewrite (bind_raise _ _ _ _ _ Hk) in H. inversion H.
    split; [left; reflexivity|]. intros vars' [Hx|Hx]; discriminate.
Qed.

(** Once the port holds a staged pair, the turns of a scan leave it or
    nest it. *)
Lemma for_range_write_cell (conlist : option ref) (kin kout : nat) :
  (forall c, conlist = Some c -> c <> A) ->
  forall n lo vars v r dx,
    (exists a b, v = VPair a b) ->
    mixer_safe d1 branch vars ->
    for_range n lo (scan_turn conlist L branch fluid flnames kin kout) vars
      (write_cell d1 A oA i v) = (r, dx) ->
    exists v', dx = write_cell d1 A oA i v'
               /\ (v' = v \/ nested v')
               /\ forall vars', r = Ok vars' -> mixer_safe d1 branch vars'.
Proof using HoA Hi Hfin HL Hb Hcomps Hres Hmix.
  intros Hc. induction n as [|n IH]; intros lo vars v r dx Hv Hs H; simpl in H.
  - inversion H. subst. exists v. split; [reflexivity|]. split; [left; reflexivity|].
    intros vars' Hx. inversion Hx. subst. exact Hs.
  - destruct (scan_turn conlist L branch fluid flnames kin kout lo vars
                (write_cell d1 A oA i v)) as [r1 dx1] eqn:Et.
    destruct (scan_turn_write_cell _ _ _ _ _ _ _ _ Hc Hs Et) as [Hcase Hsafe].
    unfold bind in H. rewrite Et in H.
    destruct r1 as [[vars1|vars1]|e].
    + specialize (Hsafe vars1 (or_introl eq_refl)).
      destruct Hcase as [->|(new & ->)].
      * exact (IH _ _ _ _ _ Hv Hsafe H).
      * destruct (IH _ _ _ _ _ (ex_intro _ v (ex_intro _ new eq_refl)) Hsafe H)
          as (v' & Hdx & Hv' & Hvars).
        exists v'. split; [exact Hdx|]. split; [|exact Hvars].
        right. destruct Hv' as [->|Hn]; [|exact Hn].
        destruct Hv as (a & b0 & ->). exists a, b0, new. reflexivity.
    + specialize (Hsafe vars1 (or_intror eq_refl)). inversion H. subst.
      destruct Hcase as [->|(new & ->)].
      * exists v. split; [reflexivity|]. split; [left; reflexivity|].
        intros vars' Hx. inversion Hx. subst. exact Hsafe.
      * exists (VPair v new). split; [reflexivity|]. split.
        -- right. destruct Hv as (a & b0 & ->). exists a, b0, new. reflexivity.
        -- intros vars' Hx. inversion Hx. subst. exact Hsafe.
    + inversion H. subst. destruct Hcase as [->|(new & ->)].
      * exists v. split; [reflexivity|]. split; [left; reflexivity|].
        intros vars' Hx. discriminate.
      * exists (VPair v new). split; [reflexivity|]. split.
        -- right. destruct Hv as (a & b0 & ->). exists a, b0, new. reflexivity.
        -- intros vars' Hx. discriminate.
Qed.

(** The turn of the scan at the splitter whose inlet branch is the branch:
    the inlet of the first component is staged for the loop's identifier. *)
Lemma scan_turn_rebinds (scl : option ref) (c : ref) (bn : value) (f0 l : string)
    (kout j : nat) :
  fst (connector_of_turn scl j d1) = Ok (Some c) ->
  read d1 c "key" = Ok (VStr "CONNECTOR:SPLITTER") ->
  read d1 c "Inlet_Branch_Name" = Ok bn ->
  read d1 branch "Name" = Ok bn ->
  nth_error flnames 0 = Some f0 ->
  read d1 L f0 = Ok (VStr l) ->
  scan_turn scl L branch fluid flnames 0 kout j None d1
  = (Ok (Next (Some (bn, true))),
     write_cell d1 A oA i (VPair (nth i (obj oA) (VStr "")) (VStr l))).
Proof using HoA Hi Hcomps Hres.
  intros Hcon Hkey Hin Hname Hf0 Hl. unfold scan_turn.
  rewrite (bind_readonly _ _ _ (readonly_connector_of_turn _ _)), Hcon.
  assert (Hn : note_connector c None d1 = (Ok (Some (bn, true)), d1)).
  { unfold note_connector. rewrite bind_getattr, Hkey.
    change (value_eqb (VStr "CONNECTOR:SPLITTER") (VStr "CONNECTOR:SPLITTER")) with true.
    cbv iota. rewrite bind_assoc, bind_getattr, Hin, bind_ret, bind_getattr, Hkey.
    reflexivity. }
  rewrite (bind_run _ _ _ _ _ Hn).
  assert (Hr : rebind_end L branch fluid flnames 0 kout (Some (bn, true)) d1
               = (Ok tt, write_cell d1 A oA i (VPair (nth i (obj oA) (VStr "")) (VStr l)))).
  { unfold rebind_end. rewrite bind_getattr, Hname, value_eqb_refl.
    rewrite (bind_readonly _ _ _ (readonly_getbranchcomponents _)), Hcomps.
    change (nth_or_raise (Some A :: rest) 0) with (ret (Some A)).
    rewrite bind_ret. unfold rebind.
    change (deref_opt (Some A) AttributeError) with (ret A). rewrite bind_ret.
    rewrite (bind_readonly _ _ _ (readonly_resolve _ _ _ _)), Hres.
    rewrite bind_getattr. unfold read at 1. rewrite HoA. unfold getitem. rewrite Hi.
    unfold nth_or_raise. rewrite Hf0, bind_ret, bind_getattr, Hl.
    apply setattr_cell. }
  rewrite (bind_run _ _ _ _ _ Hr). reflexivity.
Qed.

End Stable.

Lemma large_range_S : exists n, large_range = S n.
Proof.
  exists (N.to_nat 99998%N). with_strategy transparent [large_range] unfold large_range.
  change 99999%N with (N.succ 99998%N). apply Nnat.N2Nat.inj_succ.
Qed.

Lemma In_flat_map_list_set {X Y : Type} (f : X -> list Y) (l : list X) (j : nat) (a : X)
    (y : Y) :
  In y (flat_map f (list_set j a l)) -> In y (flat_map f l) \/ In y (f a).
Proof.
  revert j. induction l as [|x l IH]; intros [|j]; simpl; try tauto.
  - rewrite !in_app_iff. tauto.
  - rewrite !in_app_iff. intros [H|H]; [tauto|]. destruct (IH _ H); tauto.
Qed.

Lemma In_flat_map_assoc_set {X Y : Type} (f : X -> list Y) (k : string) (a : X)
    (l : list (string * X)) (y : Y) :
  In y (flat_map (fun entry => f (snd entry)) (assoc_set k a l)) ->
  In y (flat_map (fun entry => f (snd entry)) l) \/ In y (f a).
Proof.
  induction l as [|[k' a'] l IH]; simpl; [tauto|].
  destruct (String.eqb k k'); simpl; rewrite !in_app_iff; [tauto|].
  intros [H|H]; [tauto|]. destruct (IH H); tauto.
Qed.

Lemma In_all_values_store (r : ref) (o : EpBunch) (d : IDF) (v : value) :
  In v (all_values (store r o d)) -> In v (all_values d) \/ In v (obj o).
Proof.
  unfold all_values, store.
  destruct (assoc (fst r) (idfobjects d)) as [os|] eqn:E; [|tauto].
  simpl. intros H. apply In_flat_map_assoc_set in H. destruct H as [H|H]; [tauto|].
  apply In_flat_map_list_set in H. destruct H as [H|H]; [|tauto].
  left. apply in_flat_map. exists (fst r, os). split; [|exact H].
  clear H. induction (idfobjects d) as [|[k os'] l IH]; simpl in *; [discriminate|].
  destruct (String.eqb (fst r) k) eqn:Ek.
  - apply String.eqb_eq in Ek. inversion E. subst. left. reflexivity.
  - right. auto.
Qed.

Lemma In_list_set {X : Type} (j : nat) (a x : X) (l : list X) :
  In x (list_set j a l) -> x = a \/ In x l.
Proof.
  revert j. induction l as [|y l IH]; intros [|j]; simpl; try tauto.
  - intros [H|H]; auto.
  - intros [H|H]; [auto|]. destruct (IH _ H); auto.
Qed.

Lemma In_all_values_write_cell (d : IDF) (r : ref) (o : EpBunch) (i : nat)
    (v x : value) :
  lookup r d = Some o ->
  In x (all_values (write_cell d r o i v)) ->
  In x (all_values d) \/ x = v \/ x = VStr "".
Proof.
  intros Hl H. unfold write_cell in H. apply In_all_values_store in H.
  destruct H as [H|H]; [tauto|]. simpl in H. apply In_list_set in H.
  destruct H as [H|H]; [tauto|]. unfold pad in H. apply in_app_iff in H.
  destruct H as [H|H].
  - left. apply In_nth_error in H. destruct H as [j Hj].
    exact (In_all_values _ _ _ _ _ Hl Hj).
  - apply repeat_spec in H. tauto.
Qed.

Lemma result_is_true (r : result value) (v : value) : result_is r v = true -> r = Ok v.
Proof.
  destruct r as [w|e]; simpl; [|discriminate]. intros H. apply value_eqb_eq in H.
  congruence.
Qed.

Lemma for_range_S {S : Type} (n lo : nat) (body : nat -> S -> M (flow S)) (s : S) :
  for_range (Datatypes.S n) lo body s
  = bind (body lo s)
         (fun r => match r with
                   | Break s' => ret s'
                   | Next s' => for_range n (Datatypes.S lo) body s'
                   end).
Proof. reflexivity. Qed.

Lemma supplyconlist_of_fst (theloop : ref) (fluid : string) (flnames : list string)
    (d : IDF) (c : ref) :
  fst (supplyconlist_of theloop fluid flnames d) = Ok (Some c) ->
  fst c = "CONNECTORLIST".
Proof.
  intros H.
  destruct (supplyconlist_of theloop fluid flnames d) as [r dx] eqn:E.
  simpl in H. subst r. unfold supplyconlist_of in E.
  apply bind_Ok_inv in E. destruct E as (name & dy & _ & E).
  exact (getobject_fst _ _ _ _ _ E).
Qed.

Lemma nth_error_head {X : Type} (l : list X) (dflt : X) :
  l <> [] -> nth_error l 0 = Some (nth 0 l dflt).
Proof. destruct l; [congruence | reflexivity]. Qed.

Lemma loop_inlet_field_first (loop : Loop) :
  nth_error (flnames_of (loopfields (kind loop))) 0 = Some (loop_inlet_field loop).
Proof.
  unfold loop_inlet_field. apply nth_error_head.
  unfold flnames_of. destruct (kind loop); unfold loopfields; rewrite map_cons;
    discriminate.
Qed.
(** What [first_branch_ready] says, fact by fact. *)
Lemma first_branch_ready_inv (loop : Loop) (branch A : ref) (fluid fin l : string)
    (d : IDF) :
  first_branch_ready loop branch A fluid fin l d = true ->
  exists scl c bn oA i rest,
    fst (supplyconlist_of (newloop loop) fluid (flnames_of (loopfields (kind loop))) d)
      = Ok scl
    /\ fst (connector_of_turn scl 1 d) = Ok (Some c)
    /\ read d c "key" = Ok (VStr "CONNECTOR:SPLITTER")
    /\ read d c "Inlet_Branch_Name" = Ok bn
    /\ read d branch "Name" = Ok bn
    /\ no_mixer_outlet d branch = true
    /\ fst (getbranchcomponents branch d) = Ok (Some A :: rest)
    /\ fst (resolve A "Inlet_Node_Name" (Some fluid) None d) = Ok fin
    /\ lookup A d = Some oA
    /\ index_of fin (objls oA) = Some i
    /\ field_has_type "node" oA i = true
    /\ newloop loop <> A
    /\ branch <> A
    /\ fst A <> "CONNECTORLIST"
    /\ read d (newloop loop) (loop_inlet_field loop) = Ok (VStr l)
    /\ unrenamed l d = true.
Proof.
  unfold first_branch_ready, first_of_supply, first_inlet, apart. intros H.
  repeat match goal with
         | Hx : _ && _ = true |- _ => apply andb_true_iff in Hx; destruct Hx
         end.
  match goal with Hx : match fst (supplyconlist_of _ _ _ _) with _ => _ end = true |- _ =>
    rename Hx into H end.
  destruct (fst (supplyconlist_of (newloop loop) fluid
                   (flnames_of (loopfields (kind loop))) d)) as [scl|] eqn:Escl;
    [|discriminate].
  destruct (fst (connector_of_turn scl 1 d)) as [[c|]|] eqn:Ec; try discriminate.
  apply andb_true_iff in H. destruct H as [Hkey Hin].
  apply result_is_true in Hkey.
  destruct (read d c "Inlet_Branch_Name") as [bn|] eqn:Ebn; [|discriminate].
  destruct (read d branch "Name") as [bn'|] eqn:Ename; [|discriminate].
  apply value_eqb_eq in Hin. subst bn'.
  destruct (fst (getbranchcomponents branch d)) as [[|[a|] rest]|] eqn:Eg;
    try discriminate.
  match goal with Hx : ref_eqb a A = true |- _ => apply ref_eqb_eq in Hx; subst a end.
  destruct (fst (resolve A "Inlet_Node_Name" (Some fluid) None d)) as [f|] eqn:Er;
    [|discriminate].
  match goal with Hx : String.eqb f fin = true |- _ =>
    apply String.eqb_eq in Hx; subst f end.
  destruct (lookup A d) as [oA|] eqn:El; [|discriminate].
  destruct (index_of fin (objls oA)) as [i|] eqn:Ei; [|discriminate].
  exists scl, c, bn, oA, i, rest.
  repeat match goal with
         | Hx : negb _ = true |- _ => apply negb_true_iff in Hx
         | Hx : result_is _ _ = true |- _ => apply result_is_true in Hx
         end.
  repeat split; try assumption; try reflexivity.
  - intros Hx. subst A.
    match goal with Hx : ref_eqb _ _ = false |- _ =>
      rewrite (proj2 (ref_eqb_eq _ _) eq_refl) in Hx; discriminate end.
  - intros Hx. subst A.
    match goal with Hx : ref_eqb _ _ = false |- _ =>
      rewrite (proj2 (ref_eqb_eq _ _) eq_refl) in Hx; discriminate end.
  - intros Hx. match goal with Hy : String.eqb (fst A) _ = false |- _ =>
      rewrite Hx in Hy; discriminate end.
Qed.

(** A completed [renamenodes] on a document whose node field [fin] of [A]
    holds [v]: a staged [v] has a plain old half, and the field ends up
    with its new half. *)
Lemma renamenodes_write_cell (d1 : IDF) (A : ref) (oA : EpBunch) (fin : string)
    (i : nat) (v : value) (d' : IDF) :
  lookup A d1 = Some oA ->
  index_of fin (objls oA) = Some i ->
  field_has_type "node" oA i = true ->
  renamenodes "node" (write_cell d1 A oA i v) = (Ok tt, d') ->
  (is_list v = true -> keyed v)
  /\ forall a new, v = VPair a new -> read d' A fin = Ok new.
Proof.
  intros HoA Hi Hty H.
  pose proof (lookup_write_cell d1 A oA i HoA v) as Hl.
  destruct (renamenodes_Ok_lookup _ _ _ _ _ H Hl) as (o' & Hl' & Ho').
  unfold rename_object in Ho'. cbn [obj objls objidd] in Ho'.
  destruct (rename_fields "node" (collect_renameds (write_cell d1 A oA i v))
              (list_set i v (pad (obj oA) (S i))) (objidd oA)) as [vals e] eqn:Ef.
  inversion Ho'. subst o' e. clear Ho'.
  assert (Hnth : nth_error (list_set i v (pad (obj oA) (S i))) i = Some v)
    by (apply nth_error_list_set_eq; rewrite length_pad; lia).
  destruct (rename_fields_Ok _ _ _ _ _ Ef i v Hnth)
    as (idd & Hidd & [[Ht _]|(Ht & t & Hd & Hn)]).
  - unfold field_has_type in Hty. rewrite Hidd in Hty. congruence.
  - split.
    + intros Hv. apply dict_Ok_keyed in Hd. rewrite Forall_forall in Hd. apply Hd.
      apply In_collect_renameds. split; [|exact Hv].
      exact (In_all_values _ _ _ _ _ Hl Hnth).
    + intros a new ->. unfold read. rewrite Hl'. unfold getitem. cbn [obj objls objidd].
      rewrite Hi. f_equal. apply nth_error_nth. exact Hn.
Qed.

Lemma nested_not_keyed (v : value) : nested v -> keyed v -> False.
Proof. intros (a & b & c & ->) (s & n & H). discriminate. Qed.

Lemma unrenamed_write_cell (d : IDF) (r : ref) (o : EpBunch) (i : nat)
    (old : value) (l : string) :
  lookup r d = Some o ->
  unrenamed l d = true ->
  unrenamed l (write_cell d r o i (VPair old (VStr l))) = true.
Proof.
  intros Hl Hu. unfold unrenamed in *. rewrite forallb_forall in *.
  intros x Hx. apply (In_all_values_write_cell _ _ _ _ _ _ Hl) in Hx.
  destruct Hx as [Hx|[->| ->]]; [auto| |reflexivity].
  destruct old; [|reflexivity]. rewrite value_eqb_refl. apply orb_true_r.
Qed.

(** One call on the first branch of the supply side: once it returns, the
    inlet node field of the branch's first component and the loop's
    [flnames[0]] hold the same identifier, the one the loop's field held
    after chaining, writing and rename propagation. *)
Lemma replacebranch_rebinds (loop : Loop) (branch A : ref) (comps : list component)
    (fluid fin l : string) (d d1 d' : IDF) (b : ref) :
  chain_write_rename branch comps fluid d = (Ok tt, d1) ->
  first_branch_ready loop branch A fluid fin l d1 = true ->
  replacebranch loop branch comps (Some fluid) d = (Ok b, d') ->
  read d' A fin = Ok (VStr l)
  /\ read d' (newloop loop) (loop_inlet_field loop) = Ok (VStr l).
Proof.
  intros Hcw Hready H.
  destruct (first_branch_ready_inv _ _ _ _ _ _ _ Hready)
    as (scl & c & bn & oA & i & rest & Hscl & Hcon & Hkey & Hin & Hname & Hmix & Hcomps
        & Hres & HoA & Hi & Hty & HL & Hb & HAk & Hl & Hu).
  assert (Hfin : PyStr.endswith fin "Inlet_Node_Name" = true).
  { rewrite resolve_run in Hres. simpl in Hres. rewrite HoA in Hres.
    apply getnodefieldname_Ok in Hres. apply Hres. }
  assert (Hscl_c : forall c0, scl = Some c0 -> c0 <> A).
  { intros c0 -> Hx. subst c0. apply HAk. exact (supplyconlist_of_fst _ _ _ _ _ Hscl). }
  pose proof (for_range_write_cell d1 A oA fin i HoA Hi Hfin (newloop loop) branch fluid
                (flnames_of (loopfields (kind loop))) rest HL Hb Hcomps Hres Hmix) as FR.
  unfold replacebranch in H. cbv zeta in H. simpl default_str in H.
  rewrite (bind_run _ _ _ _ _ Hcw) in H.
  rewrite (bind_readonly _ _ _ (readonly_supplyconlist_of _ _ _)), Hscl in H.
  (* the scan of the supply side *)
  apply bind_Ok_inv in H. destruct H as (vars & dx & Hscan & H).
  unfold scan_connectors in Hscan. destruct large_range_S as [n En].
  rewrite En, for_range_S in Hscan.
  rewrite (bind_run _ _ _ _ _
             (scan_turn_rebinds d1 A oA fin i HoA Hi (newloop loop) branch fluid
                (flnames_of (loopfields (kind loop))) rest Hcomps Hres
                scl c bn _ l 1 1 Hcon Hkey Hin Hname (loop_inlet_field_first loop) Hl))
    in Hscan.
  assert (Hsafe0 : mixer_safe d1 branch (Some (bn, true)))
    by (intros cb Hcb; discriminate).
  destruct (FR scl 0 1 Hscl_c _ _ _ _ _ _ (ex_intro _ _ (ex_intro _ _ eq_refl))
              Hsafe0 Hscan) as (v1 & -> & Hv1 & Hsafe1).
  specialize (Hsafe1 vars eq_refl).
  assert (Hpair1 : exists a b0, v1 = VPair a b0).
  { destruct Hv1 as [->|(a & b0 & c0 & ->)]; eauto. }
  (* the scan of the demand side *)
  apply bind_Ok_inv in H. destruct H as ([] & dz & Hdem & H).
  assert (Hdz : exists v2, dz = write_cell d1 A oA i v2
                  /\ (v2 = VPair (nth i (obj oA) (VStr "")) (VStr l) \/ nested v2)).
  { destruct (String.eqb (PyStr.upper fluid) "WATER").
    - apply bind_Ok_inv in Hdem. destruct Hdem as (f & dy & Hf & Hdem).
      apply (readonly_Ok_state _ _ _ _ (readonly_nth_or_raise _ _)) in Hf. subst dy.
      apply bind_Ok_inv in Hdem. destruct Hdem as (dname & dy & Hf & Hdem).
      apply (readonly_Ok_state _ _ _ _ (readonly_getattr _ _)) in Hf. subst dy.
      apply bind_Ok_inv in Hdem. destruct Hdem as (dcl & dy & Hg & Hdem).
      pose proof (readonly_Ok_state _ _ _ _ (readonly_getobject _ _) Hg) as Hdy.
      subst dy.
      assert (Hdcl : forall c0, dcl = Some c0 -> c0 <> A).
      { intros c0 -> Hx. subst c0. apply HAk. exact (getobject_fst _ _ _ _ _ Hg). }
      apply bind_Ok_inv in Hdem. destruct Hdem as (vars2 & dy & Hscan2 & Hdem).
      unfold scan_connectors in Hscan2.
      destruct (FR dcl 4 5 Hdcl _ _ _ _ _ _ Hpair1 Hsafe1 Hscan2) as (v2 & -> & Hv2 & _).
      inversion Hdem. subst dz. exists v2. split; [reflexivity|].
      destruct Hv2 as [->|Hn]; [exact Hv1 | right; exact Hn].
    - inversion Hdem. subst dz. exists v1. split; [reflexivity | exact Hv1]. }
  destruct Hdz as (v2 & -> & Hv2).
  (* the second rename propagation *)
  apply bind_Ok_inv in H. destruct H as ([] & dr & Hren & H).
  inversion H. subst dr b. clear H.
  destruct (renamenodes_write_cell _ _ _ _ _ _ _ HoA Hi Hty Hren) as [Hk Hnew].
  destruct Hv2 as [->|Hn].
  - split; [apply (Hnew _ _ eq_refl)|].
    apply (renamenodes_Ok_unrenamed _ _ _ _ _ _ Hren).
    + apply unrenamed_write_cell; assumption.
    + rewrite (read_write_cell_other d1 A oA fin i HoA Hi _ _ _ (or_introl HL)).
      exact Hl.
  - exfalso. apply (nested_not_keyed _ Hn). apply Hk.
    destruct Hn as (a & b0 & c0 & ->). reflexivity.
Qed.

Lemma existsb_ref_eqb_false (r : ref) (l : list ref) :
  existsb (ref_eqb r) l = false -> ~ In r l.
Proof.
  intros H Hin. assert (existsb (ref_eqb r) l = true); [|congruence].
  apply existsb_exists. exists r. split; [exact Hin | apply ref_eqb_eq; reflexivity].
Qed.



(** ** Loop builders: the objects they create *)

Lemma preorder_same_count (key : string) : preorder (same_count key).
Proof. unfold same_count. split; [reflexivity | intros a b c H1 H2; congruence]. Qed.

Lemma objects_of_store (key : string) (r : ref) (o : EpBunch) (d : IDF) :
  length (objects_of key (store r o d)) = length (objects_of key d).
Proof.
  unfold objects_of, store.
  destruct (assoc (fst r) (idfobjects d)) as [os|] eqn:E; [|reflexivity].
  simpl. destruct (String.eqb (fst r) key) eqn:Ek.
  - apply String.eqb_eq in Ek. subst key. rewrite assoc_set_eq by congruence.
    rewrite E. apply length_list_set.
  - apply String.eqb_neq in Ek. rewrite assoc_set_neq by exact Ek. reflexivity.
Qed.

Lemma same_count_setattr (key : string) (r : ref) (f : string) (v : value) :
  keeps (same_count key) (setattr r f v).
Proof.
  intros d. unfold setattr, bind, deref, lift.
  destruct (lookup r d) as [o|]; [|reflexivity].
  destruct (setitem o f v); simpl; [apply objects_of_store | reflexivity].
Qed.

Lemma same_count_obj_append (key : string) (r : ref) (v : value) :
  keeps (same_count key) (obj_append r v).
Proof.
  intros d. unfold obj_append, bind, deref.
  destruct (lookup r d) as [o|]; simpl; [apply objects_of_store | reflexivity].
Qed.

Lemma same_count_obj_extend (key : string) (r : ref) (l : list value) :
  keeps (same_count key) (obj_extend r l).
Proof.
  intros d. unfold obj_extend, bind, deref.
  destruct (lookup r d) as [o|]; simpl; [apply objects_of_store | reflexivity].
Qed.

Lemma same_count_newidfobject (key k : string) (v : value) :
  String.eqb k key = false -> keeps (same_count key) (newidfobject k v).
Proof.
  intros Hk d. apply String.eqb_neq in Hk. unfold newidfobject.
  destruct (assoc k (idd_info d)) as [fresh|]; [|reflexivity].
  destruct (assoc k (idfobjects d)) as [os|]; [|reflexivity].
  match goal with |- context [match ?x with Ok _ => _ | Raise _ => _ end] =>
    destruct x end; [|reflexivity].
  unfold same_count, objects_of. simpl. rewrite assoc_set_neq by exact Hk. reflexivity.
Qed.

Lemma creates_newidfobject (key : string) (v : value) :
  creates key 1 (newidfobject key v).
Proof.
  intros d a d' H. unfold newidfobject in H.
  destruct (assoc key (idd_info d)) as [fresh|]; [|discriminate].
  destruct (assoc key (idfobjects d)) as [os|] eqn:E; [|discriminate].
  match type of H with context [match ?x with Ok _ => _ | Raise _ => _ end] =>
    destruct x end; [|discriminate].
  inversion H. unfold objects_of. simpl. rewrite assoc_set_eq by congruence.
  rewrite E, length_app. reflexivity.
Qed.

Lemma creates_keeps {A : Type} (key : string) (m : M A) :
  keeps (same_count key) m -> creates key 0 m.
Proof.
  intros H d a d' Hm. specialize (H d). rewrite Hm in H. simpl in H.
  unfold same_count in H. lia.
Qed.

Lemma creates_bind {A B : Type} (key : string) (n n' : nat) (m : M A) (k : A -> M B) :
  creates key n m -> (forall a, creates key n' (k a)) -> creates key (n + n') (bind m k).
Proof.
  intros Hm Hk d b d' H. apply bind_Ok_inv in H. destruct H as (a & dx & H1 & H2).
  rewrite (Hk _ _ _ _ H2), (Hm _ _ _ H1). lia.
Qed.

Lemma readonly_first_object_with (key field : string) (v : value) :
  readonly (first_object_with key field v).
Proof.
  intros d. unfold first_object_with. destruct (assoc key (idfobjects d)); [|reflexivity].
  destruct (find_index (has_field field v) l); reflexivity.
Qed.

#[local] Hint Resolve readonly_first_object_with : readonly.

(** Solves [keeps (same_count key) m] for code that creates no object of
    type [key]. *)
Ltac same_count_tac key :=
  repeat match goal with
    | |- keeps _ (for_each _ _) =>
        apply (keeps_for_each _ (preorder_same_count key)); intros ? ?
    | |- keeps _ (map_each _ _) =>
        apply (keeps_map_each _ (preorder_same_count key)); intros ? ?
    | |- keeps _ (setattr _ _ _) => apply same_count_setattr
    | |- keeps _ (obj_append _ _) => apply same_count_obj_append
    | |- keeps _ (obj_extend _ _) => apply same_count_obj_extend
    | |- keeps _ (newidfobject _ _) =>
        apply same_count_newidfobject; vm_compute; reflexivity
    | |- keeps _ (bind _ _) => apply (keeps_bind _ (preorder_same_count key)); [|intros ?]
    | |- keeps _ (let '(_, _) := ?x in _) => destruct x
    | |- keeps _ (if ?b then _ else _) => destruct b
    | |- keeps _ (match ?x with _ => _ end) => destruct x
    | |- keeps _ _ =>
        solve [apply (keeps_readonly _ (preorder_same_count key)); readonly_tac]
    | |- keeps _ _ => solve [auto with same_count]
    end.

Create HintDb same_count.

Lemma same_count_initialise_loop (key : string) (newloop : ref) (fields : list string) :
  keeps (same_count key) (initialise_loop newloop fields).
Proof. unfold initialise_loop. same_count_tac key. Qed.

Lemma same_count_pipebranch (key branchname : string) :
  key = "BRANCHLIST" \/ key = "CONNECTORLIST" ->
  keeps (same_count key) (pipebranch branchname).
Proof.
  intros [->| ->]; unfold pipebranch, pipecomponent.
  - same_count_tac "BRANCHLIST".
  - same_count_tac "CONNECTORLIST".
Qed.

#[local] Hint Resolve same_count_initialise_loop same_count_pipebranch : same_count.

Lemma same_count_make_supply_branches (key : string) (bl : ref) (sloop : topology) :
  key = "BRANCHLIST" \/ key = "CONNECTORLIST" ->
  keeps (same_count key) (make_supply_branches bl sloop).
Proof. intros Hk. unfold make_supply_branches. same_count_tac key. Qed.

Lemma same_count_make_demand_branches (key : string) (bl : ref) (dloop : topology) :
  keeps (same_count key) (make_demand_branches bl dloop).
Proof. unfold make_demand_branches. same_count_tac key. Qed.

Lemma same_count_rename_endpoints (key : string) (newloop : ref)
    (names : list string) (branches : list ref) :
  key = "BRANCHLIST" \/ key = "CONNECTORLIST" ->
  keeps (same_count key) (rename_endpoints newloop names branches).
Proof. intros Hk. unfold rename_endpoints, first_of, last_of. same_count_tac key. Qed.

Lemma same_count_make_connector (key k : string) (connlist : ref)
    (namefield main : string) (peers : list string) :
  String.eqb k key = false ->
  keeps (same_count key) (make_connector k connlist namefield main peers).
Proof.
  intros Hk. unfold make_connector.
  apply (keeps_bind _ (preorder_same_count key));
    [apply (keeps_readonly _ (preorder_same_count key)); readonly_tac|].
  intros name. apply (keeps_bind _ (preorder_same_count key));
    [apply same_count_newidfobject; exact Hk|].
  intros c. same_count_tac key.
Qed.

Lemma same_count_make_splitters_and_mixers (key : string) (s_connlist d_connlist : ref)
    (sloop dloop : topology) :
  key = "BRANCHLIST" \/ key = "CONNECTORLIST" ->
  keeps (same_count key) (make_splitters_and_mixers s_connlist d_connlist sloop dloop).
Proof.
  intros [->| ->]; unfold make_splitters_and_mixers;
    repeat (apply (keeps_bind _ (preorder_same_count _));
            [apply same_count_make_connector; reflexivity | intros ?]);
    apply (keeps_readonly _ (preorder_same_count _)); readonly_tac.
Qed.

Lemma same_count_make_air_demand_loop (key : string) (dloop : topology) :
  key = "BRANCHLIST" \/ key = "CONNECTORLIST" ->
  keeps (same_count key) (make_air_demand_loop dloop).
Proof.
  intros [->| ->]; unfold make_air_demand_loop.
  - same_count_tac "BRANCHLIST".
  - same_count_tac "CONNECTORLIST".
Qed.

Lemma same_count_zone_entries (key : string) (target : ref) (prefix source : string)
    (zones : list string) :
  forall i, keeps (same_count key) (zone_entries target prefix source i zones).
Proof.
  induction zones as [|zone zones IH]; intros i; simpl.
  - apply (keeps_readonly _ (preorder_same_count key)). readonly_tac.
  - same_count_tac key.
Qed.

#[local] Hint Resolve same_count_make_supply_branches same_count_make_demand_branches
  same_count_rename_endpoints same_count_make_splitters_and_mixers
  same_count_make_air_demand_loop same_count_zone_entries : same_count.

Lemma same_count_make_air_splitters_mixers_and_paths (key : string) (loopname : value)
    (dloop : topology) (newloop : ref) :
  key = "BRANCHLIST" \/ key = "CONNECTORLIST" ->
  keeps (same_count key) (make_air_splitters_mixers_and_paths loopname dloop newloop).
Proof.
  intros [->| ->]; unfold make_air_splitters_mixers_and_paths.
  - same_count_tac "BRANCHLIST".
  - same_count_tac "CONNECTORLIST".
Qed.

#[local] Hint Resolve same_count_make_air_splitters_mixers_and_paths : same_count.

Lemma creates_bind_eq {A B : Type} (key : string) (n n' tot : nat) (m : M A)
    (k : A -> M B) :
  creates key n m -> (forall a, creates key n' (k a)) -> n + n' = tot ->
  creates key tot (bind m k).
Proof. intros Hm Hk <-. apply creates_bind; assumption. Qed.

(** Counts the objects of type [key] that code built from the steps above
    creates. *)
Ltac creates_tac key :=
  repeat match goal with
    | |- creates _ _ (bind _ _) => eapply creates_bind_eq; [ |intros ?| ]
    | |- creates _ _ (newidfobject key _) => apply creates_newidfobject
    | |- creates _ _ _ => apply creates_keeps; solve [same_count_tac key]
    | |- _ + _ = _ => reflexivity
    end.

Lemma creates_make_connectorlist (newloop : ref) (listfield side : string) :
  creates "CONNECTORLIST" 1 (make_connectorlist newloop listfield side).
Proof. unfold make_connectorlist. creates_tac "CONNECTORLIST". Qed.

Lemma same_count_make_connectorlist (newloop : ref) (listfield side : string) :
  keeps (same_count "BRANCHLIST") (make_connectorlist newloop listfield side).
Proof. unfold make_connectorlist. same_count_tac "BRANCHLIST". Qed.

#[local] Hint Resolve same_count_make_connectorlist : same_count.

Ltac loop_creates_tac key :=
  repeat match goal with
    | |- creates _ _ (bind _ _) => eapply creates_bind_eq; [ |intros ?| ]
    | |- creates _ _ (newidfobject key _) => apply creates_newidfobject
    | |- creates _ _ (make_connectorlist _ _ _) => apply creates_make_connectorlist
    | |- creates _ _ _ => apply creates_keeps; solve [same_count_tac key]
    | |- _ + _ = _ => reflexivity
    end.

Lemma creates_make_liquid_loop (t : looptype) (loopname : string)
    (sloop dloop : topology) :
  creates "BRANCHLIST" 2 (make_liquid_loop t loopname sloop dloop)
  /\ creates "CONNECTORLIST" 2 (make_liquid_loop t loopname sloop dloop).
Proof.
  split; unfold make_liquid_loop; destruct t.
  all: try (loop_creates_tac "BRANCHLIST"; fail).
  all: loop_creates_tac "CONNECTORLIST".
Qed.

Lemma creates_make_air_loop (loopname : string) (sloop dloop : topology) :
  creates "BRANCHLIST" 1 (make_air_loop loopname sloop dloop)
  /\ creates "CONNECTORLIST" 1 (make_air_loop loopname sloop dloop).
Proof.
  split; unfold make_air_loop; cbv zeta.
  - loop_creates_tac "BRANCHLIST".
  - loop_creates_tac "CONNECTORLIST".
Qed.

(** ** Loop builders: the zone entries of an air loop *)

Lemma append_inj_l (p a b : string) : p +++ a = p +++ b -> a = b.
Proof. induction p as [|c p IH]; simpl; intros H; [exact H|]. inversion H. auto. Qed.

Lemma length_append (a b : string) :
  String.length (a +++ b) = String.length a + String.length b.
Proof. induction a as [|c a IH]; simpl; [reflexivity|]. rewrite IH. reflexivity. Qed.

Lemma append_inj_r (s a b : string) : a +++ s = b +++ s -> a = b.
Proof.
  revert b. induction a as [|c a IH]; intros [|c' b] H; simpl in H.
  - reflexivity.
  - apply (f_equal String.length) in H. simpl in H. rewrite length_append in H. lia.
  - apply (f_equal String.length) in H. simpl in H. rewrite length_append in H. lia.
  - inversion H. f_equal. auto.
Qed.

Lemma of_nat_inj (a b : nat) : PyStr.of_nat a = PyStr.of_nat b -> a = b.
Proof.
  unfold PyStr.of_nat. intros H. apply (f_equal NilEmpty.uint_of_string) in H.
  rewrite !NilEmpty.usu in H. inversion H as [H1].
  apply (f_equal Nat.of_uint) in H1. rewrite !DecimalNat.Unsigned.of_to in H1. exact H1.
Qed.

Lemma entry_field_inj (prefix : string) (a b : nat) :
  entry_field prefix a = entry_field prefix b -> a = b.
Proof.
  unfold entry_field. intros H. apply append_inj_l, append_inj_r, of_nat_inj in H. lia.
Qed.

Lemma setattr_read_eq (r : ref) (f : string) (v : value) (d d' : IDF) :
  setattr r f v d = (Ok tt, d') -> read d' r f = Ok v.
Proof.
  intros H. apply setattr_Ok in H. destruct H as (o & o' & Hl & Hs & ->).
  unfold read. rewrite (lookup_store_eq _ _ _ _ Hl).
  exact (getitem_setitem_eq _ _ _ _ Hs).
Qed.

Lemma setattr_read_neq (r r' : ref) (f f' : string) (v : value) (d d' : IDF) :
  setattr r f v d = (Ok tt, d') -> r' <> r \/ f' <> f ->
  read d' r' f' = read d r' f'.
Proof.
  intros H Hn. apply setattr_Ok in H. destruct H as (o & o' & Hl & Hs & ->).
  destruct (ref_eq_dec r' r) as [->|Hr].
  - destruct Hn as [Hn|Hn]; [congruence|].
    unfold read. rewrite (lookup_store_eq _ _ _ _ Hl), Hl.
    apply (getitem_setitem_neq _ _ _ _ _ Hs). congruence.
  - apply read_store_neq. congruence.
Qed.

Lemma preorder_same_key (key : string) : preorder (same_key key).
Proof. unfold same_key. split; [reflexivity | intros a b c H1 H2; congruence]. Qed.

Lemma same_key_store (key : string) (r : ref) (o : EpBunch) (d : IDF) :
  fst r <> key -> same_key key d (store r o d).
Proof.
  intros H. unfold same_key, store.
  destruct (assoc (fst r) (idfobjects d)); [|reflexivity].
  simpl. apply assoc_set_neq. exact H.
Qed.

Lemma setattr_same_key (key : string) (r : ref) (f : string) (v : value) (d d' : IDF) :
  setattr r f v d = (Ok tt, d') -> fst r <> key -> same_key key d d'.
Proof.
  intros H Hn. apply setattr_Ok in H. destruct H as (o & o' & Hl & Hs & ->).
  apply same_key_store. exact Hn.
Qed.

Lemma first_object_with_same_key (key field : string) (v : value) (d d' : IDF) :
  same_key key d d' ->
  fst (first_object_with key field v d') = fst (first_object_with key field v d).
Proof.
  unfold same_key, first_object_with. intros ->.
  destruct (assoc key (idfobjects d)) as [os|]; [|reflexivity].
  destruct (find_index (has_field field v) os); reflexivity.
Qed.

Lemma read_same_key (key : string) (e : ref) (f : string) (d d' : IDF) :
  same_key key d d' -> fst e = key -> read d' e f = read d e f.
Proof. unfold same_key, read, lookup. intros H <-. rewrite H. reflexivity. Qed.

Lemma first_object_with_Ok (key field : string) (v : value) (d d' : IDF) (e : ref) :
  first_object_with key field v d = (Ok e, d') -> fst e = key /\ d' = d.
Proof.
  unfold first_object_with. destruct (assoc key (idfobjects d)) as [os|]; [|discriminate].
  destruct (find_index (has_field field v) os); [|discriminate].
  intros H. inversion H. auto.
Qed.

(** A completed run of the loop over the zones: it writes the entry fields
    of the zones, one after the other from position [i] on, and nothing
    else. *)
Lemma zone_entries_Ok (target : ref) (prefix source : string) :
  fst target <> PyStr.upper "ZoneHVAC:EquipmentConnections" ->
  forall zones i d d',
    zone_entries target prefix source i zones d = (Ok tt, d') ->
    same_key (PyStr.upper "ZoneHVAC:EquipmentConnections") d d'
    /\ (forall r, r <> target -> lookup r d' = lookup r d)
    /\ (forall f, (forall k, k < length zones -> f <> entry_field prefix (i + k)) ->
          read d' target f = read d target f)
    /\ (forall k zone, nth_error zones k = Some zone ->
          exists e v,
            first_object_with (PyStr.upper "ZoneHVAC:EquipmentConnections")
              "Zone_Name" (VStr zone) d = (Ok e, d)
            /\ read d e source = Ok v
            /\ read d' target (entry_field prefix (i + k)) = Ok v).
Proof.
  intros Ht. induction zones as [|zone zones IH]; intros i d d' H.
  - inversion H. subst d'. split; [reflexivity|]. split; [reflexivity|].
    split; [reflexivity|]. intros [|k] z Hz; discriminate.
  - simpl in H. apply bind_Ok_inv in H. destruct H as (e & dx & He & H).
    destruct (first_object_with_Ok _ _ _ _ _ _ He) as [Hek ->].
    rewrite bind_getattr in H.
    destruct (read d e source) as [v|] eqn:Ev; [|discriminate].
    apply bind_Ok_inv in H. destruct H as ([] & dx & Hset & H).
    fold (entry_field prefix i) in Hset.
    destruct (IH _ _ _ H) as (Hkey & Hother & Hframe & Hentries).
    pose proof (setattr_same_key _ _ _ _ _ _ Hset Ht) as Hkey0.
    split; [|split; [|split]].
    + unfold same_key in *. congruence.
    + intros r Hr. rewrite (Hother r Hr).
      apply setattr_Ok in Hset. destruct Hset as (o & o' & _ & _ & ->).
      apply lookup_store_neq. congruence.
    + intros f Hf. rewrite Hframe.
      * apply (setattr_read_neq _ _ _ _ _ _ _ Hset). right.
        specialize (Hf 0 (Nat.lt_0_succ _)). rewrite Nat.add_0_r in Hf. exact Hf.
      * intros k Hk. replace (S i + k) with (i + S k) by lia. apply Hf. simpl. lia.
    + intros [|k] z Hz; simpl in Hz.
      * inversion Hz. subst z. exists e, v. split; [exact He|]. split; [exact Ev|].
        rewrite Nat.add_0_r. rewrite Hframe; [exact (setattr_read_eq _ _ _ _ _ Hset)|].
        intros k Hk Heq. apply entry_field_inj in Heq. lia.
      * destruct (Hentries k z Hz) as (e' & v' & He' & Hv' & Hr').
        destruct (first_object_with_Ok _ _ _ _ _ _ He') as [Hek' _].
        exists e', v'. split; [|split].
        -- rewrite (readonly_run _ d (readonly_first_object_with _ _ _)).
           rewrite <- (first_object_with_same_key _ _ _ _ _ Hkey0), He'. reflexivity.
        -- rewrite <- (read_same_key _ _ _ _ _ Hkey0 Hek'). exact Hv'.
        -- replace (i + S k) with (S i + k) by lia. exact Hr'.
Qed.

Lemma preorder_untouched (keys : list string) : preorder (untouched keys).
Proof.
  unfold untouched, same_key. split.
  - intros d. split; reflexivity.
  - intros a b c [H1 H1'] [H2 H2']. split; [|congruence].
    intros key Hk. rewrite (H2 key Hk). apply H1. exact Hk.
Qed.

Lemma existsb_eqb_false (k : string) (keys : list string) :
  existsb (String.eqb k) keys = false -> forall key, In key keys -> k <> key.
Proof.
  intros H key Hin ->. assert (existsb (String.eqb key) keys = true); [|congruence].
  apply existsb_exists. exists key. split; [exact Hin | apply String.eqb_refl].
Qed.

Lemma untouched_store (keys : list string) (r : ref) (o : EpBunch) (d : IDF) :
  existsb (String.eqb (fst r)) keys = false -> untouched keys d (store r o d).
Proof.
  intros H. split; [|apply idd_info_store].
  intros key Hk. apply same_key_store. exact (existsb_eqb_false _ _ H key Hk).
Qed.

Lemma untouched_setattr (keys : list string) (r : ref) (f : string) (v : value) :
  existsb (String.eqb (fst r)) keys = false -> keeps (untouched keys) (setattr r f v).
Proof.
  intros H d. unfold setattr, bind, deref, lift.
  destruct (lookup r d) as [o|]; [|apply preorder_untouched].
  destruct (setitem o f v); simpl; [apply untouched_store; exact H|].
  apply preorder_untouched.
Qed.

Lemma untouched_newidfobject (keys : list string) (k : string) (v : value) :
  existsb (String.eqb k) keys = false -> keeps (untouched keys) (newidfobject k v).
Proof.
  intros Hk d. unfold newidfobject.
  destruct (assoc k (idd_info d)) as [fresh|]; [|apply preorder_untouched].
  destruct (assoc k (idfobjects d)) as [os|]; [|apply preorder_untouched].
  match goal with |- context [match ?x with Ok _ => _ | Raise _ => _ end] =>
    destruct x end; [|apply preorder_untouched].
  split; [|reflexivity]. intros key Hin. unfold same_key. simpl.
  apply assoc_set_neq. exact (existsb_eqb_false _ _ Hk key Hin).
Qed.

Lemma untouched_zone_entries (keys : list string) (target : ref)
    (prefix source : string) (zones : list string) :
  existsb (String.eqb (fst target)) keys = false ->
  forall i, keeps (untouched keys) (zone_entries target prefix source i zones).
Proof.
  intros Ht. induction zones as [|zone zones IH]; intros i; simpl.
  - apply (keeps_readonly _ (preorder_untouched keys)). readonly_tac.
  - apply (keeps_bind _ (preorder_untouched keys));
      [apply (keeps_readonly _ (preorder_untouched keys)); readonly_tac|].
    intros e. apply (keeps_bind _ (preorder_untouched keys));
      [apply (keeps_readonly _ (preorder_untouched keys)); readonly_tac|].
    intros v. apply (keeps_bind _ (preorder_untouched keys));
      [apply untouched_setattr; exact Ht|].
    intros _. apply IH.
Qed.

Lemma newidfobject_fst (key : string) (v : value) (d d' : IDF) (r : ref) :
  newidfobject key v d = (Ok r, d') -> fst r = key.
Proof.
  unfold newidfobject. destruct (assoc key (idd_info d)); [|discriminate].
  destruct (assoc key (idfobjects d)); [|discriminate].
  match goal with |- context [match ?x with Ok _ => _ | Raise _ => _ end] =>
    destruct x end; [|discriminate].
  intros H. inversion H. reflexivity.
Qed.

Lemma keeps_run {A : Type} (R : IDF -> IDF -> Prop) (m : M A) (d d' : IDF)
    (r : result A) :
  keeps R m -> m d = (r, d') -> R d d'.
Proof. intros H Hm. specialize (H d). rewrite Hm in H. exact H. Qed.

Lemma returns_ret {A : Type} (a : A) : returns a (ret a).
Proof. intros d x d' H. inversion H. reflexivity. Qed.

Lemma returns_bind {A B : Type} (b : B) (m : M A) (k : A -> M B) :
  (forall a, returns b (k a)) -> returns b (bind m k).
Proof.
  intros Hk d x d' H. apply bind_Ok_inv in H. destruct H as (a & dx & _ & H).
  exact (Hk a _ _ _ H).
Qed.

(** Solves [keeps (untouched keys) m] for code that creates and writes
    objects of other types only. *)
Ltac untouched_tac keys :=
  repeat match goal with
    | |- keeps _ (bind (newidfobject ?k ?v) _) =>
        apply (keeps_bind_post _ (preorder_untouched keys) (fun a => fst a = k));
        [intros ? ? ? ?; eapply newidfobject_fst; eassumption
        |apply untouched_newidfobject; vm_compute; reflexivity
        |intros ? ?]
    | |- keeps _ (bind _ _) => apply (keeps_bind _ (preorder_untouched keys)); [|intros ?]
    | Ha : fst ?r = _ |- keeps _ (setattr ?r _ _) =>
        apply untouched_setattr; rewrite Ha; vm_compute; reflexivity
    | Ha : fst ?r = _ |- keeps _ (zone_entries ?r _ _ _ _) =>
        apply untouched_zone_entries; rewrite Ha; vm_compute; reflexivity
    | |- keeps _ _ =>
        solve [apply (keeps_readonly _ (preorder_untouched keys)); readonly_tac]
    end.

Lemma newidfobject_blank_Ok (key : string) (d d' : IDF) (r : ref) :
  newidfobject key (VStr "") d = (Ok r, d') ->
  exists fresh,
    assoc key (idd_info d) = Some fresh
    /\ lookup r d' = Some fresh
    /\ fst r = key
    /\ idd_info d' = idd_info d.
Proof.
  unfold newidfobject.
  destruct (assoc key (idd_info d)) as [fresh|]; [|discriminate].
  destruct (assoc key (idfobjects d)) as [os|] eqn:E; [|discriminate].
  intros H. inversion H. subst r d'. clear H. exists fresh.
  split; [reflexivity|]. split; [|split; reflexivity].
  unfold lookup. simpl. rewrite assoc_set_eq by congruence.
  rewrite nth_error_app2 by lia. rewrite Nat.sub_diag. reflexivity.
Qed.

Lemma setattr_idd_info (r : ref) (f : string) (v : value) (d d' : IDF) :
  setattr r f v d = (Ok tt, d') -> idd_info d' = idd_info d.
Proof.
  intros H. apply setattr_Ok in H. destruct H as (o & o' & _ & _ & ->).
  apply idd_info_store.
Qed.

(** The steps that make a zone splitter or a zone mixer: a fresh object of
    type [key], its name, its [fixed] node field, and the loop over the
    zones.  In every later document with the same objects of that type and
    the same equipment connections, the object carries the zone entries. *)
Lemma zone_node_Ok (key prefix source fixed : string) (zones : list string)
    (d d1 d2 d3 d4 : IDF) (z : ref) (n v : value) :
  key <> PyStr.upper "ZoneHVAC:EquipmentConnections" ->
  newidfobject key (VStr "") d = (Ok z, d1) ->
  setattr z "Name" n d1 = (Ok tt, d2) ->
  setattr z fixed v d2 = (Ok tt, d3) ->
  zone_entries z prefix source 0 zones d3 = (Ok tt, d4) ->
  forall d',
    untouched [key; PyStr.upper "ZoneHVAC:EquipmentConnections"] d4 d' ->
    carries_zone_entries d' z prefix source fixed zones.
Proof.
  intros Hkey Hnew Hs1 Hs2 Hz d' [Hun Hidd].
  destruct (newidfobject_blank_Ok _ _ _ _ Hnew) as (fresh0 & Hfresh0 & Hl & Hk & Hi1).
  assert (Ht : fst z <> PyStr.upper "ZoneHVAC:EquipmentConnections") by congruence.
  destruct (zone_entries_Ok _ _ _ Ht _ _ _ _ Hz) as (HEQ34 & _ & Hframe & Hent).
  assert (HEQ : same_key (PyStr.upper "ZoneHVAC:EquipmentConnections") d3 d').
  { pose proof (Hun _ (or_intror (or_introl eq_refl))) as H4.
    unfold same_key in *. congruence. }
  assert (HZ : same_key key d4 d') by (apply Hun; left; reflexivity).
  split.
  - intros k zone Hzone. destruct (Hent k zone Hzone) as (e & w & He & Hw & Hr).
    destruct (first_object_with_Ok _ _ _ _ _ _ He) as [Hek _].
    exists e, w. split; [|split].
    + rewrite (readonly_run _ d' (readonly_first_object_with _ _ _)).
      rewrite (first_object_with_same_key _ _ _ _ _ HEQ), He. reflexivity.
    + rewrite (read_same_key _ _ _ _ _ HEQ Hek). exact Hw.
    + rewrite (read_same_key _ _ _ _ _ HZ Hk). exact Hr.
  - intros f fresh Hfresh Hn1 Hn2 Hn3.
    assert (Hi4 : idd_info d4 = idd_info d).
    { pose proof (keeps_run _ _ _ _ _
                    (untouched_zone_entries [] z prefix source zones eq_refl 0) Hz)
        as [_ Hi34].
      rewrite Hi34, (setattr_idd_info _ _ _ _ _ Hs2), (setattr_idd_info _ _ _ _ _ Hs1).
      exact Hi1. }
    rewrite Hidd, Hi4, Hk, Hfresh0 in Hfresh. inversion Hfresh. subst fresh0.
    rewrite (read_same_key _ _ _ _ _ HZ Hk).
    rewrite (Hframe f Hn3).
    rewrite (setattr_read_neq _ _ _ _ _ _ _ Hs2 (or_intror Hn2)).
    rewrite (setattr_read_neq _ _ _ _ _ _ _ Hs1 (or_intror Hn1)).
    unfold read. rewrite Hl. reflexivity.
Qed.

(** A completed [make_air_splitters_mixers_and_paths]: the zone splitter
    and the zone mixer carry the entries of the zones. *)
Lemma make_air_splitters_mixers_and_paths_Ok (loopname : value) (dloop : topology)
    (newloop zs zm : ref) (d d' : IDF) :
  make_air_splitters_mixers_and_paths loopname dloop newloop d = (Ok (zs, zm), d') ->
  carries_zone_entries d' zs "Outlet_" "Zone_Air_Inlet_Node_or_NodeList_Name"
    "Inlet_Node_Name" (t_parallel dloop)
  /\ carries_zone_entries d' zm "Inlet_" "Zone_Return_Air_Node_Name"
       "Outlet_Node_Name" (t_parallel dloop).
Proof.
  unfold make_air_splitters_mixers_and_paths. cbv zeta. intros H.
  apply bind_Ok_inv in H. destruct H as (zs0 & d1 & Hnew1 & H).
  apply bind_Ok_inv in H. destruct H as ([] & d2 & Hs1 & H).
  rewrite bind_getattr in H.
  destruct (read d2 newloop "Demand_Side_Inlet_Node_Names") as [v1|]; [|discriminate].
  apply bind_Ok_inv in H. destruct H as ([] & d3 & Hs2 & H).
  apply bind_Ok_inv in H. destruct H as ([] & d4 & Hz1 & H).
  pose proof (newidfobject_fst _ _ _ _ _ Hnew1) as Hk1.
  assert (HK1 : untouched ["AIRLOOPHVAC:ZONESPLITTER";
                           PyStr.upper "ZoneHVAC:EquipmentConnections"] d4 d').
  { match type of H with ?m d4 = _ =>
      assert (Hm : keeps (untouched ["AIRLOOPHVAC:ZONESPLITTER";
                                     PyStr.upper "ZoneHVAC:EquipmentConnections"]) m)
    end.
    { untouched_tac ["AIRLOOPHVAC:ZONESPLITTER";
                     PyStr.upper "ZoneHVAC:EquipmentConnections"]. }
    exact (keeps_run _ _ _ _ _ Hm H). }
  apply bind_Ok_inv in H. destruct H as (zm0 & d5 & Hnew2 & H).
  apply bind_Ok_inv in H. destruct H as ([] & d6 & Hs3 & H).
  rewrite bind_getattr in H.
  destruct (read d6 newloop "Demand_Side_Outlet_Node_Name") as [v2|]; [|discriminate].
  apply bind_Ok_inv in H. destruct H as ([] & d7 & Hs4 & H).
  apply bind_Ok_inv in H. destruct H as ([] & d8 & Hz2 & H).
  pose proof (newidfobject_fst _ _ _ _ _ Hnew2) as Hk2.
  assert (HK2 : untouched ["AIRLOOPHVAC:ZONEMIXER";
                           PyStr.upper "ZoneHVAC:EquipmentConnections"] d8 d').
  { match type of H with ?m d8 = _ =>
      assert (Hm : keeps (untouched ["AIRLOOPHVAC:ZONEMIXER";
                                     PyStr.upper "ZoneHVAC:EquipmentConnections"]) m)
    end.
    { untouched_tac ["AIRLOOPHVAC:ZONEMIXER";
                     PyStr.upper "ZoneHVAC:EquipmentConnections"]. }
    exact (keeps_run _ _ _ _ _ Hm H). }
  assert (Hret : (zs, zm) = (zs0, zm0)).
  { match type of H with ?m d8 = _ => assert (Hm : returns (zs0, zm0) m) end.
    { repeat (apply returns_bind; intros ?). apply returns_ret. }
    exact (Hm _ _ _ H). }
  inversion Hret. subst zs zm. split.
  - assert (Hne : "AIRLOOPHVAC:ZONESPLITTER"
                  <> PyStr.upper "ZoneHVAC:EquipmentConnections")
      by (intros Hx; vm_compute in Hx; discriminate).
    exact (zone_node_Ok _ _ _ _ _ _ _ _ _ _ _ _ _ Hne Hnew1 Hs1 Hs2 Hz1 d' HK1).
  - assert (Hne : "AIRLOOPHVAC:ZONEMIXER"
                  <> PyStr.upper "ZoneHVAC:EquipmentConnections")
      by (intros Hx; vm_compute in Hx; discriminate).
    exact (zone_node_Ok _ _ _ _ _ _ _ _ _ _ _ _ _ Hne Hnew2 Hs3 Hs4 Hz2 d' HK2).
Qed.

(** ** Loop builders: what a built loop has *)

(** X1.  A plant loop or a condenser loop that is built has created exactly
    two BRANCHLIST objects and exactly two CONNECTORLIST objects
    ([makeplantloop] and [makecondenserloop] are [make_liquid_loop] at
    [PLANTLOOP] and [CONDENSERLOOP]). *)
Theorem make_liquid_loop_two_lists (t : looptype) (loopname : string)
    (sloop dloop : topology) (d d' : IDF) (loop : Loop) :
  make_liquid_loop t loopname sloop dloop d = (Ok loop, d') ->
  length (objects_of "BRANCHLIST" d') = length (objects_of "BRANCHLIST" d) + 2
  /\ length (objects_of "CONNECTORLIST" d') = length (objects_of "CONNECTORLIST" d) + 2.
Proof.
  intros H. destruct (creates_make_liquid_loop t loopname sloop dloop) as [Hb Hc].
  split; [exact (Hb _ _ _ H) | exact (Hc _ _ _ H)].
Qed.

(** X1, witness: the sample plant loop, built on the empty document. *)
Lemma make_liquid_loop_two_lists_witness :
  length (objects_of "BRANCHLIST" Sample.plant_doc)
  = length (objects_of "BRANCHLIST" Sample.empty) + 2
  /\ length (objects_of "CONNECTORLIST" Sample.plant_doc)
     = length (objects_of "CONNECTORLIST" Sample.empty) + 2.
Proof.
  apply (make_liquid_loop_two_lists PLANTLOOP "p_loop" Sample.supply Sample.demand
           Sample.empty Sample.plant_doc plant_loop).
  vm_compute. reflexivity.
Defined.

(** X2.  An air loop that is built has created exactly one BRANCHLIST object
    and exactly one CONNECTORLIST object. *)
Theorem make_air_loop_one_list (loopname : string) (sloop dloop : topology)
    (d d' : IDF) (r : Loop * (ref * ref)) :
  make_air_loop loopname sloop dloop d = (Ok r, d') ->
  length (objects_of "BRANCHLIST" d') = length (objects_of "BRANCHLIST" d) + 1
  /\ length (objects_of "CONNECTORLIST" d') = length (objects_of "CONNECTORLIST" d) + 1.
Proof.
  intros H. destruct (creates_make_air_loop loopname sloop dloop) as [Hb Hc].
  split; [exact (Hb _ _ _ H) | exact (Hc _ _ _ H)].
Qed.

(** X2, witness: an air loop with two zones, built on the empty document. *)
Lemma make_air_loop_one_list_witness :
  length (objects_of "BRANCHLIST"
            (snd (make_air_loop "a_loop" Sample.supply Sample.demand Sample.empty)))
  = length (objects_of "BRANCHLIST" Sample.empty) + 1
  /\ length (objects_of "CONNECTORLIST"
               (snd (make_air_loop "a_loop" Sample.supply Sample.demand Sample.empty)))
     = length (objects_of "CONNECTORLIST" Sample.empty) + 1.
Proof.
  apply (make_air_loop_one_list "a_loop" Sample.supply Sample.demand Sample.empty
           (snd (make_air_loop "a_loop" Sample.supply Sample.demand Sample.empty))
           (sample_air_loop, (("AIRLOOPHVAC:ZONESPLITTER", 0),
                              ("AIRLOOPHVAC:ZONEMIXER", 0)))).
  vm_compute. reflexivity.
Defined.

(** X3.  The zone splitter and the zone mixer of an air loop that is built
    carry one node entry per zone of the demand side, in the order of the
    zones: the splitter's [Outlet_k_Node_Name] holds the air inlet node of
    zone [k] and the mixer's [Inlet_k_Node_Name] its return air node, as the
    zone's equipment connections give them; their other fields, [Name] and
    the one node field towards the loop apart, hold what a fresh object
    holds. *)
Theorem make_air_loop_zone_entries (loopname : string) (sloop dloop : topology)
    (d d' : IDF) (loop : Loop) (zs zm : ref) :
  make_air_loop loopname sloop dloop d = (Ok (loop, (zs, zm)), d') ->
  carries_zone_entries d' zs "Outlet_" "Zone_Air_Inlet_Node_or_NodeList_Name"
    "Inlet_Node_Name" (t_parallel dloop)
  /\ carries_zone_entries d' zm "Inlet_" "Zone_Return_Air_Node_Name"
       "Outlet_Node_Name" (t_parallel dloop).
Proof.
  unfold make_air_loop. cbv zeta. intros H.
  do 8 (apply bind_Ok_inv in H; destruct H as (? & ? & _ & H)).
  apply bind_Ok_inv in H. destruct H as ([zs0 zm0] & dz & Hm & H).
  inversion H. subst. clear H.
  exact (make_air_splitters_mixers_and_paths_Ok _ _ _ _ _ _ _ Hm).
Qed.

(** X3, witness: an air loop with the zones db1 and db2, built on the empty
    document. *)
Lemma make_air_loop_zone_entries_witness :
  carries_zone_entries
    (snd (make_air_loop "a_loop" Sample.supply Sample.demand Sample.empty))
    ("AIRLOOPHVAC:ZONESPLITTER", 0) "Outlet_" "Zone_Air_Inlet_Node_or_NodeList_Name"
    "Inlet_Node_Name" ["db1"; "db2"]
  /\ carries_zone_entries
       (snd (make_air_loop "a_loop" Sample.supply Sample.demand Sample.empty))
       ("AIRLOOPHVAC:ZONEMIXER", 0) "Inlet_" "Zone_Return_Air_Node_Name"
       "Outlet_Node_Name" ["db1"; "db2"].
Proof.
  apply (make_air_loop_zone_entries "a_loop" Sample.supply Sample.demand Sample.empty
           (snd (make_air_loop "a_loop" Sample.supply Sample.demand Sample.empty))
           sample_air_loop).
  vm_compute. reflexivity.
Defined.

(** ** Port initialisation: what a completed run leaves *)

Lemma all_space_append (a b : string) :
  PyStr.all_space (a +++ b) = PyStr.all_space a && PyStr.all_space b.
Proof.
  induction a as [|c a IH]; simpl; [reflexivity|]. rewrite IH. apply andb_assoc.
Qed.

Lemma default_name_not_blank (n : value) (f : string) :
  blankfield (VStr (pystr n +++ "_" +++ f)) = false.
Proof.
  simpl. unfold PyStr.blank. rewrite all_space_append. simpl. apply andb_false_r.
Qed.

(** After a completed [init_fields] with [force=False], no field of the
    list is blank. *)
Lemma init_fields_fills (r : ref) (fields : list string) :
  forall (d d' : IDF) (o : EpBunch),
    lookup r d = Some o ->
    init_fields r fields false d = (Ok tt, d') ->
    forall g, In g fields ->
      exists v, read d' r g = Ok v /\ blankfield v = false.
Proof.
  induction fields as [|f fields IH]; intros d d' o Hl H g Hg; [destruct Hg|].
  change (init_fields r (f :: fields) false)
    with (bind ((fun field =>
                   bind (getattr r field) (fun v =>
                     if blankfield v || false then
                       bind (getattr r "Name") (fun n =>
                         setattr r field (VStr (pystr n +++ "_" +++ field)))
                     else ret tt)) f)
               (fun _ => init_fields r fields false)) in H.
  cbv beta in H. apply bind_Ok_inv in H. destruct H as ([] & d1 & Hf & Hrest).
  assert (Hhead : exists o1 v1, lookup r d1 = Some o1 /\ getitem o1 f = Ok v1
                                /\ blankfield v1 = false).
  { rewrite bind_getattr, (read_lookup _ _ _ _ Hl) in Hf.
    destruct (getitem o f) as [v|] eqn:Ev; [|discriminate].
    rewrite orb_false_r in Hf. destruct (blankfield v) eqn:Eb.
    - rewrite bind_getattr, (read_lookup _ _ _ _ Hl) in Hf.
      destruct (getitem o "Name") as [n|]; [|discriminate].
      pose proof (setattr_read_eq _ _ _ _ _ Hf) as Hr.
      apply setattr_Ok in Hf. destruct Hf as (o0 & o1 & Hl0 & Ho1 & ->).
      exists o1, (VStr (pystr n +++ "_" +++ f)).
      split; [eapply lookup_store_eq; eauto|].
      split; [exact (getitem_setitem_eq _ _ _ _ Ho1) | apply default_name_not_blank].
    - inversion Hf. subst d1. exists o, v. auto. }
  destruct Hhead as (o1 & v1 & Hl1 & Hv1 & Hb1).
  destruct (in_dec string_dec g fields) as [Hin|Hnin].
  - exact (IH _ _ _ Hl1 Hrest g Hin).
  - destruct Hg as [<-|Hg]; [|contradiction].
    destruct (init_fields_Ok _ _ _ _ _ Hl1 Hrest) as (o' & -> & _ & _ & _ & Hkeep).
    exists v1. split; [|exact Hb1].
    unfold read. rewrite (lookup_store_eq _ _ _ _ Hl1). exact (Hkeep _ _ Hv1 Hb1).
Qed.

(** The list a completed [trimfields] returns depends on the fields and on
    the port hint only. *)
Lemma trimfields_result (r r2 : ref) (ins ins2 fields l : list string)
    (thisnode : option string) (d d' d2 : IDF) :
  trimfields r ins fields thisnode d = (Ok l, d') ->
  fst (trimfields r2 ins2 fields thisnode d2) = Ok l.
Proof.
  unfold trimfields. destruct (1 <? length fields).
  - destruct thisnode as [hint|].
    + intros H. inversion H. reflexivity.
    + intros H.
      apply bind_Ok_inv in H. destruct H as (? & ? & _ & H).
      apply bind_Ok_inv in H. destruct H as (? & ? & _ & H).
      apply bind_Ok_inv in H. destruct H as (? & ? & _ & H).
      apply bind_Ok_inv in H. destruct H as (? & ? & _ & H).
      apply bind_Ok_inv in H. destruct H as (? & ? & _ & H).
      discriminate.
  - intros H. inversion H. reflexivity.
Qed.

(** X4.  A completed [initinletoutlet] without [force] returns the object
    it was given and is confined to its blank node ports: every other
    object is as it was, every field that is neither an inlet nor an outlet
    node field is as it was, and every field that was not blank holds what
    it held.  Afterwards none of the inlet and outlet node fields that
    [trimfields] selects is blank. *)
Theorem initinletoutlet_fills_blank_ports (r x : ref) (thisnode : option string)
    (d d' : IDF) (o : EpBunch) :
  lookup r d = Some o ->
  initinletoutlet r thisnode false d = (Ok x, d') ->
  x = r
  /\ (forall r', r' <> r -> lookup r' d' = lookup r' d)
  /\ (forall g, node_port g = false -> read d' r g = read d r g)
  /\ (forall g v, read d r g = Ok v -> blankfield v = false -> read d' r g = Ok v)
  /\ (forall suffix l g,
        suffix = "Inlet_Node_Name" \/ suffix = "Outlet_Node_Name" ->
        fst (trimfields r (getfieldnamesendswith o "Inlet_Node_Name")
               (getfieldnamesendswith o suffix) thisnode d) = Ok l ->
        In g l ->
        exists v, read d' r g = Ok v /\ blankfield v = false).
Proof.
  intros Hl H.
  destruct (initinletoutlet_Ok _ _ _ _ _ H) as (o0 & o' & Hl0 & Hd' & _ & _ & Hport & Hkeep).
  rewrite Hl in Hl0. inversion Hl0. subst o0. clear Hl0.
  assert (Hl' : lookup r d' = Some o') by (subst d'; eapply lookup_store_eq; eauto).
  assert (Hx : x = r).
  { revert H. unfold initinletoutlet.
    intros H. repeat (apply bind_Ok_inv in H; destruct H as (? & ? & _ & H)).
    inversion H. reflexivity. }
  split; [exact Hx|]. split; [|split; [|split]].
  - intros r' Hr'. subst d'. apply lookup_store_neq. congruence.
  - intros g Hg. unfold read. rewrite Hl', Hl. apply Hport. exact Hg.
  - intros g v Hv Hb. unfold read in *. rewrite Hl in Hv. rewrite Hl'.
    exact (Hkeep _ _ Hv Hb).
  - intros suffix l g Hsuf Htrim Hg.
    unfold initinletoutlet in H. rewrite bind_deref, Hl in H.
    apply bind_Ok_inv in H. destruct H as (ins & d1 & Htrim1 & H).
    pose proof (trimfields_result r r _ (getfieldnamesendswith o "Inlet_Node_Name")
                  _ _ _ _ _ d Htrim1) as Hins.
    apply trimfields_Ok in Htrim1. destruct Htrim1 as [-> _].
    apply bind_Ok_inv in H. destruct H as ([] & d1 & Hinit & H).
    destruct (init_fields_Ok _ _ _ _ _ Hl Hinit) as (o1 & Hd1 & Hls1 & _ & _ & _).
    assert (Hl1 : lookup r d1 = Some o1) by (subst d1; eapply lookup_store_eq; eauto).
    rewrite bind_deref, Hl1 in H.
    apply bind_Ok_inv in H. destruct H as (outs & d2 & Htrim2 & H).
    assert (Hfields : getfieldnamesendswith o1 "Outlet_Node_Name"
                      = getfieldnamesendswith o "Outlet_Node_Name")
      by (unfold getfieldnamesendswith; rewrite Hls1; reflexivity).
    rewrite Hfields in Htrim2.
    pose proof (trimfields_result r r _ (getfieldnamesendswith o "Inlet_Node_Name")
                  _ _ _ _ _ d Htrim2) as Houts.
    apply trimfields_Ok in Htrim2. destruct Htrim2 as [-> _].
    apply bind_Ok_inv in H. destruct H as ([] & d2 & Hinit2 & H).
    assert (Hdd : d2 = d') by (inversion H; reflexivity).
    clear H. rewrite Hdd in Hinit2. clear Hdd d2.
    destruct Hsuf as [Hs | Hs]; rewrite Hs in Htrim.
    + rewrite Hins in Htrim. inversion Htrim as [Hins']. rewrite <- Hins' in Hg.
      destruct (init_fields_fills _ _ _ _ _ Hl Hinit g Hg) as (v & Hv & Hb).
      exists v. split; [|exact Hb].
      destruct (init_fields_Ok _ _ _ _ _ Hl1 Hinit2) as (o2 & Hd2 & _ & _ & _ & Hkeep2).
      assert (Hl2 : lookup r d' = Some o2)
        by (rewrite Hd2; eapply lookup_store_eq; eauto).
      unfold read in Hv. rewrite Hl1 in Hv.
      unfold read. rewrite Hl2. exact (Hkeep2 _ _ Hv Hb).
    + rewrite Houts in Htrim. inversion Htrim as [Houts']. rewrite <- Houts' in Hg.
      exact (init_fields_fills _ _ _ _ _ Hl1 Hinit2 g Hg).
Qed.

(** X4, witness: the new pipe np1 of the sample document, whose node fields
    are blank. *)
Lemma initinletoutlet_fills_blank_ports_witness :
  exists o,
    lookup np1 pipes_doc = Some o
    /\ np1 = np1
    /\ (forall r', r' <> np1 ->
          lookup r' (snd (initinletoutlet np1 None false pipes_doc))
          = lookup r' pipes_doc)
    /\ (forall g, node_port g = false ->
          read (snd (initinletoutlet np1 None false pipes_doc)) np1 g
          = read pipes_doc np1 g)
    /\ (forall g v, read pipes_doc np1 g = Ok v -> blankfield v = false ->
          read (snd (initinletoutlet np1 None false pipes_doc)) np1 g = Ok v)
    /\ (forall suffix l g,
          suffix = "Inlet_Node_Name" \/ suffix = "Outlet_Node_Name" ->
          fst (trimfields np1 (getfieldnamesendswith o "Inlet_Node_Name")
                 (getfieldnamesendswith o suffix) None pipes_doc) = Ok l ->
          In g l ->
          exists v, read (snd (initinletoutlet np1 None false pipes_doc)) np1 g = Ok v
                    /\ blankfield v = false).
Proof.
  eexists. split; [vm_compute; reflexivity|].
  apply (initinletoutlet_fills_blank_ports np1 np1 None pipes_doc
           (snd (initinletoutlet np1 None false pipes_doc))); vm_compute; reflexivity.
Defined.

(** ** What chaining and branch writing leave alone *)

(** X5.  Whatever its outcome, [connectcomponents] leaves every object that
    is not one of the listed components as it was. *)
Theorem connectcomponents_touches_components_only (r : ref) (cs : list component)
    (fluid : option string) (d : IDF) :
  existsb (ref_eqb r) (map fst cs) = false ->
  lookup r (snd (connectcomponents cs fluid d)) = lookup r d.
Proof.
  intros H. apply existsb_ref_eqb_false in H.
  exact (same_at_connectcomponents r cs fluid H d).
Qed.

(** X5, witness: chaining the two new pipes leaves the plant loop object
    alone. *)
Lemma connectcomponents_touches_components_only_witness :
  lookup ("PLANTLOOP", 0)
    (snd (connectcomponents [(np1, None); (np2, None)] (Some "Water") pipes_doc))
  = lookup ("PLANTLOOP", 0) pipes_doc.
Proof.
  apply (connectcomponents_touches_components_only ("PLANTLOOP", 0)
           [(np1, None); (np2, None)] (Some "Water") pipes_doc).
  vm_compute. reflexivity.
Defined.

(** X6.  Whatever its outcome, [componentsintobranch] leaves every object
    that is not a BRANCH as it was: the components it reads are not
    written. *)
Theorem componentsintobranch_touches_branches_only (r branch : ref)
    (cs : list component) (fluid : option string) (d : IDF) :
  String.eqb (fst r) "BRANCH" = false ->
  lookup r (snd (componentsintobranch branch cs fluid d)) = lookup r d.
Proof.
  intros H. apply String.eqb_neq in H.
  exact (same_at_componentsintobranch r branch cs fluid H d).
Qed.

(** X6, witness: writing the chained pipes into the first supply branch
    leaves the first pipe alone. *)
Lemma componentsintobranch_touches_branches_only_witness :
  lookup np1
    (snd (componentsintobranch ("BRANCH", 0) [(np1, None); (np2, None)] None chained_doc))
  = lookup np1 chained_doc.
Proof.
  apply (componentsintobranch_touches_branches_only np1 ("BRANCH", 0)
           [(np1, None); (np2, None)] None chained_doc).
  vm_compute. reflexivity.
Defined.

(** ** Rename propagation with nothing staged *)

Lemma renamed_object_plain (ft : string) (o : EpBunch) :
  wf_object o = true ->
  (forall v, In v (obj o) -> is_list v = false) ->
  renamed_object ft [] o = o.
Proof.
  unfold wf_object, renamed_object. intros Hwf Hplain.
  apply andb_true_iff in Hwf. destruct Hwf as [_ Hlen]. apply Nat.leb_le in Hlen.
  destruct o as [vals ls idds]. simpl in *. f_equal.
  revert idds Hlen. induction vals as [|v vals IH]; intros idds Hlen; [reflexivity|].
  destruct idds as [|idd idds]; [simpl in Hlen; lia|]. simpl.
  rewrite IH; [|intros w Hw; apply Hplain; right; exact Hw | simpl in Hlen; lia].
  f_equal. destruct (has_type ft idd); [|reflexivity].
  specialize (Hplain v (or_introl eq_refl)). destruct v; [reflexivity|discriminate].
Qed.

Lemma map_id_on {X : Type} (f : X -> X) (l : list X) :
  (forall x, In x l -> f x = x) -> map f l = l.
Proof.
  induction l as [|x l IH]; intros H; simpl; [reflexivity|].
  rewrite (H x (or_introl eq_refl)), IH; [reflexivity|].
  intros y Hy. apply H. right. exact Hy.
Qed.

(** X7.  On a document that holds no staged value (and whose objects have
    an IDD entry for each stored value), [renamenodes] completes and leaves
    the document exactly as it was. *)
Theorem renamenodes_nothing_staged (ft : string) (d : IDF) :
  wf_doc d = true ->
  collect_renameds d = [] ->
  renamenodes ft d = (Ok tt, d).
Proof.
  intros Hwf Hnone. unfold renamenodes. rewrite Hnone.
  rewrite (rename_keys_done ft [] [] (idfobjects d) eq_refl Hwf).
  replace (map (fun entry => (fst entry, map (renamed_object ft []) (snd entry)))
               (idfobjects d)) with (idfobjects d); [destruct d; reflexivity|].
  symmetry. apply map_id_on. intros [k os] Hin. simpl. f_equal.
  apply map_id_on. intros o Ho. apply renamed_object_plain.
  - unfold wf_doc in Hwf. rewrite forallb_forall in Hwf. specialize (Hwf _ Hin).
    simpl in Hwf. rewrite forallb_forall in Hwf. exact (Hwf _ Ho).
  - intros v Hv. destruct (is_list v) eqn:E; [|reflexivity].
    assert (Hc : In v (collect_renameds d)).
    { apply In_collect_renameds. split; [|exact E]. unfold all_values.
      apply in_flat_map. exists (k, os). split; [exact Hin|].
      apply in_flat_map. exists o. split; assumption. }
    rewrite Hnone in Hc. destruct Hc.
Qed.

(** X7, witness: the sample plant loop as built. *)
Lemma renamenodes_nothing_staged_witness :
  renamenodes "node" Sample.plant_doc = (Ok tt, Sample.plant_doc).
Proof.
  apply (renamenodes_nothing_staged "node" Sample.plant_doc); vm_compute; reflexivity.
Defined.

(** ** Get or make *)

Lemma find_index_app_new {X : Type} (p : X -> bool) (l : list X) (x : X) :
  find_index p l = None -> p x = true -> find_index p (l ++ [x]) = Some (length l).
Proof.
  induction l as [|y l IH]; simpl; intros H Hx.
  - rewrite Hx. reflexivity.
  - destruct (p y); [discriminate|].
    destruct (find_index p l); [discriminate|]. rewrite (IH eq_refl Hx). reflexivity.
Qed.

Lemma getobject_Some (key : string) (name : value) (d d' : IDF) (r : ref) :
  getobject key name d = (Ok (Some r), d') ->
  d' = d /\ fst r = key /\ read d r "Name" = Ok name.
Proof.
  unfold getobject. destruct (assoc key (idfobjects d)) as [os|] eqn:E; [|discriminate].
  destruct (find_index (has_name name) os) as [i|] eqn:Ei; [|discriminate].
  simpl. intros H. inversion H. subst. split; [reflexivity|]. split; [reflexivity|].
  apply find_index_Some in Ei. destruct Ei as (o & Ho & Hn).
  unfold read, lookup. simpl. rewrite E, Ho. unfold has_name in Hn.
  destruct (getitem o "Name") as [n|]; [|discriminate].
  apply value_eqb_eq in Hn. congruence.
Qed.

(** X8.  [getmakeidfobject] gets or makes: when it returns for a name that
    is not empty, the object it returns has the type and the name asked
    for, and asking again returns the same object and leaves the document
    as it is. *)
Theorem getmakeidfobject_again (key name : string) (d d' : IDF) (r : ref) :
  String.eqb name "" = false ->
  getmakeidfobject key name d = (Ok r, d') ->
  fst r = key
  /\ read d' r "Name" = Ok (VStr name)
  /\ getmakeidfobject key name d' = (Ok r, d').
Proof.
  intros Hname H. unfold getmakeidfobject in H.
  apply bind_Ok_inv in H. destruct H as (found & dx & Hget & H).
  destruct found as [r0|].
  - inversion H. subst r0 dx. clear H.
    destruct (getobject_Some _ _ _ _ _ Hget) as (-> & Hk & Hn).
    split; [exact Hk|]. split; [exact Hn|].
    unfold getmakeidfobject. rewrite (bind_run _ _ _ _ _ Hget). reflexivity.
  - pose proof (readonly_Ok_state _ _ _ _ (readonly_getobject _ _) Hget) as Hdx.
    subst dx. unfold getobject in Hget. unfold newidfobject in H.
    destruct (assoc key (idfobjects d)) as [os|] eqn:E;
      [|destruct (assoc key (idd_info d)); discriminate].
    destruct (find_index (has_name (VStr name)) os) eqn:Ei; [discriminate|]. clear Hget.
    destruct (assoc key (idd_info d)) as [fresh|]; [|discriminate].
    destruct name as [|c name]; [discriminate|].
    destruct (setitem fresh "Name" (VStr (String c name))) as [o|] eqn:Es;
      [|discriminate].
    inversion H. subst r d'. clear H.
    assert (Hn : has_name (VStr (String c name)) o = true).
    { unfold has_name. rewrite (getitem_setitem_eq _ _ _ _ Es). apply value_eqb_refl. }
    assert (Hl : lookup (key, length os)
                   (mkIDF (assoc_set key (os ++ [o]) (idfobjects d)) (idd_info d)
                          (stdout d)) = Some o).
    { unfold lookup. simpl. rewrite assoc_set_eq by congruence.
      rewrite nth_error_app2 by lia. rewrite Nat.sub_diag. reflexivity. }
    split; [reflexivity|]. split.
    + unfold read. rewrite Hl. exact (getitem_setitem_eq _ _ _ _ Es).
    + unfold getmakeidfobject, bind, getobject. simpl.
      rewrite assoc_set_eq by congruence.
      rewrite (find_index_app_new _ _ _ Ei Hn). reflexivity.
Qed.

(** X8, witness: a pipe that the sample document does not have is made, and
    found when asked for again. *)
Lemma getmakeidfobject_again_witness :
  fst ("PIPE:ADIABATIC", 10) = "PIPE:ADIABATIC"
  /\ read (snd (getmakeidfobject "PIPE:ADIABATIC" "np3" pipes_doc))
          ("PIPE:ADIABATIC", 10) "Name" = Ok (VStr "np3")
  /\ getmakeidfobject "PIPE:ADIABATIC" "np3"
       (snd (getmakeidfobject "PIPE:ADIABATIC" "np3" pipes_doc))
     = (Ok ("PIPE:ADIABATIC", 10),
        snd (getmakeidfobject "PIPE:ADIABATIC" "np3" pipes_doc)).
Proof.
  apply (getmakeidfobject_again "PIPE:ADIABATIC" "np3" pipes_doc
           (snd (getmakeidfobject "PIPE:ADIABATIC" "np3" pipes_doc))
           ("PIPE:ADIABATIC", 10)); vm_compute; reflexivity.
Defined.

(** ** A branch with one pipe *)

Lemma newidfobject_lookup_other (key : string) (v : value) (d d' : IDF) (r r' : ref) :
  newidfobject key v d = (Ok r, d') -> r' <> r -> lookup r' d' = lookup r' d.
Proof.
  unfold newidfobject.
  destruct (assoc key (idd_info d)) as [fresh|]; [|discriminate].
  destruct (assoc key (idfobjects d)) as [os|] eqn:E; [|discriminate].
  match goal with |- context [match ?x with Ok _ => _ | Raise _ => _ end] =>
    destruct x as [o|] end; [|discriminate].
  intros H Hr. inversion H. subst r d'. clear H. unfold lookup. simpl.
  destruct (String.eqb key (fst r')) eqn:Ek.
  - apply String.eqb_eq in Ek. rewrite <- Ek, E. rewrite assoc_set_eq by congruence.
    destruct (Nat.lt_ge_cases (snd r') (length os)) as [Hlt|Hge].
    + apply nth_error_app1. exact Hlt.
    + assert (snd r' <> length os).
      { intros Hc. apply Hr. destruct r' as [k i]. simpl in *. subst. reflexivity. }
      rewrite (proj2 (nth_error_None os (snd r'))) by lia.
      apply nth_error_None. rewrite length_app. simpl. lia.
  - apply String.eqb_neq in Ek. rewrite assoc_set_neq by exact Ek. reflexivity.
Qed.

Lemma read_newidfobject_other (key : string) (v : value) (d d' : IDF) (r r' : ref)
    (f : string) :
  newidfobject key v d = (Ok r, d') -> r' <> r -> read d' r' f = read d r' f.
Proof.
  intros H Hr. unfold read. rewrite (newidfobject_lookup_other _ _ _ _ _ _ H Hr).
  reflexivity.
Qed.

(** A completed [pipecomponent]: a PIPE:ADIABATIC whose node fields hold the
    standard names. *)
Lemma pipecomponent_Ok (pname : string) (d d' : IDF) (p : ref) :
  pipecomponent pname d = (Ok p, d') ->
  fst p = "PIPE:ADIABATIC"
  /\ read d' p "Inlet_Node_Name" = Ok (VStr (pname +++ "_inlet"))
  /\ read d' p "Outlet_Node_Name" = Ok (VStr (pname +++ "_outlet")).
Proof.
  unfold pipecomponent. intros H.
  apply bind_Ok_inv in H. destruct H as (p0 & d1 & Hnew & H).
  apply bind_Ok_inv in H. destruct H as ([] & d2 & Hs1 & H).
  apply bind_Ok_inv in H. destruct H as ([] & d3 & Hs2 & H).
  inversion H. subst p0 d3. clear H.
  split; [exact (newidfobject_fst _ _ _ _ _ Hnew)|]. split.
  - rewrite (setattr_read_neq _ _ _ _ _ _ _ Hs2) by (right; discriminate).
    exact (setattr_read_eq _ _ _ _ _ Hs1).
  - exact (setattr_read_eq _ _ _ _ _ Hs2).
Qed.

(** X9.  A completed [pipebranch] has made a pipe and a branch that agree:
    the branch is a BRANCH whose first component is the Pipe:Adiabatic
    named [branchname_pipe], with the inlet and outlet nodes that the pipe
    itself holds, [branchname_pipe_inlet] and [branchname_pipe_outlet], and
    the control type Bypass. *)
Theorem pipebranch_agrees_with_pipe (branchname : string) (d d' : IDF) (b : ref) :
  pipebranch branchname d = (Ok b, d') ->
  fst b = "BRANCH"
  /\ read d' b "Component_1_Object_Type" = Ok (VStr "Pipe:Adiabatic")
  /\ read d' b "Component_1_Name" = Ok (VStr (branchname +++ "_pipe"))
  /\ read d' b "Component_1_Inlet_Node_Name"
     = Ok (VStr ((branchname +++ "_pipe") +++ "_inlet"))
  /\ read d' b "Component_1_Outlet_Node_Name"
     = Ok (VStr ((branchname +++ "_pipe") +++ "_outlet"))
  /\ read d' b "Component_1_Branch_Control_Type" = Ok (VStr "Bypass")
  /\ exists p,
       fst p = "PIPE:ADIABATIC"
       /\ read d' p "Inlet_Node_Name" = read d' b "Component_1_Inlet_Node_Name"
       /\ read d' p "Outlet_Node_Name" = read d' b "Component_1_Outlet_Node_Name".
Proof.
  unfold pipebranch. cbv zeta. intros H.
  apply bind_Ok_inv in H. destruct H as (p & d1 & Hpipe & H).
  destruct (pipecomponent_Ok _ _ _ _ Hpipe) as (Hkp & Hin1 & Hout1).
  apply bind_Ok_inv in H. destruct H as (b0 & d2 & Hnew & H).
  pose proof (newidfobject_fst _ _ _ _ _ Hnew) as Hkb.
  assert (Hpb : p <> b0) by (intros ->; rewrite Hkb in Hkp; discriminate).
  apply bind_Ok_inv in H. destruct H as ([] & d3 & Hs1 & H).
  apply bind_Ok_inv in H. destruct H as ([] & d4 & Hs2 & H).
  rewrite bind_getattr in H.
  assert (Hin4 : read d4 p "Inlet_Node_Name" = Ok (VStr ((branchname +++ "_pipe") +++ "_inlet"))).
  { rewrite (setattr_read_neq _ _ _ _ _ _ _ Hs2 (or_introl Hpb)).
    rewrite (setattr_read_neq _ _ _ _ _ _ _ Hs1 (or_introl Hpb)).
    rewrite (read_newidfobject_other _ _ _ _ _ _ _ Hnew Hpb). exact Hin1. }
  rewrite Hin4 in H.
  apply bind_Ok_inv in H. destruct H as ([] & d5 & Hs3 & H).
  rewrite bind_getattr in H.
  assert (Hout5 : read d5 p "Outlet_Node_Name"
                  = Ok (VStr ((branchname +++ "_pipe") +++ "_outlet"))).
  { rewrite (setattr_read_neq _ _ _ _ _ _ _ Hs3 (or_introl Hpb)).
    rewrite (setattr_read_neq _ _ _ _ _ _ _ Hs2 (or_introl Hpb)).
    rewrite (setattr_read_neq _ _ _ _ _ _ _ Hs1 (or_introl Hpb)).
    rewrite (read_newidfobject_other _ _ _ _ _ _ _ Hnew Hpb). exact Hout1. }
  rewrite Hout5 in H.
  apply bind_Ok_inv in H. destruct H as ([] & d6 & Hs4 & H).
  apply bind_Ok_inv in H. destruct H as ([] & d7 & Hs5 & H).
  inversion H. subst b0 d7. clear H.
  assert (Hbin : read d' b "Component_1_Inlet_Node_Name"
                 = Ok (VStr ((branchname +++ "_pipe") +++ "_inlet"))).
  { rewrite (setattr_read_neq _ _ _ _ _ _ _ Hs5) by (right; discriminate).
    rewrite (setattr_read_neq _ _ _ _ _ _ _ Hs4) by (right; discriminate).
    exact (setattr_read_eq _ _ _ _ _ Hs3). }
  assert (Hbout : read d' b "Component_1_Outlet_Node_Name"
                  = Ok (VStr ((branchname +++ "_pipe") +++ "_outlet"))).
  { rewrite (setattr_read_neq _ _ _ _ _ _ _ Hs5) by (right; discriminate).
    exact (setattr_read_eq _ _ _ _ _ Hs4). }
  split; [exact Hkb|]. split; [|split; [|split; [|split; [|split]]]].
  - rewrite (setattr_read_neq _ _ _ _ _ _ _ Hs5) by (right; discriminate).
    rewrite (setattr_read_neq _ _ _ _ _ _ _ Hs4) by (right; discriminate).
    rewrite (setattr_read_neq _ _ _ _ _ _ _ Hs3) by (right; discriminate).
    rewrite (setattr_read_neq _ _ _ _ _ _ _ Hs2) by (right; discriminate).
    exact (setattr_read_eq _ _ _ _ _ Hs1).
  - rewrite (setattr_read_neq _ _ _ _ _ _ _ Hs5) by (right; discriminate).
    rewrite (setattr_read_neq _ _ _ _ _ _ _ Hs4) by (right; discriminate).
    rewrite (setattr_read_neq _ _ _ _ _ _ _ Hs3) by (right; discriminate).
    exact (setattr_read_eq _ _ _ _ _ Hs2).
  - exact Hbin.
  - exact Hbout.
  - exact (setattr_read_eq _ _ _ _ _ Hs5).
  - exists p. split; [exact Hkp|]. rewrite Hbin, Hbout. split.
    + rewrite (setattr_read_neq _ _ _ _ _ _ _ Hs5 (or_introl Hpb)).
      rewrite (setattr_read_neq _ _ _ _ _ _ _ Hs4 (or_introl Hpb)).
      rewrite (setattr_read_neq _ _ _ _ _ _ _ Hs3 (or_introl Hpb)). exact Hin4.
    + rewrite (setattr_read_neq _ _ _ _ _ _ _ Hs5 (or_introl Hpb)).
      rewrite (setattr_read_neq _ _ _ _ _ _ _ Hs4 (or_introl Hpb)). exact Hout5.
Qed.

(** X9, witness: a branch made on the sample document. *)
Lemma pipebranch_agrees_with_pipe_witness :
  fst ("BRANCH", 8) = "BRANCH"
  /\ read (snd (pipebranch "nb" Sample.plant_doc)) ("BRANCH", 8)
          "Component_1_Object_Type" = Ok (VStr "Pipe:Adiabatic")
  /\ read (snd (pipebranch "nb" Sample.plant_doc)) ("BRANCH", 8) "Component_1_Name"
     = Ok (VStr ("nb" +++ "_pipe"))
  /\ read (snd (pipebranch "nb" Sample.plant_doc)) ("BRANCH", 8)
          "Component_1_Inlet_Node_Name" = Ok (VStr (("nb" +++ "_pipe") +++ "_inlet"))
  /\ read (snd (pipebranch "nb" Sample.plant_doc)) ("BRANCH", 8)
          "Component_1_Outlet_Node_Name" = Ok (VStr (("nb" +++ "_pipe") +++ "_outlet"))
  /\ read (snd (pipebranch "nb" Sample.plant_doc)) ("BRANCH", 8)
          "Component_1_Branch_Control_Type" = Ok (VStr "Bypass")
  /\ exists p,
       fst p = "PIPE:ADIABATIC"
       /\ read (snd (pipebranch "nb" Sample.plant_doc)) p "Inlet_Node_Name"
          = read (snd (pipebranch "nb" Sample.plant_doc)) ("BRANCH", 8)
                 "Component_1_Inlet_Node_Name"
       /\ read (snd (pipebranch "nb" Sample.plant_doc)) p "Outlet_Node_Name"
          = read (snd (pipebranch "nb" Sample.plant_doc)) ("BRANCH", 8)
                 "Component_1_Outlet_Node_Name".
Proof.
  apply (pipebranch_agrees_with_pipe "nb" Sample.plant_doc
           (snd (pipebranch "nb" Sample.plant_doc)) ("BRANCH", 8)).
  vm_compute. reflexivity.
Defined.

(** ** Flattening *)

Lemma pass_leaves (l : list Flatten.item) :
  flat_map Flatten.leaves (fst (Flatten.pass l)) = flat_map Flatten.leaves l.
Proof.
  induction l as [|[s|l0] l IH]; simpl; [reflexivity| |].
  - destruct (Flatten.pass l) as [atemp k]. simpl in *. rewrite IH. reflexivity.
  - destruct (Flatten.pass l) as [atemp k]. simpl in *.
    rewrite flat_map_app, IH. reflexivity.
Qed.

Lemma pass_depth (n : nat) (l : list Flatten.item) :
  (forall x, In x l -> Flatten.depth x <= S n) ->
  forall x, In x (fst (Flatten.pass l)) -> Flatten.depth x <= n.
Proof.
  induction l as [|[s|l0] l IH]; simpl; intros H x Hx; [destruct Hx| |].
  - destruct (Flatten.pass l) as [atemp k]. simpl in *.
    destruct Hx as [<-|Hx]; [simpl; lia|]. apply IH; auto.
  - destruct (Flatten.pass l) as [atemp k]. simpl in *.
    apply in_app_iff in Hx. destruct Hx as [Hx|Hx]; [|apply IH; auto].
    specialize (H (Flatten.Nest l0) (or_introl eq_refl)). simpl in H.
    assert (Hmax : list_max (map Flatten.depth l0) <= n) by lia.
    rewrite list_max_le in Hmax. rewrite Forall_forall in Hmax.
    apply Hmax. apply in_map. exact Hx.
Qed.

Lemma pass_atoms (l : list Flatten.item) :
  (forall x, In x l -> Flatten.depth x <= 0) ->
  Flatten.pass l = (map Flatten.Atom (flat_map Flatten.leaves l), false).
Proof.
  induction l as [|[s|l0] l IH]; simpl; intros H; [reflexivity| |].
  - rewrite IH by auto. reflexivity.
  - specialize (H _ (or_introl eq_refl)). simpl in H. lia.
Qed.

Lemma pass_done (l : list Flatten.item) :
  snd (Flatten.pass l) = false ->
  fst (Flatten.pass l) = map Flatten.Atom (flat_map Flatten.leaves l).
Proof.
  induction l as [|[s|l0] l IH]; simpl; [reflexivity| |].
  - destruct (Flatten.pass l) as [atemp k]. simpl in *. intros H.
    rewrite (IH H). reflexivity.
  - destruct (Flatten.pass l) as [atemp k]. simpl. discriminate.
Qed.

Lemma loop_flattens (n : nat) :
  forall l, (forall x, In x l -> Flatten.depth x <= n) ->
    forall fuel, n < fuel ->
      Flatten.loop fuel l = Some (map Flatten.Atom (flat_map Flatten.leaves l)).
Proof.
  induction n as [|n IH]; intros l H fuel Hfuel.
  - destruct fuel as [|fuel]; [lia|]. simpl. rewrite (pass_atoms l H). reflexivity.
  - destruct fuel as [|fuel]; [lia|]. simpl.
    pose proof (pass_leaves l) as Hleaves. pose proof (pass_depth n l H) as Hdepth.
    pose proof (pass_done l) as Hdone.
    destruct (Flatten.pass l) as [atemp k]. simpl in *. destruct k.
    + rewrite <- Hleaves. apply IH; [exact Hdepth | lia].
    + rewrite (Hdone eq_refl). reflexivity.
Qed.

Lemma leaves_atoms (l : list string) :
  flat_map Flatten.leaves (map Flatten.Atom l) = l.
Proof. induction l as [|z zs IH]; simpl; [reflexivity|]. rewrite IH. reflexivity. Qed.

Lemma leaves_of_topology (t : topology) :
  flat_map Flatten.leaves (Flatten.of_topology t) = flattencopy t.
Proof.
  unfold Flatten.of_topology, flattencopy.
  change (flat_map Flatten.leaves
            [Flatten.Atom (t_inlet t); Flatten.Nest (map Flatten.Atom (t_parallel t));
             Flatten.Atom (t_outlet t)])
    with (t_inlet t :: flat_map Flatten.leaves (map Flatten.Atom (t_parallel t))
                       ++ [t_outlet t]).
  rewrite leaves_atoms. reflexivity.
Qed.

(** X10.  [flattencopy] flattens a list nested to any depth: given more
    rounds than the deepest nesting, its loop ends and returns the strings
    of the list, none of them a list, in their order from left to right.
    On a side of a loop, [[inlet, [names...], outlet]], that is the inlet,
    the names and the outlet. *)
Theorem flattencopy_flattens (lst : list Flatten.item) (fuel : nat) :
  list_max (map Flatten.depth lst) < fuel ->
  Flatten.flattencopy fuel lst
  = Some (map Flatten.Atom (flat_map Flatten.leaves lst))
  /\ forall t, lst = Flatten.of_topology t ->
       Flatten.flattencopy fuel lst = Some (map Flatten.Atom (flattencopy t)).
Proof.
  intros Hfuel.
  assert (Hmain : Flatten.flattencopy fuel lst
                  = Some (map Flatten.Atom (flat_map Flatten.leaves lst))).
  { unfold Flatten.flattencopy.
    apply (loop_flattens (list_max (map Flatten.depth lst))); [|exact Hfuel].
    intros x Hx.
    assert (Hle : list_max (map Flatten.depth lst) <= list_max (map Flatten.depth lst))
      by lia.
    rewrite list_max_le in Hle. rewrite Forall_forall in Hle.
    apply Hle. apply in_map. exact Hx. }
  split; [exact Hmain|].
  intros t Ht. rewrite Hmain. subst lst. rewrite leaves_of_topology. reflexivity.
Qed.

(** X10, witness: the supply side of the sample loop, in two rounds. *)
Lemma flattencopy_flattens_witness :
  Flatten.flattencopy 2 (Flatten.of_topology Sample.supply)
  = Some (map Flatten.Atom
            (flat_map Flatten.leaves (Flatten.of_topology Sample.supply)))
  /\ forall t, Flatten.of_topology Sample.supply = Flatten.of_topology t ->
       Flatten.flattencopy 2 (Flatten.of_topology Sample.supply)
       = Some (map Flatten.Atom (flattencopy t)).
Proof.
  apply (flattencopy_flattens (Flatten.of_topology Sample.supply) 2).
  vm_compute. lia.
Defined.

(** ** The branch replacer as a method of the loop *)

Lemma bind_ext {A B : Type} (m : M A) (k k' : A -> M B) (d : IDF) :
  (forall a dx, k a dx = k' a dx) -> bind m k d = bind m k' d.
Proof. intros H. unfold bind. destruct (m d) as [[a|e] dx]; [apply H | reflexivity]. Qed.

(** The method starts as the module-level function does: chain, write,
    propagate. *)
Lemma Loop_replacebranch_run (self : Loop) (branch : ref) (comps : list component)
    (fluid : option string) (d : IDF) :
  Loop_replacebranch self branch comps fluid d
  = bind (chain_write_rename branch comps (default_str fluid))
      (fun _ =>
         vars <- scan_connectors (Some (s_connlist self)) (newloop self) branch
                   (default_str fluid) (flnames_of (loopfields (kind self))) 0 1 None ;;
         (if String.eqb (PyStr.upper (default_str fluid)) "WATER" then
            dcl <- deref_opt (d_connlist self) AttributeError ;;
            scan_connectors (Some dcl) (newloop self) branch (default_str fluid)
              (flnames_of (loopfields (kind self))) 4 5 vars ;;
            ret tt
          else ret tt) ;;
         renamenodes "node" ;;
         ret branch) d.
Proof.
  unfold Loop_replacebranch, chain_write_rename, chain_write. cbv zeta.
  rewrite !bind_assoc. apply bind_ext. intros a dx. cbv beta.
  rewrite !bind_assoc. apply bind_ext. intros a2 dy. cbv beta.
  rewrite bind_ret. reflexivity.
Qed.

(** X11.  The method [Loop.replacebranch] on a branch that, once chained,
    written and propagated, no splitter names as inlet branch and no mixer
    as outlet branch: when it returns, it returns the branch and has done
    nothing beyond chaining, writing and the two rename propagations.  This
    holds for every fluid, the one left out included: the method reads the
    loop's own connector lists and binds no name by the fluid. *)
Theorem Loop_replacebranch_non_boundary (self : Loop) (branch b : ref)
    (comps : list component) (fluid : option string) (d d0 d1 d' : IDF) :
  chain_write branch comps (default_str fluid) d = (Ok tt, d0) ->
  renamenodes "node" d0 = (Ok tt, d1) ->
  non_boundary d1 branch = true ->
  Loop_replacebranch self branch comps fluid d = (Ok b, d') ->
  b = branch /\ renamenodes "node" d1 = (Ok tt, d').
Proof.
  intros H0 H1 Hnb H. rewrite Loop_replacebranch_run in H.
  rewrite (bind_run _ _ _ _ _ (chain_write_rename_run _ _ _ _ _ _ H0 H1)) in H.
  apply bind_Ok_inv in H. destruct H as (vars & dx & Hscan & H).
  destruct (scan_connectors_off_branch _ _ _ _ _ _ _ _ _ _ _ Hnb
              (fun cb isf (Hc : None = Some (cb, isf)) =>
                 False_ind _ (eq_ind None (fun x => match x with None => True
                                                       | Some _ => False end) I _ Hc))
              Hscan) as [-> Hoff].
  specialize (Hoff vars eq_refl).
  apply bind_Ok_inv in H. destruct H as ([] & dx & Hdem & H).
  assert (dx = d1).
  { destruct (String.eqb (PyStr.upper (default_str fluid)) "WATER").
    - apply bind_Ok_inv in Hdem. destruct Hdem as (dcl & dy & Hf & Hdem).
      apply (readonly_Ok_state _ _ _ _ (readonly_deref_opt _ _)) in Hf. subst dy.
      apply bind_Ok_inv in Hdem. destruct Hdem as (vars2 & dy & Hscan2 & Hdem).
      destruct (scan_connectors_off_branch _ _ _ _ _ _ _ _ _ _ _ Hnb Hoff Hscan2)
        as [-> _].
      inversion Hdem. reflexivity.
    - inversion Hdem. reflexivity. }
  subst dx.
  apply bind_Ok_inv in H. destruct H as ([] & dx & Hren & H).
  inversion H. subst. auto.
Qed.

(** X11, witness: the middle supply branch sb1 of the sample plant loop,
    replaced by one new pipe with the fluid left out. *)
Lemma Loop_replacebranch_non_boundary_witness :
  ("BRANCH", 1) = ("BRANCH", 1)
  /\ renamenodes "node"
       (snd (chain_write_rename ("BRANCH", 1) [(np1, None)] (default_str None) pipes_doc))
     = (Ok tt, snd (Loop_replacebranch plant_loop ("BRANCH", 1) [(np1, None)] None
                      pipes_doc)).
Proof.
  apply (Loop_replacebranch_non_boundary plant_loop ("BRANCH", 1) ("BRANCH", 1)
           [(np1, None)] None pipes_doc
           (snd (chain_write ("BRANCH", 1) [(np1, None)] (default_str None) pipes_doc))
           (snd (chain_write_rename ("BRANCH", 1) [(np1, None)] (default_str None)
                   pipes_doc))
           (snd (Loop_replacebranch plant_loop ("BRANCH", 1) [(np1, None)] None
                   pipes_doc)));
    vm_compute; reflexivity.
Defined.

Lemma readonly_demandconlist_of (theloop : ref) (flnames : list string) :
  readonly (demandconlist_of theloop flnames).
Proof. unfold demandconlist_of. readonly_tac. Qed.

(** X12.  With the fluid Water, the method [Loop.replacebranch] and the
    module-level [replacebranch] agree, in what they return or raise and
    in the document they leave, on a loop object that is consistent with
    the document: the connector list that the loop's field names after
    chaining, writing and propagation is [self.s_connlist], and the one
    that the demand side field names after the supply side scan is
    [self.d_connlist]. *)
Theorem Loop_replacebranch_agrees (self : Loop) (branch dcl : ref)
    (comps : list component) (fluid : string) (vars : scan_vars) (d d1 d2 : IDF) :
  String.eqb (PyStr.upper fluid) "WATER" = true ->
  d_connlist self = Some dcl ->
  chain_write_rename branch comps fluid d = (Ok tt, d1) ->
  supplyconlist_of (newloop self) fluid (flnames_of (loopfields (kind self))) d1
    = (Ok (Some (s_connlist self)), d1) ->
  scan_connectors (Some (s_connlist self)) (newloop self) branch fluid
    (flnames_of (loopfields (kind self))) 0 1 None d1 = (Ok vars, d2) ->
  demandconlist_of (newloop self) (flnames_of (loopfields (kind self))) d2
    = (Ok (Some dcl), d2) ->
  Loop_replacebranch self branch comps (Some fluid) d
  = replacebranch self branch comps (Some fluid) d.
Proof.
  intros Hw Hdcl Hcw Hs Hscan Hd.
  rewrite Loop_replacebranch_run. unfold replacebranch. cbv zeta. simpl default_str.
  rewrite !(bind_run _ _ _ _ _ Hcw).
  rewrite (bind_run _ _ _ _ _ Hs).
  rewrite !(bind_run _ _ _ _ _ Hscan).
  rewrite Hw, Hdcl. cbv iota.
  change (deref_opt (Some dcl) AttributeError) with (@ret ref dcl).
  unfold demandconlist_of in Hd.
  apply bind_Ok_inv in Hd. destruct Hd as (f & dx & Hf & Hd).
  pose proof (readonly_Ok_state _ _ _ _ (readonly_nth_or_raise _ _) Hf) as Hx. subst dx.
  apply bind_Ok_inv in Hd. destruct Hd as (n & dx & Hn & Hd).
  pose proof (readonly_Ok_state _ _ _ _ (readonly_getattr _ _) Hn) as Hx. subst dx.
  symmetry.
  rewrite bind_assoc, (bind_run _ _ _ _ _ Hf).
  rewrite bind_assoc, (bind_run _ _ _ _ _ Hn).
  rewrite bind_assoc, (bind_run _ _ _ _ _ Hd).
  rewrite (bind_assoc (ret dcl)), bind_ret. reflexivity.
Qed.

(** X12, witness: the supply inlet branch of the sample plant loop, with
    two new pipes and the fluid Water. *)
Lemma Loop_replacebranch_agrees_witness :
  Loop_replacebranch plant_loop ("BRANCH", 0) [(np1, None); (np2, None)] (Some "Water")
    pipes_doc
  = replacebranch plant_loop ("BRANCH", 0) [(np1, None); (np2, None)] (Some "Water")
      pipes_doc.
Proof.
  apply (Loop_replacebranch_agrees plant_loop ("BRANCH", 0) ("CONNECTORLIST", 1)
           [(np1, None); (np2, None)] "Water"
           (Some (VStr "sb4", false))
           pipes_doc
           (snd (chain_write_rename ("BRANCH", 0) [(np1, None); (np2, None)] "Water"
                   pipes_doc))
           (snd (scan_connectors (Some (s_connlist plant_loop)) (newloop plant_loop)
                   ("BRANCH", 0) "Water" (flnames_of (loopfields (kind plant_loop)))
                   0 1 None
                   (snd (chain_write_rename ("BRANCH", 0) [(np1, None); (np2, None)]
                           "Water" pipes_doc)))));
    vm_compute; reflexivity.
Defined.

(** ** Connector lists, module level *)

Lemma newidfobject_index (key : string) (v : value) (d d' : IDF) (r : ref) :
  newidfobject key v d = (Ok r, d') -> r = (key, length (objects_of key d)).
Proof.
  unfold newidfobject, objects_of.
  destruct (assoc key (idd_info d)); [|discriminate].
  destruct (assoc key (idfobjects d)); [|discriminate].
  match goal with |- context [match ?x with Ok _ => _ | Raise _ => _ end] =>
    destruct x end; [|discriminate].
  intros H. inversion H. reflexivity.
Qed.

Lemma setattr_count (key : string) (r : ref) (f : string) (v : value) (d d' : IDF) :
  setattr r f v d = (Ok tt, d') ->
  length (objects_of key d') = length (objects_of key d).
Proof. intros H. exact (keeps_run _ _ _ _ _ (same_count_setattr key r f v) H). Qed.

(** X13.  [make_connectorlists] on an object that is neither a condenser
    loop, a plant loop nor an air loop raises [NameError] (the connector
    list was never bound) and leaves the document as it was. *)
Theorem make_connectorlists_unknown_key (loopname : string) (newloop : ref)
    (k : value) (d : IDF) :
  read d newloop "key" = Ok k ->
  value_eqb k (VStr "CONDENSERLOOP") = false ->
  value_eqb k (VStr "PLANTLOOP") = false ->
  value_eqb k (VStr "AIRLOOPHVAC") = false ->
  make_connectorlists loopname newloop d = (Raise NameError, d).
Proof.
  intros Hk Hc Hp Ha. unfold make_connectorlists.
  apply bind_raise. unfold by_loop_key.
  rewrite bind_getattr, Hk, Hc, bind_getattr, Hk, Hp, bind_getattr, Hk, Ha. reflexivity.
Qed.

(** X13, witness: a branch of the sample document given as the loop. *)
Lemma make_connectorlists_unknown_key_witness :
  make_connectorlists "x" ("BRANCH", 0) Sample.plant_doc
  = (Raise NameError, Sample.plant_doc).
Proof.
  apply (make_connectorlists_unknown_key "x" ("BRANCH", 0) (VStr "BRANCH")
           Sample.plant_doc); vm_compute; reflexivity.
Defined.

Lemma connector_slots (c : ref) (side : string) (loopname : string)
    (d1 d2 d3 d4 d5 : IDF) :
  setattr c "Connector_1_Object_Type" (VStr "Connector:Splitter") d1 = (Ok tt, d2) ->
  setattr c "Connector_1_Name" (VStr (loopname +++ side +++ "_splitter")) d2
    = (Ok tt, d3) ->
  setattr c "Connector_2_Object_Type" (VStr "Connector:Mixer") d3 = (Ok tt, d4) ->
  setattr c "Connector_2_Name" (VStr (loopname +++ side +++ "_mixer")) d4 = (Ok tt, d5) ->
  read d5 c "Connector_1_Object_Type" = Ok (VStr "Connector:Splitter")
  /\ read d5 c "Connector_1_Name" = Ok (VStr (loopname +++ side +++ "_splitter"))
  /\ read d5 c "Connector_2_Object_Type" = Ok (VStr "Connector:Mixer")
  /\ read d5 c "Connector_2_Name" = Ok (VStr (loopname +++ side +++ "_mixer")).
Proof.
  intros H1 H2 H3 H4. split; [|split; [|split]].
  - rewrite (setattr_read_neq _ _ _ _ _ _ _ H4) by (right; discriminate).
    rewrite (setattr_read_neq _ _ _ _ _ _ _ H3) by (right; discriminate).
    rewrite (setattr_read_neq _ _ _ _ _ _ _ H2) by (right; discriminate).
    exact (setattr_read_eq _ _ _ _ _ H1).
  - rewrite (setattr_read_neq _ _ _ _ _ _ _ H4) by (right; discriminate).
    rewrite (setattr_read_neq _ _ _ _ _ _ _ H3) by (right; discriminate).
    exact (setattr_read_eq _ _ _ _ _ H2).
  - rewrite (setattr_read_neq _ _ _ _ _ _ _ H4) by (right; discriminate).
    exact (setattr_read_eq _ _ _ _ _ H3).
  - exact (setattr_read_eq _ _ _ _ _ H4).
Qed.

(** ** Replacing by tuples *)

(** X15.  [replacebranch1] with a branch name that no BRANCH object has
    never returns a branch: once the components of the tuples are got or
    made and chained, the access to [branch.Name] of the missing branch
    raises [AttributeError], with the document as the making and the
    chaining left it. *)
Theorem replacebranch1_unknown_branch (loop : Loop) (branchname : string)
    (tuples : list (string * string * option string)) (fluid : option string)
    (d : IDF) :
  fst (getobject "BRANCH" (VStr branchname) d) = Ok None ->
  (forall b d', replacebranch1 loop branchname tuples fluid d <> (Ok b, d'))
  /\ (forall comps d1 x d2,
        map_each (fun '(comp_type, comp_name, compnode) =>
                    comp <- getmakeidfobject (PyStr.upper comp_type) comp_name ;;
                    ret (comp, compnode)) tuples d = (Ok comps, d1) ->
        connectcomponents comps (Some (default_str fluid)) d1 = (Ok x, d2) ->
        replacebranch1 loop branchname tuples fluid d = (Raise AttributeError, d2)).
Proof.
  intros Hb.
  assert (Hget : getobject "BRANCH" (VStr branchname) d = (Ok None, d)).
  { rewrite (readonly_run _ d (readonly_getobject _ _)), Hb. reflexivity. }
  split.
  - intros b d' H. unfold replacebranch1 in H. cbv zeta in H.
    rewrite (bind_run _ _ _ _ _ Hget) in H.
    apply bind_Ok_inv in H. destruct H as (comps & d1 & _ & H).
    apply bind_Ok_inv in H. destruct H as (x & d2 & _ & H). discriminate.
  - intros comps d1 x d2 Hmake Hchain. unfold replacebranch1. cbv zeta.
    rewrite (bind_run _ _ _ _ _ Hget), (bind_run _ _ _ _ _ Hmake),
      (bind_run _ _ _ _ _ Hchain). reflexivity.
Qed.

(** X15, witness: no branch of the sample document is named nowhere. *)
Lemma replacebranch1_unknown_branch_witness :
  (forall b d', replacebranch1 plant_loop "nowhere" [("Pipe:Adiabatic", "np1", None)]
                  (Some "Water") pipes_doc <> (Ok b, d'))
  /\ (forall comps d1 x d2,
        map_each (fun '(comp_type, comp_name, compnode) =>
                    comp <- getmakeidfobject (PyStr.upper comp_type) comp_name ;;
                    ret (comp, compnode)) [("Pipe:Adiabatic", "np1", None)] pipes_doc
        = (Ok comps, d1) ->
        connectcomponents comps (Some (default_str (Some "Water"))) d1 = (Ok x, d2) ->
        replacebranch1 plant_loop "nowhere" [("Pipe:Adiabatic", "np1", None)]
          (Some "Water") pipes_doc = (Raise AttributeError, d2)).
Proof.
  apply (replacebranch1_unknown_branch plant_loop "nowhere"
           [("Pipe:Adiabatic", "np1", None)] (Some "Water") pipes_doc).
  vm_compute. reflexivity.
Defined.

(** ** Rename propagation over a value staged twice *)

Lemma dict_fails_TypeError (rs : list value) :
  forall acc, (exists t, dict rs acc = Ok t) \/ dict rs acc = Raise TypeError.
Proof.
  induction rs as [|v rs IH]; intros acc; simpl; [left; eauto|].
  destruct v as [s|[k|] w]; auto.
Qed.

Lemma rename_fields_fail (ft : string) (rs : list value) (e : exn) :
  dict rs [] = Raise e ->
  forall vals idds, length vals <= length idds ->
    rename_fields ft rs vals idds
    = (vals, if existsb (has_type ft) (firstn (length vals) idds) then Some e else None).
Proof.
  intros Hd. induction vals as [|v vals IH]; intros idds Hlen; [reflexivity|].
  destruct idds as [|idd idds]; [simpl in Hlen; lia|]. simpl.
  destruct (has_type ft idd); [rewrite Hd; reflexivity|].
  rewrite IH by (simpl in Hlen; lia). reflexivity.
Qed.

Lemma rename_objects_fail (ft : string) (rs : list value) (e : exn) (os : list EpBunch) :
  dict rs [] = Raise e ->
  forallb covered os = true ->
  rename_objects ft rs os
  = (os, if existsb (has_typed_field ft) os then Some e else None).
Proof.
  intros Hd. induction os as [|o os IH]; intros Hc; [reflexivity|].
  simpl in Hc. apply andb_true_iff in Hc. destruct Hc as [Ho Hos].
  apply Nat.leb_le in Ho. simpl. unfold rename_object.
  rewrite (rename_fields_fail ft rs e Hd _ _ Ho). fold (has_typed_field ft o).
  destruct o as [vals ls idds]. simpl.
  destruct (has_typed_field ft (mkEpBunch vals ls idds)); [reflexivity|].
  rewrite (IH Hos). reflexivity.
Qed.

Lemma rename_keys_fail (ft : string) (rs : list value) (e : exn)
    (entries : list (string * list EpBunch)) :
  dict rs [] = Raise e ->
  forallb (fun entry => forallb covered (snd entry)) entries = true ->
  rename_keys ft rs entries
  = (entries,
     if existsb (fun entry => existsb (has_typed_field ft) (snd entry)) entries
     then Some e else None).
Proof.
  intros Hd. induction entries as [|[k os] entries IH]; intros Hc; [reflexivity|].
  simpl in Hc. apply andb_true_iff in Hc. destruct Hc as [Ho Hos].
  simpl. rewrite (rename_objects_fail ft rs e os Hd Ho).
  destruct (existsb (has_typed_field ft) os); [reflexivity|].
  rewrite (IH Hos). reflexivity.
Qed.

(** X16.  A field staged twice with no propagation in between holds a pair
    whose old half is a list, which [dict(renameds)] cannot take as a key:
    on a document that holds such a value and has a value in some field of
    the given type (its objects having an IDD entry for each value),
    [renamenodes] raises [TypeError] and has written nothing. *)
Theorem renamenodes_twice_staged_raises (ft : string) (d : IDF) :
  forallb (fun entry => forallb covered (snd entry)) (idfobjects d) = true ->
  existsb (fun entry => existsb (has_typed_field ft) (snd entry)) (idfobjects d) = true ->
  existsb twice_staged (all_values d) = true ->
  renamenodes ft d = (Raise TypeError, d).
Proof.
  intros Hc Ht Hn.
  assert (Hd : dict (collect_renameds d) [] = Raise TypeError).
  { destruct (dict_fails_TypeError (collect_renameds d) []) as [[t Hok]|Hf];
      [|exact Hf].
    exfalso. apply dict_Ok_keyed in Hok. rewrite Forall_forall in Hok.
    apply existsb_exists in Hn. destruct Hn as (v & Hv & Htw).
    destruct v as [s|[k|x y] w]; try discriminate.
    destruct (Hok (VPair (VPair x y) w)) as (s & n & Heq); [|discriminate].
    apply In_collect_renameds. split; [exact Hv | reflexivity]. }
  unfold renamenodes. rewrite (rename_keys_fail ft _ TypeError _ Hd Hc), Ht.
  destruct d; reflexivity.
Qed.

Lemma renamenodes_twice_staged_raises_witness :
  let d := Sample.after (connectcomponents [(np1, None); (np2, None)] None) chained_doc in
  renamenodes "node" d = (Raise TypeError, d).
Proof.
  apply (renamenodes_twice_staged_raises "node"
           (Sample.after (connectcomponents [(np1, None); (np2, None)] None) chained_doc));
    vm_compute; reflexivity.
Defined.

(** ** Naming the fields of a loop *)

Lemma simplify_names_map (fields : list string) :
  simplify_names fields = map simplify_name fields.
Proof. unfold simplify_names, simplify_name. rewrite !map_map. reflexivity. Qed.

Lemma existsb_eqb_In (x : string) (l : list string) :
  existsb (String.eqb x) l = true <-> In x l.
Proof.
  rewrite existsb_exists. split.
  - intros (y & Hy & E). apply String.eqb_eq in E. subst. exact Hy.
  - intros H. exists x. split; [exact H | apply String.eqb_refl].
Qed.

Lemma for_each_setattr_fields (r : ref) (l : list (string * string)) :
  forall (d : IDF) (o : EpBunch),
    lookup r d = Some o ->
    forallb (fun f => existsb (String.eqb f) (objls o)) (map snd l) = true ->
    distinct_names (map snd l) = true ->
    exists d' o',
      for_each l (fun '(fieldname, thefield) => setattr r thefield (VStr fieldname)) d
      = (Ok tt, d')
      /\ lookup r d' = Some o' /\ objls o' = objls o
      /\ (forall fieldname thefield, In (fieldname, thefield) l ->
            read d' r thefield = Ok (VStr fieldname))
      /\ (forall r' g, r' <> r \/ ~ In g (map snd l) -> read d' r' g = read d r' g).
Proof.
  induction l as [|[fn tf] l IH]; intros d o Hl Hdecl Hdist.
  - exists d, o. simpl. repeat split; auto. intros ? ? [].
  - simpl in Hdecl, Hdist.
    apply andb_true_iff in Hdecl. destruct Hdecl as [Htf Hdecl].
    apply andb_true_iff in Hdist. destruct Hdist as [Hnew Hdist].
    apply negb_true_iff in Hnew.
    apply existsb_eqb_In in Htf. destruct (setitem_In o tf (VStr fn) Htf) as [o1 Hs].
    pose proof (setattr_run r tf (VStr fn) d o o1 Hl Hs) as Hrun.
    pose proof (lookup_store_eq r o1 o d Hl) as Hl1.
    pose proof (setitem_schema _ _ _ _ Hs) as Hls.
    assert (Hdecl1 : forallb (fun f => existsb (String.eqb f) (objls o1)) (map snd l) = true).
    { replace (objls o1) with (objls o); [exact Hdecl|]. symmetry. apply Hls. }
    destruct (IH (store r o1 d) o1 Hl1 Hdecl1 Hdist) as (d' & o' & Hfor & Hl' & Hls' & Hset & Hframe).
    exists d', o'. split; [|split; [|split; [|split]]].
    + simpl. unfold bind at 1. rewrite Hrun. exact Hfor.
    + exact Hl'.
    + rewrite Hls'. apply Hls.
    + intros fieldname thefield [Heq|Hin].
      * inversion Heq; subst. rewrite Hframe.
        -- exact (setattr_read_eq _ _ _ _ _ Hrun).
        -- right. intros Hin. apply existsb_eqb_In in Hin. congruence.
      * exact (Hset _ _ Hin).
    + intros r' g Hn. rewrite Hframe.
      * apply (setattr_read_neq _ _ _ _ _ _ _ Hrun).
        destruct Hn as [Hn|Hn]; [left; exact Hn | right; intros ->; apply Hn; left; reflexivity].
      * destruct Hn as [Hn|Hn]; [left; exact Hn | right; intros Hin; apply Hn; right; exact Hin].
Qed.

(** X17.  On a loop object that declares each of the given fields
    (sanitized) and a [Name], the sanitized names being distinct,
    [initialise_loop] succeeds; afterwards each field reads as the loop's
    name, a blank and the simplified field name, and every other field of
    the document reads as before. *)
Theorem initialise_loop_names (newloop : ref) (fields : list string) (name : value)
    (d : IDF) :
  read d newloop "Name" = Ok name ->
  declares d newloop (map sanitizefieldname fields) = true ->
  distinct_names (map sanitizefieldname fields) = true ->
  exists d',
    initialise_loop newloop fields d = (Ok tt, d')
    /\ (forall field, In field fields ->
          read d' newloop (sanitizefieldname field)
          = Ok (VStr (pystr name +++ " " +++ simplify_name field)))
    /\ (forall r g, r <> newloop \/ ~ In g (map sanitizefieldname fields) ->
          read d' r g = read d r g).
Proof.
  intros Hname Hdecl Hdist. unfold declares in Hdecl.
  destruct (lookup newloop d) as [o|] eqn:Hl; [|discriminate].
  set (l := map (fun f => (pystr name +++ " " +++ simplify_name f, sanitizefieldname f)) fields).
  assert (Hcomb : combine (map (fun field => pystr name +++ " " +++ field) (simplify_names fields))
                          (map sanitizefieldname fields) = l).
  { rewrite simplify_names_map, map_map. unfold l. clear.
    induction fields as [|f fields IH]; cbn [map combine]; [reflexivity | rewrite IH; reflexivity]. }
  assert (Hsnd : map snd l = map sanitizefieldname fields).
  { unfold l. rewrite map_map. reflexivity. }
  rewrite <- Hsnd in Hdecl, Hdist.
  destruct (for_each_setattr_fields newloop l d o Hl Hdecl Hdist)
    as (d' & o' & Hfor & _ & _ & Hset & Hframe).
  exists d'. split; [|split].
  - unfold initialise_loop. rewrite bind_getattr, Hname, Hcomb. exact Hfor.
  - intros field Hin. apply Hset. unfold l.
    apply (in_map (fun f => (pystr name +++ " " +++ simplify_name f, sanitizefieldname f))).
    exact Hin.
  - intros r g Hn. apply Hframe. rewrite Hsnd. exact Hn.
Qed.

Lemma initialise_loop_names_witness :
  exists d',
    initialise_loop ("PLANTLOOP", 0) (loopfields PLANTLOOP)
      (Sample.after (newidfobject "PLANTLOOP" (VStr "p1")) Sample.empty) = (Ok tt, d')
    /\ (forall field, In field (loopfields PLANTLOOP) ->
          read d' ("PLANTLOOP", 0) (sanitizefieldname field)
          = Ok (VStr (pystr (VStr "p1") +++ " " +++ simplify_name field)))
    /\ (forall r g,
          r <> ("PLANTLOOP", 0) \/ ~ In g (map sanitizefieldname (loopfields PLANTLOOP)) ->
          read d' r g
          = read (Sample.after (newidfobject "PLANTLOOP" (VStr "p1")) Sample.empty) r g).
Proof.
  apply (initialise_loop_names ("PLANTLOOP", 0) (loopfields PLANTLOOP) (VStr "p1")
           (Sample.after (newidfobject "PLANTLOOP" (VStr "p1")) Sample.empty));
    vm_compute; reflexivity.
Defined.

(** ** The supply branches of a loop *)

Lemma newidfobject_fresh (key : string) (v : value) (d d' : IDF) (r : ref) :
  newidfobject key v d = (Ok r, d') -> lookup r d = None.
Proof.
  unfold newidfobject.
  destruct (assoc key (idd_info d)); [|discriminate].
  destruct (assoc key (idfobjects d)) as [os|] eqn:E; [|discriminate].
  match goal with |- context [match ?x with Ok _ => _ | Raise _ => _ end] =>
    destruct x end; [|discriminate].
  intros H. inversion H. unfold lookup. simpl. rewrite E.
  apply nth_error_None. lia.
Qed.

Lemma newidfobject_named (key n : string) (d d' : IDF) (r : ref) :
  n <> "" -> newidfobject key (VStr n) d = (Ok r, d') -> read d' r "Name" = Ok (VStr n).
Proof.
  intros Hn. unfold newidfobject.
  destruct (assoc key (idd_info d)) as [fresh|]; [|discriminate].
  destruct (assoc key (idfobjects d)) as [os|] eqn:E; [|discriminate].
  destruct n as [|c n]; [congruence|].
  destruct (setitem fresh "Name" (VStr (String c n))) as [o|] eqn:Es; [|discriminate].
  intros H. inversion H. subst r d'. clear H.
  unfold read, lookup. simpl fst. simpl snd. simpl idfobjects.
  rewrite assoc_set_eq by congruence.
  rewrite nth_error_app2 by lia. rewrite Nat.sub_diag. simpl nth_error.
  exact (getitem_setitem_eq _ _ _ _ Es).
Qed.

Lemma setattr_lookup_other (r r' : ref) (f : string) (v : value) (d d' : IDF) :
  setattr r' f v d = (Ok tt, d') -> r <> r' -> lookup r d' = lookup r d.
Proof.
  intros H Hn. apply setattr_Ok in H. destruct H as (o & o' & _ & _ & ->).
  apply lookup_store_neq. congruence.
Qed.

Lemma pipecomponent_frame (pname : string) (d d' : IDF) (p : ref) :
  pipecomponent pname d = (Ok p, d') ->
  forall r, lookup r d <> None -> lookup r d' = lookup r d.
Proof.
  unfold pipecomponent. intros H r Hr.
  apply bind_Ok_inv in H. destruct H as (p0 & d1 & Hnew & H).
  apply bind_Ok_inv in H. destruct H as ([] & d2 & Hs1 & H).
  apply bind_Ok_inv in H. destruct H as ([] & d3 & Hs2 & H).
  inversion H. subst p0 d3. clear H.
  assert (Hrp : r <> p) by (intros ->; apply Hr; exact (newidfobject_fresh _ _ _ _ _ Hnew)).
  rewrite (setattr_lookup_other _ _ _ _ _ _ Hs2 Hrp).
  rewrite (setattr_lookup_other _ _ _ _ _ _ Hs1 Hrp).
  exact (newidfobject_lookup_other _ _ _ _ _ _ Hnew Hrp).
Qed.

(** A completed [pipebranch]: the branch it returns, and the objects that
    were there, which it has not written. *)
Lemma pipebranch_made (branchname : string) (d d' : IDF) (b : ref) :
  pipebranch branchname d = (Ok b, d') ->
  fst b = "BRANCH"
  /\ read d' b "Component_1_Name" = Ok (VStr (branchname +++ "_pipe"))
  /\ (branchname <> "" -> read d' b "Name" = Ok (VStr branchname))
  /\ (forall r, lookup r d <> None -> lookup r d' = lookup r d).
Proof.
  unfold pipebranch. cbv zeta. intros H.
  apply bind_Ok_inv in H. destruct H as (p & d1 & Hpipe & H).
  apply bind_Ok_inv in H. destruct H as (b0 & d2 & Hnew & H).
  apply bind_Ok_inv in H. destruct H as ([] & d3 & Hs1 & H).
  apply bind_Ok_inv in H. destruct H as ([] & d4 & Hs2 & H).
  apply bind_Ok_inv in H. destruct H as (vin & d4' & Hg1 & H).
  rewrite getattr_run in Hg1. inversion Hg1. subst d4'. clear Hg1.
  apply bind_Ok_inv in H. destruct H as ([] & d5 & Hs3 & H).
  apply bind_Ok_inv in H. destruct H as (vout & d5' & Hg2 & H).
  rewrite getattr_run in Hg2. inversion Hg2. subst d5'. clear Hg2.
  apply bind_Ok_inv in H. destruct H as ([] & d6 & Hs4 & H).
  apply bind_Ok_inv in H. destruct H as ([] & d7 & Hs5 & H).
  inversion H. subst b0 d7. clear H.
  split; [exact (newidfobject_fst _ _ _ _ _ Hnew)|]. split; [|split].
  - rewrite (setattr_read_neq _ _ _ _ _ _ _ Hs5) by (right; discriminate).
    rewrite (setattr_read_neq _ _ _ _ _ _ _ Hs4) by (right; discriminate).
    rewrite (setattr_read_neq _ _ _ _ _ _ _ Hs3) by (right; discriminate).
    exact (setattr_read_eq _ _ _ _ _ Hs2).
  - intros Hn.
    rewrite (setattr_read_neq _ _ _ _ _ _ _ Hs5) by (right; discriminate).
    rewrite (setattr_read_neq _ _ _ _ _ _ _ Hs4) by (right; discriminate).
    rewrite (setattr_read_neq _ _ _ _ _ _ _ Hs3) by (right; discriminate).
    rewrite (setattr_read_neq _ _ _ _ _ _ _ Hs2) by (right; discriminate).
    rewrite (setattr_read_neq _ _ _ _ _ _ _ Hs1) by (right; discriminate).
    exact (newidfobject_named _ _ _ _ _ Hn Hnew).
  - intros r Hr.
    pose proof (pipecomponent_frame _ _ _ _ Hpipe r Hr) as Hf1.
    assert (Hrb : r <> b).
    { intros ->. rewrite (newidfobject_fresh _ _ _ _ _ Hnew) in Hf1.
      apply Hr. symmetry. exact Hf1. }
    rewrite (setattr_lookup_other _ _ _ _ _ _ Hs5 Hrb).
    rewrite (setattr_lookup_other _ _ _ _ _ _ Hs4 Hrb).
    rewrite (setattr_lookup_other _ _ _ _ _ _ Hs3 Hrb).
    rewrite (setattr_lookup_other _ _ _ _ _ _ Hs2 Hrb).
    rewrite (setattr_lookup_other _ _ _ _ _ _ Hs1 Hrb).
    rewrite (newidfobject_lookup_other _ _ _ _ _ _ Hnew Hrb). exact Hf1.
Qed.

Lemma read_Ok_lookup (d : IDF) (r : ref) (f : string) (v : value) :
  read d r f = Ok v -> lookup r d <> None.
Proof. unfold read. destruct (lookup r d); [discriminate | discriminate]. Qed.

Lemma map_each_pipebranch (names : list string) :
  forall (d d' : IDF) (bs : list ref),
    map_each pipebranch names d = (Ok bs, d') ->
    Forall2 (fun b n =>
               fst b = "BRANCH"
               /\ read d' b "Component_1_Name" = Ok (VStr (n +++ "_pipe"))
               /\ (n <> "" -> read d' b "Name" = Ok (VStr n))) bs names
    /\ (forall r, lookup r d <> None -> lookup r d' = lookup r d).
Proof.
  induction names as [|n names IH]; intros d d' bs H.
  - inversion H. split; [constructor | reflexivity].
  - simpl in H.
    apply bind_Ok_inv in H. destruct H as (b & d1 & Hb & H).
    apply bind_Ok_inv in H. destruct H as (bs' & d2 & Hbs & H).
    inversion H. subst bs d2. clear H.
    destruct (pipebranch_made _ _ _ _ Hb) as (Hk & Hc & Hn & Hf).
    destruct (IH _ _ _ Hbs) as (Hall & Hf').
    assert (Hb1 : lookup b d1 <> None) by exact (read_Ok_lookup _ _ _ _ Hc).
    assert (Hread : forall f, read d' b f = read d1 b f).
    { intros f. unfold read. rewrite (Hf' b Hb1). reflexivity. }
    split.
    + constructor; [|exact Hall].
      split; [exact Hk|]. rewrite !Hread. split; [exact Hc | exact Hn].
    + intros r Hr. rewrite Hf'; [apply Hf; exact Hr|].
      rewrite (Hf r Hr). exact Hr.
Qed.

Lemma for_each_obj_append (r : ref) (names : list string) :
  forall (d : IDF) (o : EpBunch),
    lookup r d = Some o ->
    exists d',
      for_each names (fun branchname => obj_append r (VStr branchname)) d = (Ok tt, d')
      /\ lookup r d' = Some (mkEpBunch (obj o ++ map VStr names) (objls o) (objidd o)).
Proof.
  induction names as [|n names IH]; intros d o Hl.
  - exists d. split; [reflexivity|]. simpl. rewrite app_nil_r. destruct o. exact Hl.
  - pose proof (obj_append_run r (VStr n) d o Hl) as Hrun.
    pose proof (lookup_store_eq r (mkEpBunch (obj o ++ [VStr n]) (objls o) (objidd o)) o d Hl)
      as Hl1.
    destruct (IH _ _ Hl1) as (d' & Hfor & Hl').
    exists d'. split.
    + simpl. unfold bind at 1. rewrite Hrun. exact Hfor.
    + rewrite Hl'. simpl. rewrite <- app_assoc. reflexivity.
Qed.

(** X18.  A completed [make_supply_branches] has added the flattened branch
    names of the supply side, in order, after the values the branch list
    had, and returns one branch per name in the same order: a BRANCH that
    carries the name (when it is not blank) and holds the pipe
    [name_pipe] as its first component. *)
Theorem make_supply_branches_lists_branches (supply_branchlist : ref) (sloop : topology)
    (d d' : IDF) (o : EpBunch) (s_branches : list ref) :
  lookup supply_branchlist d = Some o ->
  make_supply_branches supply_branchlist sloop d = (Ok s_branches, d') ->
  lookup supply_branchlist d'
  = Some (mkEpBunch (obj o ++ map VStr (flattencopy sloop)) (objls o) (objidd o))
  /\ Forall2 (fun b n =>
                fst b = "BRANCH"
                /\ read d' b "Component_1_Name" = Ok (VStr (n +++ "_pipe"))
                /\ (n <> "" -> read d' b "Name" = Ok (VStr n)))
             s_branches (flattencopy sloop).
Proof.
  intros Hl H. unfold make_supply_branches in H. cbv zeta in H.
  destruct (for_each_obj_append supply_branchlist (flattencopy sloop) d o Hl)
    as (d1 & Hfor & Hl1).
  unfold bind at 1 in H. rewrite Hfor in H.
  destruct (map_each_pipebranch _ _ _ _ H) as (Hall & Hf).
  split; [|exact Hall].
  rewrite Hf; [exact Hl1 | rewrite Hl1; discriminate].
Qed.

Lemma make_supply_branches_lists_branches_witness :
  let d := Sample.after (newidfobject "BRANCHLIST" (VStr "p1 Supply Branchs")) Sample.empty in
  let run := make_supply_branches ("BRANCHLIST", 0) Sample.supply d in
  lookup ("BRANCHLIST", 0) (snd run)
  = Some (mkEpBunch ([VStr "BRANCHLIST"; VStr "p1 Supply Branchs"]
                       ++ map VStr (flattencopy Sample.supply))
                    (objls (snd (List.nth 3 Sample.idd ("", mkEpBunch [] [] []))))
                    (objidd (snd (List.nth 3 Sample.idd ("", mkEpBunch [] [] [])))))
  /\ Forall2 (fun b n =>
                fst b = "BRANCH"
                /\ read (snd run) b "Component_1_Name" = Ok (VStr (n +++ "_pipe"))
                /\ (n <> "" -> read (snd run) b "Name" = Ok (VStr n)))
             [("BRANCH", 0); ("BRANCH", 1); ("BRANCH", 2); ("BRANCH", 3)]
             (flattencopy Sample.supply).
Proof.
  apply (make_supply_branches_lists_branches ("BRANCHLIST", 0) Sample.supply
           (Sample.after (newidfobject "BRANCHLIST" (VStr "p1 Supply Branchs")) Sample.empty)
           (snd (make_supply_branches ("BRANCHLIST", 0) Sample.supply
                   (Sample.after (newidfobject "BRANCHLIST" (VStr "p1 Supply Branchs"))
                      Sample.empty)))
           (mkEpBunch [VStr "BRANCHLIST"; VStr "p1 Supply Branchs"]
              (objls (snd (List.nth 3 Sample.idd ("", mkEpBunch [] [] []))))
              (objidd (snd (List.nth 3 Sample.idd ("", mkEpBunch [] [] [])))))
           [("BRANCH", 0); ("BRANCH", 1); ("BRANCH", 2); ("BRANCH", 3)]);
    vm_compute; reflexivity.
Defined.

(** ** The end points of a loop *)

Lemma pipebranch_fresh (branchname : string) (d d' : IDF) (b : ref) :
  pipebranch branchname d = (Ok b, d') -> lookup b d = None.
Proof.
  unfold pipebranch. cbv zeta. intros H.
  apply bind_Ok_inv in H. destruct H as (p & d1 & Hpipe & H).
  apply bind_Ok_inv in H. destruct H as (b0 & d2 & Hnew & H).
  assert (b0 = b).
  { repeat (apply bind_Ok_inv in H; destruct H as (? & ? & _ & H)).
    inversion H. reflexivity. }
  subst b0. destruct (lookup b d) as [o|] eqn:E; [|reflexivity].
  rewrite <- (newidfobject_fresh _ _ _ _ _ Hnew).
  symmetry. rewrite <- E. apply (pipecomponent_frame _ _ _ _ Hpipe). congruence.
Qed.

Lemma map_each_pipebranch_fresh (names : list string) :
  forall (d d' : IDF) (bs : list ref),
    map_each pipebranch names d = (Ok bs, d') ->
    forall b, In b bs -> lookup b d = None.
Proof.
  induction names as [|n names IH]; intros d d' bs H b Hin.
  - inversion H. subst. destruct Hin.
  - simpl in H.
    apply bind_Ok_inv in H. destruct H as (b0 & d1 & Hb & H).
    apply bind_Ok_inv in H. destruct H as (bs' & d2 & Hbs & H).
    inversion H. subst bs d2. clear H.
    destruct Hin as [->|Hin]; [exact (pipebranch_fresh _ _ _ _ Hb)|].
    pose proof (IH _ _ _ Hbs b Hin) as Hn.
    destruct (lookup b d) as [o|] eqn:E; [|reflexivity].
    rewrite <- Hn. symmetry. rewrite <- E.
    apply (pipebranch_made _ _ _ _ Hb). congruence.
Qed.

Lemma nth_or_raise_Ok {A : Type} (l : list A) (i : nat) (a : A) (d d' : IDF) :
  nth_or_raise l i d = (Ok a, d') -> nth_error l i = Some a /\ d' = d.
Proof.
  unfold nth_or_raise. destruct (nth_error l i); intros H; inversion H. auto.
Qed.

Lemma getattr_Ok (r : ref) (f : string) (v : value) (d d' : IDF) :
  getattr r f d = (Ok v, d') -> read d r f = Ok v /\ d' = d.
Proof. rewrite getattr_run. intros H. inversion H. auto. Qed.

Ltac peel_getattr H v Hv :=
  apply bind_Ok_inv in H; destruct H as (v & ? & Hv & H);
  apply getattr_Ok in Hv; destruct Hv as [Hv ->].
Ltac peel_nth H b Hb :=
  apply bind_Ok_inv in H; destruct H as (b & ? & Hb & H);
  apply nth_or_raise_Ok in Hb; destruct Hb as [Hb ->].
Ltac peel_set H Hs :=
  apply bind_Ok_inv in H; destruct H as ([] & ? & Hs & H).
Ltac peel_ro H x :=
  let Hx := fresh "Hro" in
  apply bind_Ok_inv in H; destruct H as (x & ? & Hx & H);
  apply readonly_Ok_state in Hx;
  [subst | first [apply readonly_getobject | apply readonly_deref_opt]].

(** X19.  A completed [rename_endpoints] has run on a CONDENSERLOOP or a
    PLANTLOOP, and has bound the ends of the supply side to the loop: the
    first supply branch holds the loop's supply inlet node as the inlet of
    its first component, the last supply branch holds the loop's supply
    outlet node as the outlet of its first component, and the loop's two
    fields are as they were. *)
Theorem rename_endpoints_supply_ends (newloop : ref) (demand_branchnames : list string)
    (supply_branches : list ref) (d d' : IDF) :
  rename_endpoints newloop demand_branchnames supply_branches d = (Ok tt, d') ->
  exists sameinnode sameoutnode b_in b_out,
    (read d newloop "key" = Ok (VStr "CONDENSERLOOP")
     /\ sameinnode = "Condenser_Side_Inlet_Node_Name"
     /\ sameoutnode = "Condenser_Side_Outlet_Node_Name"
     \/ read d newloop "key" = Ok (VStr "PLANTLOOP")
        /\ sameinnode = "Plant_Side_Inlet_Node_Name"
        /\ sameoutnode = "Plant_Side_Outlet_Node_Name")
    /\ nth_error supply_branches 0 = Some b_in
    /\ nth_error supply_branches (length supply_branches - 1) = Some b_out
    /\ read d' b_in "Component_1_Inlet_Node_Name" = read d newloop sameinnode
    /\ read d' b_out "Component_1_Outlet_Node_Name" = read d newloop sameoutnode
    /\ read d' newloop sameinnode = read d newloop sameinnode
    /\ read d' newloop sameoutnode = read d newloop sameoutnode.
Proof.
  unfold rename_endpoints. intros H.
  peel_getattr H k Hk.
  apply bind_Ok_inv in H. destruct H as ([sin sout] & d0 & Hnames & H).
  assert (Hcase : d0 = d /\
    (k = VStr "CONDENSERLOOP" /\ sin = "Condenser_Side_Inlet_Node_Name"
       /\ sout = "Condenser_Side_Outlet_Node_Name"
     \/ k = VStr "PLANTLOOP" /\ sin = "Plant_Side_Inlet_Node_Name"
        /\ sout = "Plant_Side_Outlet_Node_Name")).
  { destruct (value_eqb k (VStr "CONDENSERLOOP")) eqn:E1.
    - inversion Hnames. apply value_eqb_eq in E1. auto.
    - destruct (value_eqb k (VStr "PLANTLOOP")) eqn:E2; [|discriminate].
      inversion Hnames. apply value_eqb_eq in E2. auto 6. }
  destruct Hcase as [-> Hcase]. clear Hnames.
  peel_getattr H v1 Hv1. peel_nth H b1 Hb1. peel_set H Hs1.
  peel_getattr H v2 Hv2. peel_nth H b2 Hb2. peel_set H Hs2.
  peel_nth H b3 Hb3. peel_getattr H pn3 Hpn3.
  peel_ro H ap3. peel_ro H p3. peel_getattr H v3 Hv3. peel_set H Hs3.
  peel_nth H b4 Hb4. peel_getattr H pn4 Hpn4.
  peel_ro H ap4. peel_ro H p4. peel_getattr H v4 Hv4. peel_set H Hs4.
  apply bind_Ok_inv in H. destruct H as (dbs & d5 & Hmap & H).
  cbv zeta in H.
  peel_getattr H v5 Hv5. peel_nth H b5 Hb5. peel_set H Hs5.
  peel_getattr H v6 Hv6. peel_nth H b6 Hb6. peel_set H Hs6.
  peel_nth H b7 Hb7. peel_getattr H pn7 Hpn7.
  peel_ro H ap7. peel_ro H p7. peel_getattr H v7 Hv7. peel_set H Hs7.
  peel_nth H b8 Hb8. peel_getattr H pn8 Hpn8.
  peel_ro H ap8. peel_ro H p8. peel_getattr H v8 Hv8.
  rename H into Hs8.
  pose proof (proj2 (map_each_pipebranch _ _ _ _ Hmap)) as Hframe.
  pose proof (map_each_pipebranch_fresh _ _ _ _ Hmap) as Hfresh.
  assert (Hread : forall r f v, read x2 r f = Ok v -> read d5 r f = read x2 r f).
  { intros r f v Hr. unfold read. rewrite (Hframe r); [reflexivity|].
    exact (read_Ok_lookup _ _ _ _ Hr). }
  assert (Hnew : forall r f v b i, read x2 r f = Ok v -> nth_error dbs i = Some b -> r <> b).
  { intros r f v b i Hr Hb ->. apply (read_Ok_lookup _ _ _ _ Hr).
    apply Hfresh. eapply nth_error_In. exact Hb. }
  assert (H1 : read x2 b1 "Component_1_Inlet_Node_Name" = Ok v1).
  { rewrite (setattr_read_neq _ _ _ _ _ _ _ Hs4) by (right; discriminate).
    rewrite (setattr_read_neq _ _ _ _ _ _ _ Hs3) by (right; discriminate).
    rewrite (setattr_read_neq _ _ _ _ _ _ _ Hs2) by (right; discriminate).
    exact (setattr_read_eq _ _ _ _ _ Hs1). }
  assert (H2 : read x2 b2 "Component_1_Outlet_Node_Name" = Ok v2).
  { rewrite (setattr_read_neq _ _ _ _ _ _ _ Hs4) by (right; discriminate).
    rewrite (setattr_read_neq _ _ _ _ _ _ _ Hs3) by (right; discriminate).
    exact (setattr_read_eq _ _ _ _ _ Hs2). }
  assert (Hloop : forall f, f = sin \/ f = sout ->
            (exists v, read d newloop f = Ok v) -> read d' newloop f = read d newloop f).
  { intros f Hf [v Hv].
    assert (Hx2 : read x2 newloop f = read d newloop f).
    { rewrite (setattr_read_neq _ _ _ _ _ _ _ Hs4)
        by (right; destruct Hcase as [(_ & -> & ->)|(_ & -> & ->)];
            destruct Hf as [->| ->]; discriminate).
      rewrite (setattr_read_neq _ _ _ _ _ _ _ Hs3)
        by (right; destruct Hcase as [(_ & -> & ->)|(_ & -> & ->)];
            destruct Hf as [->| ->]; discriminate).
      rewrite (setattr_read_neq _ _ _ _ _ _ _ Hs2)
        by (right; destruct Hcase as [(_ & -> & ->)|(_ & -> & ->)];
            destruct Hf as [->| ->]; discriminate).
      apply (setattr_read_neq _ _ _ _ _ _ _ Hs1).
      right; destruct Hcase as [(_ & -> & ->)|(_ & -> & ->)];
        destruct Hf as [->| ->]; discriminate. }
    rewrite (setattr_read_neq _ _ _ _ _ _ _ Hs8)
      by (right; destruct Hcase as [(_ & -> & ->)|(_ & -> & ->)];
          destruct Hf as [->| ->]; discriminate).
    rewrite (setattr_read_neq _ _ _ _ _ _ _ Hs7)
      by (right; destruct Hcase as [(_ & -> & ->)|(_ & -> & ->)];
          destruct Hf as [->| ->]; discriminate).
    rewrite (setattr_read_neq _ _ _ _ _ _ _ Hs6)
      by (right; destruct Hcase as [(_ & -> & ->)|(_ & -> & ->)];
          destruct Hf as [->| ->]; discriminate).
    rewrite (setattr_read_neq _ _ _ _ _ _ _ Hs5)
      by (right; destruct Hcase as [(_ & -> & ->)|(_ & -> & ->)];
          destruct Hf as [->| ->]; discriminate).
    rewrite (Hread newloop f v) by (rewrite Hx2; exact Hv). exact Hx2. }
  assert (Hv2' : read d newloop sout = Ok v2).
  { rewrite <- Hv2. symmetry. apply (setattr_read_neq _ _ _ _ _ _ _ Hs1).
    right; destruct Hcase as [(_ & -> & ->)|(_ & -> & ->)]; discriminate. }
  exists sin, sout, b1, b2.
  split; [destruct Hcase as [(-> & -> & ->)|(-> & -> & ->)]; auto|].
  split; [exact Hb1|]. split; [exact Hb2|]. split; [|split; [|split]].
  - rewrite (setattr_read_neq _ _ _ _ _ _ _ Hs8) by (right; discriminate).
    rewrite (setattr_read_neq _ _ _ _ _ _ _ Hs7) by (right; discriminate).
    rewrite (setattr_read_neq _ _ _ _ _ _ _ Hs6) by (right; discriminate).
    rewrite (setattr_read_neq _ _ _ _ _ _ _ Hs5) by (left; exact (Hnew _ _ _ _ _ H1 Hb5)).
    rewrite (Hread _ _ _ H1), H1. symmetry. exact Hv1.
  - rewrite (setattr_read_neq _ _ _ _ _ _ _ Hs8) by (right; discriminate).
    rewrite (setattr_read_neq _ _ _ _ _ _ _ Hs7) by (right; discriminate).
    rewrite (setattr_read_neq _ _ _ _ _ _ _ Hs6) by (left; exact (Hnew _ _ _ _ _ H2 Hb6)).
    rewrite (setattr_read_neq _ _ _ _ _ _ _ Hs5) by (right; discriminate).
    rewrite (Hread _ _ _ H2), H2. symmetry. exact Hv2'.
  - apply Hloop; [left; reflexivity | exists v1; exact Hv1].
  - apply Hloop; [right; reflexivity | exists v2; exact Hv2'].
Qed.

Lemma rename_endpoints_supply_ends_witness :
  let d := Sample.after (newloop <- newidfobject "PLANTLOOP" (VStr "p1") ;;
                         initialise_loop newloop (loopfields PLANTLOOP) ;;
                         map_each pipebranch (flattencopy Sample.supply)) Sample.empty in
  let d' := Sample.after (rename_endpoints ("PLANTLOOP", 0) (flattencopy Sample.demand)
                            [("BRANCH", 0); ("BRANCH", 1); ("BRANCH", 2); ("BRANCH", 3)]) d in
  exists sameinnode sameoutnode b_in b_out,
    (read d ("PLANTLOOP", 0) "key" = Ok (VStr "CONDENSERLOOP")
     /\ sameinnode = "Condenser_Side_Inlet_Node_Name"
     /\ sameoutnode = "Condenser_Side_Outlet_Node_Name"
     \/ read d ("PLANTLOOP", 0) "key" = Ok (VStr "PLANTLOOP")
        /\ sameinnode = "Plant_Side_Inlet_Node_Name"
        /\ sameoutnode = "Plant_Side_Outlet_Node_Name")
    /\ nth_error [("BRANCH", 0); ("BRANCH", 1); ("BRANCH", 2); ("BRANCH", 3)] 0 = Some b_in
    /\ nth_error [("BRANCH", 0); ("BRANCH", 1); ("BRANCH", 2); ("BRANCH", 3)] (4 - 1)
       = Some b_out
    /\ read d' b_in "Component_1_Inlet_Node_Name" = read d ("PLANTLOOP", 0) sameinnode
    /\ read d' b_out "Component_1_Outlet_Node_Name" = read d ("PLANTLOOP", 0) sameoutnode
    /\ read d' ("PLANTLOOP", 0) sameinnode = read d ("PLANTLOOP", 0) sameinnode
    /\ read d' ("PLANTLOOP", 0) sameoutnode = read d ("PLANTLOOP", 0) sameoutnode.
Proof.
  apply (rename_endpoints_supply_ends ("PLANTLOOP", 0) (flattencopy Sample.demand)
           [("BRANCH", 0); ("BRANCH", 1); ("BRANCH", 2); ("BRANCH", 3)]).
  vm_compute. reflexivity.
Defined.

(** ** Component chainer: the old halves of the staged pairs *)

Lemma settled_settled (n : value) (f : string) (v : value) :
  settled n f (settled n f v) = settled n f v.
Proof.
  unfold settled. destruct (blankfield v) eqn:E.
  - rewrite default_name_not_blank. reflexivity.
  - rewrite E. reflexivity.
Qed.

Lemma settled_pair (n : value) (f : string) (a b : value) :
  settled n f (VPair a b) = VPair a b.
Proof. reflexivity. Qed.

(** A completed [init_fields] with [force=False], field by field. *)
Lemma init_fields_exact (r : ref) (fields : list string) :
  forall (d d' : IDF) (o : EpBunch) (n : value),
    lookup r d = Some o ->
    getitem o "Name" = Ok n ->
    ~ In "Name" fields ->
    init_fields r fields false d = (Ok tt, d') ->
    exists o',
      lookup r d' = Some o'
      /\ forall g v, getitem o g = Ok v ->
           (In g fields -> getitem o' g = Ok (settled n g v))
           /\ (~ In g fields -> getitem o' g = Ok v).
Proof.
  induction fields as [|f fields IH]; intros d d' o n Hl Hn Hnot H.
  - inversion H. subst d'. exists o. split; [exact Hl|]. intros g v Hv.
    split; [intros [] | intros _; exact Hv].
  - change (init_fields r (f :: fields) false)
      with (bind ((fun field =>
                     bind (getattr r field) (fun v =>
                       if blankfield v || false then
                         bind (getattr r "Name") (fun n =>
                           setattr r field (VStr (pystr n +++ "_" +++ field)))
                       else ret tt)) f)
                 (fun _ => init_fields r fields false)) in H.
    cbv beta in H. apply bind_Ok_inv in H. destruct H as ([] & d1 & Hf & Hrest).
    assert (Hf_name : f <> "Name") by (intros ->; apply Hnot; left; reflexivity).
    assert (Hnot' : ~ In "Name" fields) by (intros Hc; apply Hnot; right; exact Hc).
    assert (Hhead : exists o1, lookup r d1 = Some o1 /\ getitem o1 "Name" = Ok n
              /\ forall g v, getitem o g = Ok v ->
                   getitem o1 g = Ok (if string_dec g f then settled n g v else v)).
    { rewrite bind_getattr, (read_lookup _ _ _ _ Hl) in Hf.
      destruct (getitem o f) as [v|] eqn:Ev; [|discriminate].
      rewrite orb_false_r in Hf. destruct (blankfield v) eqn:Eb.
      - rewrite bind_getattr, (read_lookup _ _ _ _ Hl), Hn in Hf.
        apply setattr_Ok in Hf. destruct Hf as (o0 & o1 & Hl0 & Ho1 & ->).
        rewrite Hl in Hl0. inversion Hl0. subst o0.
        exists o1. split; [eapply lookup_store_eq; eauto|]. split.
        + rewrite (getitem_setitem_neq _ _ _ _ _ Ho1); [exact Hn | exact Hf_name].
        + intros g w Hw. destruct (string_dec g f) as [->|Hg].
          * rewrite Ev in Hw. inversion Hw. subst w. unfold settled. rewrite Eb.
            exact (getitem_setitem_eq _ _ _ _ Ho1).
          * rewrite (getitem_setitem_neq _ _ _ _ _ Ho1) by congruence. exact Hw.
      - inversion Hf. subst d1. exists o. split; [exact Hl|]. split; [exact Hn|].
        intros g w Hw. destruct (string_dec g f) as [->|Hg]; [|exact Hw].
        rewrite Ev in Hw. inversion Hw. subst w. unfold settled. rewrite Eb. exact Ev. }
    destruct Hhead as (o1 & Hl1 & Hn1 & Hstep).
    destruct (IH _ _ _ _ Hl1 Hn1 Hnot' Hrest) as (o' & Hl' & Hall).
    exists o'. split; [exact Hl'|]. intros g v Hv.
    specialize (Hstep g v Hv). destruct (Hall g _ Hstep) as [Hin Hout].
    destruct (string_dec g f) as [->|Hg].
    + split; [intros _|intros Hc; exfalso; apply Hc; left; reflexivity].
      destruct (in_dec string_dec f fields) as [Hi|Hi].
      * rewrite (Hin Hi). rewrite settled_settled. reflexivity.
      * exact (Hout Hi).
    + split.
      * intros [Hc|Hc]; [congruence | exact (Hin Hc)].
      * intros Hc. apply Hout. intros Hi. apply Hc. right. exact Hi.
Qed.

(** The list a completed [trimfields] returns. *)
Lemma trimfields_list (r : ref) (inletfields fields l : list string)
    (thisnode : option string) (d d' : IDF) :
  trimfields r inletfields fields thisnode d = (Ok l, d') ->
  forall g, In g fields -> PyStr.startswith g (default_str thisnode) = true -> In g l.
Proof.
  unfold trimfields. destruct (1 <? length fields).
  - destruct thisnode as [hint|].
    + intros H g Hg Hs. inversion H. apply filter_In. split; [exact Hg | exact Hs].
    + intros H.
      apply bind_Ok_inv in H. destruct H as (? & ? & _ & H).
      apply bind_Ok_inv in H. destruct H as (? & ? & _ & H).
      apply bind_Ok_inv in H. destruct H as (? & ? & _ & H).
      apply bind_Ok_inv in H. destruct H as (? & ? & _ & H).
      apply bind_Ok_inv in H. destruct H as (? & ? & _ & H).
      discriminate.
  - intros H g Hg _. inversion H. subst. exact Hg.
Qed.

Lemma getnodefieldname_candidate (o : EpBunch) (suffix f : string)
    (fluid hint : option string) :
  getnodefieldname o suffix fluid hint = Ok f ->
  In f (getfieldnamesendswith o suffix)
  /\ PyStr.startswith f (default_str hint) = true.
Proof.
  rewrite getnodefieldname_find. cbv zeta.
  set (p1 := fun name => is_candidate suffix hint name
                         && PyStr.contains name (default_str fluid)).
  set (p2 := is_candidate suffix hint).
  assert (Hc : forall x, In x (objls o) -> p2 x = true ->
            In x (getfieldnamesendswith o suffix)
            /\ PyStr.startswith x (default_str hint) = true).
  { intros x Hin Hx. unfold p2, is_candidate in Hx. apply andb_true_iff in Hx.
    destruct Hx as [He Hs]. split; [|exact Hs].
    apply In_getfieldnamesendswith. split; assumption. }
  destruct (find p1 (objls o)) as [x|] eqn:E1.
  - intros H. inversion H. subst. apply find_some in E1. destruct E1 as [Hin Hx].
    apply Hc; [exact Hin|]. unfold p1 in Hx. apply andb_true_iff in Hx. tauto.
  - destruct (find p2 (objls o)) as [x|] eqn:E2; [|intros H; discriminate H].
    intros H. inversion H. subst. apply find_some in E2. destruct E2 as [Hin Hx].
    apply Hc; assumption.
Qed.

(** A completed [initinletoutlet] with [force=False]: the ports its port
    hint resolves to are settled, and every field holds its value or, if
    that was blank, possibly the default name. *)
Lemma initinletoutlet_exact (r x : ref) (thisnode : option string) (d d' : IDF)
    (o : EpBunch) (n : value) :
  lookup r d = Some o ->
  getitem o "Name" = Ok n ->
  initinletoutlet r thisnode false d = (Ok x, d') ->
  exists o',
    lookup r d' = Some o'
    /\ (forall g v, getitem o g = Ok v ->
          exists v1, getitem o' g = Ok v1 /\ settled n g v1 = settled n g v)
    /\ (forall suffix fluid g v,
          suffix = "Inlet_Node_Name" \/ suffix = "Outlet_Node_Name" ->
          getnodefieldname o suffix fluid thisnode = Ok g ->
          getitem o g = Ok v ->
          getitem o' g = Ok (settled n g v)).
Proof.
  intros Hl Hn H. unfold initinletoutlet in H. rewrite bind_deref, Hl in H.
  apply bind_Ok_inv in H. destruct H as (ins & d1 & Htrim1 & H).
  pose proof (trimfields_list _ _ _ _ _ _ _ Htrim1) as Hin1.
  apply trimfields_Ok in Htrim1. destruct Htrim1 as [-> Hins].
  apply bind_Ok_inv in H. destruct H as ([] & d1 & Hinit & H).
  assert (Hnot1 : ~ In "Name" ins).
  { intros Hc. apply Hins, In_getfieldnamesendswith in Hc. destruct Hc as [_ Hc].
    discriminate Hc. }
  destruct (init_fields_exact _ _ _ _ _ _ Hl Hn Hnot1 Hinit) as (o1 & Hl1 & Hall1).
  destruct (init_fields_Ok _ _ _ _ _ Hl Hinit) as (o1' & Hd1 & Hls1 & _ & _ & _).
  assert (o1' = o1).
  { subst d1. rewrite (lookup_store_eq _ _ _ _ Hl) in Hl1. congruence. }
  subst o1'.
  assert (Hn1 : getitem o1 "Name" = Ok n) by (apply (Hall1 "Name" n Hn); exact Hnot1).
  rewrite bind_deref, Hl1 in H.
  apply bind_Ok_inv in H. destruct H as (outs & d2 & Htrim2 & H).
  pose proof (trimfields_list _ _ _ _ _ _ _ Htrim2) as Hin2.
  apply trimfields_Ok in Htrim2. destruct Htrim2 as [-> Houts].
  apply bind_Ok_inv in H. destruct H as ([] & d2 & Hinit2 & H).
  assert (Hnot2 : ~ In "Name" outs).
  { intros Hc. apply Houts, In_getfieldnamesendswith in Hc. destruct Hc as [_ Hc].
    discriminate Hc. }
  destruct (init_fields_exact _ _ _ _ _ _ Hl1 Hn1 Hnot2 Hinit2) as (o2 & Hl2 & Hall2).
  inversion H. subst x d2. clear H.
  assert (Hfields : forall suffix,
            getfieldnamesendswith o1 suffix = getfieldnamesendswith o suffix).
  { intros suffix. unfold getfieldnamesendswith. rewrite Hls1. reflexivity. }
  rewrite Hfields in Hin2, Houts.
  exists o2. split; [exact Hl2|]. split.
  - intros g v Hv. destruct (Hall1 g v Hv) as [A1 B1].
    destruct (in_dec string_dec g ins) as [Hi|Hi].
    + specialize (A1 Hi). destruct (Hall2 g _ A1) as [A2 B2].
      destruct (in_dec string_dec g outs) as [Ho|Ho].
      * exists (settled n g (settled n g v)). split; [exact (A2 Ho)|].
        rewrite !settled_settled. reflexivity.
      * exists (settled n g v). split; [exact (B2 Ho) | apply settled_settled].
    + specialize (B1 Hi). destruct (Hall2 g _ B1) as [A2 B2].
      destruct (in_dec string_dec g outs) as [Ho|Ho].
      * exists (settled n g v). split; [exact (A2 Ho) | apply settled_settled].
      * exists v. split; [exact (B2 Ho) | reflexivity].
  - intros suffix fluid g v Hsuf Hres Hv.
    destruct (getnodefieldname_candidate _ _ _ _ _ Hres) as [Hg Hs].
    destruct (Hall1 g v Hv) as [A1 B1].
    destruct Hsuf as [-> | ->].
    + specialize (A1 (Hin1 g Hg Hs)). destruct (Hall2 g _ A1) as [A2 B2].
      apply B2. intros Hc. apply Houts, In_getfieldnamesendswith in Hc.
      apply In_getfieldnamesendswith in Hg.
      eapply inlet_not_outlet; [exact (proj2 Hg) | exact (proj2 Hc)].
    + assert (Hni : ~ In g ins).
      { intros Hc. apply Hins, In_getfieldnamesendswith in Hc.
        apply In_getfieldnamesendswith in Hg.
        eapply inlet_not_outlet; [exact (proj2 Hc) | exact (proj2 Hg)]. }
      specialize (B1 Hni). destruct (Hall2 g _ B1) as [A2 B2].
      exact (A2 (Hin2 g Hg Hs)).
Qed.

(** One completed turn of the chainer's loop: the old halves it stages. *)
Lemma connect_pair_exact (fluid : option string) (A B : ref) (hA hB : option string)
    (d d' : IDF) (oA oB : EpBunch) (nA nB : value) (fo fi : string) :
  A <> B ->
  connect_pair fluid (A, hA) (B, hB) d = (Ok tt, d') ->
  lookup A d = Some oA -> lookup B d = Some oB ->
  getitem oA "Name" = Ok nA -> getitem oB "Name" = Ok nB ->
  getnodefieldname oA "Outlet_Node_Name" fluid hA = Ok fo ->
  getnodefieldname oB "Inlet_Node_Name" fluid None = Ok fi ->
  (forall vo, getitem oA fo = Ok vo ->
     read d' A fo
     = Ok (VPair (settled nA fo vo) (VStr (pystr nA +++ "_" +++ pystr nB +++ "_node"))))
  /\ (getnodefieldname oB "Inlet_Node_Name" fluid hB = Ok fi ->
      forall vi, getitem oB fi = Ok vi ->
        read d' B fi
        = Ok (VPair (settled nB fi vi) (VStr (pystr nA +++ "_" +++ pystr nB +++ "_node"))))
  /\ (forall g v, getitem oB g = Ok v -> g <> fi ->
        exists v1, read d' B g = Ok v1 /\ settled nB g v1 = settled nB g v).
Proof.
  intros Hne H HlA HlB HnA HnB Hfo Hfi. unfold connect_pair in H.
  apply bind_Ok_inv in H. destruct H as (x & d1 & HiA & H).
  destruct (initinletoutlet_exact _ _ _ _ _ _ _ HlA HnA HiA) as (oA1 & HlA1 & HeachA & HresA).
  apply initinletoutlet_Ok in HiA.
  destruct HiA as (oA0 & oA1' & HlA0 & Hd1 & HlsA1 & _ & HnpA1 & _).
  rewrite HlA in HlA0. inversion HlA0. subst oA0. clear HlA0.
  assert (oA1' = oA1) by (subst d1; rewrite (lookup_store_eq _ _ _ _ HlA) in HlA1; congruence).
  subst oA1'.
  assert (HlB1 : lookup B d1 = Some oB)
    by (subst d1; rewrite lookup_store_neq by exact Hne; exact HlB).
  apply bind_Ok_inv in H. destruct H as (y & d2 & HiB & H).
  destruct (initinletoutlet_exact _ _ _ _ _ _ _ HlB1 HnB HiB) as (oB1 & HlB2 & HeachB & HresB).
  apply initinletoutlet_Ok in HiB.
  destruct HiB as (oB0 & oB1' & HlB0 & Hd2 & HlsB1 & _ & HnpB1 & _).
  rewrite HlB1 in HlB0. inversion HlB0. subst oB0. clear HlB0.
  assert (oB1' = oB1) by (subst d2; rewrite (lookup_store_eq _ _ _ _ HlB1) in HlB2; congruence).
  subst oB1'.
  assert (HlA2 : lookup A d2 = Some oA1)
    by (subst d2; rewrite lookup_store_neq by congruence; exact HlA1).
  rewrite bind_getattr, (read_lookup _ _ _ _ HlA2) in H.
  rewrite (HnpA1 "Name" node_port_Name), HnA in H.
  rewrite bind_getattr, (read_lookup _ _ _ _ HlB2) in H.
  rewrite (HnpB1 "Name" node_port_Name), HnB in H.
  rewrite bind_resolve, HlA2 in H.
  rewrite (getnodefieldname_objls oA oA1) in H by exact HlsA1. rewrite Hfo in H.
  apply bind_Ok_inv in H. destruct H as ([] & d3 & HsA & H).
  apply stage_Ok in HsA. destruct HsA as (o & oA2 & oldo & Hl & Hold & Hset & Hd3).
  rewrite HlA2 in Hl. inversion Hl. subst o. clear Hl.
  assert (HlA3 : lookup A d3 = Some oA2) by (subst d3; eapply lookup_store_eq; eauto).
  assert (HlB3 : lookup B d3 = Some oB1)
    by (subst d3; rewrite lookup_store_neq by exact Hne; exact HlB2).
  rewrite bind_resolve, HlB3 in H.
  rewrite (getnodefieldname_objls oB oB1) in H by exact HlsB1. rewrite Hfi in H.
  apply stage_Ok in H. destruct H as (o & oB2 & oldi & Hl & Holdi & Hseti & Hd').
  rewrite HlB3 in Hl. inversion Hl. subst o. clear Hl.
  assert (HlB' : lookup B d' = Some oB2) by (subst d'; eapply lookup_store_eq; eauto).
  assert (HlA' : lookup A d' = Some oA2)
    by (subst d'; rewrite lookup_store_neq by congruence; exact HlA3).
  split; [|split].
  - intros vo Hvo. rewrite (read_lookup _ _ _ _ HlA').
    rewrite (getitem_setitem_eq _ _ _ _ Hset).
    rewrite (HresA "Outlet_Node_Name" fluid fo vo (or_intror eq_refl) Hfo Hvo) in Hold.
    inversion Hold. reflexivity.
  - intros Hneutral vi Hvi. rewrite (read_lookup _ _ _ _ HlB').
    rewrite (getitem_setitem_eq _ _ _ _ Hseti).
    rewrite (HresB "Inlet_Node_Name" fluid fi vi (or_introl eq_refl) Hneutral Hvi) in Holdi.
    inversion Holdi. reflexivity.
  - intros g v Hv Hg. destruct (HeachB g v Hv) as (v1 & Hv1 & Hs).
    exists v1. split; [|exact Hs]. rewrite (read_lookup _ _ _ _ HlB').
    rewrite (getitem_setitem_neq _ _ _ _ _ Hseti) by congruence. exact Hv1.
Qed.

(** The old halves of the staged pairs of a completed chain, in terms of
    the document the chain started from. *)
Lemma connect_loop_old (fluid : option string) (cs : list component) :
  forall d d',
    connect_loop fluid cs d = (Ok tt, d') ->
    NoDup (map fst cs) ->
    forall i A hA B hB oA oB nA nB fo fi,
      nth_error cs i = Some (A, hA) ->
      nth_error cs (S i) = Some (B, hB) ->
      lookup A d = Some oA -> lookup B d = Some oB ->
      getitem oA "Name" = Ok nA -> getitem oB "Name" = Ok nB ->
      getnodefieldname oA "Outlet_Node_Name" fluid hA = Ok fo ->
      getnodefieldname oB "Inlet_Node_Name" fluid None = Ok fi ->
      (forall vo, getitem oA fo = Ok vo ->
         read d' A fo
         = Ok (VPair (settled nA fo vo) (VStr (pystr nA +++ "_" +++ pystr nB +++ "_node"))))
      /\ (getnodefieldname oB "Inlet_Node_Name" fluid hB = Ok fi ->
          forall vi, getitem oB fi = Ok vi ->
            read d' B fi
            = Ok (VPair (settled nB fi vi)
                        (VStr (pystr nA +++ "_" +++ pystr nB +++ "_node")))).
Proof.
  induction cs as [|[X hX] cs IH];
    intros d d' H Hnd i A hA B hB oA oB nA nB fo fi Hi HSi HlA HlB HnA HnB Hfo Hfi.
  - destruct i; discriminate.
  - destruct cs as [|[Y hY] rest]; [destruct i as [|[|i]]; discriminate|].
    rewrite connect_loop_cons in H.
    apply bind_Ok_inv in H. destruct H as ([] & d1 & Hpair & Hrest).
    simpl in Hnd. inversion Hnd as [|? ? HnX Hnd']. subst.
    assert (HXY : X <> Y) by (intros ->; apply HnX; left; reflexivity).
    destruct (connect_loop_keeps _ _ _ _ Hrest Hnd') as (K1 & K2 & K3).
    destruct i as [|i].
    + (* the pair chained in this turn *)
      simpl in Hi, HSi. inversion Hi. inversion HSi. subst A hA B hB.
      destruct (connect_pair_exact fluid X Y hX hY d d1 oA oB nA nB fo fi
                  HXY Hpair HlA HlB HnA HnB Hfo Hfi) as (E1 & E2 & _).
      split.
      * intros vo Hvo. unfold read. rewrite K1 by exact HnX. exact (E1 vo Hvo).
      * intros Hneutral vi Hvi. specialize (E2 Hneutral vi Hvi).
        unfold read in E2. destruct (lookup Y d1) as [oY1|] eqn:HlY1; [|discriminate].
        destruct (getnodefieldname_Ok _ _ _ _ _ Hfi) as [_ Hend].
        destruct (K3 Y hY rest eq_refl oY1 fi _ HlY1 E2 eq_refl Hend) as (oY' & HlY' & HvY').
        unfold read. rewrite HlY'. exact HvY'.
    + (* a later pair *)
      simpl in Hi, HSi.
      destruct (connect_pair_Ok _ _ _ _ _ _ _ HXY Hpair)
        as (oX & oY & oX' & oY' & nX & nY & foX & fiY & oldo & oldi & HlX & HlY & HlX' & HlY'
            & Hframe & HlsX & HlsY & HnX' & HnY' & HnpX & HnpY & HfoX & HfiY & _).
      assert (HAin : In A (map fst ((Y, hY) :: rest))).
      { change A with (fst (A, hA)). apply in_map. eapply nth_error_In. exact Hi. }
      assert (HAX : A <> X) by (intros ->; exact (HnX HAin)).
      assert (HBin : In B (map fst rest)).
      { change B with (fst (B, hB)). apply in_map. eapply nth_error_In. exact HSi. }
      assert (HBX : B <> X) by (intros ->; apply HnX; right; exact HBin).
      assert (HBY : B <> Y).
      { intros ->. simpl in Hnd'. inversion Hnd' as [|? ? HnY _]. exact (HnY HBin). }
      assert (HlB1 : lookup B d1 = Some oB) by (rewrite Hframe by assumption; exact HlB).
      assert (HmidA : exists oA1, lookup A d1 = Some oA1 /\ objls oA1 = objls oA
                /\ getitem oA1 "Name" = Ok nA
                /\ forall vo, getitem oA fo = Ok vo ->
                     exists vo1, getitem oA1 fo = Ok vo1
                                 /\ settled nA fo vo1 = settled nA fo vo).
      { destruct (ref_eq_dec A Y) as [->|HAY].
        - rewrite HlY in HlA. inversion HlA. subst oA.
          rewrite HnA in HnY'. inversion HnY'. subst nY.
          exists oY'. split; [exact HlY'|]. split; [exact HlsY|]. split.
          + rewrite (HnpY "Name" node_port_Name). exact HnA.
          + intros vo Hvo.
            destruct (connect_pair_exact fluid X Y hX hY d d1 oX oY nX nA foX fiY
                        HXY Hpair HlX HlY HnX' HnA HfoX HfiY) as (_ & _ & E3).
            destruct (E3 fo vo Hvo) as (v1 & Hv1 & Hs).
            { intros ->. destruct (getnodefieldname_Ok _ _ _ _ _ Hfo) as [_ Ho].
              destruct (getnodefieldname_Ok _ _ _ _ _ HfiY) as [_ Hin].
              exact (inlet_not_outlet _ Hin Ho). }
            exists v1. split; [|exact Hs].
            rewrite (read_lookup _ _ _ _ HlY') in Hv1. exact Hv1.
        - exists oA. split; [rewrite Hframe by assumption; exact HlA|].
          split; [reflexivity|]. split; [exact HnA|].
          intros vo Hvo. exists vo. auto. }
      destruct HmidA as (oA1 & HlA1 & HlsA1 & HnA1 & HvA1).
      assert (Hfo1 : getnodefieldname oA1 "Outlet_Node_Name" fluid hA = Ok fo)
        by (rewrite (getnodefieldname_objls oA oA1) by exact HlsA1; exact Hfo).
      destruct (IH d1 d' Hrest Hnd' i A hA B hB oA1 oB nA nB fo fi
                  Hi HSi HlA1 HlB1 HnA1 HnB Hfo1 Hfi) as (I1 & I2).
      split; [|exact I2].
      intros vo Hvo. destruct (HvA1 vo Hvo) as (vo1 & Hvo1 & Hs).
      rewrite (I1 vo1 Hvo1), Hs. reflexivity.
Qed.

(** A completed [renamenodes] leaves the new half of a staged pair in a
    field of the type. *)
Lemma renamenodes_pair_new (ft : string) (d d' : IDF) (r : ref) (o : EpBunch)
    (f : string) (old new : value) :
  renamenodes ft d = (Ok tt, d') ->
  lookup r d = Some o ->
  getitem o f = Ok (VPair old new) ->
  field_of_type ft o f = true ->
  read d' r f = Ok new.
Proof.
  intros H Hl Hv Hty.
  destruct (renamenodes_Ok_lookup _ _ _ _ _ H Hl) as (o' & Hl' & Ho').
  rewrite (read_lookup _ _ _ _ Hl'). unfold rename_object in Ho'.
  destruct (rename_fields ft (collect_renameds d) (obj o) (objidd o)) as [vals e] eqn:Ef.
  inversion Ho'. subst o' e. clear Ho'.
  unfold getitem, field_of_type in *. simpl.
  destruct (index_of f (objls o)) as [i|]; [|discriminate].
  inversion Hv as [Hn]. clear Hv. f_equal.
  destruct (nth_error (obj o) i) as [x|] eqn:Ex.
  - assert (x = VPair old new) by (rewrite <- Hn; symmetry; apply nth_error_nth; exact Ex).
    subst x.
    destruct (rename_fields_Ok _ _ _ _ _ Ef i _ Ex) as (idd & Hidd & [[Hf _]|(_ & t & _ & Hr)]).
    + unfold field_has_type in Hty. rewrite Hidd in Hty. congruence.
    + apply nth_error_nth. exact Hr.
  - apply nth_error_None in Ex. rewrite nth_overflow in Hn by exact Ex. discriminate.
Qed.

(** C1, as amended.  After [connectcomponents] has chained a list of two
    or more distinct components, for every adjacent pair (A, B) the
    resolved outlet field of A and the resolved inlet field of B each hold
    a staged pair whose new identifier is "{A.Name}_{B.Name}_node".  The old
    half of each pair is the field's own former value: what the field held
    before the call, or the default name "{Name}_{field}" that the port
    initialisation gave it when it was blank.  The two fields hold the same
    value only once the renames are propagated: after a completed
    [renamenodes(idf, 'node')], each of the two fields that the schema types
    as a node holds the shared identifier.  The statement covers the
    components whose inlet resolves to the same field with their port hint
    as with the fluid hint alone. *)
Theorem connectcomponents_stages_shared_node (d d' : IDF) (comps res : list component)
    (fluid : option string) :
  2 <= length comps ->
  distinct (map fst comps) = true ->
  forallb (inlet_hint_neutral d (Some (default_str fluid))) comps = true ->
  connectcomponents comps fluid d = (Ok res, d') ->
  forall i A hA B hB,
    nth_error comps i = Some (A, hA) ->
    nth_error comps (S i) = Some (B, hB) ->
    exists nA nB oA' oB' fo fi vo vi,
      read d A "Name" = Ok nA /\ read d B "Name" = Ok nB
      /\ lookup A d' = Some oA' /\ lookup B d' = Some oB'
      /\ getnodefieldname oA' "Outlet_Node_Name" (Some (default_str fluid)) hA = Ok fo
      /\ getnodefieldname oB' "Inlet_Node_Name" (Some (default_str fluid)) hB = Ok fi
      /\ read d A fo = Ok vo /\ read d B fi = Ok vi
      /\ getitem oA' fo
         = Ok (VPair (settled nA fo vo) (VStr (pystr nA +++ "_" +++ pystr nB +++ "_node")))
      /\ getitem oB' fi
         = Ok (VPair (settled nB fi vi) (VStr (pystr nA +++ "_" +++ pystr nB +++ "_node")))
      /\ (forall d'',
            renamenodes "node" d' = (Ok tt, d'') ->
            field_of_type "node" oA' fo = true ->
            field_of_type "node" oB' fi = true ->
            read d'' A fo = Ok (VStr (pystr nA +++ "_" +++ pystr nB +++ "_node"))
            /\ read d'' B fi = Ok (VStr (pystr nA +++ "_" +++ pystr nB +++ "_node"))).
Proof.
  intros Hlen Hdist Hneutral H i A hA B hB Hi HSi.
  apply distinct_NoDup in Hdist.
  assert (Hloop : connect_loop (Some (default_str fluid)) comps d = (Ok tt, d')).
  { unfold connectcomponents in H.
    destruct comps as [|[c1 h1] [|c2 rest]]; simpl in Hlen; try lia.
    apply bind_Ok_inv in H. destruct H as ([] & d1 & Hl & H). inversion H. subst. exact Hl. }
  destruct (connect_loop_stages _ _ _ _ Hloop Hdist i A hA B hB Hi HSi)
    as (nA & nB & oA' & oB' & fo & fi & oldo & oldi & HnA & HnB & HlA & HlB & Hfo & Hfi
        & HvA & HvB).
  destruct (connect_loop_keeps _ _ _ _ Hloop Hdist) as (_ & K2 & _).
  unfold read in HnA, HnB.
  destruct (lookup A d) as [oA|] eqn:ElA; [|discriminate].
  destruct (lookup B d) as [oB|] eqn:ElB; [|discriminate].
  destruct (K2 A oA ElA) as (o & Hl & HlsA & _). rewrite HlA in Hl. inversion Hl. subst o.
  clear Hl.
  destruct (K2 B oB ElB) as (o & Hl & HlsB & _). rewrite HlB in Hl. inversion Hl. subst o.
  clear Hl.
  (* the port hint of B selects the field the chainer wrote *)
  rewrite forallb_forall in Hneutral.
  specialize (Hneutral (B, hB) (nth_error_In _ _ HSi)).
  unfold inlet_hint_neutral in Hneutral. simpl in Hneutral. rewrite ElB in Hneutral.
  assert (Hfi0 : getnodefieldname oB "Inlet_Node_Name" (Some (default_str fluid)) None = Ok fi)
    by (rewrite <- (getnodefieldname_objls oB oB') by exact HlsB; exact Hfi).
  assert (HfiB : getnodefieldname oB "Inlet_Node_Name" (Some (default_str fluid)) hB = Ok fi)
    by (eapply same_field_eq; [exact Hneutral | exact Hfi0]).
  assert (Hfo0 : getnodefieldname oA "Outlet_Node_Name" (Some (default_str fluid)) hA = Ok fo)
    by (rewrite <- (getnodefieldname_objls oA oA') by exact HlsA; exact Hfo).
  destruct (getnodefieldname_Ok _ _ _ _ _ Hfo0) as [HfoIn _].
  destruct (getnodefieldname_Ok _ _ _ _ _ Hfi0) as [HfiIn _].
  destruct (getitem_In _ _ HfoIn) as [vo Hvo].
  destruct (getitem_In _ _ HfiIn) as [vi Hvi].
  destruct (connect_loop_old _ _ _ _ Hloop Hdist i A hA B hB oA oB nA nB fo fi
              Hi HSi ElA ElB HnA HnB Hfo0 Hfi0) as (O1 & O2).
  specialize (O1 vo Hvo). specialize (O2 HfiB vi Hvi).
  rewrite (read_lookup _ _ _ _ HlA) in O1. rewrite (read_lookup _ _ _ _ HlB) in O2.
  exists nA, nB, oA', oB', fo, fi, vo, vi.
  rewrite !(read_lookup _ _ _ _ ElA), !(read_lookup _ _ _ _ ElB).
  split; [exact HnA|]. split; [exact HnB|].
  split; [exact HlA|]. split; [exact HlB|]. split; [exact Hfo|].
  split; [rewrite (getnodefieldname_objls oB oB') by exact HlsB; exact HfiB|].
  split; [exact Hvo|]. split; [exact Hvi|]. split; [exact O1|]. split; [exact O2|].
  intros d'' Hren HtA HtB. split.
  - exact (renamenodes_pair_new _ _ _ _ _ _ _ _ Hren HlA O1 HtA).
  - exact (renamenodes_pair_new _ _ _ _ _ _ _ _ Hren HlB O2 HtB).
Qed.

(** C1, witness: the two fresh pipes next to the sample plant loop. *)
Lemma connectcomponents_stages_shared_node_witness :
  2 <= length [(np1, @None string); (np2, None)]
  /\ distinct (map fst [(np1, @None string); (np2, None)]) = true
  /\ forallb (inlet_hint_neutral pipes_doc (Some (default_str None)))
       [(np1, None); (np2, None)] = true
  /\ connectcomponents [(np1, None); (np2, None)] None pipes_doc
     = (Ok [(np1, None); (np2, None)], chained_doc)
  /\ forall i A hA B hB,
       nth_error [(np1, @None string); (np2, None)] i = Some (A, hA) ->
       nth_error [(np1, @None string); (np2, None)] (S i) = Some (B, hB) ->
       exists nA nB oA' oB' fo fi vo vi,
         read pipes_doc A "Name" = Ok nA /\ read pipes_doc B "Name" = Ok nB
         /\ lookup A chained_doc = Some oA' /\ lookup B chained_doc = Some oB'
         /\ getnodefieldname oA' "Outlet_Node_Name" (Some (default_str None)) hA = Ok fo
         /\ getnodefieldname oB' "Inlet_Node_Name" (Some (default_str None)) hB = Ok fi
         /\ read pipes_doc A fo = Ok vo /\ read pipes_doc B fi = Ok vi
         /\ getitem oA' fo
            = Ok (VPair (settled nA fo vo)
                        (VStr (pystr nA +++ "_" +++ pystr nB +++ "_node")))
         /\ getitem oB' fi
            = Ok (VPair (settled nB fi vi)
                        (VStr (pystr nA +++ "_" +++ pystr nB +++ "_node")))
         /\ (forall d'',
               renamenodes "node" chained_doc = (Ok tt, d'') ->
               field_of_type "node" oA' fo = true ->
               field_of_type "node" oB' fi = true ->
               read d'' A fo = Ok (VStr (pystr nA +++ "_" +++ pystr nB +++ "_node"))
               /\ read d'' B fi = Ok (VStr (pystr nA +++ "_" +++ pystr nB +++ "_node"))).
Proof.
  split; [simpl; lia|]. split; [reflexivity|]. split; [reflexivity|].
  split; [vm_compute; reflexivity|].
  apply (connectcomponents_stages_shared_node pipes_doc chained_doc
           [(np1, None); (np2, None)] [(np1, None); (np2, None)] None).
  - simpl. lia.
  - reflexivity.
  - reflexivity.
  - vm_compute. reflexivity.
Defined.

(** ** Connector lists by kind of loop *)

(** A completed [if ... elif ... elif] chain on the loop's key has taken the
    branch of the key. *)
Lemma by_loop_key_taken {A : Type} (newloop : ref) (c p a : M A) (d d' : IDF) (x : A) :
  by_loop_key newloop c p a d = (Ok x, d') ->
  (read d newloop "key" = Ok (VStr "CONDENSERLOOP") /\ c d = (Ok x, d'))
  \/ (read d newloop "key" = Ok (VStr "PLANTLOOP") /\ p d = (Ok x, d'))
  \/ (read d newloop "key" = Ok (VStr "AIRLOOPHVAC") /\ a d = (Ok x, d')).
Proof.
  unfold by_loop_key. rewrite bind_getattr.
  destruct (read d newloop "key") as [k|] eqn:Ek; [|discriminate].
  destruct (value_eqb k (VStr "CONDENSERLOOP")) eqn:E1.
  { apply value_eqb_eq in E1. subst k. intros H. left. split; [reflexivity | exact H]. }
  rewrite bind_getattr, Ek.
  destruct (value_eqb k (VStr "PLANTLOOP")) eqn:E2.
  { apply value_eqb_eq in E2. subst k. intros H. right. left.
    split; [reflexivity | exact H]. }
  rewrite bind_getattr, Ek.
  destruct (value_eqb k (VStr "AIRLOOPHVAC")) eqn:E3; [|discriminate].
  apply value_eqb_eq in E3. subst k. intros H. right. right.
  split; [reflexivity | exact H].
Qed.

(** X14.  A completed [make_connectorlists] returns a new supply connector
    list whose two slots are the splitter and the mixer
    [loopname_supply_splitter] and [loopname_supply_mixer].  It returns a
    demand connector list exactly for a condenser loop or a plant loop: a
    second, distinct new connector list with [loopname_demand_splitter] and
    [loopname_demand_mixer], the document having two more CONNECTORLIST
    objects.  When it returns none the loop is an air loop, and the document
    has one more. *)
Theorem make_connectorlists_slots (loopname : string) (newloop s : ref)
    (dl : option ref) (d d' : IDF) :
  make_connectorlists loopname newloop d = (Ok (s, dl), d') ->
  fst s = "CONNECTORLIST"
  /\ read d' s "Connector_1_Object_Type" = Ok (VStr "Connector:Splitter")
  /\ read d' s "Connector_1_Name" = Ok (VStr (loopname +++ "_supply_splitter"))
  /\ read d' s "Connector_2_Object_Type" = Ok (VStr "Connector:Mixer")
  /\ read d' s "Connector_2_Name" = Ok (VStr (loopname +++ "_supply_mixer"))
  /\ match dl with
     | Some c =>
         (read d newloop "key" = Ok (VStr "CONDENSERLOOP")
          \/ read d newloop "key" = Ok (VStr "PLANTLOOP"))
         /\ c <> s /\ fst c = "CONNECTORLIST"
         /\ read d' c "Connector_1_Object_Type" = Ok (VStr "Connector:Splitter")
         /\ read d' c "Connector_1_Name" = Ok (VStr (loopname +++ "_demand_splitter"))
         /\ read d' c "Connector_2_Object_Type" = Ok (VStr "Connector:Mixer")
         /\ read d' c "Connector_2_Name" = Ok (VStr (loopname +++ "_demand_mixer"))
         /\ length (objects_of "CONNECTORLIST" d')
            = length (objects_of "CONNECTORLIST" d) + 2
     | None =>
         read d newloop "key" = Ok (VStr "AIRLOOPHVAC")
         /\ length (objects_of "CONNECTORLIST" d')
            = length (objects_of "CONNECTORLIST" d) + 1
     end.
Proof.
  unfold make_connectorlists. intros H.
  apply bind_Ok_inv in H. destruct H as (s0 & d1 & Hs & H).
  assert (Hnew : exists n k, read d newloop "key" = Ok k
                             /\ newidfobject "CONNECTORLIST" n d = (Ok s0, d1)).
  { apply by_loop_key_taken in Hs.
    destruct Hs as [[Hk Hs]|[[Hk Hs]|[Hk Hs]]]; apply bind_Ok_inv in Hs;
      destruct Hs as (n & dx & Hn & Hs);
      apply (readonly_Ok_state _ _ _ _ (readonly_getattr _ _)) in Hn; subst dx;
      exists n; eexists; (split; [exact Hk | exact Hs]). }
  destruct Hnew as (n & k & Hk & Hnew). clear Hs.
  assert (Hls : newloop <> s0).
  { intros ->. apply (read_Ok_lookup _ _ _ _ Hk).
    exact (newidfobject_fresh _ _ _ _ _ Hnew). }
  apply bind_Ok_inv in H. destruct H as ([] & d2 & H1 & H).
  apply bind_Ok_inv in H. destruct H as ([] & d3 & H2 & H).
  apply bind_Ok_inv in H. destruct H as ([] & d4 & H3 & H).
  apply bind_Ok_inv in H. destruct H as ([] & d5 & H4 & H).
  destruct (connector_slots s0 "_supply" loopname _ _ _ _ _ H1 H2 H3 H4)
    as (R1 & R2 & R3 & R4).
  assert (Hkey5 : read d5 newloop "key" = read d newloop "key").
  { rewrite (setattr_read_neq _ _ _ _ _ _ _ H4 (or_introl Hls)).
    rewrite (setattr_read_neq _ _ _ _ _ _ _ H3 (or_introl Hls)).
    rewrite (setattr_read_neq _ _ _ _ _ _ _ H2 (or_introl Hls)).
    rewrite (setattr_read_neq _ _ _ _ _ _ _ H1 (or_introl Hls)).
    exact (read_newidfobject_other _ _ _ _ _ _ _ Hnew Hls). }
  assert (Hc5 : length (objects_of "CONNECTORLIST" d5)
                = length (objects_of "CONNECTORLIST" d) + 1).
  { rewrite (setattr_count _ _ _ _ _ _ H4), (setattr_count _ _ _ _ _ _ H3),
      (setattr_count _ _ _ _ _ _ H2), (setattr_count _ _ _ _ _ _ H1).
    exact (creates_newidfobject _ _ _ _ _ Hnew). }
  apply bind_Ok_inv in H. destruct H as (dl0 & d6 & Hd & H).
  apply by_loop_key_taken in Hd. rewrite Hkey5 in Hd.
  assert (Hcase : (exists m c, newidfobject "CONNECTORLIST" m d5 = (Ok c, d6)
                               /\ dl0 = Some c
                               /\ (read d newloop "key" = Ok (VStr "CONDENSERLOOP")
                                   \/ read d newloop "key" = Ok (VStr "PLANTLOOP")))
                  \/ (dl0 = None /\ d6 = d5
                      /\ read d newloop "key" = Ok (VStr "AIRLOOPHVAC"))).
  { destruct Hd as [[Hkd Hd]|[[Hkd Hd]|[Hkd Hd]]].
    - apply bind_Ok_inv in Hd. destruct Hd as (m & dx & Hm & Hd).
      apply (readonly_Ok_state _ _ _ _ (readonly_getattr _ _)) in Hm. subst dx.
      apply bind_Ok_inv in Hd. destruct Hd as (c & dx & Hc & Hd).
      inversion Hd. subst. left. eauto 6.
    - apply bind_Ok_inv in Hd. destruct Hd as (m & dx & Hm & Hd).
      apply (readonly_Ok_state _ _ _ _ (readonly_getattr _ _)) in Hm. subst dx.
      apply bind_Ok_inv in Hd. destruct Hd as (c & dx & Hc & Hd).
      inversion Hd. subst. left. eauto 6.
    - inversion Hd. right. auto. }
  clear Hd. destruct Hcase as [(m & c & Hnew2 & -> & Hkd)|(-> & -> & Hkd)].
  - apply bind_Ok_inv in H. destruct H as ([] & d7 & G1 & H).
    apply bind_Ok_inv in H. destruct H as ([] & d8 & G2 & H).
    apply bind_Ok_inv in H. destruct H as ([] & d9 & G3 & H).
    apply bind_Ok_inv in H. destruct H as ([] & d10 & G4 & H).
    inversion H. subst s0 dl d10. clear H.
    destruct (connector_slots c "_demand" loopname _ _ _ _ _ G1 G2 G3 G4)
      as (Q1 & Q2 & Q3 & Q4).
    assert (Hcs : s <> c).
    { rewrite (newidfobject_index _ _ _ _ _ Hnew), (newidfobject_index _ _ _ _ _ Hnew2).
      rewrite Hc5. intros Hx. inversion Hx. lia. }
    assert (Hkeep : forall f, read d' s f = read d5 s f).
    { intros f.
      rewrite (setattr_read_neq _ _ _ _ _ _ _ G4 (or_introl Hcs)).
      rewrite (setattr_read_neq _ _ _ _ _ _ _ G3 (or_introl Hcs)).
      rewrite (setattr_read_neq _ _ _ _ _ _ _ G2 (or_introl Hcs)).
      rewrite (setattr_read_neq _ _ _ _ _ _ _ G1 (or_introl Hcs)).
      exact (read_newidfobject_other _ _ _ _ _ _ _ Hnew2 Hcs). }
    split; [exact (newidfobject_fst _ _ _ _ _ Hnew)|].
    rewrite !Hkeep. repeat (split; [assumption|]).
    split; [congruence|]. split; [exact (newidfobject_fst _ _ _ _ _ Hnew2)|].
    repeat (split; [assumption|]).
    rewrite (setattr_count _ _ _ _ _ _ G4), (setattr_count _ _ _ _ _ _ G3),
      (setattr_count _ _ _ _ _ _ G2), (setattr_count _ _ _ _ _ _ G1).
    rewrite (creates_newidfobject _ _ _ _ _ Hnew2), Hc5. lia.
  - inversion H. subst s0 dl d'. clear H.
    split; [exact (newidfobject_fst _ _ _ _ _ Hnew)|].
    repeat (split; [assumption|]). exact Hc5.
Qed.

(** X14, witness: connector lists made for the plant loop of the sample
    document. *)
Lemma make_connectorlists_slots_witness :
  fst ("CONNECTORLIST", 2) = "CONNECTORLIST"
  /\ read (snd (make_connectorlists "x" ("PLANTLOOP", 0) Sample.plant_doc))
          ("CONNECTORLIST", 2) "Connector_1_Object_Type"
     = Ok (VStr "Connector:Splitter")
  /\ read (snd (make_connectorlists "x" ("PLANTLOOP", 0) Sample.plant_doc))
          ("CONNECTORLIST", 2) "Connector_1_Name" = Ok (VStr ("x" +++ "_supply_splitter"))
  /\ read (snd (make_connectorlists "x" ("PLANTLOOP", 0) Sample.plant_doc))
          ("CONNECTORLIST", 2) "Connector_2_Object_Type" = Ok (VStr "Connector:Mixer")
  /\ read (snd (make_connectorlists "x" ("PLANTLOOP", 0) Sample.plant_doc))
          ("CONNECTORLIST", 2) "Connector_2_Name" = Ok (VStr ("x" +++ "_supply_mixer"))
  /\ ((read Sample.plant_doc ("PLANTLOOP", 0) "key" = Ok (VStr "CONDENSERLOOP")
       \/ read Sample.plant_doc ("PLANTLOOP", 0) "key" = Ok (VStr "PLANTLOOP"))
      /\ ("CONNECTORLIST", 3) <> ("CONNECTORLIST", 2)
      /\ fst ("CONNECTORLIST", 3) = "CONNECTORLIST"
      /\ read (snd (make_connectorlists "x" ("PLANTLOOP", 0) Sample.plant_doc))
              ("CONNECTORLIST", 3) "Connector_1_Object_Type"
         = Ok (VStr "Connector:Splitter")
      /\ read (snd (make_connectorlists "x" ("PLANTLOOP", 0) Sample.plant_doc))
              ("CONNECTORLIST", 3) "Connector_1_Name"
         = Ok (VStr ("x" +++ "_demand_splitter"))
      /\ read (snd (make_connectorlists "x" ("PLANTLOOP", 0) Sample.plant_doc))
              ("CONNECTORLIST", 3) "Connector_2_Object_Type" = Ok (VStr "Connector:Mixer")
      /\ read (snd (make_connectorlists "x" ("PLANTLOOP", 0) Sample.plant_doc))
              ("CONNECTORLIST", 3) "Connector_2_Name"
         = Ok (VStr ("x" +++ "_demand_mixer"))
      /\ length (objects_of "CONNECTORLIST"
                   (snd (make_connectorlists "x" ("PLANTLOOP", 0) Sample.plant_doc)))
         = length (objects_of "CONNECTORLIST" Sample.plant_doc) + 2).
Proof.
  apply (make_connectorlists_slots "x" ("PLANTLOOP", 0) ("CONNECTORLIST", 2)
           (Some ("CONNECTORLIST", 3)) Sample.plant_doc
           (snd (make_connectorlists "x" ("PLANTLOOP", 0) Sample.plant_doc))).
  vm_compute. reflexivity.
Defined.
